(* ===== verification/_CoqProject ===== *)
-Q . S2P
Prelude.v
PyData.v
PyStr.v
PyText.v
Types.v
Json.v
TimeBucket.v
ChunkDivider.v
World.v
Summarize.v
Qa.v
Session.v
Main.v
Cli.v
