(* ===== verification/Prelude.v ===== *)
(** * Verification of youtube-script-search (package [yts])

    ** The program

    [yts] fetches the transcript of a video, cuts it into overlapping text
    chunks, and either summarises it with a map-reduce LLM chain
    ([src/yts/summarize.py], class [YoutubeSummarize]) or answers questions
    about it in an interactive loop ([src/yts/__main__.py], function [qa]).
    [prepare] builds the chunk list; [run] calls the chain once over all
    chunks (concise summary), splits the chunks into time groups with
    [_divide_chunks_by_time], calls the chain once per group with a pause
    of 3 seconds between calls (detail summary), and writes the record
    [{url, title, detail, concise}] as JSON to [$SUMMARY_STORE_DIR/<vid>].
    [__main__.py] parses the command line ([argparse], five options) and
    runs one of two commands: [summary] builds, prepares and runs the
    summariser and prints the result; [qa] shows the stored concise
    summary, if any, and answers one query per input line until a blank
    line.

    ** The development, file by file

    - [Prelude] (this file): the result type [Result] (a value or a raised
      exception), its monad, monadic folds over lists with their invariant
      rules, the state-and-exception monad [StateErr], grouping of a list
      by a key ([group_by_key]) with its partition and order lemmas, the
      transition systems ([eventually], [deterministic]) with their
      lemmas, the tactics and hint databases ([py], [py_rw]) the other
      files use.
    - [PyData]: the exceptions ([exn]) and the Python primitives the
      sources rely on: list indexing with negative indices and
      [IndexError], float floor division [//] with [ZeroDivisionError],
      [int()], [len], [range].
    - [PyStr]: [os.path.dirname] as [posixpath] defines it, f-string
      concatenation of paths, [str.strip] on UTF-8 text.
    - [PyText]: the code points of a UTF-8 text as the interpreter
      decodes a command line, [len(s)], [int(s)] (whitespace, sign,
      underscores, the decimal digits of Unicode, the limit of 4300
      digits), the pattern of a negative number [argparse] uses,
      [str(n)] with the proof that [int] reads it back, and the texts
      UTF-8 can encode ([str_encodable]: no lone surrogate), with the
      characters of a concatenation ([code_points_app]).
    - [Types]: transcript fragments ([YoutubeTranscriptType]), chunks
      ([TranscriptChunkModel]), the summary record and JSON values, with
      their induction principle; the values [argparse] stores for
      [--vid] and [--source] ([arg_value]: the value of the option, or
      the empty list).
    - [Json]: [json.dumps(..., ensure_ascii=False)] (summarize.py 112)
      and [json.load] (__main__.py 22) as the C implementation of
      CPython 3.11 runs them: the encoder [json_dumps] with its escapes,
      the decoder [json_loads] with the scanner [scan_once] (strings,
      numbers, constants, arrays, objects) and the exceptions it raises.
    - [TimeBucket]: [_divide_chunks_by_time] (summarize.py 117-127) as the
      loop the source runs ([bucket_step] folded over the chunks), its
      declarative specification [divide_spec] and the refinement theorem
      between the two; its behaviour on every input the guards reject.
    - [ChunkDivider]: [divide_transcriptions_into_chunks], which lives in
      [yts/utils.py], outside [src/]; modelled from the prose
      specification and marked as such.  The same loop on buffers of
      fragments ([divide_buffers]) carries its properties: the chunks are
      the buffers closed in order, each buffer starts with the overlap of
      the one before it ([chain]), and all but the last are full.
    - [World]: the state the program acts on (environment variables, a
      file system, standard input and output, the trace of the calls to
      the outside) and the [IO] monad over it, with one operation per
      call of the sources ([os.environ], [os.path.isdir], [os.makedirs],
      [open], [print], [input], [time.sleep]).  Standard output is the
      list of the texts written; [print] writes its objects, the
      separators and the end one after the other ([print_texts]) and
      raises [UnicodeEncodeError] at the first that has no UTF-8, the
      texts before it written ([written], [print_result]).
    - [Summarize]: the class [YoutubeSummarize] (summarize.py 18-114):
      [__init__], [_debug], [prepare], [run], over the interface
      [Services] of its collaborators (video site, transcript API, LLM
      chain, [setup_llm_from_environment]).  The object is a record; a
      method is a computation over the object and the world.
    - [Qa]: [qa] (__main__.py 15-36) over the interface [QAServices]
      ([YoutubeQA] and the settings of the interpreter), its loop
      [qa_loop], one turn of it without the world ([turn]: the query
      refused, the passages refused, an answer or a passage that cannot
      be written) and the structural specification [session] of the
      loop; the argument namespace.
    - [Session]: the loop of [qa] (__main__.py 25-36) as the state
      machine of the specification: the phases [AwaitingQuery],
      [Answering], [Terminated] and [Failed], the transition function
      [next] built from [py_input] and [qa_turn], the transition relation
      [step] with one rule per transition and per way a turn can fail.
    - [Main]: [summary] (__main__.py 39-47) and the dispatch [main]
      (59-63); the theorems that span both commands.
    - [Cli]: the command line (__main__.py 50-63): the parser of lines
      51-56 as a table of options, [parse_args] as [argparse] of CPython
      3.11 runs it on that table ([_parse_optional] with abbreviations
      and [--name=value], the options consumed from left to right,
      the value of an option as [_get_values] builds it, [--help], exit
      status 0 and 2), and [script], which parses and runs [main].

    ** Modelling choices

    - Python [int] is [Z]; there is no overflow to model.
    - Python [float] times (start, duration) are exact rationals [Q].
      CPython computes [a // b] from [fmod], so the quotient it floors is
      the exact one: [Qfloor (a / b)] is the same integer whenever the
      operands are the same numbers.  Rounding of [start + duration], NaN
      and infinities are not modelled.
    - Python [str] is [string], the UTF-8 bytes of the text; where the
      interpreter counts or classifies characters ([len], [int], the
      digits of a regular expression) the bytes are decoded
      ([PyText.code_points]), a byte that is no UTF-8 being the lone
      surrogate [surrogateescape] makes of it.
    - An exception is a value [Raise e]; state changed before the raise is
      kept, as in Python.
    - The loops over lists are structural [Fixpoint]s.  The only loop
      without a bound in the sources is [while True] in [qa]: [qa_loop]
      takes a number of turns and [qa] gives it one more than standard
      input has lines.  Every turn reads a line, so that number is never
      what ends the loop ([Qa.qa_loop_enough]).  The machine of
      [Session] is a relation and needs no bound.
    - [argparse], [int] and [len] are modelled as CPython 3.11 defines
      them (Unicode 14.0); [PyText] and [Cli] were compared with the
      interpreter on generated strings and command lines (CPython
      3.11.2; the command lines include [--] as a string of its own and
      as the argument of an option).  [_get_values] removes the first
      [--] from the strings of an option before it converts them:
      [--vid=--] and [--source=--] store the empty list, which the
      program then hands to [YoutubeQA], [YoutubeSummarize] and the
      transcript API, and formats as [[]] in the url and in the path of
      the summary.  The text of the help is a parameter
      ([HelpFormatter]), taken to be a text that is not empty and has a
      UTF-8: it depends on the name of the program and the width of the
      terminal.  What [argparse] writes on standard error is not part
      of the world.
    - A JSON number is kept as its literal: Python holds the [int] or
      the [float] it converts the literal to, and the program only prints
      it.  The scanner of [json.load] recurses on a number of steps, two
      per byte of the text, which is never used up
      ([Json.scan_once_total]).  The interpreter bounds the nesting of
      what it reads by the frames it has left ([json_depth], 989 of the
      1000 of the default limit when the program runs as
      [python -m yts]): entering a container takes a frame, and building
      a [JSONDecodeError] takes two or three, so that near the limit an
      error of syntax is a [RecursionError].  A string the decoder
      returns can hold a lone surrogate other than U+DC80 to U+DCFF (from
      an escape); the bytes of the model have no place for it, and it is
      written on three bytes ([PyText.utf8_encode]).  [Json] was compared
      with the interpreter on generated texts and values.
    - External libraries are interfaces ([Services], [QAServices]): the
      theorems hold for every instance.  The answer of the chain may
      depend on the number of calls made before it.  The instances
      [canned_services] and [canned_qa] serve the examples.
    - [asyncio]: the source awaits each [gather] of one task before its
      next statement, so a call to the chain is one step of [IO].
    - The file system is a map from paths to files and directories
      without nesting: the sources test and create the parent of one
      file only.  A file holds bytes.  Files are opened in text mode
      with the encoding of the locale, taken to be UTF-8, and with the
      strict error handler the sources leave in place: [write_file]
      empties the file when it opens it and raises [UnicodeEncodeError],
      the file left empty, on a text with a lone surrogate; [read_file]
      raises [UnicodeDecodeError] on bytes that are no UTF-8.
    - Standard output is UTF-8 with the strict error handler, as
      CPython opens it in a UTF-8 locale other than C and POSIX, outside
      its UTF-8 mode: a text
      with a lone surrogate (an answer of the LLM, a passage, the
      [concise] of a stored summary written as an escape) makes [print]
      raise [UnicodeEncodeError], whatever was written before it staying
      written.  Under the C and POSIX locales, and in UTF-8 mode, the
      handler of the standard streams is [surrogateescape]: the characters U+DC80 to
      U+DCFF are then written as the bytes they stand for, and only the
      other lone surrogates raise; the bytes of the model do not tell
      the two kinds apart, and that setting is not modelled.
    - Standard input is the list of the lines [input] returns, each a
      text already decoded; an error of decoding is not modelled.

    ** What the theorems show

    - [TimeBucket]: the method equals its specification on every branch;
      it never loses or duplicates a chunk, returns only non-empty groups,
      at most [split_num + 1] of them, in interval order; it raises on
      an empty chunk list, on a transcript shorter than [split_num]
      seconds, and for [split_num <= 0].
    - [Summarize]: [run] calls the chain in order (all chunks first, then
      one call per group), pauses between group calls only, writes the
      summary file last and only after every call succeeded, returns what
      it wrote, and leaves files and console untouched when it raises,
      with one exception: when it is the write that raises, on a text
      UTF-8 cannot encode, the summary file is left empty and the summary
      of an earlier run is lost ([run_unencodable_summary]); conditions
      under which it gets to the write; [__init__] establishes the
      invariant [ys_wf] and [prepare] keeps it; the chunks [prepare]
      stores are well formed ([chunks_wf]: numbered ids, times that are
      not negative, the precondition of the theorems of [TimeBucket]),
      cover the transcript in order, overlap by five fragments and are
      full but for the last.
    - [Json]: what the encoder writes the decoder reads back
      ([json_loads_dumps]: every value, every byte of every string); what
      the decoder returns is well formed and is a value of that round
      trip ([json_loads_sound]); the scanner ends within its steps; the
      text written has a UTF-8 exactly when the strings of the value
      have one ([json_dumps_encodable]), which states the failure of the
      write of [run] on the url, the title and the answers themselves.
    - [Qa]: the loop ends at the first blank line, asks the stripped lines
      before it in order, and raises [EOFError] when the input ends
      first; every exception the look at the stored summary lets
      escape, that of [print] on a summary that cannot be written
      included ([stored_summary_errors]).
    - [Session]: the machine and the loop are the same program
      ([qa_loop_machine]); every run of the machine ends
      ([session_halts]) and reaches [Terminated] when a blank line
      follows answered queries; an invariant of every reachable state,
      by induction on the rules ([reachable_inv]).
    - [Main]: [summary] prints the record it stored, and when it raises
      it printed nothing and changed no file but the one a failed write
      empties (its prints never raise: what they write was written to
      the file with the same encoding); what [summary] stored, [qa] reads back and shows
      ([summary_then_show], without an assumption on the codec); the
      empty file of a failed write ends the later sessions with
      [JSONDecodeError] ([failed_write_breaks_show]); [main] runs one
      command.
    - [Cli]: [parse_args] reads back the command line that spells a
      namespace out, empty lists included, but for the video id [--],
      which comes back as the empty list ([parse_args_argv_of]);
      [--help] first wins unless an ambiguous abbreviation follows;
      [script] runs one command on the parsed namespace, none when the
      parser exits.

    ** Not modelled

    [dotenv.load_dotenv] (line 12: a library call on a file whose place
    and syntax are the library's; the environment of a world is the one
    after it ran), the text of the help and the messages [argparse]
    writes on standard error, the LLM and the chain's own verbose output,
    the vector store behind [YoutubeQA] ([yts/qa.py] is outside [src/]),
    the conversion of a JSON literal to a number and Python's formatting
    of floats and of values that are not strings ([py_repr], [str_float]
    of [QAServices]), the errors of the operating system on the standard
    streams (a closed pipe) and the decoding of standard input.

    ** Left for later

    A reference model of the map-reduce chain as an instance of
    [Services]; the printed transcript of a whole [qa] session in detail
    mode. *)

From stdpp Require Import base tactics option list sets sorting relations.
From Stdlib Require Import ZArith Lia.

(** * Results: a value or a raised exception *)

Inductive Result (E A : Type) : Type :=
| Ok (a : A)
| Raise (e : E).
Arguments Ok {E A} a.
Arguments Raise {E A} e.

Definition is_Ok {E A} (r : Result E A) : Prop :=
  match r with Ok _ => True | Raise _ => False end.

Definition is_Raise {E A} (r : Result E A) : Prop :=
  match r with Ok _ => False | Raise _ => True end.

Definition res_to_option {E A} (r : Result E A) : option A :=
  match r with Ok a => Some a | Raise _ => None end.

Definition res_of_option {E A} (e : E) (o : option A) : Result E A :=
  match o with Some a => Ok a | None => Raise e end.

#[export] Instance Result_eq_dec `{EqDecision E, EqDecision A} :
  EqDecision (Result E A).
Proof. solve_decision. Defined.

#[export] Instance is_Ok_dec {E A} (r : Result E A) : Decision (is_Ok r).
Proof. destruct r; simpl; apply _. Defined.

#[export] Instance is_Raise_dec {E A} (r : Result E A) : Decision (is_Raise r).
Proof. destruct r; simpl; apply _. Defined.

#[export] Instance Result_ret {E} : MRet (Result E) := fun _ a => Ok a.

#[export] Instance Result_bind {E} : MBind (Result E) :=
  fun _ _ f m => match m with Ok a => f a | Raise e => Raise e end.

#[export] Instance Result_fmap {E} : FMap (Result E) :=
  fun _ _ f m => match m with Ok a => Ok (f a) | Raise e => Raise e end.

(** [guard_or b e]: continue when [b] holds, raise [e] otherwise. *)
Definition guard_or {E} (b : bool) (e : E) : Result E unit :=
  if b then Ok tt else Raise e.

(** The monadic left fold: a [for] loop whose body may raise. *)
Fixpoint foldM {E A B} (f : A → B → Result E A) (a : A) (l : list B)
  : Result E A :=
  match l with
  | [] => Ok a
  | x :: l' => a' ← f a x; foldM f a' l'
  end.

(** The monadic map: a loop that collects one result per element. *)
Fixpoint mapM_res {E A B} (f : A → Result E B) (l : list A)
  : Result E (list B) :=
  match l with
  | [] => Ok []
  | x :: l' => y ← f x; ys ← mapM_res f l'; Ok (y :: ys)
  end.

(** * State and exceptions: [St → Result E A * St]

    The state after a raise is the state at the raise: what a Python
    program did before the exception stays done. *)

Definition StateErr (St E A : Type) : Type := St → Result E A * St.

#[export] Instance StateErr_ret {St E} : MRet (StateErr St E) :=
  fun _ a s => (Ok a, s).

#[export] Instance StateErr_bind {St E} : MBind (StateErr St E) :=
  fun _ _ f m s =>
    match m s with
    | (Ok a, s') => f a s'
    | (Raise e, s') => (Raise e, s')
    end.

Definition st_get {St E} : StateErr St E St := fun s => (Ok s, s).
Definition st_gets {St E A} (f : St → A) : StateErr St E A := fun s => (Ok (f s), s).
Definition st_modify {St E} (f : St → St) : StateErr St E unit := fun s => (Ok tt, f s).
Definition st_raise {St E A} (e : E) : StateErr St E A := fun s => (Raise e, s).
Definition st_lift {St E A} (r : Result E A) : StateErr St E A := fun s => (r, s).

(** A loop over a list in [StateErr] (Python's [for x in l]). *)
Fixpoint st_for {St E A} (f : A → StateErr St E unit) (l : list A)
  : StateErr St E unit :=
  match l with
  | [] => mret tt
  | x :: l' => f x;; st_for f l'
  end.

(** A loop over a list in [StateErr], with the index of the element
    (Python's [for idx, x in enumerate(l)]), collecting the results. *)
Fixpoint forM_enum {St E A B} (f : nat → A → StateErr St E B) (i : nat)
    (l : list A) : StateErr St E (list B) :=
  match l with
  | [] => mret []
  | x :: l' => y ← f i x; ys ← forM_enum f (S i) l'; mret (y :: ys)
  end.

(** * Notations, in a scope of their own *)

Declare Scope py_scope.
Delimit Scope py_scope with py.

Notation "'assert!' b 'orelse' e ';' k" :=
  (mbind (fun _ : unit => k) (guard_or b e))
  (at level 100, b at level 99, e at level 99, k at level 200,
   right associativity, only parsing) : py_scope.
Open Scope py_scope.

(** * Grouping a list by a key

    [group_by_key key m l] is the list of the [m] groups
    [[x | x ∈ l, key x = i]] for [i = 0, ..., m - 1], each in the order of
    [l]: what a loop that appends each element to the group of its key
    builds. *)

Definition group_by_key {A} (key : A → nat) (m : nat) (l : list A)
  : list (list A) :=
  (fun i => filter (fun x => key x = i) l) <$> seq 0 m.

(** * Transition systems

    [eventually R P s]: every run of [R] from [s] reaches a state where
    [P] holds, and no run is stuck before it does. *)

Section transitions.
Context {S : Type} (R : relation S).

Inductive eventually (P : S → Prop) (s : S) : Prop :=
| eventually_now : P s → eventually P s
| eventually_later :
    red R s → (∀ s', R s s' → eventually P s') → eventually P s.

(** A state has one successor at most. *)
Definition deterministic : Prop := ∀ s s1 s2, R s s1 → R s s2 → s1 = s2.
End transitions.

(** * Lemmas on [Result] *)

Section result_lemmas.
Context {E A B C : Type}.
Implicit Types (m : Result E A) (f : A → Result E B) (g : B → Result E C).

Lemma bind_Ok f a : (Ok a ≫= f) = f a.
Proof. reflexivity. Qed.

Lemma bind_Raise f e : (Raise e ≫= f) = Raise e.
Proof. reflexivity. Qed.

Lemma bind_ret_r m : (m ≫= mret) = m.
Proof. by destruct m. Qed.

Lemma bind_assoc m f g : ((m ≫= f) ≫= g) = (m ≫= fun a => f a ≫= g).
Proof. by destruct m. Qed.

Lemma bind_Ok_inv m f b :
  (m ≫= f) = Ok b ↔ ∃ a, m = Ok a ∧ f a = Ok b.
Proof.
  destruct m as [a|e]; simpl; split.
  - eauto.
  - by intros (? & [= <-] & ?).
  - done.
  - by intros (? & ? & ?).
Qed.

Lemma bind_Raise_inv m f e :
  (m ≫= f) = Raise e ↔ m = Raise e ∨ ∃ a, m = Ok a ∧ f a = Raise e.
Proof.
  destruct m as [a|e']; simpl; split.
  - eauto.
  - by intros [? | (? & [= <-] & ?)].
  - intros [= ->]; eauto.
  - by intros [[= ->] | (? & ? & ?)].
Qed.

Lemma is_Ok_exists m : is_Ok m ↔ ∃ a, m = Ok a.
Proof. destruct m; simpl; split; eauto; try done; by intros [? ?]. Qed.

Lemma is_Raise_exists m : is_Raise m ↔ ∃ e, m = Raise e.
Proof. destruct m; simpl; split; eauto; try done; by intros [? ?]. Qed.

Lemma is_Ok_not_Raise m : is_Ok m ↔ ¬ is_Raise m.
Proof. destruct m; simpl; tauto. Qed.

Lemma guard_or_true (e : E) : guard_or true e = Ok tt.
Proof. reflexivity. Qed.

Lemma guard_or_false (e : E) : guard_or false e = Raise e.
Proof. reflexivity. Qed.

Lemma guard_or_Ok_inv (b : bool) (e : E) u : guard_or b e = Ok u ↔ b = true.
Proof. destruct b, u; simpl; split; done. Qed.
End result_lemmas.

(** * The automation shared by the development

    [py] holds the resolution hints, [py_rw] the rewriting rules that
    normalise binds; [res_simpl] rewrites with them, [res_inv] inverts an
    equation [m ≫= f = Ok b] in the context. *)

Create HintDb py discriminated.
Create Rewrite HintDb py_rw.
#[export] Hint Rewrite @bind_Ok @bind_Raise @bind_ret_r @guard_or_true
  @guard_or_false : py_rw.

Ltac res_simpl := autorewrite with py_rw in *; simpl in *.

Ltac res_inv :=
  repeat match goal with
  | H : (_ ≫= _) = Ok _ |- _ =>
      apply bind_Ok_inv in H; destruct H as (? & ? & ?)
  | H : Ok _ = Ok _ |- _ => injection H as H; try subst
  | H : Raise _ = Ok _ |- _ => discriminate H
  | H : Ok _ = Raise _ |- _ => discriminate H
  | H : guard_or _ _ = Ok _ |- _ => apply guard_or_Ok_inv in H
  end.

(** * Lemmas on [foldM] *)

Section foldM_lemmas.
Context {E A B : Type} (f : A → B → Result E A).
Implicit Types (a : A) (l : list B) (x : B).

Lemma foldM_app a l1 l2 :
  foldM f a (l1 ++ l2) = (a' ← foldM f a l1; foldM f a' l2).
Proof.
  revert a. induction l1 as [|x l1 IH]; intros a; simpl; [done|].
  destruct (f a x); simpl; [apply IH|done].
Qed.

Lemma foldM_snoc a l x : foldM f a (l ++ [x]) = (a' ← foldM f a l; f a' x).
Proof.
  rewrite foldM_app. destruct (foldM f a l); simpl; [|done].
  apply bind_ret_r.
Qed.

(** The loop rule: an invariant [I done a] over the elements already
    processed and the accumulator.  When every iteration succeeds and
    re-establishes it, the loop succeeds and the invariant holds of the
    whole list. *)
Lemma foldM_total (I : list B → A → Prop) a l :
  I [] a →
  (∀ done x a, I done a → x ∈ l → ∃ a', f a x = Ok a' ∧ I (done ++ [x]) a') →
  ∃ r, foldM f a l = Ok r ∧ I l r.
Proof.
  intros H0 Hstep. induction l as [|x l IH] using rev_ind; [by eexists|].
  destruct IH as (r & Hr & HI).
  { intros done y b Hb Hy. apply Hstep; [done|]. set_solver. }
  destruct (Hstep l x r HI) as (r' & Hr' & HI'); [set_solver|].
  exists r'. by rewrite foldM_snoc, Hr.
Qed.

(** The partial-correctness rule: the iterations that did succeed kept
    the invariant. *)
Lemma foldM_invariant (I : list B → A → Prop) a l r :
  I [] a →
  (∀ done x a a', I done a → x ∈ l → f a x = Ok a' → I (done ++ [x]) a') →
  foldM f a l = Ok r → I l r.
Proof.
  intros H0 Hstep. revert r. induction l as [|x l IH] using rev_ind; intros r.
  - by intros [= <-].
  - rewrite foldM_snoc. intros Hr; res_inv.
    eapply Hstep; [|set_solver|done]. apply IH; [|done].
    intros done y b b' Hb Hy. apply Hstep; [done|set_solver].
Qed.

(** A loop raises as soon as one iteration does. *)
Lemma foldM_raise_first a x l e : f a x = Raise e → foldM f a (x :: l) = Raise e.
Proof. intros H. simpl. by rewrite H. Qed.
End foldM_lemmas.

(** * Shared list lemmas *)

Section filter_lemmas.
Context {A : Type} (P : A → Prop) `{∀ x, Decision (P x)}.
Implicit Types (l : list A).

Lemma filter_none l : Forall (fun x => ¬ P x) l → filter P l = [].
Proof.
  induction 1 as [|x l Hx _ IH]; [done|]. by rewrite filter_cons_False.
Qed.

Lemma filter_all l : Forall P l → filter P l = l.
Proof.
  induction 1 as [|x l Hx _ IH]; [done|]. by rewrite filter_cons_True, IH.
Qed.

Lemma filter_nonempty_exists l : filter P l ≠ [] ↔ Exists P l.
Proof.
  rewrite Exists_exists. split.
  - destruct (filter P l) as [|x xs] eqn:Hf; [done|]. intros _.
    exists x. rewrite (comm and), <- list_elem_of_filter, Hf. left.
  - intros (x & Hx & HP) Hf.
    by apply (filter_nil_not_elem_of P l x Hf HP).
Qed.

Lemma Forall_filter (Q : A → Prop) l : Forall Q l → Forall Q (filter P l).
Proof.
  rewrite !Forall_forall. intros HQ x [_ Hx]%list_elem_of_filter. by apply HQ.
Qed.
End filter_lemmas.

Lemma filter_fmap {A B} (P : B → Prop) `{∀ y, Decision (P y)} (f : A → B)
    (l : list A) :
  filter P (f <$> l) = f <$> filter (fun x => P (f x)) l.
Proof.
  induction l as [|x l IH]; [done|]. rewrite fmap_cons, !filter_cons.
  case_decide; by rewrite IH.
Qed.

Lemma StronglySorted_filter {A} (R : relation A) (P : A → Prop)
    `{∀ x, Decision (P x)} (l : list A) :
  StronglySorted R l → StronglySorted R (filter P l).
Proof.
  induction 1 as [|x l _ IH Hx]; [constructor|].
  rewrite filter_cons. case_decide; [|done]. constructor; [done|].
  by apply Forall_filter.
Qed.

Lemma StronglySorted_lt_seq j n : StronglySorted lt (seq j n).
Proof.
  revert j. induction n as [|n IH]; intros j; simpl; constructor; [apply IH|].
  apply Forall_forall. intros i Hi%elem_of_seq. lia.
Qed.

(** * Lemmas on [group_by_key] *)

Section group_by_key_lemmas.
Context {A : Type} (key : A → nat).
Implicit Types (l : list A) (x : A) (m i : nat).

Lemma length_group_by_key m l : length (group_by_key key m l) = m.
Proof. unfold group_by_key. by rewrite length_fmap, length_seq. Qed.

Lemma group_by_key_lookup m l i :
  i < m → group_by_key key m l !! i = Some (filter (fun x => key x = i) l).
Proof.
  intros Hi. unfold group_by_key.
  by rewrite list_lookup_fmap, lookup_seq_lt.
Qed.

Lemma group_by_key_nil m : group_by_key key m [] = replicate m [].
Proof.
  apply list_eq_same_length with m;
    [apply length_replicate|apply length_group_by_key|].
  intros i xs ys Hi. rewrite group_by_key_lookup by done.
  rewrite lookup_replicate_2, filter_nil by done. congruence.
Qed.

Lemma group_by_key_S m l :
  group_by_key key (S m) l
  = group_by_key key m l ++ [filter (fun x => key x = m) l].
Proof. unfold group_by_key. by rewrite seq_S, fmap_app. Qed.

(** Appending [x] to the group of its key is grouping [l ++ [x]]. *)
Lemma group_by_key_snoc m l x :
  key x < m →
  alter (fun g => g ++ [x]) (key x) (group_by_key key m l)
  = group_by_key key m (l ++ [x]).
Proof.
  intros Hx. apply list_eq_same_length with m;
    [apply length_group_by_key|by rewrite length_alter, length_group_by_key|].
  intros i xs ys Hi. rewrite (group_by_key_lookup m (l ++ [x])) by done.
  rewrite filter_app. destruct (decide (i = key x)) as [->|Hne].
  - rewrite list_lookup_alter_eq, group_by_key_lookup by done. simpl.
    rewrite filter_cons_True, filter_nil by done. congruence.
  - rewrite list_lookup_alter_ne, group_by_key_lookup by done.
    rewrite filter_cons_False, filter_nil, app_nil_r by done. congruence.
Qed.

(** Every element is in the group of its key, and nowhere else. *)
Lemma elem_of_group_by_key m l i g x :
  group_by_key key m l !! i = Some g → x ∈ g ↔ x ∈ l ∧ key x = i.
Proof.
  intros Hg. assert (i < m) as Hi.
  { apply lookup_lt_Some in Hg. by rewrite length_group_by_key in Hg. }
  rewrite group_by_key_lookup in Hg by done. injection Hg as <-.
  by rewrite list_elem_of_filter, (comm and).
Qed.

(** Appending to one group adds the element to the concatenation. *)
Lemma concat_alter_snoc (ls : list (list A)) i x :
  i < length ls → concat (alter (fun g => g ++ [x]) i ls) ≡ₚ concat ls ++ [x].
Proof.
  revert i. induction ls as [|g ls IH]; intros [|i] Hi; simpl in *; try lia.
  - by rewrite <- !(assoc (++)), (Permutation_app_comm [x]).
  - change (list_alter ?f i ls) with (alter f i ls).
    rewrite IH by lia. by rewrite (assoc (++)).
Qed.

(** Dropping groups that a predicate true of every non-empty group
    rejects does not change the concatenation. *)
Lemma concat_filter_nonempty (P : list A → Prop) `{∀ g, Decision (P g)}
    (ls : list (list A)) :
  (∀ g, ¬ P g → g = []) → concat (filter P ls) = concat ls.
Proof.
  intros HP. induction ls as [|g ls IH]; [done|].
  destruct (decide (P g)) as [Hg|Hg].
  - rewrite filter_cons_True by done. simpl. by rewrite IH.
  - rewrite filter_cons_False by done. simpl. by rewrite IH, (HP g Hg).
Qed.

(** The groups partition the list: nothing is lost, nothing is doubled. *)
Lemma concat_group_by_key_perm m l :
  Forall (fun x => key x < m) l → concat (group_by_key key m l) ≡ₚ l.
Proof.
  induction l as [|x l IH] using rev_ind; intros Hl.
  - rewrite group_by_key_nil. clear Hl. induction m; [done|].
    by rewrite replicate_S_end, concat_app, IHm.
  - apply Forall_app in Hl as [Hl Hx%Forall_inv].
    rewrite <- group_by_key_snoc by done.
    rewrite concat_alter_snoc by (by rewrite length_group_by_key).
    by rewrite IH.
Qed.

(** On a list whose keys never decrease, the groups below [m] are the
    elements with a key below [m], in the order of the list. *)
Lemma filter_key_lt_S m l :
  StronglySorted (fun x y => key x ≤ key y) l →
  filter (fun x => key x < m) l ++ filter (fun x => key x = m) l
  = filter (fun x => key x < S m) l.
Proof.
  induction 1 as [|x l Hs IH Hx]; [done|].
  rewrite !(filter_cons _ x). repeat case_decide; try lia; simpl.
  - by rewrite IH.
  - rewrite <- IH, (filter_none (fun y => key y < m)); [done|].
    eapply Forall_impl; [exact Hx|]. simpl. lia.
  - rewrite <- IH, !filter_none; [done| |];
      (eapply Forall_impl; [exact Hx|]; simpl; lia).
Qed.

Lemma concat_group_by_key_sorted_lt m l :
  StronglySorted (fun x y => key x ≤ key y) l →
  concat (group_by_key key m l) = filter (fun x => key x < m) l.
Proof.
  intros Hs. induction m as [|m IH].
  - simpl. symmetry. apply filter_none, Forall_forall. lia.
  - rewrite group_by_key_S, concat_app, IH. simpl.
    rewrite app_nil_r. by apply filter_key_lt_S.
Qed.

(** On such a list, concatenating the groups gives the list back. *)
Lemma concat_group_by_key_sorted m l :
  StronglySorted (fun x y => key x ≤ key y) l →
  Forall (fun x => key x < m) l →
  concat (group_by_key key m l) = l.
Proof.
  intros Hs Hl. rewrite concat_group_by_key_sorted_lt by done.
  by apply filter_all.
Qed.

(** The non-empty groups are the groups of the keys that occur, in
    increasing order of key. *)
Lemma nonempty_groups_keys m l :
  ∃ ks, StronglySorted lt ks ∧ Forall (fun k => k < m) ks ∧
        filter (fun g => g ≠ []) (group_by_key key m l)
        = (fun i => filter (fun x => key x = i) l) <$> ks.
Proof.
  exists (filter (fun i => filter (fun x => key x = i) l ≠ []) (seq 0 m)).
  split; [apply StronglySorted_filter, StronglySorted_lt_seq|]. split.
  - apply Forall_filter, Forall_forall. intros i Hi%elem_of_seq. lia.
  - unfold group_by_key. by rewrite filter_fmap.
Qed.
End group_by_key_lemmas.

Lemma StronglySorted_mono {A} (R R' : A → A → Prop) l :
  (∀ x y, R x y → R' x y) → StronglySorted R l → StronglySorted R' l.
Proof.
  intros HR. induction 1 as [|x l _ IH Hx]; constructor; [done|].
  eapply Forall_impl; [exact Hx|]. auto.
Qed.

(** * Lemmas on transition systems *)

Section transition_lemmas.
Context {S : Type} (R : relation S).
Implicit Types (P Q : S → Prop) (s : S).

Lemma eventually_weaken P Q s :
  (∀ s', P s' → Q s') → eventually R P s → eventually R Q s.
Proof. intros HPQ. induction 1; [apply eventually_now|apply eventually_later]; auto. Qed.

Lemma eventually_trans P Q s :
  eventually R P s → (∀ s', P s' → eventually R Q s') → eventually R Q s.
Proof. intros HP HPQ. induction HP; [|apply eventually_later]; auto. Qed.

(** What is eventually reached is reached by a run. *)
Lemma eventually_rtc P s : eventually R P s → ∃ s', rtc R s s' ∧ P s'.
Proof.
  induction 1 as [s HP|s [s1 Hs1] _ IH]; [by exists s|].
  destruct (IH s1 Hs1) as (s' & Hrun & HP). exists s'. eauto using rtc_l.
Qed.

Section deterministic.
Hypothesis Hdet : deterministic R.

(** With one successor at most, a step towards the goal is enough. *)
Lemma eventually_step P s s' : R s s' → eventually R P s' → eventually R P s.
Proof.
  intros Hstep HP. apply eventually_later; [by exists s'|].
  intros s2 Hs2. by rewrite (Hdet _ _ _ Hs2 Hstep).
Qed.

Lemma eventually_run P s s' : rtc R s s' → eventually R P s' → eventually R P s.
Proof. induction 1; eauto using eventually_step. Qed.

(** A run ends in one state at most. *)
Lemma rtc_nf_unique s s1 s2 :
  rtc R s s1 → nf R s1 → rtc R s s2 → nf R s2 → s1 = s2.
Proof.
  intros Hrun1 Hnf1 Hrun2 Hnf2. induction Hrun1 as [s|s s' s1 Hstep Hrun1 IH].
  - by eapply rtc_nf.
  - destruct Hrun2 as [|s s2' s2 Hstep2 Hrun2]; [by destruct Hnf2; exists s'|].
    apply IH; [done|]. by rewrite (Hdet _ _ _ Hstep Hstep2).
Qed.
End deterministic.
End transition_lemmas.

(** * Lemmas on [StateErr] *)

Section StateErr_lemmas.
Context {St E A B : Type}.
Implicit Types (m : StateErr St E A) (f : A → StateErr St E B) (s : St).

Lemma st_bind_unfold m f s :
  (m ≫= f) s
  = match m s with (Ok a, s') => f a s' | (Raise e, s') => (Raise e, s') end.
Proof. reflexivity. Qed.

Lemma st_bind_Ok m f s a s' : m s = (Ok a, s') → (m ≫= f) s = f a s'.
Proof. intros H. by rewrite st_bind_unfold, H. Qed.

Lemma st_bind_Raise m f s e s' :
  m s = (Raise e, s') → (m ≫= f) s = (Raise e, s').
Proof. intros H. by rewrite st_bind_unfold, H. Qed.

Lemma st_bind_Ok_inv m f s b s2 :
  (m ≫= f) s = (Ok b, s2) ↔ ∃ a s1, m s = (Ok a, s1) ∧ f a s1 = (Ok b, s2).
Proof.
  rewrite st_bind_unfold. destruct (m s) as [[a|e] s1]; split.
  - eauto.
  - by intros (? & ? & [= <- <-] & ?).
  - done.
  - by intros (? & ? & ? & ?).
Qed.

Lemma st_ret_run (a : A) s : (mret a : StateErr St E A) s = (Ok a, s).
Proof. reflexivity. Qed.

Lemma st_lift_run (r : Result E A) s : st_lift r s = (r, s).
Proof. reflexivity. Qed.
End StateErr_lemmas.

(** A statement followed by nothing is the statement. *)
Lemma st_bind_skip {St E} (m : StateErr St E unit) (s : St) :
  (m ≫= fun _ => mret tt) s = m s.
Proof. rewrite st_bind_unfold. by destruct (m s) as [[[]|e] s']. Qed.

(** [st_step H]: run the first action of a bind with the equation [H]. *)
Ltac st_step H :=
  first [ rewrite (st_bind_Ok _ _ _ _ _ H) | rewrite (st_bind_Raise _ _ _ _ _ H) ].
