(* ===== verification/PyData.v ===== *)
(** * PyData: the Python primitives the sources rely on

    Exceptions as values, list indexing as Python defines it (negative
    indices count from the end, an index out of range raises
    [IndexError]), [range], float floor division and [int()].  Every
    definition states what the interpreter does on every input, so that
    the models of the sources can call it where the source uses the
    primitive. *)

From stdpp Require Import base tactics option list strings.
From Stdlib Require Import ZArith QArith Qround Lia Lqa.
From S2P Require Import Prelude.
#[local] Close Scope Q_scope.
#[local] Open Scope Z_scope.

(** ** Exceptions *)

(** The kinds of [OSError] the file operations of the sources can meet. *)
Inductive os_errno : Type :=
| ENOENT    (* FileNotFoundError *)
| EEXIST    (* FileExistsError *)
| EISDIR    (* IsADirectoryError *)
| ENOTDIR.  (* NotADirectoryError *)

Inductive exn : Type :=
| ValueError (msg : string)
| KeyError (key : string)
| IndexError
| ZeroDivisionError
| TypeError
| EOFError
| OSError (errno : os_errno) (path : string)
| JSONDecodeError
| TranscriptUnavailable
| VideoUnavailable
| InvalidInputError
| ChainInvocationError (msg : string)
| SystemExit (code : Z)
| UnicodeEncodeError
| UnicodeDecodeError
| RecursionError
| StopIteration.

#[export] Instance os_errno_eq_dec : EqDecision os_errno.
Proof. solve_decision. Defined.

#[export] Instance exn_eq_dec : EqDecision exn.
Proof. solve_decision. Defined.

(** Results of Python code: a value or a raised exception. *)
Abbreviation PyResult := (Result exn).

(** ** Lists *)

Section py_list.
Context {A : Type}.
Implicit Types (l : list A) (i : Z) (x : A).

(** [len(l)] *)
Definition py_len l : Z := Z.of_nat (length l).

(** The position [l[i]] denotes: [i] itself when [0 <= i < len(l)],
    [len(l) + i] when [-len(l) <= i < 0], [IndexError] otherwise. *)
Definition py_norm_index l i : PyResult nat :=
  if bool_decide (0 ≤ i < py_len l) then Ok (Z.to_nat i)
  else if bool_decide (- py_len l ≤ i < 0) then Ok (Z.to_nat (py_len l + i))
  else Raise IndexError.

(** [l[i]] *)
Definition py_getitem l i : PyResult A :=
  n ← py_norm_index l i; res_of_option IndexError (l !! n).

(** [l[i] = f(l[i])]: the element at [i] is replaced, in place. *)
Definition py_alter (f : A → A) l i : PyResult (list A) :=
  n ← py_norm_index l i; Ok (alter f n l).

(** [l.append(x)] *)
Definition py_append l x : list A := l ++ [x].
End py_list.

(** [[e for _ in range(0, n)]]: [n] copies of [e]; none when [n <= 0]. *)
Definition py_replicate {A} (n : Z) (e : A) : list A := replicate (Z.to_nat n) e.

(** ** Numbers *)

(** [a // b] on floats: the floor of the exact quotient, as a float;
    [ZeroDivisionError] when [b] is zero. *)
Definition py_floordiv (a b : Q) : PyResult Q :=
  if Qeq_bool b 0 then Raise ZeroDivisionError
  else Ok (inject_Z (Qfloor (a / b))).

(** [int(x)] on a float: truncation toward zero. *)
Definition py_int (x : Q) : Z :=
  if Qle_bool 0 x then Qfloor x else Qceiling x.

(** ** Lemmas on list indexing *)

Section py_list_lemmas.
Context {A : Type}.
Implicit Types (l : list A) (i : Z) (n : nat) (x : A).

Lemma py_norm_index_nonneg l i :
  0 ≤ i < py_len l → py_norm_index l i = Ok (Z.to_nat i).
Proof. intros H. unfold py_norm_index. by rewrite bool_decide_eq_true_2. Qed.

Lemma py_norm_index_neg l i :
  - py_len l ≤ i < 0 → py_norm_index l i = Ok (Z.to_nat (py_len l + i)).
Proof.
  intros H. unfold py_norm_index.
  rewrite bool_decide_eq_false_2 by lia. by rewrite bool_decide_eq_true_2.
Qed.

Lemma py_norm_index_out l i :
  i < - py_len l ∨ py_len l ≤ i → py_norm_index l i = Raise IndexError.
Proof.
  intros H. unfold py_norm_index.
  by rewrite !bool_decide_eq_false_2 by lia.
Qed.

(** The position is always inside the list. *)
Lemma py_norm_index_lt l i n :
  py_norm_index l i = Ok n → (n < length l)%nat.
Proof.
  unfold py_norm_index, py_len.
  repeat case_bool_decide; intros [= <-]; lia.
Qed.

Lemma py_norm_index_Ok_iff l i :
  is_Ok (py_norm_index l i) ↔ - py_len l ≤ i < py_len l.
Proof.
  unfold py_norm_index, py_len.
  repeat case_bool_decide; simpl; split; try done; lia.
Qed.

Lemma py_getitem_nonneg l i x :
  0 ≤ i → l !! Z.to_nat i = Some x → py_getitem l i = Ok x.
Proof.
  intros Hi Hx. unfold py_getitem.
  rewrite py_norm_index_nonneg; [by simpl; rewrite Hx|].
  apply lookup_lt_Some in Hx. unfold py_len. lia.
Qed.

(** [l[-1]] is the last element; [IndexError] on the empty list. *)
Lemma py_getitem_last l : py_getitem l (-1) = res_of_option IndexError (last l).
Proof.
  unfold py_getitem. destruct l as [|x l] using rev_ind; [done|].
  rewrite py_norm_index_neg by (unfold py_len; rewrite length_app; simpl; lia).
  simpl. rewrite last_snoc, lookup_app_r; unfold py_len; rewrite length_app; simpl.
  - by replace (Z.to_nat _ - length l)%nat with 0%nat by lia.
  - lia.
Qed.

Lemma py_getitem_nil i : py_getitem (@nil A) i = Raise IndexError.
Proof. unfold py_getitem. by rewrite py_norm_index_out by (unfold py_len; simpl; lia). Qed.

Lemma py_alter_length f l i l' :
  py_alter f l i = Ok l' → length l' = length l.
Proof. unfold py_alter. intros; res_inv. by rewrite length_alter. Qed.

Lemma py_alter_nonneg f l i :
  0 ≤ i < py_len l → py_alter f l i = Ok (alter f (Z.to_nat i) l).
Proof. intros H. unfold py_alter. by rewrite py_norm_index_nonneg. Qed.

Lemma py_len_app l1 l2 : py_len (l1 ++ l2) = py_len l1 + py_len l2.
Proof. unfold py_len. rewrite length_app. lia. Qed.

Lemma py_len_nonneg l : 0 ≤ py_len l.
Proof. unfold py_len. lia. Qed.
End py_list_lemmas.

Lemma py_replicate_length {A} n (e : A) : py_len (py_replicate n e) = Z.max 0 n.
Proof. unfold py_len, py_replicate. rewrite length_replicate. lia. Qed.

Lemma py_replicate_nonpos {A} n (e : A) : n ≤ 0 → py_replicate n e = [].
Proof. intros. unfold py_replicate. by replace (Z.to_nat n) with 0%nat by lia. Qed.

#[export] Hint Rewrite @py_len_app @py_replicate_length : py_rw.
#[export] Hint Resolve py_len_nonneg py_norm_index_lt : py.

(** ** Lemmas on floor division and [int()] *)

Section py_float_lemmas.
Implicit Types (a b d : Q) (k z : Z).
#[local] Open Scope Q_scope.

Lemma py_floordiv_zero a b : b == 0 → py_floordiv a b = Raise ZeroDivisionError.
Proof. intros H. unfold py_floordiv. by rewrite (Qeq_eq_bool _ _ H). Qed.

Lemma py_floordiv_nonzero a b :
  ¬ b == 0 → py_floordiv a b = Ok (inject_Z (Qfloor (a / b))).
Proof.
  intros H. unfold py_floordiv.
  destruct (Qeq_bool b 0) eqn:Hb; [|done].
  by apply Qeq_bool_eq in Hb.
Qed.

(** [a // b] raises exactly when [b] is zero. *)
Lemma py_floordiv_Raise_iff a b e : py_floordiv a b = Raise e ↔ b == 0 ∧ e = ZeroDivisionError.
Proof.
  unfold py_floordiv. destruct (Qeq_bool b 0) eqn:Hb; split.
  - intros [= <-]. split; [by apply Qeq_bool_eq|done].
  - by intros [_ ->].
  - done.
  - intros [H _]. apply Qeq_bool_neq in Hb. done.
Qed.

#[export] Instance py_floordiv_proper : Proper (Qeq ==> Qeq ==> eq) py_floordiv.
Proof.
  intros a a' Ha b b' Hb. unfold py_floordiv.
  rewrite (Qeqb_comp _ _ Hb 0 0 (Qeq_refl 0)).
  destruct (Qeq_bool b' 0); [done|].
  do 2 f_equal. apply Qfloor_comp. by rewrite Ha, Hb.
Qed.

(** The floor is the integer [k] with [k <= x < k + 1]. *)
Lemma Qfloor_unique x k : inject_Z k <= x → x < inject_Z (k + 1) → Qfloor x = k.
Proof.
  intros Hle Hlt.
  pose proof (Qfloor_le x) as H1. pose proof (Qlt_floor x) as H2.
  assert (inject_Z k < inject_Z (Qfloor x + 1)) as H3 by (eapply Qle_lt_trans; eauto).
  assert (inject_Z (Qfloor x) < inject_Z (k + 1)) as H4 by (eapply Qle_lt_trans; eauto).
  rewrite <- Zlt_Qlt in H3, H4. lia.
Qed.

(** Floor division by a positive [d] in terms of multiples of [d]. *)
Lemma Qfloor_div_bounds a d :
  0 < d → inject_Z (Qfloor (a / d)) * d <= a ∧ a < inject_Z (Qfloor (a / d) + 1) * d.
Proof.
  intros Hd. assert (a / d * d == a) as Hq by (field; lra). split.
  - rewrite <- Hq at 2. apply Qmult_le_compat_r; [apply Qfloor_le | lra].
  - rewrite <- Hq at 1. apply Qmult_lt_compat_r; [done | apply Qlt_floor].
Qed.

Lemma Qfloor_div_unique a d k :
  0 < d → inject_Z k * d <= a → a < inject_Z (k + 1) * d → Qfloor (a / d) = k.
Proof.
  intros Hd Hle Hlt. apply Qfloor_unique.
  - by apply Qle_shift_div_l.
  - by apply Qlt_shift_div_r.
Qed.

Lemma Qfloor_div_nonneg a d : 0 <= a → 0 < d → (0 ≤ Qfloor (a / d))%Z.
Proof.
  intros Ha Hd. change 0%Z with (Qfloor 0). apply Qfloor_resp_le.
  apply Qle_shift_div_l; [done|]. lra.
Qed.

Lemma Qfloor_div_mono a a' d :
  0 < d → a <= a' → (Qfloor (a / d) ≤ Qfloor (a' / d))%Z.
Proof.
  intros Hd Ha. apply Qfloor_resp_le.
  apply Qmult_le_r with (z := d); [done|].
  unfold Qdiv. rewrite <- !Qmult_assoc, !(Qmult_comm (/ d)), !Qmult_inv_r, !Qmult_1_r by lra.
  done.
Qed.

(** [int()] of a float that holds an integer is that integer. *)
Lemma py_int_inject_Z z : py_int (inject_Z z) = z.
Proof. unfold py_int. destruct (Qle_bool 0 _); [apply Qfloor_Z|apply Qceiling_Z]. Qed.

Lemma py_int_nonneg x : 0 <= x → py_int x = Qfloor x.
Proof. intros H. unfold py_int. by rewrite (proj2 (Qle_bool_iff 0 x) H). Qed.
End py_float_lemmas.

#[export] Hint Rewrite py_int_inject_Z : py_rw.

(** Order and equality of rationals are decidable, so that guards on
    times evaluate. *)
#[export] Instance Qle_decision (x y : Q) : Decision (x <= y)%Q.
Proof. destruct (Qlt_le_dec y x) as [H|H]; [right; by apply Qlt_not_le|by left]. Defined.

#[export] Instance Qlt_decision (x y : Q) : Decision (x < y)%Q.
Proof. destruct (Qlt_le_dec x y) as [H|H]; [by left|right; by apply Qle_not_lt]. Defined.

#[export] Instance Qeq_decision (x y : Q) : Decision (x == y)%Q := Qeq_dec x y.
