(* ===== verification/PyStr.v ===== *)
(** * PyStr: the string and path primitives the sources rely on

    [os.path.dirname] as [posixpath] defines it, and the pieces it is
    made of ([str.rfind], slicing, [str.rstrip]); string concatenation as
    f-strings perform it; [str.strip] on the UTF-8 bytes of a text, with
    the whitespace characters [str.isspace] accepts. *)

From stdpp Require Import base tactics option list strings.
From Stdlib Require Import Ascii String.
From S2P Require Import Prelude.

(** ** Definitions *)

(** The path separator of [posixpath]. *)
Definition sep : ascii := "/"%char.

(** [c in s] for a character [c]. *)
Fixpoint str_contains (c : ascii) (s : string) : bool :=
  match s with
  | EmptyString => false
  | String a s' => bool_decide (a = c) || str_contains c s'
  end.

(** [s == c * len(s)]: every character of [s] is [c]. *)
Fixpoint str_all (c : ascii) (s : string) : bool :=
  match s with
  | EmptyString => true
  | String a s' => bool_decide (a = c) && str_all c s'
  end.

(** [s.rstrip(c)]: [s] without its trailing run of [c]. *)
Fixpoint str_rstrip (c : ascii) (s : string) : string :=
  match s with
  | EmptyString => EmptyString
  | String a s' => if str_all c s then EmptyString else String a (str_rstrip c s')
  end.

(** [s[:s.rfind(c) + 1]]: [s] up to and including its last [c]; empty
    when [c] does not occur ([rfind] is then -1). *)
Fixpoint str_upto_last (c : ascii) (s : string) : string :=
  match s with
  | EmptyString => EmptyString
  | String a s' =>
      if str_contains c s' then String a (str_upto_last c s')
      else if bool_decide (a = c) then String a EmptyString
      else EmptyString
  end.

(** [posixpath.dirname(p)]:
    [i = p.rfind('/') + 1; head = p[:i];
     if head and head != '/' * len(head): head = head.rstrip('/')]. *)
Definition dirname (p : string) : string :=
  let head := str_upto_last sep p in
  if bool_decide (head ≠ "") && negb (str_all sep head)
  then str_rstrip sep head
  else head.

(** The characters [str.isspace] accepts, in UTF-8: the ASCII ones (tab
    to carriage return, the separators 28 to 31, the space), U+0085 and
    U+00A0 on two bytes, and on three bytes U+1680, U+2000 to U+200A,
    U+2028, U+2029, U+202F, U+205F and the ideographic space U+3000. *)
Definition is_space1 (a : ascii) : bool :=
  let n := nat_of_ascii a in
  bool_decide (9 ≤ n ≤ 13 ∨ 28 ≤ n ≤ 32).

Definition is_space2 (a b : ascii) : bool :=
  let m := nat_of_ascii a in
  let n := nat_of_ascii b in
  bool_decide (m = 194 ∧ (n = 133 ∨ n = 160)).

Definition is_space3 (a b c : ascii) : bool :=
  let l := nat_of_ascii a in
  let m := nat_of_ascii b in
  let n := nat_of_ascii c in
  bool_decide ((l = 225 ∧ m = 154 ∧ n = 128)
               ∨ (l = 226 ∧ m = 128 ∧ (128 ≤ n ≤ 138 ∨ n = 168 ∨ n = 169 ∨ n = 175))
               ∨ (l = 226 ∧ m = 129 ∧ n = 159)
               ∨ (l = 227 ∧ m = 128 ∧ n = 128)).

(** [s.lstrip()]: [s] without its leading whitespace characters. *)
Fixpoint str_lstrip (s : string) : string :=
  match s with
  | String a s1 =>
      if is_space1 a then str_lstrip s1
      else match s1 with
           | String b s2 =>
               if is_space2 a b then str_lstrip s2
               else match s2 with
                    | String c s3 => if is_space3 a b c then str_lstrip s3 else s
                    | EmptyString => s
                    end
           | EmptyString => s
           end
  | EmptyString => s
  end.

(** [s[::-1]], on bytes. *)
Fixpoint str_rev_onto (s acc : string) : string :=
  match s with
  | EmptyString => acc
  | String a s' => str_rev_onto s' (String a acc)
  end.

Definition str_rev (s : string) : string := str_rev_onto s "".

(** The leading whitespace of a reversed string: the bytes of a
    character come last first. *)
Fixpoint str_lstrip_rev (s : string) : string :=
  match s with
  | String a s1 =>
      if is_space1 a then str_lstrip_rev s1
      else match s1 with
           | String b s2 =>
               if is_space2 b a then str_lstrip_rev s2
               else match s2 with
                    | String c s3 =>
                        if is_space3 c b a then str_lstrip_rev s3 else s
                    | EmptyString => s
                    end
           | EmptyString => s
           end
  | EmptyString => s
  end.

(** [s.strip()]: [s] without its leading and trailing whitespace. *)
Definition str_strip (s : string) : string :=
  str_rev (str_lstrip_rev (str_rev (str_lstrip s))).

(** [f'{a}/{b}']. *)
Definition path_join (a b : string) : string := a +:+ "/" +:+ b.

(** ** Lemmas *)

Section str_lemmas.
Implicit Types (c a : ascii) (s t : string).

Lemma str_app_cons a s t : String a s +:+ t = String a (s +:+ t).
Proof. reflexivity. Qed.

Lemma str_app_nil_l s : "" +:+ s = s.
Proof. reflexivity. Qed.

Lemma str_app_assoc s t u : (s +:+ t) +:+ u = s +:+ (t +:+ u).
Proof. induction s as [|a s IH]; [done|]. by rewrite !str_app_cons, IH. Qed.

Lemma str_app_nil_r s : s +:+ "" = s.
Proof. induction s as [|a s IH]; [done|]. by rewrite str_app_cons, IH. Qed.

Lemma str_app_inv_l s t u : s +:+ t = s +:+ u → t = u.
Proof. apply (inj (String.app s)). Qed.

Lemma str_contains_app c s t :
  str_contains c (s +:+ t) = str_contains c s || str_contains c t.
Proof.
  induction s as [|a s IH]; [done|]. rewrite str_app_cons. simpl.
  rewrite IH. by rewrite orb_assoc.
Qed.

Lemma str_all_app c s t : str_all c (s +:+ t) = str_all c s && str_all c t.
Proof.
  induction s as [|a s IH]; [done|]. rewrite str_app_cons. simpl.
  rewrite IH. by rewrite andb_assoc.
Qed.

(** Up to the last [c] of [s ++ c ++ t], when [t] has no [c]: [s ++ c]. *)
Lemma str_upto_last_app c s t :
  str_contains c t = false →
  str_upto_last c (s +:+ String c t) = s +:+ String c "".
Proof.
  intros Ht. induction s as [|a s IH]; rewrite ?str_app_cons, ?str_app_nil_l; simpl.
  - rewrite Ht. by rewrite bool_decide_eq_true_2.
  - rewrite str_contains_app. simpl. rewrite (bool_decide_eq_true_2 (c = c)) by done.
    simpl. rewrite orb_true_r. by rewrite IH.
Qed.

Lemma str_upto_last_none c s : str_contains c s = false → str_upto_last c s = "".
Proof.
  induction s as [|a s IH]; simpl; [done|].
  intros [Ha Hs]%orb_false_elim. by rewrite Hs, Ha.
Qed.

(** Stripping the trailing [c] of [s ++ c]: that of [s]. *)
Lemma str_rstrip_snoc c s : str_rstrip c (s +:+ String c "") = str_rstrip c s.
Proof.
  induction s as [|a s IH]; rewrite ?str_app_cons, ?str_app_nil_l; simpl.
  - by rewrite bool_decide_eq_true_2.
  - rewrite str_all_app. simpl. rewrite (bool_decide_eq_true_2 (c = c)) by done.
    simpl. rewrite andb_true_r. by rewrite IH.
Qed.

Lemma str_rstrip_empty_iff c s : str_rstrip c s = "" ↔ str_all c s = true.
Proof.
  destruct s as [|a s]; simpl; [done|].
  destruct (bool_decide (a = c) && str_all c s); split; done.
Qed.

(** What is left ends with a character other than [c], or is empty. *)
Lemma str_rstrip_idem c s : str_rstrip c (str_rstrip c s) = str_rstrip c s.
Proof.
  induction s as [|a s IH]; simpl; [done|].
  destruct (bool_decide (a = c) && str_all c s) eqn:Hall; simpl; [done|].
  rewrite IH. destruct (bool_decide (a = c)) eqn:Ha; simpl; [|done].
  simpl in Hall. destruct (str_all c (str_rstrip c s)) eqn:Hs; [|done].
  apply str_rstrip_empty_iff in Hs. rewrite IH in Hs.
  apply str_rstrip_empty_iff in Hs. congruence.
Qed.
End str_lemmas.

(** ** [dirname] of a joined path *)

Section dirname_lemmas.
Implicit Types (d v : string).

(** The directory of [f'{d}/{v}'] when [v] has no slash: [d] without its
    trailing slashes, or [d + '/'] when [d] is empty or all slashes. *)
Lemma dirname_path_join d v :
  str_contains sep v = false →
  dirname (path_join d v)
  = if str_all sep d then d +:+ "/" else str_rstrip sep d.
Proof.
  intros Hv. unfold dirname, path_join.
  change ("/" +:+ v) with (String sep v).
  rewrite str_upto_last_app by done.
  rewrite str_all_app. simpl. rewrite andb_true_r.
  rewrite bool_decide_eq_true_2 by (by destruct d). simpl.
  destruct (str_all sep d); simpl; [done|]. apply str_rstrip_snoc.
Qed.

(** A directory name that does not end in a slash is returned as it is. *)
Lemma dirname_path_join_plain d v :
  str_contains sep v = false → str_rstrip sep d = d → d ≠ "" →
  dirname (path_join d v) = d.
Proof.
  intros Hv Hd Hne. rewrite dirname_path_join by done.
  destruct (str_all sep d) eqn:Hall; [|done].
  apply str_rstrip_empty_iff in Hall. congruence.
Qed.

(** The directory of a joined path is never the empty string. *)
Lemma dirname_path_join_nonempty d v :
  str_contains sep v = false → dirname (path_join d v) ≠ "".
Proof.
  intros Hv. rewrite dirname_path_join by done.
  destruct (str_all sep d) eqn:Hall.
  - by destruct d.
  - intros H%str_rstrip_empty_iff. congruence.
Qed.

(** Joined paths are equal only when the names are: two videos never
    share a path under one directory. *)
Lemma path_join_inj d v1 v2 : path_join d v1 = path_join d v2 → v1 = v2.
Proof.
  unfold path_join. intros H%str_app_inv_l. by injection H.
Qed.
End dirname_lemmas.

(** ** [str.strip] *)

Section strip_lemmas.
Implicit Types (s t : string).

Lemma str_rev_onto_app s acc : str_rev_onto s acc = str_rev s +:+ acc.
Proof.
  unfold str_rev. revert acc. induction s as [|a s IH]; intros acc; [done|].
  simpl. by rewrite (IH (String a "")), IH, str_app_assoc.
Qed.

Lemma str_rev_cons a s : str_rev (String a s) = str_rev s +:+ String a "".
Proof. unfold str_rev. simpl. apply str_rev_onto_app. Qed.

Lemma str_rev_app s t : str_rev (s +:+ t) = str_rev t +:+ str_rev s.
Proof.
  induction s as [|a s IH]; [by rewrite str_app_nil_l, str_app_nil_r|].
  by rewrite str_app_cons, !str_rev_cons, IH, str_app_assoc.
Qed.

Lemma str_rev_involutive s : str_rev (str_rev s) = s.
Proof.
  induction s as [|a s IH]; [done|]. by rewrite str_rev_cons, str_rev_app, IH.
Qed.

(** Whitespace goes on both sides, not inside; the ideographic space
    and the line end are whitespace. *)
Lemma str_strip_example :
  str_strip ("　 what is  this? " +:+ String (ascii_of_nat 10) "") = "what is  this?".
Proof. vm_compute. reflexivity. Qed.

Lemma str_strip_empty : str_strip "" = "".
Proof. reflexivity. Qed.
End strip_lemmas.
