(* ===== verification/PyText.v ===== *)
(** * PyText: text as Python reads it

    A Python [str] is a sequence of code points, and the strings of the
    development are their UTF-8 bytes.  This file decodes them the way
    the interpreter decodes a command line ([code_points]), and gives
    the two readings of a text as a number the argument parser makes:
    [int(s)] ([py_int_str]) and the pattern of a negative number
    ([negative_number_like]).  The decimal digits are those of Unicode
    14.0, the version of CPython 3.11.  The last section relates the
    characters of a concatenation to those of its parts. *)

From stdpp Require Import base tactics option list strings.
From Stdlib Require Import Ascii String ZArith NArith Lia.
From Stdlib Require Import Decimal DecimalString DecimalPos.
From S2P Require Import Prelude PyStr.

(** ** Code points *)

(** The six bits a continuation byte carries. *)
Definition continuation (a : ascii) : option N :=
  let n := N_of_ascii a in
  if (128 <=? n)%N && (n <? 192)%N then Some (n - 128)%N else None.

(** The code point of a sequence of two, three or four bytes; none when
    the sequence is not UTF-8: a byte that cannot lead or follow, an
    encoding longer than needed, a surrogate, or a value past U+10FFFF. *)
Definition decode2 (a b : ascii) : option N :=
  let n := N_of_ascii a in
  if (194 <=? n)%N && (n <? 224)%N
  then x ← continuation b; Some ((n - 192) * 64 + x)%N
  else None.

Definition decode3 (a b c : ascii) : option N :=
  let n := N_of_ascii a in
  if (224 <=? n)%N && (n <? 240)%N
  then x ← continuation b; y ← continuation c;
       let cp := (((n - 224) * 64 + x) * 64 + y)%N in
       if (2048 <=? cp)%N && negb ((55296 <=? cp)%N && (cp <? 57344)%N)
       then Some cp else None
  else None.

Definition decode4 (a b c d : ascii) : option N :=
  let n := N_of_ascii a in
  if (240 <=? n)%N && (n <? 245)%N
  then x ← continuation b; y ← continuation c; z ← continuation d;
       let cp := ((((n - 240) * 64 + x) * 64 + y) * 64 + z)%N in
       if (65536 <=? cp)%N && (cp <? 1114112)%N then Some cp else None
  else None.

(** A byte that is not part of a character is kept as the surrogate
    U+DC00 + byte (the error handler [surrogateescape]). *)
Definition escape (a : ascii) : N := (56320 + N_of_ascii a)%N.

(** The code points of a text. *)
Fixpoint code_points (s : string) : list N :=
  match s with
  | EmptyString => []
  | String a s1 =>
      if (N_of_ascii a <? 128)%N then N_of_ascii a :: code_points s1
      else
        match s1 with
        | EmptyString => [escape a]
        | String b s2 =>
            match decode2 a b with
            | Some cp => cp :: code_points s2
            | None =>
                match s2 with
                | EmptyString => escape a :: code_points s1
                | String c s3 =>
                    match decode3 a b c with
                    | Some cp => cp :: code_points s3
                    | None =>
                        match s3 with
                        | EmptyString => escape a :: code_points s1
                        | String d s4 =>
                            match decode4 a b c d with
                            | Some cp => cp :: code_points s4
                            | None => escape a :: code_points s1
                            end
                        end
                    end
                end
            end
        end
  end.

(** The bytes of a code point: its UTF-8, and for a surrogate U+DC80 to
    U+DCFF the byte it stands for.  The other surrogates have no place
    in a text of the model; they are written on three bytes, as
    [surrogatepass] does, and read back as three bytes that are no
    UTF-8. *)
Definition utf8_encode (cp : N) : string :=
  if (cp <? 128)%N then String (ascii_of_N cp) ""
  else if (cp <? 2048)%N
  then String (ascii_of_N (192 + cp / 64)) (String (ascii_of_N (128 + cp mod 64)) "")
  else if (56448 <=? cp)%N && (cp <? 56576)%N then String (ascii_of_N (cp - 56320)) ""
  else if (cp <? 65536)%N
  then String (ascii_of_N (224 + cp / 4096))
         (String (ascii_of_N (128 + (cp / 64) mod 64))
            (String (ascii_of_N (128 + cp mod 64)) ""))
  else String (ascii_of_N (240 + cp / 262144))
         (String (ascii_of_N (128 + (cp / 4096) mod 64))
            (String (ascii_of_N (128 + (cp / 64) mod 64))
               (String (ascii_of_N (128 + cp mod 64)) ""))).

(** [len(s)]: the number of characters. *)
Definition str_len (s : string) : nat := List.length (code_points s).

(** The lone surrogates: the code points that have no UTF-8. *)
Definition is_surrogate (cp : N) : bool := (55296 <=? cp)%N && (cp <? 57344)%N.

(** [s.encode('utf-8')] does not raise: the bytes are the UTF-8 of a
    text; as bytes of a file, [bytes.decode('utf-8')] does not raise. *)
Definition str_encodable (s : string) : bool :=
  forallb (fun cp => negb (is_surrogate cp)) (code_points s).

(** The characters of one byte, and the texts made of them. *)
Definition is_ascii (a : ascii) : bool := (N_of_ascii a <? 128)%N.

Fixpoint all_ascii (s : string) : bool :=
  match s with
  | EmptyString => true
  | String a s1 => is_ascii a && all_ascii s1
  end.

(** A text that is empty or starts with a character of one byte: what
    precedes it is decoded without it. *)
Definition ascii_headed (s : string) : bool :=
  match s with
  | EmptyString => true
  | String a _ => is_ascii a
  end.

(** ** Classes of characters *)

(** [c.isspace()]. *)
Definition py_isspace (cp : N) : bool :=
  bool_decide ((9 ≤ cp ≤ 13) ∨ (28 ≤ cp ≤ 32) ∨ cp = 133 ∨ cp = 160 ∨ cp = 5760
               ∨ (8192 ≤ cp ≤ 8202) ∨ cp = 8232 ∨ cp = 8233 ∨ cp = 8239
               ∨ cp = 8287 ∨ cp = 12288)%N.

(** The code points of the digits zero of Unicode (category [Nd]); the
    nine other digits of a script follow its zero. *)
Definition decimal_zeros : list N :=
  [48; 1632; 1776; 1984; 2406; 2534; 2662; 2790; 2918; 3046; 3174; 3302;
   3430; 3558; 3664; 3792; 3872; 4160; 4240; 6112; 6160; 6470; 6608; 6784;
   6800; 6992; 7088; 7232; 7248; 42528; 43216; 43264; 43472; 43504; 43600;
   44016; 65296; 66720; 68912; 69734; 69872; 69942; 70096; 70384; 70736;
   70864; 71248; 71360; 71472; 71904; 72016; 72784; 73040; 73120; 92768;
   92864; 93008; 120782; 120792; 120802; 120812; 120822; 123200; 123632;
   125264; 130032]%N.

(** [unicodedata.decimal(c)], when [c] is a decimal digit. *)
Definition py_decimal (cp : N) : option N :=
  (fun zero => cp - zero)%N
  <$> List.find (fun zero => (zero <=? cp)%N && (cp <? zero + 10)%N) decimal_zeros.

(** ** [int(s)] *)

(** A character as [int] reads it: a character that is not ASCII counts
    as a space or as a digit when it is one. *)
Inductive int_char : Type :=
| IcSpace
| IcDigit (d : Z)
| IcPlus
| IcMinus
| IcUnderscore
| IcOther.

Definition int_char_of (cp : N) : int_char :=
  if (cp <? 128)%N then
    if ((9 <=? cp)%N && (cp <=? 13)%N) || (cp =? 32)%N then IcSpace
    else if (48 <=? cp)%N && (cp <=? 57)%N then IcDigit (Z.of_N (cp - 48))
    else if (cp =? 43)%N then IcPlus
    else if (cp =? 45)%N then IcMinus
    else if (cp =? 95)%N then IcUnderscore
    else IcOther
  else if py_isspace cp then IcSpace
  else match py_decimal cp with
       | Some d => IcDigit (Z.of_N d)
       | None => IcOther
       end.

Fixpoint skip_spaces (l : list int_char) : list int_char :=
  match l with
  | IcSpace :: l' => skip_spaces l'
  | _ => l
  end.

(** The digits of a literal, one underscore allowed between two of
    them: the value, the number of digits, and what follows. *)
Fixpoint int_digits (l : list int_char) (acc : Z) (count : nat)
  : Z * nat * list int_char :=
  match l with
  | IcDigit d :: l' => int_digits l' (10 * acc + d)%Z (S count)
  | IcUnderscore :: IcDigit d :: l' => int_digits l' (10 * acc + d)%Z (S count)
  | _ => (acc, count, l)
  end.

(** [sys.get_int_max_str_digits()], as the interpreter starts. *)
Definition int_max_str_digits : nat := 4300.

(** A literal without its sign. *)
Definition int_unsigned (l : list int_char) : option Z :=
  match l with
  | IcDigit _ :: _ =>
      let '(value, count, rest) := int_digits l 0%Z 0 in
      if bool_decide (skip_spaces rest = [] ∧ count ≤ int_max_str_digits)
      then Some value else None
  | _ => None
  end.

(** [int(s)]; [None] where it raises [ValueError]. *)
Definition py_int_str (s : string) : option Z :=
  match skip_spaces (int_char_of <$> code_points s) with
  | IcPlus :: l => int_unsigned l
  | IcMinus :: l => Z.opp <$> int_unsigned l
  | l => int_unsigned l
  end.

(** ** The pattern of a negative number *)

Definition is_decimal (cp : N) : bool := bool_decide (is_Some (py_decimal cp)).

(** [\d+] on the whole of [l]. *)
Definition all_decimal (l : list N) : bool :=
  bool_decide (l ≠ []) && forallb is_decimal l.

Fixpoint skip_decimal (l : list N) : list N :=
  match l with
  | cp :: l' => if is_decimal cp then skip_decimal l' else l
  | [] => []
  end.

(** [l] without the line feed it ends with, if it does: where [$]
    matches. *)
Fixpoint before_final_newline (l : list N) : list N :=
  match l with
  | [10%N] => []
  | cp :: l' => cp :: before_final_newline l'
  | [] => []
  end.

(** [re.match('^-\d+$|^-\d*\.\d+$', s)]. *)
Definition negative_number_like (s : string) : bool :=
  match code_points s with
  | 45%N :: l =>
      let body := before_final_newline l in
      all_decimal body
      || match skip_decimal body with
         | 46%N :: fraction => all_decimal fraction
         | _ => false
         end
  | _ => false
  end.

(** ** [str(n)] *)

(** The decimal digits of [n], with its sign when it is negative. *)
Definition str_of_Z (n : Z) : string := NilZero.string_of_int (Z.to_int n).

(** The digits of a decimal number, the first one first. *)
Fixpoint uint_digits (u : uint) : list Z :=
  match u with
  | Nil => []
  | D0 u => 0%Z :: uint_digits u
  | D1 u => 1%Z :: uint_digits u
  | D2 u => 2%Z :: uint_digits u
  | D3 u => 3%Z :: uint_digits u
  | D4 u => 4%Z :: uint_digits u
  | D5 u => 5%Z :: uint_digits u
  | D6 u => 6%Z :: uint_digits u
  | D7 u => 7%Z :: uint_digits u
  | D8 u => 8%Z :: uint_digits u
  | D9 u => 9%Z :: uint_digits u
  end.

(** ** [int] reads what [str] writes *)

Lemma int_chars_of_uint u :
  int_char_of <$> code_points (NilEmpty.string_of_uint u) = IcDigit <$> uint_digits u.
Proof. induction u; simpl; [done|by f_equal..]. Qed.

Lemma length_uint_digits u : List.length (uint_digits u) = String.length (NilEmpty.string_of_uint u).
Proof. induction u; simpl; congruence. Qed.

(** The value, the count and the rest of [int_digits]. *)
Lemma triple_eq {A B C} (a a' : A) (b b' : B) (c : C) :
  a = a' → b = b' → (a, b, c) = (a', b', c).
Proof. by intros -> ->. Qed.

Lemma int_digits_of_uint u acc count :
  int_digits (IcDigit <$> uint_digits u) acc count
  = ((acc * 10 ^ Z.of_N (Unsigned.usize u) + Z.of_N (Unsigned.of_lu (rev u)))%Z,
     (count + List.length (uint_digits u))%nat, []).
Proof.
  revert acc count. induction u; intros acc count; simpl.
  { apply triple_eq; lia. }
  all: rewrite IHu; apply triple_eq; [|lia].
  all: remember (Z.of_N (Unsigned.of_lu (rev u))) as r eqn:Hr.
  all: unfold rev; simpl revapp; rewrite Unsigned.of_lu_revapp; fold (rev u).
  all: rewrite N2Z.inj_succ, Z.pow_succ_r, N2Z.inj_add, N2Z.inj_mul, N2Z.inj_pow by lia.
  all: rewrite <- Hr; simpl Z.of_N; ring.
Qed.

Lemma string_of_uint_nonnil u : u ≠ Nil → NilZero.string_of_uint u = NilEmpty.string_of_uint u.
Proof. by destruct u. Qed.

Lemma int_unsigned_digit d l :
  int_unsigned (IcDigit d :: l)
  = let '(value, count, rest) := int_digits (IcDigit d :: l) 0%Z 0 in
    if bool_decide (skip_spaces rest = [] ∧ count ≤ int_max_str_digits)
    then Some value else None.
Proof. reflexivity. Qed.

Lemma int_unsigned_of_uint u :
  u ≠ Nil →
  (String.length (NilEmpty.string_of_uint u) ≤ int_max_str_digits)%nat →
  int_unsigned (int_char_of <$> code_points (NilEmpty.string_of_uint u))
  = Some (Z.of_N (Pos.of_uint u)).
Proof.
  intros Hnil Hlen. rewrite int_chars_of_uint.
  assert (∃ d l, IcDigit <$> uint_digits u = IcDigit d :: l) as (d & l & Hl)
    by (destruct u; simpl; eauto; done).
  rewrite Hl, int_unsigned_digit, <- Hl, int_digits_of_uint, length_uint_digits.
  rewrite bool_decide_eq_true_2 by done.
  by rewrite <- Unsigned.of_uint_alt.
Qed.

Lemma py_int_str_unsigned s d l :
  int_char_of <$> code_points s = IcDigit d :: l →
  py_int_str s = int_unsigned (int_char_of <$> code_points s).
Proof. intros Hs. unfold py_int_str. by rewrite Hs. Qed.

Lemma py_int_str_minus s :
  py_int_str (String "-" s)
  = Z.opp <$> int_unsigned (int_char_of <$> code_points s).
Proof. reflexivity. Qed.

Lemma py_int_str_of_Z n :
  (String.length (str_of_Z (Z.abs n)) ≤ int_max_str_digits)%nat →
  py_int_str (str_of_Z n) = Some n.
Proof.
  destruct n as [|p|p]; intros Hlen; [by vm_compute|..]; unfold str_of_Z in *;
    simpl in Hlen; simpl Z.to_int; simpl NilZero.string_of_int;
    pose proof (Unsigned.to_uint_nonnil p) as Hnil;
    rewrite string_of_uint_nonnil in * by done.
  - assert (∃ d l, int_char_of <$> code_points (NilEmpty.string_of_uint (Pos.to_uint p))
                   = IcDigit d :: l) as (d & l & Hl)
      by (rewrite int_chars_of_uint; destruct (Pos.to_uint p); simpl; eauto; done).
    by rewrite (py_int_str_unsigned _ _ _ Hl), int_unsigned_of_uint, Unsigned.of_to.
  - by rewrite py_int_str_minus, int_unsigned_of_uint, Unsigned.of_to.
Qed.

(** ** The characters of a concatenation

    Bytes are decoded with the three bytes that follow them, so that
    the characters of [s +:+ t] are not those of [s] and of [t] in
    general; they are when [t] starts with a character of one byte. *)

Section encodable.
Implicit Types (a b c d : ascii) (s t : string).

Lemma code_points_cons a s :
  code_points (String a s)
  = if is_ascii a then N_of_ascii a :: code_points s
    else match s with
         | EmptyString => [escape a]
         | String b s2 =>
             match decode2 a b with
             | Some cp => cp :: code_points s2
             | None =>
                 match s2 with
                 | EmptyString => escape a :: code_points s
                 | String c s3 =>
                     match decode3 a b c with
                     | Some cp => cp :: code_points s3
                     | None =>
                         match s3 with
                         | EmptyString => escape a :: code_points s
                         | String d s4 =>
                             match decode4 a b c d with
                             | Some cp => cp :: code_points s4
                             | None => escape a :: code_points s
                             end
                         end
                     end
                 end
             end
         end.
Proof. done. Qed.

Lemma continuation_ascii a : is_ascii a = true → continuation a = None.
Proof.
  unfold is_ascii, continuation. intros H%N.ltb_lt.
  rewrite (proj2 (N.leb_gt _ _)); [done|lia].
Qed.

Lemma decode2_ascii a b : is_ascii b = true → decode2 a b = None.
Proof.
  intros H. unfold decode2. rewrite continuation_ascii by done. by destruct (_ && _).
Qed.

Lemma decode3_ascii a b c : is_ascii b = true ∨ is_ascii c = true → decode3 a b c = None.
Proof.
  intros H. unfold decode3. destruct (_ && _); [|done].
  destruct H as [H|H]; rewrite (continuation_ascii _ H); [done|by destruct (continuation b)].
Qed.

Lemma decode4_ascii a b c d :
  is_ascii b = true ∨ is_ascii c = true ∨ is_ascii d = true → decode4 a b c d = None.
Proof.
  intros H. unfold decode4. destruct (_ && _); [|done].
  destruct H as [H|[H|H]]; rewrite (continuation_ascii _ H);
    [done|by destruct (continuation b)|by destruct (continuation b), (continuation c)].
Qed.

Lemma code_points_app_lt n s b t :
  String.length s < n → is_ascii b = true →
  code_points (s +:+ String b t) = code_points s ++ code_points (String b t).
Proof.
  revert s. induction n as [|n IH]; [lia|]. intros [|a s] Hn Hb; [done|].
  rewrite str_app_cons, !(code_points_cons a). simpl in Hn.
  destruct (is_ascii a) eqn:Ha; [by rewrite IH by (done || lia)|].
  destruct s as [|x s].
  { rewrite str_app_nil_l, decode2_ascii by done.
    destruct t as [|c [|d t]]; [done| |]; rewrite decode3_ascii by auto; [done|].
    by rewrite decode4_ascii by auto. }
  rewrite str_app_cons. simpl in Hn.
  destruct (decode2 a x); [by rewrite IH by (done || lia)|].
  destruct s as [|y s].
  { rewrite str_app_nil_l, decode3_ascii by auto.
    rewrite <-(str_app_nil_l (String b t)), <-str_app_cons,
      (IH (String x "")) by (done || simpl; lia).
    destruct t as [|d t]; [done|]. by rewrite decode4_ascii by auto. }
  rewrite str_app_cons. simpl in Hn.
  destruct (decode3 a x y); [by rewrite IH by (done || lia)|].
  destruct s as [|z s].
  { rewrite str_app_nil_l, decode4_ascii by auto.
    by rewrite <-(str_app_nil_l (String b t)), <-!str_app_cons,
      (IH (String x (String y ""))) by (done || simpl; lia). }
  rewrite str_app_cons. simpl in Hn.
  destruct (decode4 a x y z); [by rewrite IH by (done || lia)|].
  by rewrite <-!str_app_cons, (IH (String x (String y (String z s)))) by (done || simpl; lia).
Qed.

Lemma code_points_app s t :
  ascii_headed t = true → code_points (s +:+ t) = code_points s ++ code_points t.
Proof.
  destruct t as [|b t]; simpl; intros Hb; [by rewrite str_app_nil_r, app_nil_r|].
  by apply (code_points_app_lt (S (String.length s))); [lia|].
Qed.

Lemma str_encodable_app s t :
  ascii_headed t = true → str_encodable (s +:+ t) = str_encodable s && str_encodable t.
Proof. intros Ht. unfold str_encodable. by rewrite code_points_app, forallb_app. Qed.

Lemma str_encodable_cons a s :
  is_ascii a = true → str_encodable (String a s) = str_encodable s.
Proof.
  intros Ha. unfold str_encodable. rewrite code_points_cons, Ha. simpl.
  unfold is_ascii in Ha. apply N.ltb_lt in Ha. unfold is_surrogate.
  by rewrite (proj2 (N.leb_gt _ _)) by lia.
Qed.

Lemma str_encodable_ascii s t :
  all_ascii s = true → str_encodable (s +:+ t) = str_encodable t.
Proof.
  induction s as [|a s IH]; [done|]. intros [Ha Hs]%andb_prop.
  by rewrite str_app_cons, str_encodable_cons, IH.
Qed.

Lemma ascii_headed_app s t :
  ascii_headed s = true → ascii_headed t = true → ascii_headed (s +:+ t) = true.
Proof. by destruct s. Qed.
End encodable.
