(* ===== verification/Types.v ===== *)
(** * Types: the data the program passes around

    The transcript fragment and the chunk are declared in [yts/types.py],
    which is outside [src/]; their fields are the ones [summarize.py]
    reads ([.text], [.start], [.duration]) and the prose specification
    lists.  The summary record is the dictionary [run] builds
    (summarize.py 102-107); [summary_json] is that dictionary as the
    JSON value [json.dumps] receives, and [json_getitem] the look-up
    [qa] makes in the value [json.load] returns.  [arg_value] is the
    type of [args.vid] and [args.source], which [argparse] can leave
    empty. *)

From stdpp Require Import base tactics list strings.
From Stdlib Require Import ZArith QArith.
From S2P Require Import Prelude PyData.
#[local] Close Scope Q_scope.

#[export] Instance Q_eq_dec : EqDecision Q.
Proof. solve_decision. Defined.

(** One entry of the transcript the transcript API returns:
    [{"text": ..., "start": ..., "duration": ...}]. *)
Record YoutubeTranscriptType : Type := mkTranscript {
  tr_text : string;
  tr_start : Q;
  tr_duration : Q;
}.

(** A chunk: consecutive fragments joined, with the time span they cover. *)
Record TranscriptChunkModel : Type := mkChunk {
  chunk_id : string;
  chunk_text : string;
  chunk_start : Q;
  chunk_duration : Q;
}.

(** The dictionary [summary] of [YoutubeSummarize.run]. *)
Record Summary : Type := mkSummary {
  s_url : string;
  s_title : string;
  s_detail : list string;
  s_concise : string;
}.

(** What [parse_args] leaves in the namespace for [--vid] and
    [--source] (__main__.py 52-53): the value of the option, or the
    empty list when the option was written with the argument [--]
    ([_get_values] in [Cli]).  The program hands either to whoever
    takes [args.vid] or [args.source]. *)
Inductive arg_value (A : Type) : Type :=
| Value (a : A)
| EmptyList.

Arguments Value {A} a.
Arguments EmptyList {A}.

#[export] Instance arg_value_eq_dec `{EqDecision A} : EqDecision (arg_value A).
Proof. solve_decision. Defined.

(** [f'{vid}']: a string as it is, the empty list as [str] writes it. *)
Definition format_vid (vid : arg_value string) : string :=
  match vid with
  | Value s => s
  | EmptyList => "[]"
  end.

(** A JSON value, as [json.load] returns it and [json.dumps] takes it.
    An object is the list of its members in order.  A number is kept as
    the literal that denotes it: Python holds the [int] or the [float]
    the literal is converted to, so that two literals of one number are
    two values here; the program prints what it loads and compares
    nothing. *)
#[local] Set Warnings "-register-all".
Inductive json : Type :=
| JNull
| JBool (b : bool)
| JNum (literal : string)
| JStr (s : string)
| JArr (items : list json)
| JObj (fields : list (string * json)).

(** Induction on a JSON value, with the hypothesis for every item of an
    array and every member of an object. *)
Section json_induction.
Variable P : json → Prop.
Hypothesis Hnull : P JNull.
Hypothesis Hbool : ∀ b, P (JBool b).
Hypothesis Hnum : ∀ literal, P (JNum literal).
Hypothesis Hstr : ∀ s, P (JStr s).
Hypothesis Harr : ∀ items, Forall P items → P (JArr items).
Hypothesis Hobj : ∀ members, Forall (fun kv => P (snd kv)) members → P (JObj members).

Fixpoint json_nested_ind (j : json) : P j :=
  match j with
  | JNull => Hnull
  | JBool b => Hbool b
  | JNum literal => Hnum literal
  | JStr s => Hstr s
  | JArr items =>
      Harr items
        ((fix go (l : list json) : Forall P l :=
            match l with
            | [] => List.Forall_nil P
            | x :: l1 => List.Forall_cons P x l1 (json_nested_ind x) (go l1)
            end) items)
  | JObj members =>
      Hobj members
        ((fix go (l : list (string * json)) : Forall (fun kv => P (snd kv)) l :=
            match l with
            | [] => List.Forall_nil _
            | kv :: l1 => List.Forall_cons _ kv l1 (json_nested_ind (snd kv)) (go l1)
            end) members)
  end.
End json_induction.

#[export] Instance json_eq_dec : EqDecision json.
Proof.
  refine (fix go (x y : json) {struct x} : Decision (x = y) :=
    match x, y with
    | JNull, JNull => left eq_refl
    | JBool a, JBool b => cast_if (decide (a = b))
    | JNum a, JNum b => cast_if (decide (a = b))
    | JStr a, JStr b => cast_if (decide (a = b))
    | JArr a, JArr b => cast_if (@decide (a = b) (@list_eq_dec _ go a b))
    | JObj a, JObj b =>
        cast_if (@decide (a = b) (@list_eq_dec _ (@prod_eq_dec _ _ _ go) a b))
    | _, _ => right _
    end); congruence.
Defined.

(** The containers nested in a value. *)
Fixpoint nesting (j : json) : nat :=
  match j with
  | JArr items => S (max_list (map nesting items))
  | JObj members => S (max_list (map (fun kv => nesting (snd kv)) members))
  | _ => 0
  end.

(** The dictionary literal of summarize.py 102-107 as a JSON value: the
    four keys in the order of the literal. *)
Definition summary_json (s : Summary) : json :=
  JObj [("url", JStr (s_url s)); ("title", JStr (s_title s));
        ("detail", JArr (JStr <$> s_detail s)); ("concise", JStr (s_concise s))].

(** The texts of a summary: the strings [json.dumps] writes for it. *)
Definition summary_texts (s : Summary) : list string :=
  s_url s :: s_title s :: s_concise s :: s_detail s.

(** [d[key]] on a value [json.load] returned: [KeyError] when the object
    has no such key, [TypeError] when the value is not an object. *)
Definition json_getitem (j : json) (key : string) : PyResult json :=
  match j with
  | JObj fields =>
      res_of_option (KeyError key)
        (snd <$> last (filter (fun kv => kv.1 = key) fields))
  | _ => Raise TypeError
  end.

#[export] Instance YoutubeTranscriptType_eq_dec : EqDecision YoutubeTranscriptType.
Proof. solve_decision. Defined.

#[export] Instance TranscriptChunkModel_eq_dec : EqDecision TranscriptChunkModel.
Proof. solve_decision. Defined.

#[export] Instance Summary_eq_dec : EqDecision Summary.
Proof. solve_decision. Defined.

(** [[Document(page_content=chunk.text) for chunk in chunks]]: the
    documents a chain call receives are the texts of the chunks, in order. *)
Definition documents_of (chunks : list TranscriptChunkModel) : list string :=
  chunk_text <$> chunks.

(** The end time of a chunk: [start + duration]. *)
Definition chunk_end (tc : TranscriptChunkModel) : Q :=
  (chunk_start tc + chunk_duration tc)%Q.

(** ** Lemmas *)

Lemma JStr_fmap_inj (l1 l2 : list string) : JStr <$> l1 = JStr <$> l2 → l1 = l2.
Proof.
  revert l2. induction l1 as [|x l1 IH]; intros [|y l2]; simpl; try done.
  intros [= -> ?]. f_equal. by apply IH.
Qed.

(** The JSON value holds the whole summary. *)
Lemma summary_json_inj (s1 s2 : Summary) : summary_json s1 = summary_json s2 → s1 = s2.
Proof.
  destruct s1, s2. unfold summary_json. simpl.
  intros [= -> -> ?%JStr_fmap_inj ->]. by subst.
Qed.

Lemma summary_json_concise (s : Summary) :
  json_getitem (summary_json s) "concise" = Ok (JStr (s_concise s)).
Proof. reflexivity. Qed.
