(* ===== verification/Json.v ===== *)
(** * Json: [json.dumps] and [json.load]

    [run] stores the summary with [json.dumps(summary,
    ensure_ascii=False)] (summarize.py 112) and [qa] reads it back with
    [json.load] (__main__.py 22).  Both are modelled as the C
    implementation of CPython 3.11 runs them with the default options:
    the encoder writes the separators [", "] and [": "] and escapes
    the quote, the backslash and the control characters only; the decoder
    is the scanner of [_json.c] (strings with their escapes and surrogate
    pairs, numbers, the constants [NaN], [Infinity] and [-Infinity],
    arrays and objects, a dictionary keeping one member per key) and
    raises [JSONDecodeError], [RecursionError] when containers are nested
    deeper than the interpreter has frames left, and [ValueError] on an
    integer of more than 4300 digits.

    The strings are bytes ([PyText]), and every character the format
    gives a meaning to is ASCII, so the scanner reads bytes.  A number is
    kept as its literal ([Types.json]).  The scanner recurses on a
    number of steps, two per byte of the text, which [scan_once_total]
    shows to be enough.

    The theorems: the round trip [json_loads_dumps]; the values read are
    well formed ([json_loads_sound], by [scan_sound] on the three
    mutual functions of the scanner and [match_number_cut] on the
    numbers); the text written is UTF-8 when the strings are
    ([json_dumps_encodable]). *)

From stdpp Require Import base tactics option list strings.
From Stdlib Require Import Ascii String ZArith NArith Lia.
From S2P Require Import Prelude PyData PyStr PyText Types.

(** ** Characters *)

Definition is_char (code : N) (a : ascii) : bool := (N_of_ascii a =? code)%N.

Definition quote_char : ascii := ascii_of_N 34.
Definition nl_text : string := String (ascii_of_N 10) "".
Definition backslash_char : ascii := ascii_of_N 92.

(** [Py_hexdigits[n]] *)
Definition hexdigit (n : N) : ascii :=
  ascii_of_N (if (n <? 10)%N then 48 + n else 87 + n).

(** The value of a hexadecimal digit, of either case. *)
Definition hex_value (a : ascii) : option N :=
  let n := N_of_ascii a in
  if (48 <=? n)%N && (n <=? 57)%N then Some (n - 48)%N
  else if (97 <=? n)%N && (n <=? 102)%N then Some (n - 87)%N
  else if (65 <=? n)%N && (n <=? 70)%N then Some (n - 55)%N
  else None.

(** The four digits of a [\uXXXX] escape. *)
Definition hex4 (a b c d : ascii) : option N :=
  x ← hex_value a; y ← hex_value b; z ← hex_value c; w ← hex_value d;
  Some (((x * 16 + y) * 16 + z) * 16 + w)%N.

Definition is_digit (a : ascii) : bool :=
  (48 <=? N_of_ascii a)%N && (N_of_ascii a <=? 57)%N.

(** [IS_WHITESPACE]: space, tab, line feed, carriage return. *)
Definition is_whitespace (a : ascii) : bool :=
  is_char 32 a || is_char 9 a || is_char 10 a || is_char 13 a.

Fixpoint skip_whitespace (s : string) : string :=
  match s with
  | String a s1 => if is_whitespace a then skip_whitespace s1 else s
  | EmptyString => s
  end.

(** The text after the character [code], when the text starts with it. *)
Definition expect (code : N) (s : string) : option string :=
  match s with
  | String a s1 => if is_char code a then Some s1 else None
  | EmptyString => None
  end.

(** The text after [word], when the text starts with it. *)
Fixpoint after_word (word s : string) : option string :=
  match word, s with
  | EmptyString, _ => Some s
  | String a word1, String b s1 => if Ascii.eqb a b then after_word word1 s1 else None
  | String _ _, EmptyString => None
  end.

(** ** The encoder *)

(** One character of a string ([escape_unicode] of [_json.c]). *)
Definition escape_char (a : ascii) : string :=
  let n := N_of_ascii a in
  if (n =? 92)%N then String backslash_char (String backslash_char "")
  else if (n =? 34)%N then String backslash_char (String quote_char "")
  else if (n =? 8)%N then String backslash_char "b"
  else if (n =? 12)%N then String backslash_char "f"
  else if (n =? 10)%N then String backslash_char "n"
  else if (n =? 13)%N then String backslash_char "r"
  else if (n =? 9)%N then String backslash_char "t"
  else if (n <=? 31)%N
  then String backslash_char
         ("u00" +:+ String (hexdigit (n / 16)) (String (hexdigit (n mod 16)) ""))
  else String a "".

Fixpoint escape_unicode (s : string) : string :=
  match s with
  | String a s1 => escape_char a +:+ escape_unicode s1
  | EmptyString => ""
  end.

(** [encode_basestring(s)]: the string between quotes. *)
Definition encode_basestring (s : string) : string :=
  String quote_char (escape_unicode s +:+ String quote_char "").

(** [json.dumps(j, ensure_ascii=False)]. *)
Fixpoint json_dumps (j : json) : string :=
  match j with
  | JNull => "null"
  | JBool true => "true"
  | JBool false => "false"
  | JNum literal => literal
  | JStr s => encode_basestring s
  | JArr items => "[" +:+ String.concat ", " (map json_dumps items) +:+ "]"
  | JObj members =>
      "{" +:+ String.concat ", "
                (map (fun kv => encode_basestring (fst kv) +:+ ": " +:+ json_dumps (snd kv))
                   members) +:+ "}"
  end.

(** ** The decoder: strings *)

Definition is_high_surrogate (c : N) : bool := (55296 <=? c)%N && (c <=? 56319)%N.
Definition is_low_surrogate (c : N) : bool := (56320 <=? c)%N && (c <=? 57343)%N.

(** [Py_UNICODE_JOIN_SURROGATES] *)
Definition join_surrogates (c c2 : N) : N :=
  (65536 + ((c - 55296) * 1024 + (c2 - 56320)))%N.

(** The decoded string with the character [c] in front. *)
Definition with_char (c : N) (r : PyResult (string * string)) : PyResult (string * string) :=
  '(str, rest) ← r; Ok (utf8_encode c +:+ str, rest).

(** [scanstring(s, end, strict=True)], on the text after the opening
    quote: the string and the text after the closing quote. *)
Fixpoint scanstring (s : string) : PyResult (string * string) :=
  match s with
  | EmptyString => Raise JSONDecodeError
  | String a s1 =>
      if is_char 34 a then Ok ("", s1)
      else if is_char 92 a then
        match s1 with
        | EmptyString => Raise JSONDecodeError
        | String b s2 =>
            if is_char 117 b then
              match s2 with
              | String h1 (String h2 (String h3 (String h4 s3))) =>
                  match hex4 h1 h2 h3 h4 with
                  | None => Raise JSONDecodeError
                  | Some c =>
                      if is_high_surrogate c then
                        match s3 with
                        | String e1 (String e2 (String g1 (String g2 (String g3
                            (String g4 s4))))) =>
                            if is_char 92 e1 && is_char 117 e2 then
                              match hex4 g1 g2 g3 g4 with
                              | None => Raise JSONDecodeError
                              | Some c2 =>
                                  if is_low_surrogate c2
                                  then with_char (join_surrogates c c2) (scanstring s4)
                                  else with_char c (scanstring s3)
                              end
                            else with_char c (scanstring s3)
                        | _ => with_char c (scanstring s3)
                        end
                      else with_char c (scanstring s3)
                  end
              | _ => Raise JSONDecodeError
              end
            else
              let unescaped (c : N) := with_char c (scanstring s2) in
              if is_char 34 b || is_char 92 b || is_char 47 b then unescaped (N_of_ascii b)
              else if is_char 98 b then unescaped 8%N
              else if is_char 102 b then unescaped 12%N
              else if is_char 110 b then unescaped 10%N
              else if is_char 114 b then unescaped 13%N
              else if is_char 116 b then unescaped 9%N
              else Raise JSONDecodeError
        end
      else if (N_of_ascii a <=? 31)%N then Raise JSONDecodeError
      else '(str, rest) ← scanstring s1; Ok (String a str, rest)
  end.

(** ** The decoder: numbers *)

(** The digits a text starts with, and what follows them. *)
Fixpoint span_digits (s : string) : string * string :=
  match s with
  | String a s1 =>
      if is_digit a then let '(ds, rest) := span_digits s1 in (String a ds, rest)
      else ("", s)
  | EmptyString => ("", "")
  end.

(** An optional sign, one of the two characters. *)
Definition span_sign (code1 code2 : N) (s : string) : string * string :=
  match s with
  | String a s1 => if is_char code1 a || is_char code2 a then (String a "", s1) else ("", s)
  | EmptyString => ("", s)
  end.

(** The integer part: [0], or digits that do not start with [0]. *)
Definition match_integer (s : string) : option (string * string) :=
  match s with
  | String a s1 =>
      if is_char 48 a then Some (String a "", s1)
      else if is_digit a then let '(ds, rest) := span_digits s1 in Some (String a ds, rest)
      else None
  | EmptyString => None
  end.

(** The fraction: a point and at least one digit. *)
Definition match_fraction (s : string) : string * string :=
  match s with
  | String a (String b s2) =>
      if is_char 46 a && is_digit b
      then let '(ds, rest) := span_digits s2 in (String a (String b ds), rest)
      else ("", s)
  | _ => ("", s)
  end.

(** The exponent: [e] or [E], an optional sign and at least one digit. *)
Definition match_exponent (s : string) : string * string :=
  match s with
  | String a s1 =>
      if is_char 101 a || is_char 69 a then
        let '(sign, s2) := span_sign 45 43 s1 in
        let '(ds, rest) := span_digits s2 in
        if bool_decide (ds = "") then ("", s) else (String a (sign +:+ ds), rest)
      else ("", s)
  | EmptyString => ("", s)
  end.

(** [_match_number_unicode]: the literal, whether it is that of a float,
    the digits of its integer part and the text after it. *)
Definition match_number (s : string) : option (string * bool * nat * string) :=
  let '(sign, s1) := span_sign 45 45 s in
  '(int, s2) ← match_integer s1;
  let '(frac, s3) := match_fraction s2 in
  let '(exp, s4) := match_exponent s3 in
  Some (sign +:+ int +:+ frac +:+ exp,
        negb (bool_decide (frac = "") && bool_decide (exp = "")),
        String.length int, s4).

(** The exception of [int] on a literal of [digits] digits, past the
    limit. *)
Definition int_limit_error (digits : nat) : exn :=
  ValueError ("Exceeds the limit (4300 digits) for integer string conversion: value has "
              +:+ str_of_Z (Z.of_nat digits)
              +:+ " digits; use sys.set_int_max_str_digits() to increase the limit").

(** The number at the start of a text; [StopIteration] when there is
    none. *)
Definition scan_number (s : string) : PyResult (json * string) :=
  match match_number s with
  | None => Raise StopIteration
  | Some (literal, is_float, digits, rest) =>
      if negb is_float && bool_decide (int_max_str_digits < digits)%nat
      then Raise (int_limit_error digits)
      else Ok (JNum literal, rest)
  end.

(** ** The decoder: values *)

(** [d[key] = value] on the members of a dictionary: the value of a key
    that is there is replaced where it is. *)
Fixpoint dict_set (key : string) (value : json) (members : list (string * json))
  : list (string * json) :=
  match members with
  | [] => [(key, value)]
  | (k, v) :: members1 =>
      if bool_decide (k = key) then (k, value) :: members1
      else (k, v) :: dict_set key value members1
  end.

(** The dictionary of the members read, in the order they were read. *)
Definition dict_of (members : list (string * json)) : list (string * json) :=
  foldl (fun d kv => dict_set (fst kv) (snd kv) d) [] members.

(** The constants and the numbers ([scan_once_unicode] without its
    cases for strings and containers). *)
Definition scan_atom (s : string) : PyResult (json * string) :=
  match s with
  | EmptyString => Raise StopIteration
  | String a _ =>
      let constant (word : string) (j : json) :=
        match after_word word s with
        | Some rest => Ok (j, rest)
        | None => scan_number s
        end in
      if is_char 110 a then constant "null" JNull
      else if is_char 116 a then constant "true" (JBool true)
      else if is_char 102 a then constant "false" (JBool false)
      else if is_char 78 a then constant "NaN" (JNum "NaN")
      else if is_char 73 a then constant "Infinity" (JNum "Infinity")
      else if is_char 45 a then constant "-Infinity" (JNum "-Infinity")
      else scan_number s
  end.

(** [raise_errmsg]: the scanner builds a [JSONDecodeError] where it
    stands, which takes three frames of the interpreter; [depth] is the
    number of frames left. *)
Definition raise_errmsg (depth : nat) : exn :=
  if bool_decide (depth < 3)%nat then RecursionError else JSONDecodeError.

(** [scan_once_unicode], [_parse_array_unicode] after the first
    bracket and [_parse_object_unicode] after the first brace: the value
    and the text after it.  [depth] is the number of frames left, one
    per container that is entered; [None] when the steps are used up. *)
Fixpoint scan_once (steps depth : nat) (s : string) {struct steps}
  : option (PyResult (json * string)) :=
  match steps with
  | 0 => None
  | S steps =>
      match s with
      | EmptyString => Some (Raise StopIteration)
      | String a s1 =>
          if is_char 34 a then
            match scanstring s1 with
            | Raise _ => Some (Raise (raise_errmsg depth))
            | Ok (str, rest) => Some (Ok (JStr str, rest))
            end
          else if is_char 123 a then
            match depth with
            | 0 => Some (Raise RecursionError)
            | S depth =>
                match expect 125 (skip_whitespace s1) with
                | Some rest => Some (Ok (JObj [], rest))
                | None =>
                    r ← parse_members steps depth (skip_whitespace s1);
                    Some ('(members, rest) ← r; Ok (JObj (dict_of members), rest))
                end
            end
          else if is_char 91 a then
            match depth with
            | 0 => Some (Raise RecursionError)
            | S depth =>
                match expect 93 (skip_whitespace s1) with
                | Some rest => Some (Ok (JArr [], rest))
                | None =>
                    r ← parse_items steps depth (skip_whitespace s1);
                    Some ('(items, rest) ← r; Ok (JArr items, rest))
                end
            end
          else Some (scan_atom s)
      end
  end
with parse_items (steps depth : nat) (s : string) {struct steps}
  : option (PyResult (list json * string)) :=
  match steps with
  | 0 => None
  | S steps =>
      r ← scan_once steps depth s;
      match r with
      | Raise e => Some (Raise e)
      | Ok (item, s1) =>
          match skip_whitespace s1 with
          | EmptyString => Some (Raise (raise_errmsg depth))
          | String a s2 =>
              if is_char 93 a then Some (Ok ([item], s2))
              else if is_char 44 a then
                r ← parse_items steps depth (skip_whitespace s2);
                Some ('(items, rest) ← r; Ok (item :: items, rest))
              else Some (Raise (raise_errmsg depth))
          end
      end
  end
with parse_members (steps depth : nat) (s : string) {struct steps}
  : option (PyResult (list (string * json) * string)) :=
  match steps with
  | 0 => None
  | S steps =>
      match expect 34 s with
      | None => Some (Raise (raise_errmsg depth))
      | Some s1 =>
          match scanstring s1 with
          | Raise _ => Some (Raise (raise_errmsg depth))
          | Ok (key, s2) =>
              match expect 58 (skip_whitespace s2) with
              | None => Some (Raise (raise_errmsg depth))
              | Some s3 =>
                  r ← scan_once steps depth (skip_whitespace s3);
                  match r with
                  | Raise e => Some (Raise e)
                  | Ok (value, s4) =>
                      match skip_whitespace s4 with
                      | EmptyString => Some (Raise (raise_errmsg depth))
                      | String a s5 =>
                          if is_char 125 a then Some (Ok ([(key, value)], s5))
                          else if is_char 44 a then
                            r ← parse_members steps depth (skip_whitespace s5);
                            Some ('(members, rest) ← r;
                                  Ok ((key, value) :: members, rest))
                          else Some (Raise (raise_errmsg depth))
                      end
                  end
              end
          end
      end
  end.

(** The steps [json_loads] gives the scanner: two per byte and one. *)
Definition scan_steps (s : string) : nat := 2 * String.length s + 1.

(** [json.loads(s)]: no byte order mark, one value between whitespace
    and nothing after it.  [depth] is the number of frames the
    interpreter has left where the decoder calls the scanner.  The
    [StopIteration] of the scanner becomes a [JSONDecodeError], built in
    [raw_decode] with two frames; the error for what follows the value
    is built in [decode], one frame above. *)
Definition json_loads (depth : nat) (s : string) : PyResult json :=
  if bool_decide (is_Some (after_word (utf8_encode 65279) s)) then Raise JSONDecodeError
  else
    match scan_once (scan_steps s) depth (skip_whitespace s) with
    | Some (Ok (j, rest)) =>
        if bool_decide (skip_whitespace rest = "") then Ok j
        else if bool_decide (depth < 1)%nat then Raise RecursionError
        else Raise JSONDecodeError
    | Some (Raise StopIteration) | None =>
        if bool_decide (depth < 2)%nat then Raise RecursionError else Raise JSONDecodeError
    | Some (Raise e) => Raise e
    end.

(** ** The values that are written and read back *)

(** What may follow a number: nothing, or a character that is not part
    of one. *)
Definition delimited (rest : string) : bool :=
  match rest with
  | EmptyString => true
  | String a _ => negb (is_digit a || is_char 46 a || is_char 101 a || is_char 69 a)
  end.

(** The literals of numbers: those the scanner reads as a whole, and the
    three constants. *)
Definition number_literal (literal : string) : bool :=
  bool_decide (literal ∈ ["NaN"; "Infinity"; "-Infinity"])
  || bool_decide (scan_number literal = Ok (JNum literal, "")).

(** The values [json.load] can return: numbers that are written as the
    scanner reads them, objects without two members of one key. *)
Fixpoint json_wf (j : json) : bool :=
  match j with
  | JNum literal => number_literal literal
  | JArr items => forallb json_wf items
  | JObj members =>
      bool_decide (NoDup (map fst members)) && forallb (fun kv => json_wf (snd kv)) members
  | _ => true
  end.

(** The values whose strings, keys and number literals have a UTF-8. *)
Definition member_encodable (encodable : json → bool) (kv : string * json) : bool :=
  str_encodable (fst kv) && encodable (snd kv).

Fixpoint json_encodable (j : json) : bool :=
  match j with
  | JNum literal => str_encodable literal
  | JStr s => str_encodable s
  | JArr items => forallb json_encodable items
  | JObj members => forallb (member_encodable json_encodable) members
  | _ => true
  end.

(** What may follow the integer part of a number, and what an exponent
    starts with. *)
Definition undigit (s : string) : bool :=
  match s with
  | EmptyString => true
  | String a _ => negb (is_digit a)
  end.

Definition exponent_head (s : string) : bool :=
  match s with
  | EmptyString => true
  | String a _ => is_char 101 a || is_char 69 a
  end.

(** What [json.load] returns with [d] frames left: a value that is well
    formed and nested [d] deep at most. *)
Definition value_ok (d : nat) (j : json) : Prop := json_wf j = true ∧ nesting j ≤ d.

(** A property of what a scanner returns, when it returns. *)
Definition returns {A} (P : A → Prop) (r : option (PyResult (A * string))) : Prop :=
  ∀ x rest, r = Some (Ok (x, rest)) → P x.

(** A value that was read is at least one byte of the text. *)
Definition progress {A} (s : string) (r : option (PyResult (A * string))) : Prop :=
  ∀ x rest, r = Some (Ok (x, rest)) → String.length rest < String.length s.

(** The first character of a written value: no whitespace, no closing
    bracket, and an ASCII character. *)
Definition value_head (a : ascii) : bool :=
  negb (is_whitespace a || is_char 93 a || is_char 125 a) && (N_of_ascii a <? 128)%N.

(** The first character of an atom: a value head that opens neither a
    string nor a container. *)
Definition atom_head (a : ascii) : bool :=
  value_head a && negb (is_char 34 a || is_char 123 a || is_char 91 a).

(** A text that starts with the first character of a value. *)
Definition headed (s : string) : Prop := ∃ a s1, s = String a s1 ∧ value_head a = true.

(** A value of the examples: strings with a quote, a backslash and a
    line feed, numbers, constants. *)
Definition sample_value : json :=
  JObj [("title", JStr ("a " +:+ String quote_char ("b" +:+ String backslash_char nl_text)));
        ("detail", JArr [JStr "x"; JNum "-1.5e3"; JNum "0"; JNull; JBool true; JObj []])].

(** A text of the examples, with a key twice, and the value it is
    read as. *)
Definition sample_text : string :=
  " [1, {" +:+ encode_basestring "a" +:+ ": -2.5e3, " +:+ encode_basestring "a"
  +:+ ": null}, true] ".

Definition sample_read : json := JArr [JNum "1"; JObj [("a", JNull)]; JBool true].

(** What is written is read back, with the text that follows. *)
Definition reads (j : json) : Prop :=
  ∀ d rest, json_wf j = true → nesting j ≤ d → delimited rest = true →
    ∃ n, scan_once n d (json_dumps j +:+ rest) = Some (Ok (j, rest)).

Definition member_text (kv : string * json) : string :=
  encode_basestring (fst kv) +:+ ": " +:+ json_dumps (snd kv).

(** ** Lemmas on the scanner *)

Section scanner_lemmas.
Implicit Types (s rest str tail : string) (j : json) (d n : nat).

Lemma str_length_app s t : String.length (s +:+ t) = String.length s + String.length t.
Proof. induction s as [|a s IH]; simpl; [done|]. by rewrite IH. Qed.

Lemma skip_whitespace_length s : String.length (skip_whitespace s) ≤ String.length s.
Proof. induction s as [|a s IH]; simpl; [done|]. case_match; simpl; lia. Qed.

Lemma expect_length code s s1 :
  expect code s = Some s1 → String.length s = S (String.length s1).
Proof. destruct s as [|a s]; simpl; [done|]. case_match; naive_solver. Qed.

Lemma after_word_length word s rest :
  after_word word s = Some rest → String.length s = String.length word + String.length rest.
Proof.
  revert s. induction word as [|a word IH]; intros [|b s]; simpl; try naive_solver.
  case_match; [|done]. intros ?%IH. lia.
Qed.

Lemma with_char_Ok c r str rest :
  with_char c r = Ok (str, rest) → ∃ str1, r = Ok (str1, rest) ∧ str = utf8_encode c +:+ str1.
Proof. destruct r as [[str1 rest1]|e]; [|done]. intros [= <- <-]. by exists str1. Qed.

Lemma scanstring_inv s str rest :
  scanstring s = Ok (str, rest) →
  (∃ a, s = String a rest ∧ is_char 34 a = true ∧ str = "")
  ∨ (∃ s1 bytes str1, scanstring s1 = Ok (str1, rest) ∧ str = bytes +:+ str1
       ∧ String.length s1 < String.length s).
Proof.
  destruct s as [|a s]; [done|]. cbn [scanstring].
  repeat case_match; try done.
  all: try (intros [= <- <-]; left; by eexists).
  all: try (intros (str1 & Hs & ->)%with_char_Ok; right; eexists _, _, _;
            split_and!; [done..|subst; simpl; lia]).
  intros ([] & Hs & [= <- <-])%bind_Ok_inv. right.
  eexists _, (String a ""), _. split_and!; [done..|simpl; lia].
Qed.

Lemma scanstring_length s str rest :
  scanstring s = Ok (str, rest) → String.length rest < String.length s.
Proof.
  remember (String.length s) as n eqn:Hn. revert s str Hn.
  induction (lt_wf n) as [n _ IH]. intros s str -> Hs.
  apply scanstring_inv in Hs as [(a & -> & _)|(s1 & bytes & str1 & Hs & _ & Hlt)];
    [simpl; lia|].
  specialize (IH _ Hlt s1 str1 eq_refl Hs). lia.
Qed.

(** The matchers of a number split the text. *)
Lemma span_digits_app s ds rest : span_digits s = (ds, rest) → s = ds +:+ rest.
Proof.
  revert ds. induction s as [|a s IH]; intros ds; simpl; [by intros [= <- <-]|].
  case_match; [|by intros [= <- <-]].
  destruct (span_digits s) as [ds1 rest1]. intros [= <- <-]. simpl. by rewrite (IH ds1).
Qed.

Lemma span_sign_app c1 c2 s sign rest : span_sign c1 c2 s = (sign, rest) → s = sign +:+ rest.
Proof. destruct s as [|a s]; simpl; [by intros [= <- <-]|]. case_match; by intros [= <- <-]. Qed.

Lemma match_integer_app s int rest :
  match_integer s = Some (int, rest) → s = int +:+ rest ∧ int ≠ "".
Proof.
  destruct s as [|a s]; simpl; [done|]. case_match; [by intros [= <- <-]|].
  case_match; [|done]. destruct (span_digits s) as [ds rest1] eqn:Hds.
  intros [= <- <-]. simpl. by rewrite (span_digits_app _ _ _ Hds).
Qed.

Lemma match_fraction_app s frac rest : match_fraction s = (frac, rest) → s = frac +:+ rest.
Proof.
  destruct s as [|a [|b s]]; simpl; try by intros [= <- <-].
  case_match; [|by intros [= <- <-]]. destruct (span_digits s) as [ds rest1] eqn:Hds.
  intros [= <- <-]. simpl. by rewrite (span_digits_app _ _ _ Hds).
Qed.

Lemma match_exponent_app s exp rest : match_exponent s = (exp, rest) → s = exp +:+ rest.
Proof.
  destruct s as [|a s]; simpl; [by intros [= <- <-]|]. case_match; [|by intros [= <- <-]].
  destruct (span_sign 45 43 s) as [sign s2] eqn:Hsign.
  destruct (span_digits s2) as [ds rest1] eqn:Hds.
  apply span_sign_app in Hsign as ->. apply span_digits_app in Hds as ->.
  case_bool_decide; intros [= <- <-]; [done|]. simpl.
  by rewrite str_app_cons, str_app_assoc.
Qed.

Lemma match_number_app s literal is_float digits rest :
  match_number s = Some (literal, is_float, digits, rest) →
  s = literal +:+ rest ∧ literal ≠ "".
Proof.
  unfold match_number. destruct (span_sign 45 45 s) as [sign s1] eqn:Hsign.
  destruct (match_integer s1) as [[int s2]|] eqn:Hint; [|done]. simpl.
  destruct (match_fraction s2) as [frac s3] eqn:Hfrac.
  destruct (match_exponent s3) as [exp s4] eqn:Hexp. intros [= <- <- <- <-].
  apply span_sign_app in Hsign as ->. apply match_integer_app in Hint as [-> Hne].
  apply match_fraction_app in Hfrac as ->. apply match_exponent_app in Hexp as ->.
  split; [by rewrite !str_app_assoc|]. destruct sign, int; done.
Qed.

Lemma str_app_length_lt s t : s ≠ "" → String.length t < String.length (s +:+ t).
Proof. destruct s; [done|]. rewrite str_length_app. simpl. lia. Qed.

Lemma scan_number_length s j rest :
  scan_number s = Ok (j, rest) → String.length rest < String.length s.
Proof.
  unfold scan_number. destruct (match_number s) as [[[[lit fl] dg] r]|] eqn:Hm; [|done].
  apply match_number_app in Hm as [-> Hne]. case_match; [done|].
  intros [= <- <-]. by apply str_app_length_lt.
Qed.

Lemma scan_atom_length s j rest :
  scan_atom s = Ok (j, rest) → String.length rest < String.length s.
Proof.
  destruct s as [|a s]; [done|]. unfold scan_atom.
  repeat case_match; try apply scan_number_length;
    intros [= <- <-]; simplify_eq;
    match goal with H : after_word _ _ = Some _ |- _ => apply after_word_length in H; simpl in *; lia end.
Qed.

Lemma progress_bind {A B} s (r : option (PyResult (A * string))) (f : A → B) s0 :
  String.length s0 ≤ String.length s →
  progress s0 r →
  progress s (r0 ← r; Some ('(x, rest) ← r0; Ok (f x, rest))).
Proof.
  intros Hle Hr y rest. destruct r as [[[x rest1]|e]|]; [|done..].
  simpl. intros ?; simplify_eq. specialize (Hr _ _ eq_refl). lia.
Qed.

Lemma scan_progress n :
  (∀ d s, progress s (scan_once n d s))
  ∧ (∀ d s, progress s (parse_items n d s))
  ∧ (∀ d s, progress s (parse_members n d s)).
Proof.
  induction n as [|n (IH1 & IH2 & IH3)]; [by split_and!|].
  split_and!; intros d s; cbn [scan_once parse_items parse_members].
  - destruct s as [|a s1]; [done|].
    pose proof (skip_whitespace_length s1).
    repeat case_match; try done; subst.
    all: try (eapply progress_bind; [|by auto]; simpl; lia).
    all: intros x rest ?; simplify_eq; simpl.
    all: try match goal with H : scanstring _ = Ok _ |- _ => apply scanstring_length in H; lia end.
    all: try match goal with H : expect _ _ = Some _ |- _ => apply expect_length in H; lia end.
    all: try match goal with H : scan_atom _ = Ok _ |- _ => apply scan_atom_length in H; simpl in H; lia end.
  - pose proof (IH1 d s) as H1. destruct (scan_once n d s) as [[[item s1]|e]|]; [|done..].
    specialize (H1 _ _ eq_refl). simpl. pose proof (skip_whitespace_length s1).
    destruct (skip_whitespace s1) as [|a s2] eqn:Hs2; [done|].
    pose proof (skip_whitespace_length s2). simpl in *.
    repeat case_match; try done.
    + intros x rest ?; simplify_eq. lia.
    + eapply progress_bind; [|by auto]. lia.
  - destruct (expect 34 s) as [s1|] eqn:H1; [|done]. apply expect_length in H1.
    destruct (scanstring s1) as [[key s2]|e] eqn:H2; [|done]. apply scanstring_length in H2.
    pose proof (skip_whitespace_length s2).
    destruct (expect 58 (skip_whitespace s2)) as [s3|] eqn:H3; [|done].
    apply expect_length in H3. pose proof (skip_whitespace_length s3).
    pose proof (IH1 d (skip_whitespace s3)) as H4.
    destruct (scan_once n d (skip_whitespace s3)) as [[[value s4]|e]|]; [|done..].
    specialize (H4 _ _ eq_refl). simpl. pose proof (skip_whitespace_length s4).
    destruct (skip_whitespace s4) as [|a s5] eqn:Hs5; [done|].
    pose proof (skip_whitespace_length s5). simpl in *.
    repeat case_match; try done.
    + intros x rest ?; simplify_eq. lia.
    + eapply progress_bind; [|by auto]. lia.
Qed.

(** Two steps per byte are enough. *)
Lemma is_Some_bind_Some {A B} (r : option A) (f : A → B) :
  is_Some r → is_Some (x ← r; Some (f x)).
Proof. by intros [x ->]. Qed.

Lemma scan_total n :
  (∀ d s, 2 * String.length s < n → is_Some (scan_once n d s))
  ∧ (∀ d s, 2 * String.length s + 1 < n → is_Some (parse_items n d s))
  ∧ (∀ d s, 2 * String.length s + 1 < n → is_Some (parse_members n d s)).
Proof.
  induction n as [|n (IH1 & IH2 & IH3)]; [split_and!; intros; lia|].
  split_and!; intros d s Hn; cbn [scan_once parse_items parse_members].
  - destruct s as [|a s1]; [done|]. pose proof (skip_whitespace_length s1). simpl in Hn.
    repeat case_match; try done; apply is_Some_bind_Some; auto with lia.
  - destruct (IH1 d s) as [r Hr]; [lia|]. rewrite Hr. simpl.
    destruct r as [[item s1]|e]; [|done].
    apply (scan_progress n) in Hr. pose proof (skip_whitespace_length s1).
    destruct (skip_whitespace s1) as [|a s2]; [done|].
    pose proof (skip_whitespace_length s2). simpl in *.
    repeat case_match; try done. apply is_Some_bind_Some, IH2. lia.
  - destruct (expect 34 s) as [s1|] eqn:H1; [|done]. apply expect_length in H1.
    destruct (scanstring s1) as [[key s2]|e] eqn:H2; [|done]. apply scanstring_length in H2.
    pose proof (skip_whitespace_length s2).
    destruct (expect 58 (skip_whitespace s2)) as [s3|] eqn:H3; [|done].
    apply expect_length in H3. pose proof (skip_whitespace_length s3).
    destruct (IH1 d (skip_whitespace s3)) as [r Hr]; [lia|]. rewrite Hr. simpl.
    destruct r as [[value s4]|e]; [|done].
    apply (scan_progress n) in Hr. pose proof (skip_whitespace_length s4).
    destruct (skip_whitespace s4) as [|a s5]; [done|].
    pose proof (skip_whitespace_length s5). simpl in *.
    repeat case_match; try done. apply is_Some_bind_Some, IH3. lia.
Qed.

(** More steps change nothing. *)
Lemma scan_mono n :
  (∀ d s r, scan_once n d s = Some r → scan_once (S n) d s = Some r)
  ∧ (∀ d s r, parse_items n d s = Some r → parse_items (S n) d s = Some r)
  ∧ (∀ d s r, parse_members n d s = Some r → parse_members (S n) d s = Some r).
Proof.
  induction n as [|n (IH1 & IH2 & IH3)]; [by split_and!|].
  split_and!; intros d s r H; cbn [scan_once parse_items parse_members] in H;
    remember (S n) as m eqn:Hm; cbn [scan_once parse_items parse_members];
    subst m; revert H;
    repeat first
      [ done
      | match goal with
        | |- context [scan_once n ?d ?s] =>
            let E := fresh in
            destruct (scan_once n d s) as [?|] eqn:E; [rewrite (IH1 _ _ _ E)|done]
        | |- context [parse_items n ?d ?s] =>
            let E := fresh in
            destruct (parse_items n d s) as [?|] eqn:E; [rewrite (IH2 _ _ _ E)|done]
        | |- context [parse_members n ?d ?s] =>
            let E := fresh in
            destruct (parse_members n d s) as [?|] eqn:E; [rewrite (IH3 _ _ _ E)|done]
        end
      | progress cbn [mbind option_bind]
      | case_match ].
Qed.

Lemma scan_once_steps n m d s r :
  scan_once n d s = Some r → n ≤ m → scan_once m d s = Some r.
Proof. intros Hn. induction 1 as [|m _ IH]; [done|]. by apply scan_mono. Qed.

Lemma parse_items_steps n m d s r :
  parse_items n d s = Some r → n ≤ m → parse_items m d s = Some r.
Proof. intros Hn. induction 1 as [|m _ IH]; [done|]. by apply scan_mono. Qed.

Lemma parse_members_steps n m d s r :
  parse_members n d s = Some r → n ≤ m → parse_members m d s = Some r.
Proof. intros Hn. induction 1 as [|m _ IH]; [done|]. by apply scan_mono. Qed.
End scanner_lemmas.

(** ** Lemmas on numbers *)

Section number_lemmas.
Implicit Types (s rest : string).

Lemma span_digits_extend s ds r rest :
  span_digits s = (ds, r) → (r = "" → delimited rest = true) →
  span_digits (s +:+ rest) = (ds, r +:+ rest).
Proof.
  revert ds. induction s as [|a s IH]; intros ds; simpl.
  - intros [= <- <-] Hd. specialize (Hd eq_refl). destruct rest as [|b rest]; [done|].
    simpl in *. by destruct (is_digit b).
  - destruct (is_digit a); [|by intros [= <- <-]].
    destruct (span_digits s) as [ds1 r1]. intros [= <- <-] Hd. by rewrite (IH ds1).
Qed.

Lemma match_integer_extend s int r rest :
  match_integer s = Some (int, r) → (r = "" → delimited rest = true) →
  match_integer (s +:+ rest) = Some (int, r +:+ rest).
Proof.
  destruct s as [|a s]; simpl; [done|]. destruct (is_char 48 a); [by intros [= <- <-]|].
  destruct (is_digit a); [|done]. destruct (span_digits s) as [ds r1] eqn:Hds.
  intros [= <- <-] Hd. by rewrite (span_digits_extend _ _ _ _ Hds).
Qed.

Lemma match_exponent_extend s exp rest :
  match_exponent s = (exp, "") → delimited rest = true →
  match_exponent (s +:+ rest) = (exp, rest).
Proof.
  destruct s as [|a s]; simpl.
  - intros [= <-] Hd. destruct rest as [|b rest]; [done|]. simpl in *.
    destruct (is_char 101 b), (is_char 69 b), (is_digit b), (is_char 46 b); done.
  - destruct (is_char 101 a || is_char 69 a); [|done].
    destruct (span_sign 45 43 s) as [sign s2] eqn:Hsign.
    destruct (span_digits s2) as [ds r] eqn:Hds. case_bool_decide as Hne; [done|].
    intros [= <- ->] Hd.
    assert (span_sign 45 43 (s +:+ rest) = (sign, s2 +:+ rest)) as ->.
    { destruct s as [|b s]; simpl in *; [by simplify_eq/=|]. by case_match; simplify_eq/=. }
    rewrite (span_digits_extend _ _ _ _ Hds) by done. by rewrite bool_decide_eq_false_2.
Qed.

Lemma match_fraction_extend s frac r rest :
  match_fraction s = (frac, r) → (r = "" → delimited rest = true) →
  r ≠ "." → match_fraction (s +:+ rest) = (frac, r +:+ rest).
Proof.
  destruct s as [|a [|b s]]; simpl.
  - intros [= <- <-] Hd _. specialize (Hd eq_refl). destruct rest as [|c [|c' rest]]; [done| |];
      simpl in *; destruct (is_char 46 c), (is_digit c), (is_char 101 c), (is_char 69 c); done.
  - intros [= <- <-] _ Hne. destruct (is_char 46 a) eqn:Ha; [|by destruct rest].
    destruct Hne. f_equal. apply N.eqb_eq in Ha. by rewrite <- (ascii_N_embedding a), Ha.
  - destruct (is_char 46 a && is_digit b); [|by intros [= <- <-]].
    destruct (span_digits s) as [ds r1] eqn:Hds. intros [= <- <-] Hd _.
    by rewrite (span_digits_extend _ _ _ _ Hds).
Qed.

Lemma match_number_extend s literal is_float digits rest :
  match_number s = Some (literal, is_float, digits, "") → delimited rest = true →
  match_number (s +:+ rest) = Some (literal, is_float, digits, rest).
Proof.
  unfold match_number. destruct (span_sign 45 45 s) as [sign s1] eqn:Hsign.
  destruct (match_integer s1) as [[int s2]|] eqn:Hint; [|done]. simpl.
  destruct (match_fraction s2) as [frac s3] eqn:Hfrac.
  destruct (match_exponent s3) as [exp s4] eqn:Hexp. intros [= <- <- <- ->] Hd.
  assert (span_sign 45 45 (s +:+ rest) = (sign, s1 +:+ rest)) as ->.
  { destruct s as [|b s]; simpl in *; [by simplify_eq/=|]. by case_match; simplify_eq/=. }
  assert (s3 = "" → delimited rest = true) as H3 by done.
  assert (s3 ≠ ".") as Hdot by (by intros ->).
  assert (s2 = "" → delimited rest = true) as H2.
  { intros ->. by simplify_eq/=. }
  rewrite (match_integer_extend _ _ _ _ Hint H2). simpl.
  rewrite (match_fraction_extend _ _ _ _ Hfrac H3 Hdot).
  destruct s3 as [|c s3].
  - simplify_eq/=. by rewrite (match_exponent_extend "" "" rest).
  - assert (match_exponent (String c s3) = (exp, "") ) as Hexp' by done.
    by rewrite (match_exponent_extend _ _ _ Hexp' Hd).
Qed.
End number_lemmas.

(** ** What is written is read back *)

Section round_trip.
Implicit Types (s rest str tail : string) (j : json) (d n : nat).

Lemma scanstring_escape_char a tail :
  scanstring (escape_char a +:+ tail)
  = '(str, rest) ← scanstring tail; Ok (String a str, rest).
Proof. destruct a as [[] [] [] [] [] [] [] []]; reflexivity. Qed.

Lemma scanstring_escape s rest :
  scanstring (escape_unicode s +:+ String quote_char rest) = Ok (s, rest).
Proof.
  induction s as [|a s IH]; [done|].
  cbn [escape_unicode]. by rewrite str_app_assoc, scanstring_escape_char, IH.
Qed.

Lemma is_char_eq code a : is_char code a = true → a = ascii_of_N code.
Proof. intros Ha%N.eqb_eq. by rewrite <- (ascii_N_embedding a), Ha. Qed.

(** A number starts with a sign or a digit. *)
Lemma match_number_head a s r :
  match_number (String a s) = Some r → (is_char 45 a || is_digit a) = true.
Proof.
  unfold match_number. simpl. destruct (is_char 45 a); [done|]. simpl.
  destruct (is_char 48 a) eqn:H0; [by apply is_char_eq in H0 as ->|]. by destruct (is_digit a).
Qed.

Lemma sign_or_digit_head a : (is_char 45 a || is_digit a) = true → atom_head a = true.
Proof. destruct a as [[] [] [] [] [] [] [] []]; by vm_compute. Qed.

Lemma digit_no_constant a :
  is_digit a = true →
  (is_char 110 a || is_char 116 a || is_char 102 a || is_char 78 a || is_char 73 a
   || is_char 45 a) = false.
Proof. destruct a as [[] [] [] [] [] [] [] []]; by vm_compute. Qed.

Lemma digit_no_word a s : is_digit a = true → after_word "Infinity" (String a s) = None.
Proof.
  destruct a as [[] [] [] [] [] [] [] []]; intros Hd; vm_compute in Hd; try done; reflexivity.
Qed.

Lemma scan_atom_minus s :
  scan_atom (String (ascii_of_N 45) s)
  = match after_word "Infinity" s with
    | Some rest => Ok (JNum "-Infinity", rest)
    | None => scan_number (String (ascii_of_N 45) s)
    end.
Proof. reflexivity. Qed.

Lemma match_number_minus s r :
  match_number (String (ascii_of_N 45) s) = Some r → is_Some (match_integer s).
Proof.
  unfold match_number, span_sign. change (is_char 45 (ascii_of_N 45)) with true.
  cbn [orb]. by destruct (match_integer s).
Qed.

Lemma match_integer_head a s r : match_integer (String a s) = Some r → is_digit a = true.
Proof.
  simpl. destruct (is_char 48 a) eqn:H0; [by apply is_char_eq in H0 as ->|].
  by destruct (is_digit a).
Qed.

(** A number is read as a number. *)
Lemma scan_atom_number s r : scan_number s = Ok r → scan_atom s = Ok r.
Proof.
  intros Hs. destruct s as [|a s]; [done|].
  assert (is_Some (match_number (String a s))) as [m Hm].
  { unfold scan_number in Hs. by destruct (match_number _). }
  pose proof (match_number_head _ _ _ Hm) as Ha.
  destruct (is_digit a) eqn:Hd.
  - unfold scan_atom. apply digit_no_constant in Hd.
    by repeat (apply orb_false_elim in Hd as [Hd ->]); rewrite Hd.
  - rewrite orb_false_r in Ha. apply is_char_eq in Ha as ->. rewrite scan_atom_minus.
    apply match_number_minus in Hm as [i Hi]. destruct s as [|b s]; [done|].
    by rewrite (digit_no_word _ _ (match_integer_head _ _ _ Hi)).
Qed.

Lemma scan_number_extend literal rest :
  scan_number literal = Ok (JNum literal, "") → delimited rest = true →
  scan_number (literal +:+ rest) = Ok (JNum literal, rest).
Proof.
  unfold scan_number. destruct (match_number literal) as [[[[l fl] dg] r]|] eqn:Hm; [|done].
  case_match eqn:Hlimit; [done|]. intros [= -> ->] Hd.
  by rewrite (match_number_extend _ _ _ _ _ Hm Hd), Hlimit.
Qed.

Lemma number_literal_scan literal rest :
  number_literal literal = true → delimited rest = true →
  scan_atom (literal +:+ rest) = Ok (JNum literal, rest)
  ∧ ∃ a s, literal = String a s ∧ atom_head a = true.
Proof.
  intros [Hc%bool_decide_eq_true|Hn%bool_decide_eq_true]%orb_true_iff Hd.
  - rewrite !elem_of_cons, elem_of_nil in Hc.
    destruct Hc as [->|[->|[->|[]]]]; split; by eauto.
  - split; [by apply scan_atom_number, scan_number_extend|].
    destruct literal as [|a s]; [done|]. exists a, s. split; [done|].
    unfold scan_number in Hn. destruct (match_number _) eqn:Hm; [|done].
    by eapply sign_or_digit_head, match_number_head.
Qed.

(** *** Values *)

Lemma skip_whitespace_head a s :
  value_head a = true → skip_whitespace (String a s) = String a s.
Proof.
  unfold value_head. simpl. destruct (is_whitespace a); [|done]. by rewrite !orb_true_l.
Qed.

Lemma expect_head code a s :
  value_head a = true → code = 93%N ∨ code = 125%N → expect code (String a s) = None.
Proof.
  unfold value_head. simpl. intros Ha [-> | ->].
  - destruct (is_char 93 a); [|done]. by rewrite orb_true_r in Ha.
  - destruct (is_char 125 a); [|done]. by rewrite !orb_true_r in Ha.
Qed.

Lemma json_dumps_head j :
  json_wf j = true → ∃ a s, json_dumps j = String a s ∧ value_head a = true.
Proof.
  destruct j as [|[]|literal|str|items|members]; simpl; intros Hwf; try by eauto.
  destruct (number_literal_scan literal "" Hwf eq_refl) as (_ & a & s & -> & Ha).
  exists a, s. split; [done|]. by apply andb_true_iff in Ha as [? _].
Qed.

Lemma encode_basestring_app str tail :
  encode_basestring str +:+ tail
  = String quote_char (escape_unicode str +:+ String quote_char tail).
Proof. unfold encode_basestring. by rewrite str_app_cons, str_app_assoc. Qed.

(** The steps of the scanner on a written array or object. *)
Lemma parse_items_last n d s x rest :
  scan_once n d s = Some (Ok (x, String (ascii_of_N 93) rest)) →
  parse_items (S n) d s = Some (Ok ([x], rest)).
Proof. intros Hx. cbn [parse_items]. by rewrite Hx. Qed.

Lemma parse_items_more n d s x tail items rest :
  scan_once n d s = Some (Ok (x, ", " +:+ tail)) → skip_whitespace tail = tail →
  parse_items n d tail = Some (Ok (items, rest)) →
  parse_items (S n) d s = Some (Ok (x :: items, rest)).
Proof.
  intros Hx Htail Hl. cbn [parse_items]. rewrite Hx.
  transitivity (r ← parse_items n d (skip_whitespace tail);
                Some ('(items, rest) ← r; Ok (x :: items, rest))); [reflexivity|].
  by rewrite Htail, Hl.
Qed.

Lemma parse_members_start n d key tail :
  skip_whitespace tail = tail →
  parse_members (S n) d (encode_basestring key +:+ ": " +:+ tail)
  = r ← scan_once n d tail;
    match r with
    | Raise e => Some (Raise e)
    | Ok (value, s4) =>
        match skip_whitespace s4 with
        | EmptyString => Some (Raise (raise_errmsg d))
        | String a s5 =>
            if is_char 125 a then Some (Ok ([(key, value)], s5))
            else if is_char 44 a then
              r ← parse_members n d (skip_whitespace s5);
              Some ('(members, rest) ← r; Ok ((key, value) :: members, rest))
            else Some (Raise (raise_errmsg d))
        end
    end.
Proof.
  intros Htail. cbn [parse_members]. rewrite encode_basestring_app.
  unfold expect at 1. cbv beta iota. change (is_char 34 quote_char) with true. cbv iota.
  rewrite scanstring_escape. rewrite <- Htail at 2. reflexivity.
Qed.

Lemma parse_members_last n d key tail value rest :
  skip_whitespace tail = tail →
  scan_once n d tail = Some (Ok (value, String (ascii_of_N 125) rest)) →
  parse_members (S n) d (encode_basestring key +:+ ": " +:+ tail)
  = Some (Ok ([(key, value)], rest)).
Proof. intros Htail Hv. by rewrite parse_members_start, Hv. Qed.

Lemma parse_members_more n d key tail value tail2 members rest :
  skip_whitespace tail = tail →
  scan_once n d tail = Some (Ok (value, ", " +:+ tail2)) →
  skip_whitespace tail2 = tail2 →
  parse_members n d tail2 = Some (Ok (members, rest)) →
  parse_members (S n) d (encode_basestring key +:+ ": " +:+ tail)
  = Some (Ok ((key, value) :: members, rest)).
Proof.
  intros Htail Hv Htail2 Hl. rewrite parse_members_start, Hv by done.
  transitivity (r ← parse_members n d (skip_whitespace tail2);
                Some ('(members, rest) ← r; Ok ((key, value) :: members, rest)));
    [reflexivity|].
  by rewrite Htail2, Hl.
Qed.

Lemma headed_app s tail : headed s → headed (s +:+ tail).
Proof. intros (a & s1 & -> & Ha). by exists a, (s1 +:+ tail). Qed.

Lemma headed_quote s : headed (String quote_char s).
Proof. by exists quote_char, s. Qed.

Lemma skip_whitespace_headed s : headed s → skip_whitespace s = s.
Proof. intros (a & s1 & -> & Ha). by apply skip_whitespace_head. Qed.

Lemma concat_cons2 sep (x y : string) l :
  String.concat sep (x :: y :: l) = x +:+ sep +:+ String.concat sep (y :: l).
Proof. reflexivity. Qed.

Lemma headed_concat sep (x : string) l : headed x → headed (String.concat sep (x :: l)).
Proof. destruct l; [done|]. rewrite concat_cons2. apply headed_app. Qed.

Lemma scan_once_atom n d a s :
  atom_head a = true → scan_once (S n) d (String a s) = Some (scan_atom (String a s)).
Proof.
  unfold atom_head. intros [_ Ha%negb_true_iff]%andb_true_iff. cbn [scan_once].
  by repeat (apply orb_false_elim in Ha as [Ha ->]); rewrite Ha.
Qed.

Lemma scan_once_string n d s :
  scan_once (S n) d (String quote_char s)
  = match scanstring s with
    | Raise _ => Some (Raise (raise_errmsg d))
    | Ok (str, rest) => Some (Ok (JStr str, rest))
    end.
Proof. reflexivity. Qed.

Lemma scan_once_array n d s items rest :
  headed s → parse_items n d s = Some (Ok (items, rest)) →
  scan_once (S n) (S d) (String (ascii_of_N 91) s) = Some (Ok (JArr items, rest)).
Proof.
  intros Hs Hitems.
  transitivity (match expect 93 (skip_whitespace s) with
                | Some rest => Some (Ok (JArr [], rest))
                | None => r ← parse_items n d (skip_whitespace s);
                          Some ('(items, rest) ← r; Ok (JArr items, rest))
                end); [reflexivity|].
  rewrite (skip_whitespace_headed _ Hs). destruct Hs as (a & s1 & -> & Ha).
  rewrite expect_head by auto. by rewrite Hitems.
Qed.

Lemma scan_once_object n d s members rest :
  headed s → parse_members n d s = Some (Ok (members, rest)) →
  scan_once (S n) (S d) (String (ascii_of_N 123) s)
  = Some (Ok (JObj (dict_of members), rest)).
Proof.
  intros Hs Hmembers.
  transitivity (match expect 125 (skip_whitespace s) with
                | Some rest => Some (Ok (JObj [], rest))
                | None => r ← parse_members n d (skip_whitespace s);
                          Some ('(members, rest) ← r; Ok (JObj (dict_of members), rest))
                end); [reflexivity|].
  rewrite (skip_whitespace_headed _ Hs). destruct Hs as (a & s1 & -> & Ha).
  rewrite expect_head by auto. by rewrite Hmembers.
Qed.

(** The dictionary of members with distinct keys is the list of the
    members. *)
Lemma dict_set_new key value (members : list (string * json)) :
  key ∉ members.*1 → dict_set key value members = members ++ [(key, value)].
Proof.
  induction members as [|[k v] members IH]; [done|]. simpl.
  intros [Hne Hm]%not_elem_of_cons. rewrite bool_decide_eq_false_2 by done.
  by rewrite IH.
Qed.

Lemma dict_of_acc (acc members : list (string * json)) :
  NoDup (acc ++ members).*1 →
  foldl (fun dict kv => dict_set (fst kv) (snd kv) dict) acc members = acc ++ members.
Proof.
  revert acc. induction members as [|[k v] members IH]; intros acc Hnd; simpl.
  - by rewrite app_nil_r.
  - rewrite dict_set_new.
    + rewrite IH; by rewrite <- (assoc (++)).
    + rewrite fmap_app in Hnd. apply NoDup_app in Hnd as (_ & Hnd & _).
      intros Hk. apply (Hnd k Hk). simpl. left.
Qed.

Lemma dict_of_NoDup (members : list (string * json)) :
  NoDup members.*1 → dict_of members = members.
Proof. apply (dict_of_acc []). Qed.

Lemma headed_dumps j : json_wf j = true → headed (json_dumps j).
Proof. apply json_dumps_head. Qed.

Lemma parse_items_dumps d rest items :
  Forall reads items → forallb json_wf items = true → Forall (fun j => nesting j ≤ d) items →
  items ≠ [] →
  ∃ n, parse_items n d (String.concat ", " (map json_dumps items) +:+ "]" +:+ rest)
       = Some (Ok (items, rest)).
Proof.
  induction items as [|x l IH]; [done|]. cbn [forallb].
  intros [Hx Hl]%Forall_cons [Hwx Hwl]%andb_true_iff [Hdx Hdl]%Forall_cons _.
  destruct l as [|y l].
  - destruct (Hx d ("]" +:+ rest)) as [n Hn]; [done..|]. exists (S n).
    by apply parse_items_last.
  - destruct (Hx d (", " +:+ String.concat ", " (map json_dumps (y :: l)) +:+ "]" +:+ rest))
      as [n Hn]; [done..|].
    destruct IH as [m Hm]; [done..|].
    exists (S (n `max` m)). cbn [map]. rewrite concat_cons2, !str_app_assoc.
    eapply parse_items_more.
    + eapply scan_once_steps; [exact Hn|lia].
    + apply skip_whitespace_headed, headed_app, headed_concat, headed_dumps.
      cbn [forallb] in Hwl. by apply andb_true_iff in Hwl as [? _].
    + eapply parse_items_steps; [exact Hm|lia].
Qed.

Lemma parse_members_dumps d rest (members : list (string * json)) :
  Forall (fun kv => reads (snd kv)) members →
  forallb (fun kv => json_wf (snd kv)) members = true →
  Forall (fun kv => nesting (snd kv) ≤ d) members →
  members ≠ [] →
  ∃ n, parse_members n d (String.concat ", " (map member_text members) +:+ "}" +:+ rest)
       = Some (Ok (members, rest)).
Proof.
  induction members as [|[k v] l IH]; [done|]. cbn [forallb].
  intros [Hx Hl]%Forall_cons [Hwx Hwl]%andb_true_iff [Hdx Hdl]%Forall_cons _.
  simpl in Hx, Hwx, Hdx. pose proof (headed_dumps _ Hwx) as Hv.
  destruct l as [|[k2 v2] l].
  - destruct (Hx d ("}" +:+ rest)) as [n Hn]; [done..|]. exists (S n).
    cbn [map String.concat]. unfold member_text. cbn [fst snd]. rewrite !str_app_assoc.
    apply parse_members_last; [|done]. by apply skip_whitespace_headed, headed_app.
  - destruct (Hx d (", " +:+ String.concat ", " (map member_text ((k2, v2) :: l))
                    +:+ "}" +:+ rest)) as [n Hn]; [done..|].
    destruct IH as [m Hm]; [done..|].
    exists (S (n `max` m)). cbn [map]. rewrite concat_cons2. unfold member_text at 1.
    cbn [fst snd]. rewrite !str_app_assoc.
    eapply parse_members_more.
    + by apply skip_whitespace_headed, headed_app.
    + eapply scan_once_steps; [exact Hn|lia].
    + apply skip_whitespace_headed, headed_app, headed_concat.
      unfold member_text. rewrite encode_basestring_app. apply headed_quote.
    + eapply parse_members_steps; [exact Hm|lia].
Qed.

Lemma nesting_items d items :
  max_list (map nesting items) ≤ d → Forall (fun j => nesting j ≤ d) items.
Proof.
  intros Hd. apply Forall_forall. intros j Hj.
  etrans; [|exact Hd]. by apply max_list_elem_of_le, (list_elem_of_fmap_2 nesting).
Qed.

Lemma nesting_members d (members : list (string * json)) :
  max_list (map (fun kv => nesting (snd kv)) members) ≤ d →
  Forall (fun kv => nesting (snd kv) ≤ d) members.
Proof.
  intros Hd. apply Forall_forall. intros kv Hkv.
  etrans; [|exact Hd]. by apply max_list_elem_of_le, (list_elem_of_fmap_2 (fun kv => nesting (snd kv))).
Qed.

Lemma scan_once_dumps j : reads j.
Proof.
  induction j as [|b|literal|str|items IH|members IH] using json_nested_ind;
    intros d rest Hwf Hd Hrest.
  - by exists 1.
  - destruct b; by exists 1.
  - destruct (number_literal_scan _ _ Hwf Hrest) as (Hs & a & s & -> & Ha).
    exists 1. cbn [json_dumps]. by rewrite str_app_cons, scan_once_atom, <- str_app_cons, Hs.
  - exists 1. cbn [json_dumps].
    by rewrite encode_basestring_app, scan_once_string, scanstring_escape.
  - destruct d as [|d]; [simpl in Hd; lia|]. simpl in Hwf, Hd. apply le_S_n in Hd.
    destruct items as [|x l]; [by exists 1|].
    destruct (parse_items_dumps d rest (x :: l)) as [n Hn];
      [done|done|by apply nesting_items|done|].
    exists (S n). cbn [json_dumps]. rewrite !str_app_assoc.
    apply scan_once_array; [|done].
    apply headed_app, headed_concat, headed_dumps. simpl in Hwf.
    by apply andb_true_iff in Hwf as [? _].
  - destruct d as [|d]; [simpl in Hd; lia|]. simpl in Hwf, Hd. apply le_S_n in Hd.
    apply andb_true_iff in Hwf as [Hnd%bool_decide_eq_true Hwf].
    destruct members as [|[k v] l]; [by exists 1|].
    destruct (parse_members_dumps d rest ((k, v) :: l)) as [n Hn];
      [done|done|by apply nesting_members|done|].
    exists (S n). cbn [json_dumps]. rewrite !str_app_assoc.
    rewrite <- (dict_of_NoDup ((k, v) :: l)) at 2 by done.
    apply scan_once_object; [|done].
    apply headed_app, headed_concat. rewrite encode_basestring_app. apply headed_quote.
Qed.
End round_trip.

(** ** Properties of the encoder and the decoder *)

(** ** The text written has a UTF-8 when the strings of the value have

    The encoder leaves the bytes of a string that are not ASCII as they
    are and puts an ASCII character after every string, so that the
    bytes of one string are never read with those of the next. *)

Section encodable_dumps.
Implicit Types (a : ascii) (s t pre : string) (j : json).

Lemma escape_char_ascii a :
  is_ascii a = true →
  match escape_char a with String b e => is_ascii b && all_ascii e | EmptyString => false end
  = true.
Proof. by destruct a as [[] [] [] [] [] [] [] []]; vm_compute. Qed.

Lemma escape_char_other a : is_ascii a = false → escape_char a = String a "".
Proof. by destruct a as [[] [] [] [] [] [] [] []]; vm_compute. Qed.

Lemma escape_unicode_encodable s pre t :
  ascii_headed t = true →
  str_encodable (pre +:+ escape_unicode s +:+ t) = str_encodable (pre +:+ s +:+ t).
Proof.
  intros Ht. revert pre. induction s as [|a s IH]; intros pre; [done|].
  cbn [escape_unicode]. destruct (is_ascii a) eqn:Ha.
  - pose proof (escape_char_ascii a Ha) as H.
    destruct (escape_char a) as [|b e]; [done|]. apply andb_prop in H as [Hb He].
    rewrite !str_app_cons, !(str_encodable_app pre), !str_encodable_cons by done.
    rewrite str_app_assoc, str_encodable_ascii by done. f_equal. apply (IH "").
  - rewrite escape_char_other by done.
    specialize (IH (pre +:+ String a "")). rewrite !str_app_assoc in IH. exact IH.
Qed.

Lemma encode_basestring_encodable s t :
  ascii_headed t = true →
  str_encodable (encode_basestring s +:+ t) = str_encodable s && str_encodable t.
Proof.
  intros Ht. rewrite encode_basestring_app, str_encodable_cons by done.
  etrans; [by apply (escape_unicode_encodable s "")|].
  by rewrite str_app_nil_l, str_encodable_app, str_encodable_cons.
Qed.

Lemma concat_encodable {A} (f : A → string) (g : A → bool) (items : list A) t :
  Forall (λ x, ∀ u, ascii_headed u = true →
                    str_encodable (f x +:+ u) = g x && str_encodable u) items →
  ascii_headed t = true →
  str_encodable (String.concat ", " (map f items) +:+ t) = forallb g items && str_encodable t.
Proof.
  intros Hall Ht. induction Hall as [|x items Hj _ IH]; [done|].
  destruct items as [|y items]; [simpl; by rewrite Hj, andb_true_r|].
  cbn [map] in *. rewrite concat_cons2, !str_app_assoc, Hj by done.
  cbn [forallb].
  by rewrite str_app_cons, str_encodable_cons, str_app_cons, str_encodable_cons,
    str_app_nil_l, IH, andb_assoc.
Qed.

Lemma json_dumps_encodable_app j t :
  ascii_headed t = true →
  str_encodable (json_dumps j +:+ t) = json_encodable j && str_encodable t.
Proof.
  revert t. induction j as [| | | |items IH|members IH] using json_nested_ind; intros t Ht;
    cbn [json_dumps json_encodable].
  - done.
  - by destruct b.
  - by apply str_encodable_app.
  - by apply encode_basestring_encodable.
  - rewrite !str_app_assoc, str_app_cons, str_encodable_cons, str_app_nil_l by done.
    by rewrite (concat_encodable _ json_encodable), str_app_cons, str_encodable_cons.
  - rewrite !str_app_assoc, str_app_cons, str_encodable_cons, str_app_nil_l by done.
    rewrite (concat_encodable _ (member_encodable json_encodable)), str_app_cons, str_encodable_cons; try done.
    eapply Forall_impl; [exact IH|]. intros [k v] Hv u Hu. unfold member_encodable. simpl.
    rewrite !str_app_assoc, encode_basestring_encodable by done.
    by rewrite str_app_cons, str_encodable_cons, str_app_cons, str_encodable_cons,
      str_app_nil_l, Hv, andb_assoc.
Qed.

Lemma strings_encodable (l : list string) :
  forallb json_encodable (JStr <$> l) = forallb str_encodable l.
Proof. induction l as [|x l IH]; [done|]. simpl. f_equal. exact IH. Qed.

Lemma summary_dumps_encodable (summary : Summary) :
  str_encodable (json_dumps (summary_json summary))
  = forallb str_encodable (summary_texts summary).
Proof.
  rewrite <-(str_app_nil_r (json_dumps _)), json_dumps_encodable_app by done.
  unfold summary_json, summary_texts.
  cbn [json_encodable forallb]. unfold member_encodable. cbn [json_encodable fst snd].
  rewrite strings_encodable.
  generalize (str_encodable (s_url summary)), (str_encodable (s_title summary)),
    (str_encodable (s_concise summary)), (forallb str_encodable (s_detail summary)).
  by intros [] [] [] [].
Qed.
End encodable_dumps.

(** ** The literal of a number is a number

    The scanner reads a number to the first character that cannot
    continue it; read alone, the literal it took is read as a whole. *)

Section number_restriction.
Implicit Types (s t rest : string).

Lemma exponent_head_undigit t : exponent_head t = true → undigit t = true.
Proof.
  destruct t as [|a t]; [done|]. simpl.
  by intros [->%is_char_eq| ->%is_char_eq]%orb_prop.
Qed.

Lemma span_digits_cut s ds r t :
  span_digits s = (ds, r) → undigit t = true → span_digits (ds +:+ t) = (ds, t).
Proof.
  revert ds. induction s as [|a s IH]; intros ds; simpl.
  - intros [= <- <-] Ht. destruct t as [|b t]; [done|]. simpl in *. by destruct (is_digit b).
  - destruct (is_digit a) eqn:Ha.
    + destruct (span_digits s) as [ds1 r1]. intros [= <- <-] Ht. simpl.
      by rewrite Ha, (IH ds1).
    + intros [= <- <-] Ht. destruct t as [|b t]; [done|]. simpl in *. by destruct (is_digit b).
Qed.

Lemma match_integer_cut s int r t :
  match_integer s = Some (int, r) → undigit t = true →
  match_integer (int +:+ t) = Some (int, t).
Proof.
  destruct s as [|a s]; simpl; [done|]. destruct (is_char 48 a) eqn:H0.
  { intros [= <- <-] _. simpl. by rewrite H0. }
  destruct (is_digit a) eqn:Ha; [|done]. destruct (span_digits s) as [ds r1] eqn:Hds.
  intros [= <- <-] Ht. simpl. by rewrite H0, Ha, (span_digits_cut _ _ _ _ Hds).
Qed.

Lemma match_fraction_cut s frac r t :
  match_fraction s = (frac, r) → exponent_head t = true →
  match_fraction (frac +:+ t) = (frac, t).
Proof.
  intros Hs Ht. assert (match_fraction t = ("", t)) as Hnone.
  { destruct t as [|a [|b t]]; [done..|]. simpl in *.
    by apply orb_prop in Ht as [->%is_char_eq| ->%is_char_eq]. }
  destruct s as [|a [|b s]]; simpl in Hs; [by simplify_eq..|].
  destruct (is_char 46 a && is_digit b) eqn:Hab; [|by simplify_eq].
  destruct (span_digits s) as [ds r1] eqn:Hds. simplify_eq. simpl.
  by rewrite Hab, (span_digits_cut _ _ _ _ Hds) by by apply exponent_head_undigit.
Qed.

Lemma match_fraction_head s frac r t :
  match_fraction s = (frac, r) → undigit t = true → undigit (frac +:+ t) = true.
Proof.
  destruct s as [|a [|b s]]; simpl; [by intros [= <- <-]..|].
  destruct (is_char 46 a && is_digit b) eqn:Hab; [|by intros [= <- <-]].
  destruct (span_digits s) as [ds r1]. intros [= <- <-] _.
  by apply andb_prop in Hab as [->%is_char_eq _].
Qed.

Lemma match_exponent_cut s exp r :
  match_exponent s = (exp, r) → match_exponent exp = (exp, "") ∧ exponent_head exp = true.
Proof.
  destruct s as [|a s]; simpl; [by intros [= <- <-]|].
  destruct (is_char 101 a || is_char 69 a) eqn:Ha; [|by intros [= <- <-]].
  destruct (span_sign 45 43 s) as [sign s2] eqn:Hsign.
  destruct (span_digits s2) as [ds r1] eqn:Hds. case_bool_decide as Hne; [by intros [= <- <-]|].
  intros [= <- <-]. split; [|done]. simpl. rewrite Ha.
  assert (span_sign 45 43 (sign +:+ ds) = (sign, ds)) as ->.
  { destruct s as [|b s]; simpl in Hsign; [by simplify_eq/=|].
    destruct (is_char 45 b || is_char 43 b) eqn:Hb; simplify_eq; [simpl; by rewrite Hb|].
    destruct ds as [|c ds]; [done|]. simpl in *. destruct (is_digit b) eqn:Hd; [|done].
    destruct (span_digits s). simplify_eq. by rewrite Hb. }
  rewrite <-(str_app_nil_r ds) at 1. rewrite (span_digits_cut _ _ _ _ Hds) by done.
  by rewrite bool_decide_eq_false_2.
Qed.

Lemma span_sign_cut s sign s1 int r t :
  span_sign 45 45 s = (sign, s1) → match_integer s1 = Some (int, r) →
  span_sign 45 45 (sign +:+ int +:+ t) = (sign, int +:+ t).
Proof.
  destruct s as [|a s]; simpl; [by intros [= <- <-]|].
  destruct (is_char 45 a || is_char 45 a) eqn:Ha.
  - intros [= <- <-] _. simpl. by rewrite Ha.
  - intros [= <- <-] Hint. simpl in Hint. rewrite str_app_nil_l.
    destruct (is_char 48 a); [simplify_eq; simpl; by rewrite Ha|].
    destruct (is_digit a); [|done]. destruct (span_digits s). simplify_eq. simpl. by rewrite Ha.
Qed.

Lemma match_number_cut s literal is_float digits rest :
  match_number s = Some (literal, is_float, digits, rest) →
  match_number literal = Some (literal, is_float, digits, "").
Proof.
  unfold match_number. destruct (span_sign 45 45 s) as [sign s1] eqn:Hsign.
  destruct (match_integer s1) as [[int s2]|] eqn:Hint; [|done]. simpl.
  destruct (match_fraction s2) as [frac s3] eqn:Hfrac.
  destruct (match_exponent s3) as [exp s4] eqn:Hexp. intros [= <- <- <- <-].
  destruct (match_exponent_cut _ _ _ Hexp) as [Hexp' Hhead].
  rewrite (span_sign_cut _ _ _ _ _ _ Hsign Hint).
  rewrite (match_integer_cut _ _ _ _ Hint)
    by (eapply match_fraction_head; [done|by apply exponent_head_undigit]).
  simpl. by rewrite (match_fraction_cut _ _ _ _ Hfrac Hhead), Hexp'.
Qed.

Lemma scan_number_wf s j rest : scan_number s = Ok (j, rest) → json_wf j = true.
Proof.
  unfold scan_number. destruct (match_number s) as [[[[l fl] dg] r]|] eqn:Hm; [|done].
  destruct (_ && _) eqn:Hlim; [done|]. intros [= <- <-]. simpl. unfold number_literal.
  apply orb_true_intro. right. apply bool_decide_eq_true. unfold scan_number.
  by rewrite (match_number_cut _ _ _ _ _ Hm), Hlim.
Qed.
End number_restriction.

(** ** What is read is well formed

    Every number of a value the scanner returns is a literal of the
    format, no object has a key twice ([dict_set] replaces), and the
    value is nested no deeper than the frames the interpreter had. *)

Section soundness.
Implicit Types (d n : nat) (s : string) (j : json) (members : list (string * json)).

Lemma scan_atom_ok d s j rest : scan_atom s = Ok (j, rest) → value_ok d j.
Proof.
  assert (∀ j rest, scan_number s = Ok (j, rest) → value_ok d j) as Hnum.
  { intros j1 r1 H. split; [by eapply scan_number_wf|].
    unfold scan_number in H. repeat case_match; simplify_eq. simpl. lia. }
  destruct s as [|a s]; [done|]. unfold scan_atom.
  repeat case_match; try apply Hnum; intros [= <- <-]; (split; [done|simpl; lia]).
Qed.

Lemma dict_set_keys k key value members :
  k ∈ (dict_set key value members).*1 → k = key ∨ k ∈ members.*1.
Proof.
  induction members as [|[k1 v1] members IH]; simpl.
  - intros ->%list_elem_of_singleton. by left.
  - case_bool_decide; simpl; rewrite !elem_of_cons; [by right|].
    intros [->|[->|?]%IH]; auto.
Qed.

Lemma dict_set_ok (P : json → Prop) key value members :
  P value → NoDup members.*1 → Forall (λ kv, P kv.2) members →
  NoDup (dict_set key value members).*1 ∧ Forall (λ kv, P kv.2) (dict_set key value members).
Proof.
  intros Hv. induction members as [|[k v] members IH]; simpl.
  - intros _ _. split; [apply NoDup_singleton|by apply Forall_singleton].
  - intros [Hk Hnd]%NoDup_cons [Hkv Hall]%Forall_cons. case_bool_decide as Heq.
    + split; [by apply NoDup_cons|by apply Forall_cons].
    + destruct (IH Hnd Hall) as [IH1 IH2]. split; [|by apply Forall_cons].
      simpl. apply NoDup_cons. split; [|done].
      by intros [?|?]%dict_set_keys.
Qed.

Lemma dict_of_ok (P : json → Prop) members :
  Forall (λ kv, P kv.2) members →
  NoDup (dict_of members).*1 ∧ Forall (λ kv, P kv.2) (dict_of members).
Proof.
  unfold dict_of. assert (NoDup (@nil (string * json)).*1
                          ∧ Forall (λ kv : string * json, P kv.2) []) as Hacc
    by (split; [apply NoDup_nil_2|done]).
  revert Hacc. generalize (@nil (string * json)) as acc. 
  induction members as [|[k v] members IH]; intros acc Hacc Hall; [done|].
  apply Forall_cons in Hall as [Hv Hall]. simpl. apply IH; [|done].
  destruct Hacc. by apply dict_set_ok.
Qed.

Lemma forallb_intro {A} (f : A → bool) (l : list A) :
  Forall (λ x, f x = true) l → forallb f l = true.
Proof. induction 1 as [|x l Hx _ IH]; [done|]. simpl. by rewrite Hx. Qed.

Lemma max_list_le d (l : list nat) : Forall (λ x, x ≤ d) l → max_list l ≤ d.
Proof. induction 1; simpl; lia. Qed.

Lemma value_ok_arr d items : Forall (value_ok d) items → value_ok (S d) (JArr items).
Proof.
  intros H. split; simpl.
  - apply forallb_intro, Forall_impl with (1 := H). by intros j [? _].
  - apply le_n_S, max_list_le, Forall_fmap, Forall_impl with (1 := H). by intros j [_ ?].
Qed.

Lemma value_ok_obj d members :
  NoDup members.*1 → Forall (λ kv, value_ok d kv.2) members → value_ok (S d) (JObj members).
Proof.
  intros Hnd H. split; simpl.
  - rewrite bool_decide_eq_true_2 by done.
    apply forallb_intro, Forall_impl with (1 := H). by intros j [? _].
  - apply le_n_S, max_list_le, Forall_fmap, Forall_impl with (1 := H). by intros j [_ ?].
Qed.

Lemma returns_bind {A B} (P : A → Prop) (Q : B → Prop) (r : option (PyResult (A * string)))
    (f : A → B) :
  returns P r → (∀ x, P x → Q (f x)) →
  returns Q (r0 ← r; Some ('(x, rest) ← r0; Ok (f x, rest))).
Proof.
  intros Hr Hf y rest. destruct r as [[[x rest1]|e]|]; [|done..].
  simpl. intros ?; simplify_eq. eauto.
Qed.

Lemma scan_sound n :
  (∀ d s, returns (value_ok d) (scan_once n d s))
  ∧ (∀ d s, returns (Forall (value_ok d)) (parse_items n d s))
  ∧ (∀ d s, returns (Forall (λ kv, value_ok d kv.2)) (parse_members n d s)).
Proof.
  induction n as [|n (IH1 & IH2 & IH3)]; [by split_and!|].
  split_and!; intros d s; cbn [scan_once parse_items parse_members].
  - destruct s as [|a s1]; [done|].
    repeat case_match; try done; subst.
    all: try (eapply returns_bind; [by auto|]; intros x Hx).
    all: try (intros x rest ?; simplify_eq).
    all: try by (split; [done|simpl; lia]).
    + destruct (dict_of_ok _ _ Hx). by apply value_ok_obj.
    + by apply value_ok_arr.
    + by eapply scan_atom_ok.
  - pose proof (IH1 d s) as H1. destruct (scan_once n d s) as [[[item s1]|e]|]; [|done..].
    specialize (H1 _ _ eq_refl). simpl.
    repeat case_match; try done.
    + intros x rest ?; simplify_eq. by apply Forall_singleton.
    + eapply returns_bind; [by auto|]. intros x Hx. by apply Forall_cons.
  - destruct (expect 34 s) as [s1|]; [|done].
    destruct (scanstring s1) as [[key s2]|e]; [|done].
    destruct (expect 58 (skip_whitespace s2)) as [s3|]; [|done].
    pose proof (IH1 d (skip_whitespace s3)) as H4.
    destruct (scan_once n d (skip_whitespace s3)) as [[[value s4]|e]|]; [|done..].
    specialize (H4 _ _ eq_refl). simpl.
    repeat case_match; try done.
    + intros x rest ?; simplify_eq. by apply Forall_singleton.
    + eapply returns_bind; [by auto|]. intros x Hx. by apply Forall_cons.
Qed.
End soundness.

Section json_properties.
Implicit Types (s rest str : string) (j : json) (d n : nat).

Lemma scan_once_enough n m d s r :
  scan_once n d s = Some r → 2 * String.length s < m → scan_once m d s = Some r.
Proof.
  intros Hn Hm. destruct (proj1 (scan_total m) d s Hm) as [r' Hr'].
  pose proof (scan_once_steps _ (n `max` m) _ _ _ Hn ltac:(lia)) as H1.
  pose proof (scan_once_steps _ (n `max` m) _ _ _ Hr' ltac:(lia)) as H2.
  congruence.
Qed.

Lemma no_byte_order_mark a s :
  value_head a = true → after_word (utf8_encode 65279) (String a s) = None.
Proof.
  destruct a as [[] [] [] [] [] [] [] []]; intros Ha; vm_compute in Ha; try done;
    reflexivity.
Qed.

(** C22: the scanner never runs out of the steps [json_loads] gives it,
    two per byte of the text and one: on every text and at every depth it
    returns a value or raises, and the last case of [json_loads] is never
    taken. *)
Theorem scan_once_total d s : is_Some (scan_once (scan_steps s) d (skip_whitespace s)).
Proof.
  apply scan_total. pose proof (skip_whitespace_length s). unfold scan_steps. lia.
Qed.

(** A string is read back from what the encoder writes for it,
    whatever its bytes and whatever follows the closing quote. *)
Theorem encode_basestring_scanned n d str rest :
  scan_once (S n) d (encode_basestring str +:+ rest) = Some (Ok (JStr str, rest)).
Proof. by rewrite encode_basestring_app, scan_once_string, scanstring_escape. Qed.

(** The scanner on what the encoder wrote, with the steps [json_loads]
    gives it: the value and nothing after it; the text starts with no
    byte order mark. *)
Lemma dumps_scanned d j :
  json_wf j = true → nesting j ≤ d →
  scan_once (scan_steps (json_dumps j)) d (skip_whitespace (json_dumps j)) = Some (Ok (j, ""))
  ∧ after_word (utf8_encode 65279) (json_dumps j) = None.
Proof.
  intros Hwf Hd. destruct (headed_dumps j Hwf) as (a & s & Hj & Ha).
  destruct (scan_once_dumps j d "" Hwf Hd eq_refl) as [n Hn]. rewrite str_app_nil_r in Hn.
  rewrite (skip_whitespace_headed (json_dumps j)) by (by exists a, s).
  rewrite (scan_once_enough _ _ _ _ _ Hn) by (unfold scan_steps; lia).
  by rewrite Hj, no_byte_order_mark.
Qed.

Lemma loads_scanned d s j :
  scan_once (scan_steps s) d (skip_whitespace s) = Some (Ok (j, ""))
  ∧ after_word (utf8_encode 65279) s = None →
  json_loads d s = Ok j.
Proof.
  intros [Hs Hbom]. unfold json_loads. rewrite Hs, Hbom.
  by rewrite bool_decide_eq_false_2 by by intros [??].
Qed.

(** C9: [json.loads(json.dumps(j))] is [j], for every value whose
    numbers are literals of the format and whose objects have no key
    twice, when the interpreter has a frame left for each level of
    nesting. *)
Theorem json_loads_dumps d j :
  json_wf j = true → nesting j ≤ d → json_loads d (json_dumps j) = Ok j.
Proof. intros Hwf Hd. by apply loads_scanned, dumps_scanned. Qed.

(** C10: the values [json.load] returns are those of the round trip:
    when it returns a value, every number of it is a literal of the
    format, no object of it has a key twice, it is nested no deeper
    than the frames the interpreter had left, and written again it is
    read back as the same value. *)
Theorem json_loads_sound d s j :
  json_loads d s = Ok j →
  json_wf j = true ∧ nesting j ≤ d ∧ json_loads d (json_dumps j) = Ok j.
Proof.
  intros Hj. assert (value_ok d j) as [Hwf Hd].
  { revert Hj. unfold json_loads. case_bool_decide; [done|].
    destruct (scan_once _ _ _) as [[[j1 rest]|e]|] eqn:Hs; repeat case_match; try done.
    intros [= <-]. by eapply scan_sound. }
  split_and!; [done..|]. by apply loads_scanned, dumps_scanned.
Qed.

(** The summary [run] writes is such a value, of nesting 2. *)
Lemma strings_wf (l : list string) : forallb json_wf (JStr <$> l) = true.
Proof. by induction l. Qed.

Lemma strings_nesting (l : list string) : max_list (map nesting (JStr <$> l)) = 0.
Proof. by induction l. Qed.

(** C25: the text [json.dumps] writes has a UTF-8 exactly when every
    string of the value has one: the keys, the strings and the literals
    of the numbers.  So the write of line 112 raises
    [UnicodeEncodeError] only for a lone surrogate in a text of the
    summary, never because two strings were written side by side. *)
Theorem json_dumps_encodable j : str_encodable (json_dumps j) = json_encodable j.
Proof.
  rewrite <-(str_app_nil_r (json_dumps j)), json_dumps_encodable_app by done.
  apply andb_true_r.
Qed.

Lemma summary_json_wf (summary : Summary) : json_wf (summary_json summary) = true.
Proof.
  unfold summary_json. cbn [json_wf forallb snd map fst]. rewrite strings_wf.
  rewrite bool_decide_eq_true_2; [done|]. refine (bool_decide_unpack _ _). by vm_compute.
Qed.

Lemma summary_json_nesting (summary : Summary) : nesting (summary_json summary) = 2.
Proof. unfold summary_json. cbn [nesting map snd]. by rewrite strings_nesting. Qed.

Lemma summary_loads_dumps d (summary : Summary) :
  2 ≤ d → json_loads d (json_dumps (summary_json summary)) = Ok (summary_json summary).
Proof.
  intros Hd. apply loads_scanned, dumps_scanned; [apply summary_json_wf|].
  by rewrite summary_json_nesting.
Qed.
End json_properties.

(** The round trip, on the value of the examples. *)
Lemma json_loads_dumps_witness : json_loads 3 (json_dumps sample_value) = Ok sample_value.
Proof. apply json_loads_dumps; [vm_compute; reflexivity|simpl; lia]. Defined.

Lemma json_loads_sound_witness :
  json_wf sample_read = true ∧ nesting sample_read ≤ 4
  ∧ json_loads 4 (json_dumps sample_read) = Ok sample_read.
Proof. apply (json_loads_sound 4 sample_text). vm_compute. reflexivity. Defined.
