(* ===== verification/TimeBucket.v ===== *)
(** * TimeBucket: [YoutubeSummarize._divide_chunks_by_time]

    The method (summarize.py 117-127) splits the chunk list into
    [split_num] time intervals of equal width and returns the non-empty
    groups.  [bucket_step] is the body of its loop, [_divide_chunks_by_time]
    the whole method, [bucket_spec] what it is meant to compute. *)

From stdpp Require Import base tactics option list strings sorting.
From Stdlib Require Import ZArith QArith Qround Lia Lqa.
From S2P Require Import Prelude PyData Types.
#[local] Close Scope Q_scope.
#[local] Open Scope Z_scope.

(** ** The method, as written *)

(** Lines 122-123: the index of the chunk's interval, clamped to
    [split_num] (one past the last interval). *)
Definition bucket_index (split_num : Z) (delta : Q) (tc : TranscriptChunkModel)
  : PyResult Z :=
  q ← py_floordiv (chunk_start tc) delta;
  let idx := py_int q in
  Ok (if bool_decide (idx < split_num) then idx else split_num).

(** Lines 122-126: one iteration of the loop over [self.chunks]. *)
Definition bucket_step (split_num : Z) (delta : Q)
    (splited_chunks : list (list TranscriptChunkModel))
    (tc : TranscriptChunkModel) : PyResult (list (list TranscriptChunkModel)) :=
  idx ← bucket_index split_num delta tc;
  let splited_chunks :=
    if bool_decide (py_len splited_chunks < idx + 1)
    then py_append splited_chunks []
    else splited_chunks in
  py_alter (fun sc => py_append sc tc) splited_chunks idx.

(** Lines 118-119: [total_time // split_num]. *)
Definition bucket_delta (chunks : list TranscriptChunkModel) (split_num : Z)
  : PyResult Q :=
  last_chunk ← py_getitem chunks (-1);
  py_floordiv (chunk_end last_chunk) (inject_Z split_num).

(** Lines 117-127. *)
Definition _divide_chunks_by_time (chunks : list TranscriptChunkModel)
    (split_num : Z) : PyResult (list (list TranscriptChunkModel)) :=
  delta ← bucket_delta chunks split_num;
  let splited_chunks := py_replicate split_num [] in
  splited_chunks ← foldM (bucket_step split_num delta) splited_chunks chunks;
  Ok (filter (fun sc => 0 < py_len sc) splited_chunks).

(** ** What the method is meant to compute *)

(** [total_time]: the end of the last chunk (0 when there is none). *)
Definition total_time (chunks : list TranscriptChunkModel) : Q :=
  from_option chunk_end 0%Q (last chunks).

(** [delta]: the width of an interval, a whole number of seconds. *)
Definition delta_of (chunks : list TranscriptChunkModel) (split_num : Z) : Q :=
  inject_Z (Qfloor (total_time chunks / inject_Z split_num)).

(** The interval a chunk starts in, [split_num] for every chunk that
    starts at or after [split_num * delta]. *)
Definition bucket_of (split_num : Z) (delta : Q) (tc : TranscriptChunkModel) : Z :=
  Z.min (Qfloor (chunk_start tc / delta)) split_num.

Definition bucket_key (split_num : Z) (delta : Q) (tc : TranscriptChunkModel) : nat :=
  Z.to_nat (bucket_of split_num delta tc).

(** The groups of chunks by interval, [0 .. split_num], without the empty
    ones. *)
Definition bucket_spec (chunks : list TranscriptChunkModel) (split_num : Z)
  : list (list TranscriptChunkModel) :=
  filter (fun g => g ≠ [])
    (group_by_key (bucket_key split_num (delta_of chunks split_num))
       (S (Z.to_nat split_num)) chunks).

(** The inputs the method is written for: at least one interval, at least
    one chunk, a transcript at least [split_num] seconds long, no chunk
    starting before time 0. *)
Definition bucketable (chunks : list TranscriptChunkModel) (split_num : Z) : Prop :=
  0 < split_num ∧ chunks ≠ [] ∧
  (inject_Z split_num <= total_time chunks)%Q ∧
  Forall (fun tc => (0 <= chunk_start tc)%Q) chunks.

#[export] Instance bucketable_dec chunks split_num :
  Decision (bucketable chunks split_num).
Proof. unfold bucketable. apply _. Defined.

(** The state of the loop after the chunks [done]: the groups of [done],
    with or without the group [split_num], which the loop appends when
    the first chunk of that group arrives. *)
Definition bucket_inv (split_num : Z) (delta : Q)
    (done : list TranscriptChunkModel)
    (acc : list (list TranscriptChunkModel)) : Prop :=
  let n := Z.to_nat split_num in
  let key := bucket_key split_num delta in
  (acc = group_by_key key n done ∧ Forall (fun tc => key tc < n)%nat done)
  ∨ acc = group_by_key key (S n) done.

(** Times as a transcript has them: no chunk starts before 0 and no
    duration is negative. *)
Definition times_ok (chunks : list TranscriptChunkModel) : Prop :=
  Forall (fun tc => (0 <= chunk_start tc)%Q ∧ (0 <= chunk_duration tc)%Q) chunks.

(** The method on every input with [0 < split_num] and [times_ok]:
    [IndexError] without chunks, [ZeroDivisionError] on a transcript
    shorter than [split_num] seconds (its [delta] is 0), the groups
    otherwise. *)
Definition divide_spec (chunks : list TranscriptChunkModel) (split_num : Z)
  : PyResult (list (list TranscriptChunkModel)) :=
  if decide (chunks = []) then Raise IndexError
  else if decide (total_time chunks < inject_Z split_num)%Q
       then Raise ZeroDivisionError
       else Ok (bucket_spec chunks split_num).

(** ** Inputs the examples run on *)

(** Ten chunks of ten seconds, starting at 0, 10, ..., 90. *)
Definition ten_chunks : list TranscriptChunkModel :=
  (fun i => mkChunk "v" "t" (inject_Z (10 * Z.of_nat i)) 10%Q) <$> seq 0 10.

(** Nine chunks of one second, starting at 0, 1, ..., 8. *)
Definition nine_short_chunks : list TranscriptChunkModel :=
  (fun i => mkChunk "v" "t" (inject_Z (Z.of_nat i)) 1%Q) <$> seq 0 9.

(** Three chunks of one second: a transcript of three seconds. *)
Definition three_second_chunks : list TranscriptChunkModel :=
  (fun i => mkChunk "v" "t" (inject_Z (Z.of_nat i)) 1%Q) <$> seq 0 3.

(** ** The loop body *)

Section bucket_step_lemmas.
Context (split_num : Z) (delta : Q).
Implicit Types (tc : TranscriptChunkModel) (acc : list (list TranscriptChunkModel)).

(** The clamp of line 123 is a minimum. *)
Lemma bucket_index_nonzero tc :
  ¬ (delta == 0)%Q → bucket_index split_num delta tc = Ok (bucket_of split_num delta tc).
Proof.
  intros Hd. unfold bucket_index, bucket_of.
  rewrite py_floordiv_nonzero by done. simpl. rewrite py_int_inject_Z.
  case_bool_decide; f_equal; lia.
Qed.

Lemma bucket_index_zero tc :
  (delta == 0)%Q → bucket_index split_num delta tc = Raise ZeroDivisionError.
Proof. intros Hd. unfold bucket_index. by rewrite py_floordiv_zero. Qed.

Lemma bucket_index_le tc idx :
  bucket_index split_num delta tc = Ok idx → idx ≤ split_num.
Proof.
  unfold bucket_index. intros H; res_inv. case_bool_decide; lia.
Qed.

Lemma bucket_of_range tc :
  0 ≤ split_num → (0 < delta)%Q → (0 <= chunk_start tc)%Q →
  0 ≤ bucket_of split_num delta tc ≤ split_num.
Proof.
  intros Hn Hd Hs. unfold bucket_of.
  pose proof (Qfloor_div_nonneg _ _ Hs Hd). lia.
Qed.

(** An iteration that succeeds appends the chunk to one group and
    leaves every other chunk where it was. *)
Lemma bucket_step_concat acc tc acc' :
  bucket_step split_num delta acc tc = Ok acc' → concat acc' ≡ₚ concat acc ++ [tc].
Proof.
  unfold bucket_step, py_alter, py_append. intros H; res_inv.
  match goal with H : py_norm_index _ _ = Ok _ |- _ =>
    apply py_norm_index_lt in H; rename H into Hlt end.
  rewrite concat_alter_snoc by done.
  case_bool_decide; [|done]. by rewrite concat_app, (right_id [] (++)).
Qed.

(** An iteration appends at most one group, and never beyond position
    [split_num]. *)
Lemma bucket_step_length acc tc acc' :
  bucket_step split_num delta acc tc = Ok acc' →
  py_len acc ≤ py_len acc' ≤ Z.max (py_len acc) (split_num + 1).
Proof.
  unfold bucket_step, py_alter, py_append. intros H; res_inv.
  match goal with H : bucket_index _ _ _ = Ok _ |- _ =>
    apply bucket_index_le in H end.
  unfold py_len in *. rewrite length_alter.
  case_bool_decide; [rewrite length_app; simpl|]; lia.
Qed.

(** On the inputs the method is written for, an iteration succeeds and
    keeps the loop invariant. *)
Lemma bucket_step_inv done acc tc :
  0 < split_num → (0 < delta)%Q → (0 <= chunk_start tc)%Q →
  bucket_inv split_num delta done acc →
  ∃ acc', bucket_step split_num delta acc tc = Ok acc'
          ∧ bucket_inv split_num delta (done ++ [tc]) acc'.
Proof.
  intros Hn Hd Hs Hinv. unfold bucket_step.
  rewrite bucket_index_nonzero by lra. simpl.
  pose proof (bucket_of_range tc ltac:(lia) Hd Hs) as Hk.
  assert (∀ m, (bucket_key split_num delta tc < m)%nat →
    py_alter (fun sc => py_append sc tc)
      (group_by_key (bucket_key split_num delta) m done)
      (bucket_of split_num delta tc)
    = Ok (group_by_key (bucket_key split_num delta) m (done ++ [tc]))) as Halter.
  { intros m Hm. rewrite py_alter_nonneg.
    - f_equal. exact (group_by_key_snoc (bucket_key split_num delta) m done tc Hm).
    - unfold py_len, bucket_key in *. rewrite length_group_by_key. lia. }
  destruct Hinv as [[-> Hlt]| ->]; unfold py_len;
    rewrite length_group_by_key; case_bool_decide.
  - unfold py_append.
    replace ([[]] : list (list TranscriptChunkModel))
      with [filter (fun x => bucket_key split_num delta x = Z.to_nat split_num) done].
    2:{ f_equal. apply filter_none. eapply Forall_impl; [exact Hlt|]. simpl. lia. }
    rewrite <- group_by_key_S, Halter by (unfold bucket_key; lia).
    eexists; split; [done|]. by right.
  - rewrite Halter by (unfold bucket_key; lia).
    eexists; split; [done|]. left. split; [done|].
    apply Forall_app; split; [done|]. constructor; [|done]. unfold bucket_key. lia.
  - lia.
  - rewrite Halter by (unfold bucket_key; lia).
    eexists; split; [done|]. by right.
Qed.

(** A chunk that starts later is in the same interval or a later one. *)
Lemma bucket_of_mono tc1 tc2 :
  (0 < delta)%Q → (chunk_start tc1 <= chunk_start tc2)%Q →
  bucket_of split_num delta tc1 ≤ bucket_of split_num delta tc2.
Proof.
  intros Hd Hs. unfold bucket_of.
  pose proof (Qfloor_div_mono _ _ _ Hd Hs). lia.
Qed.

Lemma bucket_key_lt tc :
  0 ≤ split_num → (0 < delta)%Q → (0 <= chunk_start tc)%Q →
  (bucket_key split_num delta tc < S (Z.to_nat split_num))%nat.
Proof.
  intros Hn Hd Hs. pose proof (bucket_of_range tc Hn Hd Hs).
  unfold bucket_key. lia.
Qed.
End bucket_step_lemmas.

(** ** The whole method *)

Section divide_lemmas.
Implicit Types (chunks : list TranscriptChunkModel) (split_num : Z).

Lemma total_time_last chunks tc : last chunks = Some tc → total_time chunks = chunk_end tc.
Proof. unfold total_time. by intros ->. Qed.

Lemma bucket_delta_nil split_num : bucket_delta [] split_num = Raise IndexError.
Proof. unfold bucket_delta. by rewrite py_getitem_nil. Qed.

Lemma bucket_delta_zero chunks :
  chunks ≠ [] → bucket_delta chunks 0 = Raise ZeroDivisionError.
Proof.
  intros Hne. unfold bucket_delta. rewrite py_getitem_last.
  destruct (last chunks) eqn:Hl; [done|]. by apply last_None in Hl.
Qed.

Lemma bucket_delta_nonzero chunks split_num :
  chunks ≠ [] → split_num ≠ 0 →
  bucket_delta chunks split_num = Ok (delta_of chunks split_num).
Proof.
  intros Hne Hn. unfold bucket_delta, delta_of. rewrite py_getitem_last.
  destruct (last chunks) as [tc|] eqn:Hl; [|by apply last_None in Hl].
  simpl. rewrite (total_time_last _ _ Hl). apply py_floordiv_nonzero.
  intros H. by apply (inject_Z_injective split_num 0) in H.
Qed.

(** The width is a positive whole number exactly when the transcript is
    at least [split_num] seconds long. *)
Lemma delta_of_pos chunks split_num :
  0 < split_num → (inject_Z split_num <= total_time chunks)%Q →
  (0 < delta_of chunks split_num)%Q.
Proof.
  intros Hn Ht. unfold delta_of.
  assert (0 < inject_Z split_num)%Q as Hq by (by rewrite <- (Zlt_Qlt 0)).
  change 0%Q with (inject_Z 0). rewrite <- Zlt_Qlt.
  enough (1 ≤ Qfloor (total_time chunks / inject_Z split_num)) by lia.
  change 1 with (Qfloor 1). apply Qfloor_resp_le.
  apply Qle_shift_div_l; [done|]. by rewrite Qmult_1_l.
Qed.

Lemma delta_of_zero chunks split_num :
  0 < split_num → (0 <= total_time chunks)%Q →
  (total_time chunks < inject_Z split_num)%Q →
  (delta_of chunks split_num == 0)%Q.
Proof.
  intros Hn H0 Ht. unfold delta_of.
  assert (0 < inject_Z split_num)%Q as Hq by (by rewrite <- (Zlt_Qlt 0)).
  rewrite (Qfloor_div_unique _ _ 0); [done|done| |].
  - change (inject_Z 0) with 0%Q. lra.
  - change (inject_Z (0 + 1)) with 1%Q. lra.
Qed.

(** The test of line 127, [len(sc) > 0], keeps the non-empty groups. *)
Lemma filter_py_len_nonempty (ls : list (list TranscriptChunkModel)) :
  filter (fun sc => 0 < py_len sc) ls = filter (fun g => g ≠ []) ls.
Proof.
  apply list_filter_iff. intros [|x g]; unfold py_len; simpl; split; (done || lia).
Qed.

Lemma concat_py_replicate_nil (n : Z) :
  concat (py_replicate n ([] : list TranscriptChunkModel)) = [].
Proof.
  unfold py_replicate. induction (Z.to_nat n) as [|m IH]; [done|]. by simpl.
Qed.

(** When the loop ends, the invariant gives the groups of the
    specification. *)
Lemma bucket_inv_final chunks split_num acc :
  bucket_inv split_num (delta_of chunks split_num) chunks acc →
  filter (fun sc => 0 < py_len sc) acc = bucket_spec chunks split_num.
Proof.
  rewrite filter_py_len_nonempty. unfold bucket_spec.
  intros [[-> Hlt]| ->]; [|done].
  rewrite group_by_key_S, filter_app, (filter_none _ chunks).
  - rewrite filter_cons_False by (intros Hf; by apply Hf).
    by rewrite filter_nil, app_nil_r.
  - eapply Forall_impl; [exact Hlt|]. simpl. lia.
Qed.

(** The loop, on the inputs the method is written for. *)
Lemma bucket_loop_spec chunks split_num :
  bucketable chunks split_num →
  ∃ acc, foldM (bucket_step split_num (delta_of chunks split_num))
           (py_replicate split_num []) chunks = Ok acc
         ∧ bucket_inv split_num (delta_of chunks split_num) chunks acc.
Proof.
  intros (Hn & Hne & Ht & Hs).
  apply foldM_total.
  - left. split; [|done]. by rewrite group_by_key_nil.
  - intros done tc acc Hinv Htc.
    apply bucket_step_inv; [done|by apply delta_of_pos| |done].
    rewrite Forall_forall in Hs. by apply Hs.
Qed.
(** The loop, on any input: what it returns holds every chunk once. *)
Lemma bucket_loop_concat chunks split_num delta acc :
  foldM (bucket_step split_num delta) (py_replicate split_num []) chunks = Ok acc →
  concat acc ≡ₚ chunks.
Proof.
  apply (foldM_invariant _ (fun done acc => concat acc ≡ₚ done)).
  - by rewrite concat_py_replicate_nil.
  - intros done tc a a' Ha _ Hstep.
    by rewrite (bucket_step_concat _ _ _ _ _ Hstep), Ha.
Qed.

(** The loop, on any input: it never holds more than [split_num + 1]
    groups. *)
Lemma bucket_loop_length chunks split_num delta acc :
  0 ≤ split_num →
  foldM (bucket_step split_num delta) (py_replicate split_num []) chunks = Ok acc →
  py_len acc ≤ split_num + 1.
Proof.
  intros Hn.
  apply (foldM_invariant _ (fun _ acc => py_len acc ≤ split_num + 1)).
  - rewrite py_replicate_length. lia.
  - intros done tc a a' Ha _ Hstep.
    pose proof (bucket_step_length _ _ _ _ _ Hstep). lia.
Qed.

(** On the inputs the method is written for, it returns the groups of
    the specification. *)
Lemma divide_chunks_bucketable chunks split_num :
  bucketable chunks split_num →
  _divide_chunks_by_time chunks split_num = Ok (bucket_spec chunks split_num).
Proof.
  intros Hb. unfold _divide_chunks_by_time.
  destruct (Hb) as (Hn & Hne & _).
  rewrite bucket_delta_nonzero by (done || lia). simpl.
  destruct (bucket_loop_spec _ _ Hb) as (acc & -> & Hinv). simpl.
  f_equal. by apply bucket_inv_final.
Qed.

(** With a width of zero the first iteration divides by zero. *)
Lemma divide_chunks_delta_zero chunks split_num :
  chunks ≠ [] → split_num ≠ 0 → (delta_of chunks split_num == 0)%Q →
  _divide_chunks_by_time chunks split_num = Raise ZeroDivisionError.
Proof.
  intros Hne Hn Hd. unfold _divide_chunks_by_time.
  rewrite bucket_delta_nonzero by done. simpl.
  destruct chunks as [|tc chunks]; [done|].
  rewrite (foldM_raise_first _ _ _ _ ZeroDivisionError); [done|].
  unfold bucket_step. by rewrite bucket_index_zero.
Qed.

Lemma times_ok_total_time chunks : times_ok chunks → (0 <= total_time chunks)%Q.
Proof.
  intros Hok. unfold total_time.
  destruct (last chunks) as [tc|] eqn:Hl; simpl; [|done].
  apply last_Some_elem_of in Hl. unfold times_ok in Hok.
  rewrite Forall_forall in Hok. destruct (Hok _ Hl). unfold chunk_end. lra.
Qed.

Lemma times_ok_starts chunks :
  times_ok chunks → Forall (fun tc => (0 <= chunk_start tc)%Q) chunks.
Proof. intros H. eapply Forall_impl; [exact H|]. simpl. tauto. Qed.

(** A negative [split_num] leaves the loop without a group to index. *)
Lemma bucket_step_no_group split_num delta tc :
  split_num < 0 → is_Raise (bucket_step split_num delta [] tc).
Proof.
  intros Hn. unfold bucket_step.
  destruct (bucket_index split_num delta tc) as [idx|e] eqn:Hidx; [|done].
  apply bucket_index_le in Hidx. simpl.
  rewrite bool_decide_eq_false_2 by (unfold py_len; simpl; lia).
  unfold py_alter. by rewrite py_norm_index_out by (unfold py_len; simpl; lia).
Qed.
(** What a call that returns went through. *)
Lemma divide_chunks_Ok_inv chunks split_num buckets :
  _divide_chunks_by_time chunks split_num = Ok buckets →
  ∃ delta acc,
    bucket_delta chunks split_num = Ok delta
    ∧ foldM (bucket_step split_num delta) (py_replicate split_num []) chunks = Ok acc
    ∧ buckets = filter (fun sc => 0 < py_len sc) acc.
Proof. unfold _divide_chunks_by_time. intros H; res_inv. eauto. Qed.

(** The groups returned hold every chunk once. *)
Lemma divide_chunks_concat chunks split_num buckets :
  _divide_chunks_by_time chunks split_num = Ok buckets → concat buckets ≡ₚ chunks.
Proof.
  intros (delta & acc & _ & Hloop & ->)%divide_chunks_Ok_inv.
  rewrite concat_filter_nonempty; [by eapply bucket_loop_concat|].
  intros [|? g]; unfold py_len; simpl; [done|lia].
Qed.

(** There is at least one: the method returns on no empty list of
    chunks. *)
Lemma divide_chunks_some_group chunks split_num buckets :
  _divide_chunks_by_time chunks split_num = Ok buckets → chunks ≠ [] ∧ buckets ≠ [].
Proof.
  intros Hrun. assert (chunks ≠ []) as Hne.
  { intros ->. apply divide_chunks_Ok_inv in Hrun as (? & ? & Hd & _).
    by rewrite bucket_delta_nil in Hd. }
  split; [done|]. intros ->. apply divide_chunks_concat in Hrun.
  by apply Permutation_nil_l in Hrun.
Qed.
End divide_lemmas.


(** ** Correctness of [_divide_chunks_by_time] *)

(** C1: for a positive [split_num] and chunks with non-negative start
    times and durations, [_divide_chunks_by_time] behaves on every branch
    as [divide_spec] says: it raises [IndexError] when there is no chunk,
    [ZeroDivisionError] when the transcript is shorter than [split_num]
    seconds, and otherwise returns the non-empty groups of chunks by
    interval [min(floor(start / delta), split_num)], in interval order. *)
Theorem divide_chunks_refines_spec chunks split_num :
  0 < split_num → times_ok chunks →
  _divide_chunks_by_time chunks split_num = divide_spec chunks split_num.
Proof.
  intros Hn Hok. unfold divide_spec. repeat case_decide.
  - subst. unfold _divide_chunks_by_time. by rewrite bucket_delta_nil.
  - apply divide_chunks_delta_zero; [done|lia|].
    apply delta_of_zero; [done|by apply times_ok_total_time|done].
  - apply divide_chunks_bucketable. repeat split; [done..| |by apply times_ok_starts].
    by apply Qnot_lt_le.
Qed.

Lemma divide_chunks_refines_spec_witness :
  0 < 5 ∧ times_ok ten_chunks ∧
  _divide_chunks_by_time ten_chunks 5 = divide_spec ten_chunks 5.
Proof.
  assert (times_ok ten_chunks) as Hok
    by (refine (bool_decide_unpack _ _); vm_compute; exact I).
  split; [reflexivity|]. split; [exact Hok|].
  exact (divide_chunks_refines_spec ten_chunks 5 eq_refl Hok).
Defined.

(** C14: whenever [_divide_chunks_by_time] returns, the groups it returns
    hold every chunk of the input exactly once (no chunk is lost, none is
    duplicated) and no group is empty. *)
Theorem divide_chunks_partition chunks split_num buckets :
  _divide_chunks_by_time chunks split_num = Ok buckets →
  concat buckets ≡ₚ chunks ∧ Forall (fun g => g ≠ []) buckets.
Proof.
  intros Hrun. split; [by eapply divide_chunks_concat|].
  apply divide_chunks_Ok_inv in Hrun as (delta & acc & _ & _ & ->).
  rewrite filter_py_len_nonempty. apply Forall_forall.
  by intros g [Hg _]%list_elem_of_filter.
Qed.

Lemma divide_chunks_partition_witness :
  concat (bucket_spec nine_short_chunks 5) ≡ₚ nine_short_chunks
  ∧ Forall (fun g => g ≠ []) (bucket_spec nine_short_chunks 5).
Proof.
  apply (divide_chunks_partition nine_short_chunks 5).
  vm_compute. reflexivity.
Defined.

(** Whenever [_divide_chunks_by_time] returns for a non-negative
    [split_num], it returns at most [split_num + 1] groups: the loop can
    append one group beyond the [split_num] it starts with, never two. *)
Theorem divide_chunks_count_le chunks split_num buckets :
  0 ≤ split_num →
  _divide_chunks_by_time chunks split_num = Ok buckets →
  py_len buckets ≤ split_num + 1.
Proof.
  intros Hn (delta & acc & _ & Hloop & ->)%divide_chunks_Ok_inv.
  apply bucket_loop_length in Hloop; [|done].
  unfold py_len in *. etrans; [|exact Hloop]. apply Nat2Z.inj_le, length_filter.
Qed.

Lemma divide_chunks_count_le_witness :
  py_len (bucket_spec nine_short_chunks 5) ≤ 5 + 1.
Proof.
  apply (divide_chunks_count_le nine_short_chunks 5); [done|].
  vm_compute. reflexivity.
Defined.

(** C27: on the inputs the method is written for, when the chunks are in
    start-time order (as the chunker produces them), concatenating the
    returned groups gives the chunk list back: the grouping keeps the
    order of the chunks, within and across groups. *)
Theorem divide_chunks_keeps_order chunks split_num :
  bucketable chunks split_num →
  StronglySorted (fun a b => (chunk_start a <= chunk_start b)%Q) chunks →
  ∃ buckets, _divide_chunks_by_time chunks split_num = Ok buckets
             ∧ concat buckets = chunks.
Proof.
  intros Hb Hs. exists (bucket_spec chunks split_num).
  split; [by apply divide_chunks_bucketable|].
  destruct Hb as (Hn & Hne & Ht & H0).
  pose proof (delta_of_pos _ _ Hn Ht) as Hd.
  unfold bucket_spec. rewrite concat_filter_nonempty.
  - apply concat_group_by_key_sorted.
    + eapply StronglySorted_mono; [|exact Hs]. intros a b Hab. simpl in Hab.
      pose proof (bucket_of_mono split_num _ a b Hd Hab). unfold bucket_key. lia.
    + eapply Forall_impl; [exact H0|]. intros tc Htc.
      apply bucket_key_lt; [lia|done..].
  - intros g Hg. by destruct (decide (g = [])).
Qed.

Lemma divide_chunks_keeps_order_witness :
  ∃ buckets, _divide_chunks_by_time ten_chunks 5 = Ok buckets
             ∧ concat buckets = ten_chunks.
Proof.
  apply (divide_chunks_keeps_order ten_chunks 5);
    refine (bool_decide_unpack _ _); vm_compute; exact I.
Defined.

(** C28: on the inputs the method is written for, the returned groups are
    the groups of a strictly increasing sequence of interval indices
    [ks], each at most [split_num]: a chunk is in the group of [k]
    exactly when it is a chunk of the input whose interval is [k].  The
    groups therefore cover disjoint start-time ranges. *)
Theorem divide_chunks_groups_by_interval chunks split_num :
  bucketable chunks split_num →
  ∃ ks buckets,
    _divide_chunks_by_time chunks split_num = Ok buckets ∧
    StronglySorted lt ks ∧ Forall (fun k => (k ≤ Z.to_nat split_num)%nat) ks ∧
    Forall2 (fun k g => ∀ tc, tc ∈ g ↔
               tc ∈ chunks ∧ bucket_key split_num (delta_of chunks split_num) tc = k)
      ks buckets.
Proof.
  intros Hb.
  destruct (nonempty_groups_keys (bucket_key split_num (delta_of chunks split_num))
              (S (Z.to_nat split_num)) chunks) as (ks & Hsorted & Hks & Heq).
  exists ks, (bucket_spec chunks split_num).
  split; [by apply divide_chunks_bucketable|]. split; [done|]. split.
  - eapply Forall_impl; [exact Hks|]. simpl. lia.
  - unfold bucket_spec. rewrite Heq. apply Forall2_fmap_r, Forall_Forall2_diag.
    apply Forall_forall. intros k _ tc. simpl.
    by rewrite list_elem_of_filter, (comm and).
Qed.

Lemma divide_chunks_groups_by_interval_witness :
  ∃ ks buckets,
    _divide_chunks_by_time ten_chunks 5 = Ok buckets ∧
    StronglySorted lt ks ∧ Forall (fun k => (k ≤ Z.to_nat 5)%nat) ks ∧
    Forall2 (fun k g => ∀ tc, tc ∈ g ↔
               tc ∈ ten_chunks ∧ bucket_key 5 (delta_of ten_chunks 5) tc = k)
      ks buckets.
Proof.
  apply (divide_chunks_groups_by_interval ten_chunks 5).
  refine (bool_decide_unpack _ _); vm_compute; exact I.
Defined.

(** The index line 122-123 computes for a positive width [delta] is
    the interval the chunk starts in: an index [k] below [split_num] means
    [k * delta <= start < (k + 1) * delta], and the index is [split_num]
    exactly for the chunks that start at or after [split_num * delta]. *)
Theorem bucket_index_interval split_num delta tc k :
  (0 < delta)%Q →
  bucket_index split_num delta tc = Ok k →
  (k < split_num →
     (inject_Z k * delta <= chunk_start tc)%Q ∧
     (chunk_start tc < inject_Z (k + 1) * delta)%Q) ∧
  (k = split_num ↔ (inject_Z split_num * delta <= chunk_start tc)%Q).
Proof.
  intros Hd. rewrite bucket_index_nonzero by lra. intros [= <-].
  unfold bucket_of.
  pose proof (Qfloor_div_bounds (chunk_start tc) delta Hd) as [Hlo Hhi].
  set (q := Qfloor (chunk_start tc / delta)) in *. split; [|split].
  - intros Hk. by replace (Z.min q split_num) with q by lia.
  - intros Hk. assert (split_num ≤ q) as Hq by lia. rewrite Zle_Qle in Hq.
    eapply Qle_trans; [|exact Hlo]. by apply Qmult_le_compat_r; [|lra].
  - intros Hs. enough (split_num ≤ q) by lia.
    assert (inject_Z split_num * delta < inject_Z (q + 1) * delta)%Q as Hlt
      by (eapply Qle_lt_trans; eauto).
    apply Qmult_lt_r in Hlt; [|done]. rewrite <- Zlt_Qlt in Hlt. lia.
Qed.

Lemma bucket_index_interval_witness :
  ((inject_Z 2 * 20 <= 50)%Q ∧ (50 < inject_Z (2 + 1) * 20)%Q)
  ∧ (2 = 5 ↔ (inject_Z 5 * 20 <= 50)%Q).
Proof.
  pose proof (bucket_index_interval 5 20%Q (mkChunk "v" "t" 50%Q 10%Q) 2
                eq_refl eq_refl) as [H1 H2].
  split; [by apply H1|exact H2].
Defined.

(** ** Behaviour on the inputs the guards reject *)

(** With no chunk at all, [self.chunks[-1]] raises [IndexError],
    whatever [split_num] is. *)
Theorem divide_chunks_empty_IndexError split_num :
  _divide_chunks_by_time [] split_num = Raise IndexError.
Proof. unfold _divide_chunks_by_time. by rewrite bucket_delta_nil. Qed.

(** With [split_num = 0] and at least one chunk, [total_time //
    split_num] raises [ZeroDivisionError]. *)
Theorem divide_chunks_zero_split chunks :
  chunks ≠ [] → _divide_chunks_by_time chunks 0 = Raise ZeroDivisionError.
Proof.
  intros Hne. unfold _divide_chunks_by_time. by rewrite bucket_delta_zero.
Qed.

Lemma divide_chunks_zero_split_witness :
  _divide_chunks_by_time ten_chunks 0 = Raise ZeroDivisionError.
Proof. apply (divide_chunks_zero_split ten_chunks). discriminate. Defined.

(** A transcript shorter than [split_num] seconds makes the method
    raise [ZeroDivisionError]: [delta = total_time // split_num] is 0 and
    line 122 divides by it.  [run] calls the method with [split_num = 5],
    so a video of less than five seconds cannot be summarised. *)
Theorem divide_chunks_short_transcript chunks split_num :
  0 < split_num → chunks ≠ [] →
  (0 <= total_time chunks)%Q → (total_time chunks < inject_Z split_num)%Q →
  _divide_chunks_by_time chunks split_num = Raise ZeroDivisionError.
Proof.
  intros Hn Hne H0 Ht. apply divide_chunks_delta_zero; [done|lia|].
  by apply delta_of_zero.
Qed.

Lemma divide_chunks_short_transcript_witness :
  _divide_chunks_by_time three_second_chunks 5 = Raise ZeroDivisionError.
Proof.
  apply (divide_chunks_short_transcript three_second_chunks 5);
    [done|discriminate|..]; refine (bool_decide_unpack _ _); vm_compute; exact I.
Defined.

(** A negative [split_num] never returns: the list of groups starts
    empty and line 124 appends nothing, so the method raises
    ([IndexError] at line 126, or an earlier exception). *)
Theorem divide_chunks_negative_split chunks split_num :
  split_num < 0 → is_Raise (_divide_chunks_by_time chunks split_num).
Proof.
  intros Hn. unfold _divide_chunks_by_time.
  destruct (bucket_delta chunks split_num) as [delta|e] eqn:Hdelta; [|done].
  destruct chunks as [|tc chunks]; [by rewrite bucket_delta_nil in Hdelta|].
  simpl. rewrite py_replicate_nonpos by lia.
  pose proof (bucket_step_no_group split_num delta tc Hn) as Hstep.
  by destruct (bucket_step split_num delta [] tc).
Qed.

Lemma divide_chunks_negative_split_witness :
  is_Raise (_divide_chunks_by_time ten_chunks (-1)).
Proof. apply (divide_chunks_negative_split ten_chunks (-1)). done. Defined.

(** C30: the clamp of line 123 is [split_num], not [split_num - 1]: on
    the inputs the method is written for, when every interval index from
    0 to [split_num] is the index of some chunk, the method returns
    [split_num + 1] groups, one more than the number of intervals asked
    for. *)
Theorem divide_chunks_overflow_group chunks split_num :
  bucketable chunks split_num →
  (∀ k, (k ≤ Z.to_nat split_num)%nat →
     Exists (fun tc => bucket_key split_num (delta_of chunks split_num) tc = k) chunks) →
  ∃ buckets, _divide_chunks_by_time chunks split_num = Ok buckets
             ∧ py_len buckets = split_num + 1.
Proof.
  intros Hb Hall. exists (bucket_spec chunks split_num).
  split; [by apply divide_chunks_bucketable|].
  destruct Hb as (Hn & _). unfold bucket_spec, py_len.
  rewrite filter_all, length_group_by_key; [lia|].
  apply Forall_fmap, Forall_seq. intros k Hk. simpl.
  apply filter_nonempty_exists, Hall. lia.
Qed.

Lemma divide_chunks_overflow_group_witness :
  ∃ buckets, _divide_chunks_by_time nine_short_chunks 5 = Ok buckets
             ∧ py_len buckets = 5 + 1.
Proof.
  apply (divide_chunks_overflow_group nine_short_chunks 5).
  - refine (bool_decide_unpack _ _); vm_compute; exact I.
  - intros k Hk.
    do 6 (destruct k as [|k];
          [refine (bool_decide_unpack _ _); vm_compute; exact I|]).
    simpl in Hk. lia.
Defined.
