(* ===== verification/ChunkDivider.v ===== *)
(** * ChunkDivider: [divide_transcriptions_into_chunks]

    The function is defined in [yts/utils.py], which is not among the
    sources under [src/]; [YoutubeSummarize.prepare] calls it
    (summarize.py 68-73).  Its model follows the prose specification:
    fragments are appended to a buffer; when the text of the buffer
    reaches [maxlength] characters ([len], on code points) the buffer is closed into a chunk
    (start of its first fragment, sum of its durations, id
    [f"{id_prefix}-{n}"]) and the next buffer is seeded with the last
    [overlap_length] fragments of the closed one; when the fragments run
    out, a buffer that holds a fragment not yet in a chunk is flushed.
    Texts are joined with one space, as in the specification's scenario.
    The call fails with [InvalidInputError] on an empty transcript or
    when [maxlength <= overlap_length]. *)

From stdpp Require Import base tactics option list strings pretty.
From Stdlib Require Import ZArith QArith Lqa.
From S2P Require Import Prelude PyData PyStr PyText Types TimeBucket.
#[local] Close Scope Q_scope.

(** ** Definitions *)

(** [" ".join(texts)] *)
Fixpoint join_space (texts : list string) : string :=
  match texts with
  | [] => ""
  | [t] => t
  | t :: rest => t +:+ " " +:+ join_space rest
  end.

(** The text of a buffer of fragments. *)
Definition buffer_text (buf : list YoutubeTranscriptType) : string :=
  join_space (tr_text <$> buf).

(** The sum of the durations of a buffer. *)
Definition buffer_duration (buf : list YoutubeTranscriptType) : Q :=
  foldr (fun f acc => (tr_duration f + acc)%Q) 0%Q buf.

(** The start of a buffer: that of its first fragment. *)
Definition buffer_start (buf : list YoutubeTranscriptType) : Q :=
  from_option tr_start 0%Q (head buf).

(** The chunk a buffer is closed into, the [n]-th of the run. *)
Definition close_chunk (id_prefix : string) (n : nat)
    (buf : list YoutubeTranscriptType) : TranscriptChunkModel :=
  mkChunk (id_prefix +:+ "-" +:+ pretty n) (buffer_text buf)
          (buffer_start buf) (buffer_duration buf).

(** [buf[-k:]]: the last [k] fragments. *)
Definition last_n {A} (k : nat) (l : list A) : list A :=
  drop (length l - k) l.

(** The state of the loop: the buffer, whether it holds a fragment that
    is in no chunk yet, and the chunks closed so far. *)
Record divider_state : Type := mkDivider {
  ds_buffer : list YoutubeTranscriptType;
  ds_fresh : bool;
  ds_chunks : list TranscriptChunkModel;
}.

Definition divider_step (maxlength overlap_length : nat) (id_prefix : string)
    (st : divider_state) (frag : YoutubeTranscriptType) : divider_state :=
  let buf := ds_buffer st ++ [frag] in
  if bool_decide (maxlength ≤ str_len (buffer_text buf))%nat
  then mkDivider (last_n overlap_length buf) false
         (ds_chunks st ++ [close_chunk id_prefix (length (ds_chunks st)) buf])
  else mkDivider buf true (ds_chunks st).

(** The chunks when the fragments have run out. *)
Definition divider_flush (id_prefix : string) (st : divider_state)
  : list TranscriptChunkModel :=
  if ds_fresh st
  then ds_chunks st ++ [close_chunk id_prefix (length (ds_chunks st)) (ds_buffer st)]
  else ds_chunks st.

Definition divide_transcriptions_into_chunks
    (transcriptions : list YoutubeTranscriptType)
    (maxlength overlap_length : Z) (id_prefix : string)
  : PyResult (list TranscriptChunkModel) :=
  if bool_decide (transcriptions = []) then Raise InvalidInputError
  else if bool_decide (maxlength ≤ overlap_length)%Z then Raise InvalidInputError
  else Ok (divider_flush id_prefix
             (foldl (divider_step (Z.to_nat maxlength) (Z.to_nat overlap_length) id_prefix)
                    (mkDivider [] false []) transcriptions)).

(** ** The buffers behind the chunks

    The same loop, keeping the buffers it closes instead of the chunks
    they are closed into: the properties of the chunks are stated on
    the fragments they hold. *)

(** The buffers the loop closes. *)
Record buffers_state : Type := mkBuffers {
  bs_buffer : list YoutubeTranscriptType;
  bs_fresh : bool;
  bs_closed : list (list YoutubeTranscriptType);
}.

Definition buffers_step (maxlength overlap_length : nat)
    (st : buffers_state) (frag : YoutubeTranscriptType) : buffers_state :=
  let buf := bs_buffer st ++ [frag] in
  if bool_decide (maxlength ≤ str_len (buffer_text buf))%nat
  then mkBuffers (last_n overlap_length buf) false (bs_closed st ++ [buf])
  else mkBuffers buf true (bs_closed st).

Definition buffers_flush (st : buffers_state) : list (list YoutubeTranscriptType) :=
  if bs_fresh st then bs_closed st ++ [bs_buffer st] else bs_closed st.

Definition divide_buffers (maxlength overlap_length : nat)
    (transcriptions : list YoutubeTranscriptType) : list (list YoutubeTranscriptType) :=
  buffers_flush (foldl (buffers_step maxlength overlap_length)
                   (mkBuffers [] false []) transcriptions).

(** [chain k prev bufs frags]: every buffer of [bufs] starts with the
    last [k] fragments of the one before it ([prev] for the first one)
    and goes on with fragments of its own, at least one; [frags] are
    these fragments, in order. *)
Inductive chain {A} (k : nat) : list A → list (list A) → list A → Prop :=
| chain_nil prev : chain k prev [] []
| chain_cons prev new bufs rest :
    new ≠ [] → chain k (last_n k prev ++ new) bufs rest →
    chain k prev ((last_n k prev ++ new) :: bufs) (new ++ rest).

(** The two loops in step: the chunks are the buffers closed. *)
Definition same_state (id_prefix : string) (st : divider_state) (bs : buffers_state)
  : Prop :=
  ds_buffer st = bs_buffer bs ∧ ds_fresh st = bs_fresh bs
  ∧ ds_chunks st = imap (close_chunk id_prefix) (bs_closed bs).

(** What holds after the fragments [done]: the buffer is the seed left
    by the last buffer closed, then the fragments [new] in no buffer
    yet; the buffers closed are chained and full. *)
Inductive buffers_inv (maxlength overlap_length : nat)
    (done : list YoutubeTranscriptType) (st : buffers_state) : Prop :=
| buffers_inv_intro new rest :
    bs_buffer st = last_n overlap_length (List.last (bs_closed st) []) ++ new →
    chain overlap_length [] (bs_closed st) rest →
    done = rest ++ new →
    bs_fresh st = bool_decide (new ≠ []) →
    Forall (fun b => maxlength ≤ str_len (buffer_text b))%nat (bs_closed st) →
    buffers_inv maxlength overlap_length done st.

(** Times as the transcript API gives them. *)
Definition fragment_ok (f : YoutubeTranscriptType) : Prop :=
  (0 <= tr_start f)%Q ∧ (0 <= tr_duration f)%Q.

(** The chunks of a video: at least one, numbered from 0 under the id
    of the video, with times that are not negative. *)
Record chunks_wf (id_prefix : string) (chunks : list TranscriptChunkModel) : Prop :=
  mkChunksWf {
    wf_nonempty : chunks ≠ [];
    wf_ids :
      ∀ i tc, chunks !! i = Some tc → chunk_id tc = id_prefix +:+ "-" +:+ pretty i;
    wf_times : times_ok chunks;
  }.

(** The scenario of the specification: fragments x, y, z of two seconds. *)
Definition xyz_fragments : list YoutubeTranscriptType :=
  [mkTranscript "x" 0%Q 2%Q; mkTranscript "y" 2%Q 2%Q; mkTranscript "z" 4%Q 2%Q].

(** ** Lemmas *)

(** The scenario of the specification evaluates as it says. *)
Lemma divide_xyz :
  divide_transcriptions_into_chunks xyz_fragments 3 1 "v1"
  = Ok [mkChunk "v1-0" "x y" 0%Q (2 + (2 + 0))%Q;
        mkChunk "v1-1" "y z" 2%Q (2 + (2 + 0))%Q].
Proof. reflexivity. Qed.

Section divider_lemmas.
Context (maxlength overlap_length : nat) (id_prefix : string).
Implicit Types (st : divider_state) (frag : YoutubeTranscriptType).

#[local] Abbreviation dstep := (divider_step maxlength overlap_length id_prefix).

(** A step closes at most one chunk and never drops one. *)
Lemma divider_step_chunks st frag :
  ds_chunks st `prefix_of` ds_chunks (dstep st frag).
Proof.
  unfold divider_step. case_bool_decide; simpl; [|done].
  by apply prefix_app_r.
Qed.

(** After a step the state holds a chunk or a fresh fragment. *)
Lemma divider_step_progress st frag :
  ds_fresh (dstep st frag) = true ∨ ds_chunks (dstep st frag) ≠ [].
Proof.
  unfold divider_step. case_bool_decide; simpl; [right|by left].
  by destruct (ds_chunks st).
Qed.

Lemma divider_loop_progress st frags :
  frags ≠ [] →
  let st' := foldl dstep st frags in
  ds_fresh st' = true ∨ ds_chunks st' ≠ [].
Proof.
  intros Hne. induction frags as [|frag frags IH] using rev_ind; [done|].
  rewrite foldl_app. simpl. apply divider_step_progress.
Qed.

Lemma divider_flush_nonempty st :
  ds_fresh st = true ∨ ds_chunks st ≠ [] → divider_flush id_prefix st ≠ [].
Proof.
  unfold divider_flush. intros [-> | H]; [by destruct (ds_chunks st)|].
  destruct (ds_fresh st); [by destruct (ds_chunks st)|done].
Qed.
End divider_lemmas.

(** The call fails exactly on an empty transcript or when
    [maxlength <= overlap_length]; otherwise it returns at least one
    chunk. *)
Lemma divide_transcriptions_Ok transcriptions maxlength overlap_length id_prefix :
  transcriptions ≠ [] → (overlap_length < maxlength)%Z →
  ∃ chunks, divide_transcriptions_into_chunks transcriptions maxlength
              overlap_length id_prefix = Ok chunks ∧ chunks ≠ [].
Proof.
  intros Hne Hlt. unfold divide_transcriptions_into_chunks.
  rewrite !bool_decide_eq_false_2 by (done || lia).
  eexists; split; [done|]. by apply divider_flush_nonempty, divider_loop_progress.
Qed.

Lemma divide_transcriptions_Raise transcriptions maxlength overlap_length id_prefix :
  transcriptions = [] ∨ (maxlength ≤ overlap_length)%Z →
  divide_transcriptions_into_chunks transcriptions maxlength overlap_length id_prefix
  = Raise InvalidInputError.
Proof.
  intros H. unfold divide_transcriptions_into_chunks.
  repeat case_bool_decide; try done. by destruct H.
Qed.

(** A call that returns returns at least one chunk. *)
Lemma divide_transcriptions_Ok_inv transcriptions maxlength overlap_length id_prefix
    chunks :
  divide_transcriptions_into_chunks transcriptions maxlength overlap_length id_prefix
  = Ok chunks →
  transcriptions ≠ [] ∧ (overlap_length < maxlength)%Z ∧ chunks ≠ [].
Proof.
  unfold divide_transcriptions_into_chunks. repeat case_bool_decide; try done.
  intros [= <-]. split_and!; [done|lia|].
  by apply divider_flush_nonempty, divider_loop_progress.
Qed.

(** ** The buffers are chained, full, and closed into the chunks *)

Section chain_lemmas.
Context {A : Type} (k : nat).
Implicit Types (prev new rest : list A) (bufs : list (list A)).

Lemma last_default_cons bufs b d d' : List.last (b :: bufs) d = List.last (b :: bufs) d'.
Proof. revert b. induction bufs as [|b' bufs IH]; intros b; [done|]. apply (IH b'). Qed.

Lemma chain_snoc prev bufs rest new :
  chain k prev bufs rest → new ≠ [] →
  chain k prev (bufs ++ [last_n k (List.last bufs prev) ++ new]) (rest ++ new).
Proof.
  intros Hc Hnew. induction Hc as [prev|prev new' bufs rest Hnew' Hc IH]; simpl app.
  - rewrite <- (app_nil_r new) at 2. constructor; [done|constructor].
  - rewrite <- (assoc (++)). constructor; [done|].
    destruct bufs as [|b bufs]; [done|].
    by rewrite (last_default_cons _ _ _ (last_n k prev ++ new')).
Qed.

Lemma chain_nonempty prev bufs rest : chain k prev bufs rest → Forall (fun b => b ≠ []) bufs.
Proof.
  induction 1 as [|prev new bufs rest Hnew _ IH]; constructor; [|done].
  destruct new; [done|]. by destruct (last_n k prev).
Qed.
End chain_lemmas.

Section buffers_lemmas.
Context (maxlength overlap_length : nat) (id_prefix : string).
Implicit Types (st : divider_state) (bs : buffers_state) (frag : YoutubeTranscriptType).

#[local] Abbreviation bstep := (buffers_step maxlength overlap_length).
#[local] Abbreviation cstep := (divider_step maxlength overlap_length id_prefix).

Lemma buffers_inv_init : buffers_inv maxlength overlap_length [] (mkBuffers [] false []).
Proof. by apply (buffers_inv_intro _ _ _ _ [] []); [|constructor|..]. Qed.

Lemma buffers_step_inv done bs frag :
  buffers_inv maxlength overlap_length done bs →
  buffers_inv maxlength overlap_length (done ++ [frag]) (bstep bs frag).
Proof.
  unfold buffers_step. cbv zeta.
  case_bool_decide as Hlen; intros [new rest Hbuf Hchain -> Hfresh Hfull].
  - apply (buffers_inv_intro _ _ _ _ [] (rest ++ new ++ [frag]));
      cbn [bs_buffer bs_closed bs_fresh].
    + by rewrite List.last_last, app_nil_r.
    + rewrite Hbuf, <- (assoc (++)). apply chain_snoc; [done|]. by destruct new.
    + by rewrite app_nil_r, (assoc (++)).
    + done.
    + apply Forall_app. by repeat constructor.
  - apply (buffers_inv_intro _ _ _ _ (new ++ [frag]) rest);
      cbn [bs_buffer bs_closed bs_fresh];
      [by rewrite Hbuf, (assoc (++))|done|by rewrite (assoc (++))| |done].
    symmetry. apply bool_decide_eq_true_2. by destruct new.
Qed.

Lemma buffers_loop_inv frags :
  buffers_inv maxlength overlap_length frags (foldl bstep (mkBuffers [] false []) frags).
Proof.
  induction frags as [|frag frags IH] using rev_ind; [apply buffers_inv_init|].
  rewrite foldl_app. by apply buffers_step_inv.
Qed.

(** The buffers of a transcript: chained from the first fragment to the
    last, and full but for the last one. *)
Lemma divide_buffers_spec frags :
  let bufs := divide_buffers maxlength overlap_length frags in
  chain overlap_length [] bufs frags
  ∧ ∀ i b, bufs !! i = Some b → (S i < length bufs)%nat →
           (maxlength ≤ str_len (buffer_text b))%nat.
Proof.
  unfold divide_buffers, buffers_flush.
  destruct (buffers_loop_inv frags) as [new rest Hbuf Hchain -> Hfresh Hfull].
  rewrite Hfresh. case_bool_decide as Hnew; simpl.
  - split; [rewrite Hbuf; by apply chain_snoc|]. intros i b Hb Hi.
    rewrite length_app in Hi. simpl in Hi. rewrite lookup_app_l in Hb by lia.
    by eapply (Forall_lookup_1 _ _ _ _ Hfull).
  - subst new. rewrite app_nil_r in *. split; [done|].
    intros i b Hb _. by eapply (Forall_lookup_1 _ _ _ _ Hfull).
Qed.

Lemma same_state_step st bs frag :
  same_state id_prefix st bs → same_state id_prefix (cstep st frag) (bstep bs frag).
Proof.
  intros (Hbuf & Hfresh & Hchunks). unfold divider_step, buffers_step. rewrite Hbuf.
  unfold same_state.
  case_bool_decide; cbn [ds_buffer ds_fresh ds_chunks bs_buffer bs_fresh bs_closed];
    [|done].
  split_and!; [done..|].
  rewrite imap_app, Hchunks, length_imap. simpl. by rewrite Nat.add_0_r.
Qed.

Lemma same_state_loop frags :
  same_state id_prefix (foldl cstep (mkDivider [] false []) frags)
    (foldl bstep (mkBuffers [] false []) frags).
Proof.
  induction frags as [|frag frags IH] using rev_ind; [done|].
  rewrite !foldl_app. by apply same_state_step.
Qed.
End buffers_lemmas.

(** The chunks are the buffers of the transcript, closed in order. *)
Lemma divide_transcriptions_buffers transcriptions maxlength overlap_length id_prefix
    chunks :
  divide_transcriptions_into_chunks transcriptions maxlength overlap_length id_prefix
  = Ok chunks →
  chunks = imap (close_chunk id_prefix)
             (divide_buffers (Z.to_nat maxlength) (Z.to_nat overlap_length) transcriptions).
Proof.
  unfold divide_transcriptions_into_chunks. repeat case_bool_decide; try done.
  intros [= <-]. unfold divider_flush, divide_buffers, buffers_flush.
  destruct (same_state_loop (Z.to_nat maxlength) (Z.to_nat overlap_length) id_prefix
              transcriptions) as (Hbuf & -> & Hchunks).
  destruct (bs_fresh _); [|done].
  rewrite imap_app, Hchunks, Hbuf, length_imap. simpl. by rewrite Nat.add_0_r.
Qed.

(** ** The chunks are well formed *)

Section chain_elements.
Context {A : Type} (k : nat) (P : A → Prop).

Lemma Forall_last_n (l : list A) : Forall P l → Forall P (last_n k l).
Proof. apply Forall_drop. Qed.

Lemma chain_Forall prev bufs rest :
  chain k prev bufs rest → Forall P prev → Forall P rest → Forall (Forall P) bufs.
Proof.
  induction 1 as [|prev new bufs rest Hnew _ IH]; intros Hprev Hrest; [done|].
  apply Forall_app in Hrest as [Hnew' Hrest].
  assert (Forall P (last_n k prev ++ new)) by (apply Forall_app; auto using Forall_last_n).
  constructor; auto.
Qed.
End chain_elements.

Lemma buffer_duration_nonneg buf : Forall fragment_ok buf → (0 <= buffer_duration buf)%Q.
Proof.
  induction 1 as [|f buf [_ Hf] _ IH]; simpl; [done|]. lra.
Qed.

Lemma buffer_start_nonneg buf : Forall fragment_ok buf → (0 <= buffer_start buf)%Q.
Proof. destruct 1 as [|f buf [Hf _] _]; [done|exact Hf]. Qed.

Lemma close_chunks_times id_prefix bufs :
  Forall (Forall fragment_ok) bufs → times_ok (imap (close_chunk id_prefix) bufs).
Proof.
  intros Hbufs. apply Forall_lookup. intros i tc.
  rewrite list_lookup_imap. destruct (bufs !! i) as [buf|] eqn:Hi; [|done].
  intros [= <-]. pose proof (Forall_lookup_1 _ _ _ _ Hbufs Hi).
  split; simpl; auto using buffer_start_nonneg, buffer_duration_nonneg.
Qed.

(** The chunks of a transcript whose times are not negative are well
    formed. *)
Lemma divide_transcriptions_wf transcriptions maxlength overlap_length id_prefix
    chunks :
  divide_transcriptions_into_chunks transcriptions maxlength overlap_length id_prefix
  = Ok chunks →
  Forall fragment_ok transcriptions → chunks_wf id_prefix chunks.
Proof.
  intros Hdiv Hok. pose proof (divide_transcriptions_Ok_inv _ _ _ _ _ Hdiv) as (_ & _ & Hne).
  apply divide_transcriptions_buffers in Hdiv as ->.
  destruct (divide_buffers_spec (Z.to_nat maxlength) (Z.to_nat overlap_length)
              transcriptions) as [Hchain _].
  split; [done| |].
  - intros i tc. rewrite list_lookup_imap.
    destruct (_ !! i) as [buf|]; [|done]. by intros [= <-].
  - eapply close_chunks_times, chain_Forall; eauto.
Qed.
