(* ===== verification/World.v ===== *)
(** * World: the environment the program acts on

    The state a run of the program can read or change: the process
    environment ([os.environ]), the file system, standard input and
    output, and the trace of the calls it made to the outside (the video
    site, the transcript API, the LLM chain, [time.sleep]).  [IO] is the
    state-and-exception monad over it.  The operations below are the
    calls the sources make, each with the exception it raises.

    The file system is a finite map from paths to nodes; directories are
    not nested in the model: [makedirs p] creates [p], and a file can be
    opened for writing when its [dirname] is a directory.  This is all the
    sources observe: they test and create the parent of one file.

    A file holds bytes and is opened in text mode, UTF-8 and strict:
    [write_file] empties the file when it opens it, before the text is
    encoded, and [read_file] decodes what it reads.

    Standard output is UTF-8 and strict as well, which is how CPython
    opens it in a UTF-8 locale other than C and POSIX, outside its
    UTF-8 mode: [w_stdout] is the list of the texts written, one per
    call of [sys.stdout.write], and a text with a lone surrogate raises
    [UnicodeEncodeError] instead of being written.  (Under the C and
    POSIX locales and in UTF-8 mode the handler is [surrogateescape]:
    the characters U+DC80 to U+DCFF are then written as one byte each,
    and only the other lone surrogates raise.) *)

From stdpp Require Import base tactics option list strings gmap.
From Stdlib Require Import ZArith.
From S2P Require Import Prelude PyData PyStr PyText Types.

(** ** State *)

Inductive fs_node : Type :=
| File (content : string)
| Dir.

(** The calls to the outside, in the order they were made. *)
Inductive event : Type :=
| EvTitle (url : string)
| EvTranscript (vid : arg_value string) (languages : list string)
| EvChain (docs : list string)
| EvPrepareQuery
| EvQuery (query : string)
| EvSleep (secs : Z)
| EvMakedirs (path : string)
| EvWrite (path : string) (content : string).

Record World : Type := mkWorld {
  w_env : gmap string string;
  w_fs : gmap string fs_node;
  w_stdin : list string;
  w_stdout : list string;
  w_trace : list event;
}.

#[export] Instance fs_node_eq_dec : EqDecision fs_node.
Proof. solve_decision. Defined.

#[export] Instance event_eq_dec : EqDecision event.
Proof. solve_decision. Defined.

#[export] Instance World_eq_dec : EqDecision World.
Proof. solve_decision. Defined.

Abbreviation IO := (StateErr World exn).

(** ** Updates of one part of the state *)

Definition set_fs (f : gmap string fs_node → gmap string fs_node) (w : World) : World :=
  mkWorld (w_env w) (f (w_fs w)) (w_stdin w) (w_stdout w) (w_trace w).

Definition set_stdin (f : list string → list string) (w : World) : World :=
  mkWorld (w_env w) (w_fs w) (f (w_stdin w)) (w_stdout w) (w_trace w).

Definition set_stdout (f : list string → list string) (w : World) : World :=
  mkWorld (w_env w) (w_fs w) (w_stdin w) (f (w_stdout w)) (w_trace w).

Definition set_trace (f : list event → list event) (w : World) : World :=
  mkWorld (w_env w) (w_fs w) (w_stdin w) (w_stdout w) (f (w_trace w)).

(** The world after more calls to the outside. *)
Definition add_events (evs : list event) (w : World) : World :=
  set_trace (fun t => t ++ evs) w.

(** The world after more lines were printed. *)
Definition add_output (lines : list string) (w : World) : World :=
  set_stdout (fun out => out ++ lines) w.

(** [emit ev]: record a call to the outside. *)
Definition emit (ev : event) : IO unit := st_modify (add_events [ev]).

(** ** The calls of the sources *)

(** [os.environ[key]] *)
Definition environ_get (key : string) : IO string :=
  fun w => (res_of_option (KeyError key) (w_env w !! key), w).

(** [os.path.isdir(path)] *)
Definition path_isdir (path : string) : IO bool :=
  st_gets (fun w => bool_decide (w_fs w !! path = Some Dir)).

(** [os.path.exists(path)] *)
Definition path_exists (path : string) : IO bool :=
  st_gets (fun w => bool_decide (is_Some (w_fs w !! path))).

(** [os.makedirs(path)]: [FileExistsError] when [path] exists already. *)
Definition makedirs (path : string) : IO unit :=
  fun w =>
    match w_fs w !! path with
    | Some _ => (Raise (OSError EEXIST path), w)
    | None => (Ok tt, add_events [EvMakedirs path] (set_fs (insert path Dir) w))
    end.

(** [with open(path, "w") as f: f.write(content)]: [open] creates or
    truncates the file, [write] encodes the text and the file is closed.
    [open] raises [IsADirectoryError] when [path] is a directory,
    [NotADirectoryError] when its parent is a file, [FileNotFoundError]
    when its parent is missing.  [write] raises [UnicodeEncodeError] on
    a text that has no UTF-8 (the encoding of the files is UTF-8, and
    [open] is given no error handler): the file is then left empty. *)
Definition write_file (path content : string) : IO unit :=
  fun w =>
    if bool_decide (w_fs w !! path = Some Dir) then (Raise (OSError EISDIR path), w)
    else match w_fs w !! dirname path with
         | Some Dir =>
             if str_encodable content
             then (Ok tt, add_events [EvWrite path content]
                            (set_fs (insert path (File content)) w))
             else (Raise UnicodeEncodeError,
                   add_events [EvWrite path ""] (set_fs (insert path (File "")) w))
         | Some (File _) => (Raise (OSError ENOTDIR path), w)
         | None => (Raise (OSError ENOENT path), w)
         end.

(** [with open(path, 'r') as f: f.read()]: [UnicodeDecodeError] when
    the bytes of the file are not UTF-8. *)
Definition read_file (path : string) : IO string :=
  fun w =>
    match w_fs w !! path with
    | Some (File content) =>
        if str_encodable content then (Ok content, w)
        else (Raise UnicodeDecodeError, w)
    | Some Dir => (Raise (OSError EISDIR path), w)
    | None => (Raise (OSError ENOENT path), w)
    end.

(** [sys.stdout.write(s)]: the text is encoded when it is written;
    one that has no UTF-8 raises, and nothing of it is written. *)
Definition stdout_write (s : string) : IO unit :=
  fun w =>
    if str_encodable s then (Ok tt, add_output [s] w)
    else (Raise UnicodeEncodeError, w).

(** The texts [print(obj1, ..., objn, end=end_)] writes, one call of [write]
    each: the objects, a space before each but the first, and the
    end. *)
Definition print_texts (objs : list string) (end_ : string) : list string :=
  match objs with
  | [] => [end_]
  | obj :: objs' => obj :: flat_map (fun o => [" "; o]) objs' ++ [end_]
  end.

(** [print(obj1, ..., objn, end=end_)]: the texts are written in order; the
    first that raises ends the call, the texts before it written. *)
Definition py_print_args (objs : list string) (end_ : string) : IO unit :=
  st_for stdout_write (print_texts objs end_).

(** [print(s, end=end_)] *)
Definition py_print (s end_ : string) : IO unit := py_print_args [s] end_.

(** Every text of the list has a UTF-8: writing them does not raise. *)
Definition printable (texts : list string) : bool := forallb str_encodable texts.

(** What is written of a list of texts: those before the first that
    has no UTF-8. *)
Fixpoint written (texts : list string) : list string :=
  match texts with
  | [] => []
  | s :: texts' => if str_encodable s then s :: written texts' else []
  end.

(** How the writes of a list of texts end. *)
Definition print_result (texts : list string) : PyResult unit :=
  if printable texts then Ok tt else Raise UnicodeEncodeError.

(** [input(prompt)]: the prompt is written, a line is read;
    [EOFError] at the end of the input. *)
Definition py_input (prompt : string) : IO string :=
  fun w =>
    let w' := add_output [prompt] w in
    match w_stdin w with
    | [] => (Raise EOFError, w')
    | line :: rest => (Ok line, set_stdin (fun _ => rest) w')
    end.

(** [time.sleep(secs)] *)
Definition sleep (secs : Z) : IO unit := emit (EvSleep secs).

(** ** Observations on traces *)

Definition is_chain_call (ev : event) : bool :=
  match ev with EvChain _ => true | _ => false end.

Definition is_write (ev : event) : bool :=
  match ev with EvWrite _ _ => true | _ => false end.

Definition is_sleep (ev : event) : bool :=
  match ev with EvSleep _ => true | _ => false end.

(** The number of chain calls made so far. *)
Definition chain_calls (w : World) : nat :=
  length (filter is_chain_call (w_trace w)).

(** The files of [w'] are files of [w] with the same content: nothing
    was written between the two. *)
Definition no_file_written (w w' : World) : Prop :=
  ∀ path content,
    w_fs w' !! path = Some (File content) → w_fs w !! path = Some (File content).

(** ** Lemmas *)

Section world_lemmas.
Implicit Types (w : World) (evs : list event) (path : string) (lines : list string).

Lemma add_events_nil w : add_events [] w = w.
Proof. destruct w. unfold add_events, set_trace. simpl. by rewrite app_nil_r. Qed.

Lemma add_events_app evs1 evs2 w :
  add_events evs2 (add_events evs1 w) = add_events (evs1 ++ evs2) w.
Proof. unfold add_events, set_trace. simpl. by rewrite (assoc (++)). Qed.

Lemma add_events_trace evs w : w_trace (add_events evs w) = w_trace w ++ evs.
Proof. reflexivity. Qed.

Lemma add_events_fs evs w : w_fs (add_events evs w) = w_fs w.
Proof. reflexivity. Qed.

Lemma add_events_env evs w : w_env (add_events evs w) = w_env w.
Proof. reflexivity. Qed.

Lemma add_events_stdout evs w : w_stdout (add_events evs w) = w_stdout w.
Proof. reflexivity. Qed.

Lemma add_events_stdin evs w : w_stdin (add_events evs w) = w_stdin w.
Proof. reflexivity. Qed.

Lemma add_events_set_fs f evs w :
  add_events evs (set_fs f w) = set_fs f (add_events evs w).
Proof. reflexivity. Qed.

Lemma add_output_nil w : add_output [] w = w.
Proof. destruct w. unfold add_output, set_stdout. simpl. by rewrite app_nil_r. Qed.

Lemma add_output_app lines1 lines2 w :
  add_output lines2 (add_output lines1 w) = add_output (lines1 ++ lines2) w.
Proof. unfold add_output, set_stdout. simpl. by rewrite (assoc (++)). Qed.

Lemma add_output_stdout lines w : w_stdout (add_output lines w) = w_stdout w ++ lines.
Proof. reflexivity. Qed.

Lemma add_output_fs lines w : w_fs (add_output lines w) = w_fs w.
Proof. reflexivity. Qed.

Lemma add_output_trace lines w : w_trace (add_output lines w) = w_trace w.
Proof. reflexivity. Qed.

Lemma add_output_add_events lines evs w :
  add_output lines (add_events evs w) = add_events evs (add_output lines w).
Proof. reflexivity. Qed.

Lemma add_output_env lines w : w_env (add_output lines w) = w_env w.
Proof. reflexivity. Qed.

Lemma add_output_stdin lines w : w_stdin (add_output lines w) = w_stdin w.
Proof. reflexivity. Qed.

Lemma py_input_run prompt w :
  py_input prompt w
  = match w_stdin w with
    | [] => (Raise EOFError, add_output [prompt] w)
    | line :: rest => (Ok line, set_stdin (fun _ => rest) (add_output [prompt] w))
    end.
Proof. reflexivity. Qed.

Lemma printable_app texts1 texts2 :
  printable (texts1 ++ texts2) = printable texts1 && printable texts2.
Proof. apply forallb_app. Qed.

Lemma written_printable texts : printable texts = true → written texts = texts.
Proof.
  induction texts as [|s texts IH]; [done|]. simpl. intros [-> ?]%andb_prop.
  by rewrite IH.
Qed.

Lemma written_app texts1 texts2 :
  written (texts1 ++ texts2)
  = if printable texts1 then texts1 ++ written texts2 else written texts1.
Proof.
  induction texts1 as [|s texts1 IH]; [done|]. simpl.
  destruct (str_encodable s); [|done]. simpl. rewrite IH. by destruct (printable texts1).
Qed.

(** Texts written one after the other: all of them, or those before
    the first that raises. *)
Lemma stdout_writes_run texts w :
  st_for stdout_write texts w = (print_result texts, add_output (written texts) w).
Proof.
  unfold print_result. revert w. induction texts as [|s texts IH]; intros w; simpl.
  { by rewrite add_output_nil. }
  rewrite st_bind_unfold. unfold stdout_write at 1.
  destruct (str_encodable s); simpl; [|by rewrite add_output_nil].
  rewrite IH, add_output_app. reflexivity.
Qed.

Lemma py_print_args_run objs end_ w :
  py_print_args objs end_ w
  = (print_result (print_texts objs end_),
     add_output (written (print_texts objs end_)) w).
Proof. apply stdout_writes_run. Qed.

Lemma py_print_run s end_ w :
  py_print s end_ w = (print_result [s; end_], add_output (written [s; end_]) w).
Proof. apply stdout_writes_run. Qed.

(** A [print] of texts that have a UTF-8 writes them. *)
Lemma py_print_ok s end_ w :
  printable [s; end_] = true → py_print s end_ w = (Ok tt, add_output [s; end_] w).
Proof.
  intros Hp. rewrite py_print_run. unfold print_result.
  by rewrite written_printable, Hp.
Qed.

(** Printing every element of a list, one [print] each. *)
Lemma st_for_print {A} (f : A → string) end_ (l : list A) w :
  st_for (fun x => py_print (f x) end_) l w
  = (print_result (flat_map (fun x => [f x; end_]) l),
     add_output (written (flat_map (fun x => [f x; end_]) l)) w).
Proof.
  revert w. induction l as [|x l IH]; intros w.
  { simpl. by rewrite add_output_nil. }
  cbn [st_for flat_map].
  rewrite st_bind_unfold, py_print_run, written_app. unfold print_result.
  rewrite printable_app. destruct (printable [f x; end_]) eqn:Hp; [|done].
  by rewrite IH, add_output_app, (written_printable _ Hp).
Qed.

Lemma chain_calls_add_events evs w :
  chain_calls (add_events evs w)
  = (chain_calls w + length (filter is_chain_call evs))%nat.
Proof. unfold chain_calls. by rewrite add_events_trace, filter_app, length_app. Qed.

Lemma chain_calls_set_fs f w : chain_calls (set_fs f w) = chain_calls w.
Proof. reflexivity. Qed.

Lemma emit_run ev w : emit ev w = (Ok tt, add_events [ev] w).
Proof. reflexivity. Qed.

Lemma sleep_run secs w : sleep secs w = (Ok tt, add_events [EvSleep secs] w).
Proof. reflexivity. Qed.

Lemma environ_get_run key w :
  environ_get key w = (res_of_option (KeyError key) (w_env w !! key), w).
Proof. reflexivity. Qed.

Lemma path_exists_run path w :
  path_exists path w = (Ok (bool_decide (is_Some (w_fs w !! path))), w).
Proof. reflexivity. Qed.

Lemma read_file_run path w :
  read_file path w
  = match w_fs w !! path with
    | Some (File content) =>
        if str_encodable content then (Ok content, w)
        else (Raise UnicodeDecodeError, w)
    | Some Dir => (Raise (OSError EISDIR path), w)
    | None => (Raise (OSError ENOENT path), w)
    end.
Proof. reflexivity. Qed.

Lemma path_isdir_run path w :
  path_isdir path w = (Ok (bool_decide (w_fs w !! path = Some Dir)), w).
Proof. reflexivity. Qed.

(** [makedirs] on a free path creates the directory and nothing else. *)
Lemma makedirs_fresh path w :
  w_fs w !! path = None →
  makedirs path w
  = (Ok tt, add_events [EvMakedirs path] (set_fs (insert path Dir) w)).
Proof. intros H. unfold makedirs. by rewrite H. Qed.

Lemma makedirs_exists path w :
  is_Some (w_fs w !! path) → makedirs path w = (Raise (OSError EEXIST path), w).
Proof. intros [n H]. unfold makedirs. by rewrite H. Qed.

(** [write_file] succeeds exactly when the parent is a directory, the
    path is not one and the text has a UTF-8. *)
Lemma write_file_ok path content w :
  w_fs w !! path ≠ Some Dir → w_fs w !! dirname path = Some Dir →
  str_encodable content = true →
  write_file path content w
  = (Ok tt, add_events [EvWrite path content]
              (set_fs (insert path (File content)) w)).
Proof.
  intros Hp Hd Henc. unfold write_file. by rewrite bool_decide_eq_false_2, Hd, Henc.
Qed.

(** When the file can be opened and the text has no UTF-8, the file is
    left empty. *)
Lemma write_file_unencodable path content w :
  w_fs w !! path ≠ Some Dir → w_fs w !! dirname path = Some Dir →
  str_encodable content = false →
  write_file path content w
  = (Raise UnicodeEncodeError,
     add_events [EvWrite path ""] (set_fs (insert path (File "")) w)).
Proof.
  intros Hp Hd Henc. unfold write_file. by rewrite bool_decide_eq_false_2, Hd, Henc.
Qed.

Lemma write_file_Ok_inv path content w u w' :
  write_file path content w = (Ok u, w') →
  str_encodable content = true
  ∧ w' = add_events [EvWrite path content] (set_fs (insert path (File content)) w).
Proof. unfold write_file. repeat case_match; by intros [= <- <-]. Qed.

(** A write that raises left the world as it was, unless it is the
    encoding that failed. *)
Lemma write_file_Raise_inv path content w e w' :
  write_file path content w = (Raise e, w') →
  w' = w
  ∨ (e = UnicodeEncodeError ∧ str_encodable content = false
     ∧ w_fs w !! path ≠ Some Dir ∧ w_fs w !! dirname path = Some Dir
     ∧ w' = add_events [EvWrite path ""] (set_fs (insert path (File "")) w)).
Proof.
  unfold write_file. case_bool_decide as Hp; [intros [= <- <-]; by left|].
  destruct (w_fs w !! dirname path) as [[text|]|] eqn:Hd; try (intros [= <- <-]; by left).
  destruct (str_encodable content) eqn:Henc; [done|]. intros [= <- <-]. by right.
Qed.

Lemma makedirs_Raise_inv path w e w' : makedirs path w = (Raise e, w') → w' = w.
Proof. unfold makedirs. destruct (w_fs w !! path); by intros [= <- <-]. Qed.

Lemma makedirs_Ok_inv path w u w' :
  makedirs path w = (Ok u, w') →
  w_fs w !! path = None
  ∧ w' = add_events [EvMakedirs path] (set_fs (insert path Dir) w).
Proof.
  unfold makedirs. destruct (w_fs w !! path) eqn:Hp; [done|]. by intros [= <- <-].
Qed.

(** ** [no_file_written] *)

Lemma no_file_written_refl w : no_file_written w w.
Proof. by intros path content. Qed.

Lemma no_file_written_trans w1 w2 w3 :
  no_file_written w1 w2 → no_file_written w2 w3 → no_file_written w1 w3.
Proof. intros H12 H23 path content H. by apply H12, H23. Qed.

Lemma no_file_written_add_events evs w : no_file_written w (add_events evs w).
Proof. by intros path content. Qed.

(** Creating a directory on a free path writes no file. *)
Lemma no_file_written_mkdir path w :
  w_fs w !! path = None → no_file_written w (set_fs (insert path Dir) w).
Proof.
  intros Hfree p content. unfold set_fs. simpl.
  destruct (decide (path = p)) as [->|Hne].
  - by rewrite lookup_insert_eq.
  - by rewrite lookup_insert_ne.
Qed.
End world_lemmas.

#[export] Instance no_file_written_preorder : PreOrder no_file_written.
Proof.
  split; [exact no_file_written_refl|].
  intros w1 w2 w3. apply no_file_written_trans.
Qed.

#[export] Hint Rewrite add_events_nil add_events_app add_events_trace
  add_events_fs add_events_env add_events_stdout add_events_stdin
  chain_calls_add_events chain_calls_set_fs add_output_nil add_output_app
  add_output_stdout add_output_fs add_output_trace : py_rw.
#[export] Hint Resolve no_file_written_refl no_file_written_add_events
  no_file_written_mkdir : py.
