(* ===== verification/Summarize.v ===== *)
(** * Summarize: the class [YoutubeSummarize] (summarize.py 18-114)

    The object is a record; a method is a computation over the pair of the
    object and the world, so that an assignment to [self] made before an
    exception stays made.  The collaborators the class calls (the video
    site, the transcript API, the LLM chain,
    [setup_llm_from_environment]) are the operations of the class
    [Services]: the methods are defined, and their theorems proved, for
    every instance of it.  [json.dumps] is the encoder of [Json]. *)

From stdpp Require Import base tactics option list strings gmap pretty.
From Stdlib Require Import ZArith QArith Ascii.
From S2P Require Import Prelude PyData PyStr PyText Types Json TimeBucket ChunkDivider World.
#[local] Close Scope Q_scope.

(** ** Constants of the module (lines 18-32) *)

Definition nl : string := String (ascii_of_nat 10) "".
Definition dquote : string := String (ascii_of_nat 34) "".

Definition MAP_PROMPT_TEMPLATE : string :=
  "以下の内容を重要な情報はできるだけ残して要約してください。:" +:+ nl +:+ nl +:+ nl
  +:+ dquote +:+ "{text}" +:+ dquote +:+ nl +:+ nl +:+ nl +:+ "要約:".

Definition REDUCE_PROMPT_TEMPLATE : string :=
  "以下の内容を200字以内の日本語で簡潔に要約してください。:" +:+ nl +:+ nl +:+ nl
  +:+ dquote +:+ "{text}" +:+ dquote +:+ nl +:+ nl +:+ nl +:+ "簡潔な要約:".

(** ** The chain object and the collaborators *)

(** [PromptTemplate(template=..., input_variables=[...])] *)
Record PromptTemplate : Type := mkPromptTemplate {
  pt_template : string;
  pt_input_variables : list string;
}.

(** What [load_summarize_chain] returns: the chain with its settings. *)
Record Chain (L : Type) : Type := mkChain {
  ch_llm : L;
  ch_chain_type : string;
  ch_map_prompt : PromptTemplate;
  ch_combine_prompt : PromptTemplate;
  ch_verbose : bool;
}.
Arguments mkChain {L}.
Arguments ch_llm {L}.
Arguments ch_chain_type {L}.
Arguments ch_map_prompt {L}.
Arguments ch_combine_prompt {L}.
Arguments ch_verbose {L}.

(** The collaborators.  [chain_arun chain n docs] is the answer of the
    chain to its [n]-th call (counting from 0) in this run of the
    process: an answer may depend on what was asked before, and any call
    may fail. *)
Class Services : Type := {
  LLMType : Type;
  setup_llm_from_environment : gmap string string → PyResult LLMType;
  youtube_title : string → PyResult string;
  get_transcript : arg_value string → list string → PyResult (list YoutubeTranscriptType);
  chain_arun : Chain LLMType → nat → list string → PyResult string;
}.

Section summarize.
Context `{Services}.

(** [langchain.chains.summarize.load_summarize_chain]: a chain of one of
    the three known types, [ValueError] for any other. *)
Definition load_summarize_chain (llm : LLMType) (chain_type : string)
    (map_prompt combine_prompt : PromptTemplate) (verbose : bool)
  : PyResult (Chain LLMType) :=
  if bool_decide (chain_type ∈ ["stuff"; "map_reduce"; "refine"])
  then Ok (mkChain llm chain_type map_prompt combine_prompt verbose)
  else Raise (ValueError "Got unsupported chain type").

(** [YouTube(url).vid_info["videoDetails"]["title"]] *)
Definition call_title (url : string) : IO string :=
  emit (EvTitle url);; st_lift (youtube_title url).

(** [YouTubeTranscriptApi.get_transcript(video_id=vid, languages=langs)] *)
Definition call_transcript (vid : arg_value string) (languages : list string)
  : IO (list YoutubeTranscriptType) :=
  emit (EvTranscript vid languages);; st_lift (get_transcript vid languages).

(** [loop.run_until_complete(asyncio.gather(chain.arun(docs)))[0]]: one
    call, awaited before the next statement runs. *)
Definition call_chain (chain : Chain LLMType) (docs : list string) : IO string :=
  fun w => (chain_arun chain (chain_calls w) docs, add_events [EvChain docs] w).

(** [setup_llm_from_environment()]: the LLM the environment configures. *)
Definition call_setup_llm : IO LLMType :=
  fun w => (setup_llm_from_environment (w_env w), w).

(** ** The object *)

Record YoutubeSummarize : Type := mkYoutubeSummarize {
  ys_vid : arg_value string;
  ys_debug : bool;
  ys_url : string;
  ys_title : string;
  ys_summary_file : string;
  ys_chain_type : string;
  ys_llm : LLMType;
  ys_chunks : list TranscriptChunkModel;
}.

Definition set_title (title : string) (self : YoutubeSummarize) : YoutubeSummarize :=
  mkYoutubeSummarize (ys_vid self) (ys_debug self) (ys_url self) title
    (ys_summary_file self) (ys_chain_type self) (ys_llm self) (ys_chunks self).

Definition set_chunks (chunks : list TranscriptChunkModel) (self : YoutubeSummarize)
  : YoutubeSummarize :=
  mkYoutubeSummarize (ys_vid self) (ys_debug self) (ys_url self) (ys_title self)
    (ys_summary_file self) (ys_chain_type self) (ys_llm self) chunks.

(** A method: a computation over the object and the world. *)
#[local] Abbreviation Method := (StateErr (YoutubeSummarize * World) exn).

(** A call that acts on the world only. *)
Definition io {A} (m : IO A) : Method A :=
  fun sw => let '(r, w') := m (snd sw) in (r, (fst sw, w')).

(** [self] *)
Definition self_get : Method YoutubeSummarize := st_gets fst.

(** [self.field = value] *)
Definition self_modify (f : YoutubeSummarize → YoutubeSummarize) : Method unit :=
  st_modify (fun sw => (f (fst sw), snd sw)).

(** ** The methods *)

(** Lines 36-52. *)
Definition __init__ (vid : arg_value string) (debug : bool) : IO YoutubeSummarize :=
  if bool_decide (vid = Value "") then st_raise (ValueError "video id is invalid.")
  else
    store_dir ← environ_get "SUMMARY_STORE_DIR";
    llm ← call_setup_llm;
    mret (mkYoutubeSummarize vid debug
            ("https://www.youtube.com/watch?v=" +:+ format_vid vid)
            "" (path_join store_dir (format_vid vid)) "map_reduce" llm []).

(** Lines 55-59. *)
Definition _debug (message end_ : string) (flush : bool) : Method unit :=
  self ← self_get;
  if negb (ys_debug self) then mret tt
  else io (py_print message end_).

Definition MAXLENGTH : Z := 1000.
Definition OVERLAP_LENGTH : Z := 5.

(** Lines 62-73. *)
Definition prepare : Method unit :=
  self ← self_get;
  title ← io (call_title (ys_url self));
  self_modify (set_title title);;
  transcriptions ← io (call_transcript (ys_vid self) ["ja"; "en"; "en-US"]);
  chunks ← st_lift (divide_transcriptions_into_chunks transcriptions
                      MAXLENGTH OVERLAP_LENGTH (format_vid (ys_vid self)));
  self_modify (set_chunks chunks).

(** Lines 94-100, the body of the loop over the groups: a pause before
    every call but the first, then the call. *)
Definition detail_step (chain : Chain LLMType) (idx : nat)
    (chunks : list TranscriptChunkModel) : IO string :=
  (if bool_decide (0 < idx)%nat then sleep 3 else mret tt);;
  call_chain chain (documents_of chunks).

(** Lines 109-112: create the directory when it is missing, then write. *)
Definition save_summary (summary_file : string) (summary : Summary) : IO unit :=
  isdir ← path_isdir (dirname summary_file);
  (if negb isdir then makedirs (dirname summary_file) else mret tt);;
  write_file summary_file (json_dumps (summary_json summary)).

(** Lines 76-114. *)
Definition run : Method Summary :=
  self ← self_get;
  chain ← st_lift (load_summarize_chain (ys_llm self) (ys_chain_type self)
             (mkPromptTemplate MAP_PROMPT_TEMPLATE ["text"])
             (mkPromptTemplate REDUCE_PROMPT_TEMPLATE ["text"])
             (ys_debug self));
  concise_summary ← io (call_chain chain (documents_of (ys_chunks self)));
  splited_chunks ← st_lift (_divide_chunks_by_time (ys_chunks self) 5);
  detail_summary ← io (forM_enum (detail_step chain) 0 splited_chunks);
  let summary := mkSummary (ys_url self) (ys_title self) detail_summary
                   concise_summary in
  io (save_summary (ys_summary_file self) summary);;
  mret summary.

(** ** What [run] does, without the monad *)

(** The chain built at lines 77-83. *)
Definition chain_of (self : YoutubeSummarize) : Chain LLMType :=
  mkChain (ys_llm self) (ys_chain_type self)
    (mkPromptTemplate MAP_PROMPT_TEMPLATE ["text"])
    (mkPromptTemplate REDUCE_PROMPT_TEMPLATE ["text"]) (ys_debug self).

(** The events of one iteration of the loop: the pause, when there is
    one, and the call. *)
Definition step_events (idx : nat) (g : list TranscriptChunkModel) : list event :=
  (if bool_decide (0 < idx)%nat then [EvSleep 3] else []) ++ [EvChain (documents_of g)].

(** The calls of the loop over the groups, from call number [n] and
    group index [idx] on: the answers (or the first exception) and the
    events up to and including the call that raised. *)
Fixpoint detail_run (chain : Chain LLMType) (n idx : nat)
    (groups : list (list TranscriptChunkModel))
  : PyResult (list string) * list event :=
  match groups with
  | [] => (Ok [], [])
  | g :: gs =>
      let evs := step_events idx g in
      match chain_arun chain n (documents_of g) with
      | Raise e => (Raise e, evs)
      | Ok answer =>
          let '(r, evs') := detail_run chain (S n) (S idx) gs in
          (cons answer <$> r, evs ++ evs')
      end
  end.

(** The events of the loop from group index [idx] on, when no call
    raises. *)
Fixpoint detail_events_from (idx : nat) (groups : list (list TranscriptChunkModel))
  : list event :=
  match groups with
  | [] => []
  | g :: gs => step_events idx g ++ detail_events_from (S idx) gs
  end.

(** The events of the whole loop when no call raises: one call per
    group, in the order of the groups, and a pause of three seconds
    between two calls. *)
Definition detail_events (groups : list (list TranscriptChunkModel)) : list event :=
  match groups with
  | [] => []
  | g :: gs =>
      EvChain (documents_of g)
      :: concat ((fun g' => [EvSleep 3; EvChain (documents_of g')]) <$> gs)
  end.

(** The events of lines 109-112 when they succeed. *)
Definition save_events (w : World) (summary_file content : string) : list event :=
  (if bool_decide (w_fs w !! dirname summary_file = Some Dir) then []
   else [EvMakedirs (dirname summary_file)])
  ++ [EvWrite summary_file content].

(** The world after lines 109-110: the directory is there. *)
Definition ensured_dir (dir : string) (w : World) : World :=
  if bool_decide (w_fs w !! dir = Some Dir) then w
  else add_events [EvMakedirs dir] (set_fs (insert dir Dir) w).

(** The world after lines 109-112 wrote [content]: the directory is
    there, the file holds [content], and the trace says so. *)
Definition saved (summary_file content : string) (w : World) : World :=
  add_events [EvWrite summary_file content]
    (set_fs (insert summary_file (File content))
       (ensured_dir (dirname summary_file) w)).

(** What lines 109-112 need of the file system: the file is not a
    directory, and its parent is a directory or can be created. *)
Definition save_ready (w : World) (summary_file : string) : Prop :=
  w_fs w !! summary_file ≠ Some Dir
  ∧ dirname summary_file ≠ summary_file
  ∧ (w_fs w !! dirname summary_file = Some Dir
     ∨ w_fs w !! dirname summary_file = None).

#[export] Instance save_ready_dec w summary_file : Decision (save_ready w summary_file).
Proof. unfold save_ready. apply _. Defined.

(** The events of a run of [run] that completes, before the write. *)
Definition run_events (self : YoutubeSummarize)
    (groups : list (list TranscriptChunkModel)) : list event :=
  EvChain (documents_of (ys_chunks self)) :: detail_events groups.

(** A run of [run] that completes, from [w], over the groups [groups]:
    the answers it collects, and the world it leaves. *)
Record run_ok (self : YoutubeSummarize) (w : World)
    (groups : list (list TranscriptChunkModel)) (summary : Summary) (w' : World)
  : Prop := mk_run_ok {
  ro_chain_type : ys_chain_type self ∈ ["stuff"; "map_reduce"; "refine"];
  ro_groups : _divide_chunks_by_time (ys_chunks self) 5 = Ok groups;
  ro_concise : chain_arun (chain_of self) (chain_calls w)
                 (documents_of (ys_chunks self)) = Ok (s_concise summary);
  ro_detail : detail_run (chain_of self) (S (chain_calls w)) 0 groups
              = (Ok (s_detail summary), detail_events groups);
  ro_url : s_url summary = ys_url self;
  ro_title : s_title summary = ys_title self;
  ro_ready : save_ready w (ys_summary_file self);
  ro_text : str_encodable (json_dumps (summary_json summary)) = true;
  ro_world : w' = saved (ys_summary_file self) (json_dumps (summary_json summary))
                    (add_events (run_events self groups) w);
}.

(** What a call that raised may have done to the world: calls to the
    outside that are not writes, and perhaps the creation of the
    directory [dir]. *)
Definition quiet_change (dir : string) (w w' : World) : Prop :=
  ∃ evs, filter is_write evs = []
    ∧ (w' = add_events evs w ∨ w' = ensured_dir dir (add_events evs w)).

(** A run of [run] that raised in the write of line 112: every call was
    answered and the file was opened, but the text of the summary has no
    UTF-8; the file is left empty. *)
Definition write_failed (self : YoutubeSummarize) (w : World) (e : exn) (w' : World)
  : Prop :=
  e = UnicodeEncodeError
  ∧ ∃ groups summary,
      _divide_chunks_by_time (ys_chunks self) 5 = Ok groups
      ∧ chain_arun (chain_of self) (chain_calls w) (documents_of (ys_chunks self))
        = Ok (s_concise summary)
      ∧ detail_run (chain_of self) (S (chain_calls w)) 0 groups
        = (Ok (s_detail summary), detail_events groups)
      ∧ s_url summary = ys_url self ∧ s_title summary = ys_title self
      ∧ save_ready w (ys_summary_file self)
      ∧ str_encodable (json_dumps (summary_json summary)) = false
      ∧ w' = saved (ys_summary_file self) "" (add_events (run_events self groups) w).

(** The object as [__init__] leaves it and as the methods keep it. *)
Definition ys_wf (self : YoutubeSummarize) : Prop :=
  ys_vid self ≠ Value "" ∧
  ys_url self = "https://www.youtube.com/watch?v=" +:+ format_vid (ys_vid self) ∧
  (∃ store_dir, ys_summary_file self = path_join store_dir (format_vid (ys_vid self))) ∧
  ys_chain_type self = "map_reduce".
End summarize.

Abbreviation Method := (StateErr (YoutubeSummarize * World) exn).

(** ** Collaborators with canned answers, for the examples *)

(** The summaries of the examples. *)
Definition demo_summary : Summary :=
  mkSummary "https://www.youtube.com/watch?v=vid1" "a title"
    ["summary 1 of 1"; "summary 2 of 1"; "summary 3 of 1"; "summary 4 of 1";
     "summary 5 of 1"; "summary 6 of 4"]
    "summary 0 of 9".

Definition xyz_summary : Summary :=
  mkSummary "https://www.youtube.com/watch?v=vid1" "a title"
    ["summary 1 of 1"] "summary 0 of 1".

(** A chain whose [n]-th answer names [n] and the number of documents,
    and which fails at call [fail_at]. *)
Definition canned_chain (fail_at : option nat)
  : Chain unit → nat → list string → PyResult string :=
  fun _ n docs =>
    if bool_decide (fail_at = Some n)
    then Raise (ChainInvocationError "rate limit")
    else Ok ("summary " +:+ pretty n +:+ " of " +:+ pretty (length docs)).

Definition canned_services (fail_at : option nat)
    (transcript : PyResult (list YoutubeTranscriptType)) : Services :=
  {| LLMType := unit;
     setup_llm_from_environment := fun _ => Ok tt;
     youtube_title := fun _ => Ok "a title";
     get_transcript := fun _ _ => transcript;
     chain_arun := canned_chain fail_at |}.

(** A world with the store directory configured and nothing on disk. *)
Definition fresh_world : World :=
  mkWorld {["SUMMARY_STORE_DIR" := "store"]} ∅ [] [] [].

(** The object of video [vid1] holding [chunks], for services [S]. *)
Definition canned_self (S : Services) (llm : @LLMType S)
    (chunks : list TranscriptChunkModel) : @YoutubeSummarize S :=
  @mkYoutubeSummarize S (Value "vid1") false "https://www.youtube.com/watch?v=vid1"
    "a title" "store/vid1" "map_reduce" llm chunks.

(** The object of [nine_short_chunks] with a chain that answers every
    call, the summary [run] returns for it in [fresh_world] (six groups:
    the chunks that start in seconds 0 to 4, one each, and the four that
    start later), and the world it leaves. *)
Definition demo_services : Services := canned_services None (Ok []).

Definition demo_self : @YoutubeSummarize demo_services :=
  canned_self demo_services tt nine_short_chunks.

Definition demo_world : World :=
  @saved "store/vid1" (json_dumps (summary_json demo_summary))
    (add_events (@run_events demo_services demo_self (bucket_spec nine_short_chunks 5))
       fresh_world).

(** The same object with a title that has no UTF-8 (a byte 255, which
    stands for a lone surrogate), a world where a summary of the video
    is stored already, and the world [run] leaves from it. *)
Definition garbled_title : string := String (ascii_of_nat 255) "".

Definition garbled_self : @YoutubeSummarize demo_services :=
  @mkYoutubeSummarize demo_services (Value "vid1") false "https://www.youtube.com/watch?v=vid1"
    garbled_title "store/vid1" "map_reduce" tt nine_short_chunks.

Definition garbled_summary : Summary :=
  mkSummary (s_url demo_summary) garbled_title (s_detail demo_summary)
    (s_concise demo_summary).

Definition stored_world : World :=
  mkWorld {["SUMMARY_STORE_DIR" := "store"]}
    {["store" := Dir; "store/vid1" := File "an older summary"]} [] [] [].

Definition garbled_world : World :=
  @saved "store/vid1" ""
    (add_events (@run_events demo_services garbled_self (bucket_spec nine_short_chunks 5))
       stored_world).

(** The same object with a chain that fails at its call number 3, the
    call on the third group, and the world [run] leaves then. *)
Definition failing_services : Services := canned_services (Some 3%nat) (Ok []).

Definition failing_self : @YoutubeSummarize failing_services :=
  canned_self failing_services tt nine_short_chunks.

Definition failing_world : World :=
  add_events (EvChain (documents_of nine_short_chunks)
              :: detail_events (take 3 (bucket_spec nine_short_chunks 5))) fresh_world.

(** The object of a video of three seconds, and the object as [__init__]
    leaves it, without chunks. *)
Definition short_self : @YoutubeSummarize demo_services :=
  canned_self demo_services tt three_second_chunks.

(** The object [__init__] builds for video [vid1] in [fresh_world]. *)
Definition blank_self (S : Services) (llm : @LLMType S) : @YoutubeSummarize S :=
  @mkYoutubeSummarize S (Value "vid1") false "https://www.youtube.com/watch?v=vid1"
    "" "store/vid1" "map_reduce" llm [].

Definition new_self : @YoutubeSummarize demo_services := blank_self demo_services tt.

(** Collaborators whose transcript is the three fragments x, y, z, and
    collaborators without a transcript. *)
Definition xyz_services : Services := canned_services None (Ok xyz_fragments).

Definition silent_services : Services :=
  canned_services None (Raise TranscriptUnavailable).

(** The object [prepare] leaves from [blank_self] with the transcript
    x, y, z, and the world it leaves from [fresh_world]. *)
Definition xyz_self : @YoutubeSummarize xyz_services :=
  @mkYoutubeSummarize xyz_services (Value "vid1") false "https://www.youtube.com/watch?v=vid1"
    "a title" "store/vid1" "map_reduce" tt
    [mkChunk "vid1-0" "x y z" 0%Q (2 + (2 + (2 + 0)))%Q].

Definition prepared_world : World :=
  add_events [EvTitle "https://www.youtube.com/watch?v=vid1";
              EvTranscript (Value "vid1") ["ja"; "en"; "en-US"]] fresh_world.

(** A world without configuration. *)
Definition bare_world : World := mkWorld ∅ ∅ [] [] [].

(** ** Running a method step by step *)

Section method_lemmas.
Context `{Services}.
Context {A B : Type}.
Implicit Types (self : YoutubeSummarize) (w : World) (f : A → Method B).

Lemma io_run (m : IO A) self w :
  io m (self, w) = (let '(r, w') := m w in (r, (self, w'))).
Proof. reflexivity. Qed.

Lemma bind_io (m : IO A) f self w :
  (io m ≫= f) (self, w)
  = match m w with
    | (Ok a, w') => f a (self, w')
    | (Raise e, w') => (Raise e, (self, w'))
    end.
Proof. rewrite st_bind_unfold, io_run. by destruct (m w) as [[a|e] w']. Qed.

Lemma bind_lift (r : PyResult A) f (sw : YoutubeSummarize * World) :
  (st_lift r ≫= f) sw
  = match r with Ok a => f a sw | Raise e => (Raise e, sw) end.
Proof. rewrite st_bind_unfold, st_lift_run. by destruct r. Qed.
End method_lemmas.

Section method_self_lemmas.
Context `{Services}.
Context {B : Type}.
Implicit Types (self : YoutubeSummarize) (w : World).

Lemma bind_self_get (f : YoutubeSummarize → Method B) self w :
  (self_get ≫= f) (self, w) = f self (self, w).
Proof. reflexivity. Qed.

Lemma bind_self_modify g (f : unit → Method B) self w :
  (self_modify g ≫= f) (self, w) = f tt (g self, w).
Proof. reflexivity. Qed.
End method_self_lemmas.

(** ** The loop over the groups *)

Section detail_lemmas.
Context `{Services}.
Implicit Types (chain : Chain LLMType) (w : World) (idx n : nat)
  (groups : list (list TranscriptChunkModel)).

Lemma call_chain_run chain docs w :
  call_chain chain docs w
  = (chain_arun chain (chain_calls w) docs, add_events [EvChain docs] w).
Proof. reflexivity. Qed.

(** One iteration: the pause, when there is one, then the call. *)
Lemma detail_step_run chain idx g w :
  detail_step chain idx g w
  = (chain_arun chain (chain_calls w) (documents_of g),
     add_events (step_events idx g) w).
Proof.
  unfold detail_step, step_events. case_bool_decide.
  - rewrite (st_bind_Ok _ _ _ _ _ (sleep_run 3 w)), call_chain_run.
    autorewrite with py_rw. cbn. by rewrite Nat.add_0_r.
  - rewrite (st_bind_Ok _ _ _ tt w) by done. apply call_chain_run.
Qed.

Lemma step_events_calls idx g :
  filter is_chain_call (step_events idx g) = [EvChain (documents_of g)].
Proof. unfold step_events. by case_bool_decide. Qed.

Lemma step_events_writes idx g : filter is_write (step_events idx g) = [].
Proof. unfold step_events. by case_bool_decide. Qed.

Lemma step_events_sleeps idx g :
  filter is_sleep (step_events idx g)
  = if bool_decide (0 < idx)%nat then [EvSleep 3] else [].
Proof. unfold step_events. by case_bool_decide. Qed.

(** The loop is [detail_run]: it changes nothing of the world but the
    trace. *)
Lemma detail_loop_run chain idx groups w :
  forM_enum (detail_step chain) idx groups w
  = (let '(r, evs) := detail_run chain (chain_calls w) idx groups in
     (r, add_events evs w)).
Proof.
  revert idx w. induction groups as [|g gs IH]; intros idx w; simpl.
  - by rewrite add_events_nil.
  - rewrite st_bind_unfold, detail_step_run.
    destruct (chain_arun chain (chain_calls w) (documents_of g)) as [answer|e];
      [|done].
    rewrite st_bind_unfold, IH, chain_calls_add_events, step_events_calls.
    simpl length. rewrite Nat.add_1_r.
    destruct (detail_run chain (S (chain_calls w)) (S idx) gs) as [[answers|e] evs];
      by rewrite add_events_app.
Qed.
End detail_lemmas.

(** ** The events and the answers of the loop *)

Section detail_run_lemmas.
Context `{Services}.
Implicit Types (chain : Chain LLMType) (n idx k : nat)
  (groups : list (list TranscriptChunkModel)) (evs : list event).

Lemma detail_events_from_cons idx g groups :
  detail_events_from idx (g :: groups)
  = step_events idx g ++ detail_events_from (S idx) groups.
Proof. reflexivity. Qed.

Lemma detail_events_from_S idx groups :
  detail_events_from (S idx) groups
  = concat ((fun g => [EvSleep 3; EvChain (documents_of g)]) <$> groups).
Proof.
  revert idx. induction groups as [|g gs IH]; intros idx; [done|].
  rewrite detail_events_from_cons, IH. unfold step_events.
  by rewrite bool_decide_eq_true_2 by lia.
Qed.

Lemma detail_events_from_0 groups : detail_events_from 0 groups = detail_events groups.
Proof.
  destruct groups as [|g gs]; [done|].
  by rewrite detail_events_from_cons, detail_events_from_S.
Qed.

(** The calls of the loop are one per group, in the order of the groups. *)
Lemma detail_events_from_calls idx groups :
  filter is_chain_call (detail_events_from idx groups)
  = (fun g => EvChain (documents_of g)) <$> groups.
Proof.
  revert idx. induction groups as [|g gs IH]; intros idx; [done|].
  by rewrite detail_events_from_cons, filter_app, step_events_calls, IH.
Qed.

Lemma detail_events_from_writes idx groups :
  filter is_write (detail_events_from idx groups) = [].
Proof.
  revert idx. induction groups as [|g gs IH]; intros idx; [done|].
  by rewrite detail_events_from_cons, filter_app, step_events_writes, IH.
Qed.

(** A pause before every call of the loop but the one of index 0. *)
Lemma detail_events_from_sleeps idx groups :
  filter is_sleep (detail_events_from idx groups)
  = replicate (length groups - (if bool_decide (0 < idx)%nat then 0 else 1))
      (EvSleep 3).
Proof.
  revert idx. induction groups as [|g gs IH]; intros idx; [done|].
  rewrite detail_events_from_cons, filter_app, step_events_sleeps, IH.
  rewrite (bool_decide_eq_true_2 (0 < S idx)%nat) by lia.
  case_bool_decide; simpl; by rewrite ?Nat.sub_0_r.
Qed.

(** When the loop completes, its events are those of [detail_events],
    and its [k]-th answer is the answer of the chain to call [n + k],
    made on the [k]-th group. *)
Lemma detail_run_Ok_inv chain n idx groups answers evs :
  detail_run chain n idx groups = (Ok answers, evs) →
  evs = detail_events_from idx groups
  ∧ length answers = length groups
  ∧ ∀ k g, groups !! k = Some g →
      Ok <$> answers !! k = Some (chain_arun chain (n + k) (documents_of g)).
Proof.
  revert n idx answers evs.
  induction groups as [|g gs IH]; intros n idx answers evs; simpl.
  { by intros [= <- <-]. }
  destruct (chain_arun chain n (documents_of g)) as [a|e] eqn:Ha; [|done].
  destruct (detail_run chain (S n) (S idx) gs) as [[as'|e] evs'] eqn:Hrest; [|done].
  intros [= <- <-]. destruct (IH _ _ _ _ Hrest) as (-> & Hlen & Hk).
  split_and!; [done|by simpl; f_equal|].
  intros [|k] g'; simpl.
  - intros [= <-]. by rewrite Nat.add_0_r, Ha.
  - intros Hg. rewrite Nat.add_succ_r. by apply Hk.
Qed.

(** When a call of the loop raises, it is the call on some group [k];
    the exception is the one of the chain, and the events stop there. *)
Lemma detail_run_Raise_inv chain n idx groups e evs :
  detail_run chain n idx groups = (Raise e, evs) →
  ∃ k g, groups !! k = Some g
    ∧ chain_arun chain (n + k) (documents_of g) = Raise e
    ∧ evs = detail_events_from idx (take (S k) groups).
Proof.
  revert n idx evs. induction groups as [|g gs IH]; intros n idx evs; [done|].
  simpl detail_run.
  destruct (chain_arun chain n (documents_of g)) as [a|e'] eqn:Ha.
  - destruct (detail_run chain (S n) (S idx) gs) as [[as'|e'] evs'] eqn:Hrest; [done|].
    intros [= <- <-]. destruct (IH _ _ _ Hrest) as (k & g' & Hg & He & ->).
    exists (S k), g'. rewrite Nat.add_succ_r. split_and!; [done..|].
    by rewrite firstn_cons, detail_events_from_cons.
  - intros [= <- <-]. exists 0%nat, g. rewrite Nat.add_0_r.
    split_and!; [done..|]. by rewrite firstn_cons, firstn_O, detail_events_from_cons, app_nil_r.
Qed.

(** The loop completes when every call it makes is answered. *)
Lemma detail_run_Ok chain n idx groups :
  (∀ k g, groups !! k = Some g →
     is_Ok (chain_arun chain (n + k) (documents_of g))) →
  ∃ answers,
    detail_run chain n idx groups = (Ok answers, detail_events_from idx groups).
Proof.
  revert n idx. induction groups as [|g gs IH]; intros n idx Hall; [by exists []|].
  simpl detail_run. destruct (proj1 (is_Ok_exists _) (Hall 0%nat g eq_refl)) as [a Ha].
  rewrite Nat.add_0_r in Ha. rewrite Ha.
  destruct (IH (S n) (S idx)) as [as' ->].
  { intros k g' Hg. rewrite Nat.add_succ_comm. by apply (Hall (S k)). }
  exists (a :: as'). by rewrite detail_events_from_cons.
Qed.
(** The loop raises at the first call that is not answered. *)
Lemma detail_run_Raise chain n idx groups k g e :
  groups !! k = Some g →
  (∀ j g', (j < k)%nat → groups !! j = Some g' →
     is_Ok (chain_arun chain (n + j) (documents_of g'))) →
  chain_arun chain (n + k) (documents_of g) = Raise e →
  detail_run chain n idx groups
  = (Raise e, detail_events_from idx (take (S k) groups)).
Proof.
  revert n idx k. induction groups as [|g0 gs IH]; intros n idx k Hg Hbefore He; [done|].
  simpl detail_run. destruct k as [|k]; simpl in Hg.
  - injection Hg as ->. rewrite Nat.add_0_r in He. rewrite He, firstn_cons, firstn_O.
    by rewrite detail_events_from_cons, app_nil_r.
  - destruct (proj1 (is_Ok_exists _) (Hbefore 0%nat g0 ltac:(lia) eq_refl)) as [a Ha].
    rewrite Nat.add_0_r in Ha. rewrite Ha, (IH (S n) (S idx) k); [done|done| |].
    + intros j g' Hj Hg'. rewrite Nat.add_succ_comm. apply Hbefore; [lia|done].
    + by rewrite Nat.add_succ_comm.
Qed.
End detail_run_lemmas.

(** ** Writing the summary (lines 109-112) *)

Section save_lemmas.
Context `{Services}.
Implicit Types (w : World) (file : string) (summary : Summary).

Lemma save_summary_run file summary w :
  save_summary file summary w
  = if bool_decide (w_fs w !! dirname file = Some Dir)
    then write_file file (json_dumps (summary_json summary)) w
    else match makedirs (dirname file) w with
         | (Ok _, w') => write_file file (json_dumps (summary_json summary)) w'
         | (Raise e, w') => (Raise e, w')
         end.
Proof.
  unfold save_summary. rewrite st_bind_unfold, path_isdir_run.
  case_bool_decide; simpl; [done|].
  rewrite st_bind_unfold. by destruct (makedirs (dirname file) w) as [[[]|e] w'].
Qed.

(** The write succeeds when the file system is ready for it and the
    text has a UTF-8. *)
Lemma save_summary_ok file summary w :
  save_ready w file → str_encodable (json_dumps (summary_json summary)) = true →
  save_summary file summary w = (Ok tt, saved file (json_dumps (summary_json summary)) w).
Proof.
  intros (Hfile & Hne & Hdir) Henc. rewrite save_summary_run. unfold saved, ensured_dir.
  case_bool_decide as Hd; [by rewrite write_file_ok|].
  destruct Hdir as [|Hfree]; [done|]. rewrite makedirs_fresh by done.
  rewrite write_file_ok; simpl; [done|by rewrite lookup_insert_ne| |done].
  by rewrite lookup_insert_eq.
Qed.

(** When the file system is ready and the text has no UTF-8, the write
    raises and leaves the file empty. *)
Lemma save_summary_unencodable file summary w :
  save_ready w file → str_encodable (json_dumps (summary_json summary)) = false →
  save_summary file summary w = (Raise UnicodeEncodeError, saved file "" w).
Proof.
  intros (Hfile & Hne & Hdir) Henc. rewrite save_summary_run. unfold saved, ensured_dir.
  case_bool_decide as Hd; [by rewrite write_file_unencodable|].
  destruct Hdir as [|Hfree]; [done|]. rewrite makedirs_fresh by done.
  rewrite write_file_unencodable; simpl; [done|by rewrite lookup_insert_ne| |done].
  by rewrite lookup_insert_eq.
Qed.

(** A file that could not be opened: the world is as it was, but for
    the directory when it was missing and could be created. *)
Lemma save_summary_not_ready file summary w :
  ¬ save_ready w file →
  ∃ e, save_summary file summary w = (Raise e, w)
       ∨ save_summary file summary w = (Raise e, ensured_dir (dirname file) w).
Proof.
  intros Hready. rewrite save_summary_run. unfold save_ready, ensured_dir, write_file in *.
  case_bool_decide as Hd.
  - case_bool_decide as Hf; [by eexists; left|]. destruct Hready.
    split_and!; [done|congruence|by left].
  - destruct (w_fs w !! dirname file) as [node|] eqn:Hdir.
    { rewrite makedirs_exists by done. eexists. by left. }
    rewrite makedirs_fresh by done. simpl.
    case_bool_decide as Hf; [by eexists; right|].
    destruct (decide (dirname file = file)) as [Heq|Hne].
    { rewrite Heq, lookup_insert_eq in Hf. done. }
    rewrite lookup_insert_ne in Hf by done. destruct Hready. split_and!; [done..|by right].
Qed.

Lemma save_summary_Ok_inv file summary w u w' :
  save_summary file summary w = (Ok u, w') →
  save_ready w file
  ∧ str_encodable (json_dumps (summary_json summary)) = true
  ∧ w' = saved file (json_dumps (summary_json summary)) w.
Proof.
  intros Hrun. destruct (decide (save_ready w file)) as [Hready|Hready].
  - destruct (str_encodable (json_dumps (summary_json summary))) eqn:Henc.
    + rewrite (save_summary_ok _ _ _ Hready Henc) in Hrun. split_and!; congruence.
    + by rewrite (save_summary_unencodable _ _ _ Hready Henc) in Hrun.
  - destruct (save_summary_not_ready file summary w Hready) as [e [He|He]];
      by rewrite He in Hrun.
Qed.

(** When the write raises, either the file could not be opened, and the
    world is as it was but for the directory, or the text has no UTF-8,
    and the file is left empty. *)
Lemma save_summary_Raise_inv file summary w e w' :
  save_summary file summary w = (Raise e, w') →
  (¬ save_ready w file ∧ (w' = w ∨ w' = ensured_dir (dirname file) w))
  ∨ (save_ready w file ∧ str_encodable (json_dumps (summary_json summary)) = false
     ∧ e = UnicodeEncodeError ∧ w' = saved file "" w).
Proof.
  intros Hrun. destruct (decide (save_ready w file)) as [Hready|Hready].
  - right. destruct (str_encodable (json_dumps (summary_json summary))) eqn:Henc.
    + by rewrite (save_summary_ok _ _ _ Hready Henc) in Hrun.
    + rewrite (save_summary_unencodable _ _ _ Hready Henc) in Hrun.
      injection Hrun as <- <-. done.
  - left. split; [done|].
    destruct (save_summary_not_ready file summary w Hready) as [e1 [He|He]];
      rewrite He in Hrun; injection Hrun as _ <-; auto.
Qed.

(** Whether the write succeeds is decided by the file system and the
    text. *)
Lemma save_summary_Ok_iff file summary w :
  is_Ok (save_summary file summary w).1
  ↔ save_ready w file ∧ str_encodable (json_dumps (summary_json summary)) = true.
Proof.
  split.
  - destruct (save_summary file summary w) as [[[]|e] w'] eqn:Hrun; [|done].
    intros _. by apply save_summary_Ok_inv in Hrun as (? & ? & _).
  - intros [Hready Henc]. by rewrite (save_summary_ok _ _ _ Hready Henc).
Qed.
End save_lemmas.

(** ** The worlds [ensured_dir] and [saved] *)

Section saved_lemmas.
Implicit Types (w : World) (file dir content : string).

Lemma ensured_dir_no_file_written dir w : no_file_written w (ensured_dir dir w).
Proof.
  unfold ensured_dir. case_bool_decide as Hd; [done|].
  intros path c. simpl. destruct (decide (dir = path)) as [->|Hne].
  - by rewrite lookup_insert_eq.
  - by rewrite lookup_insert_ne.
Qed.

Lemma ensured_dir_trace dir w :
  w_trace (ensured_dir dir w)
  = w_trace w ++ if bool_decide (w_fs w !! dir = Some Dir) then []
                 else [EvMakedirs dir].
Proof. unfold ensured_dir. case_bool_decide; simpl; by rewrite ?app_nil_r. Qed.

Lemma ensured_dir_chain_calls dir w :
  chain_calls (ensured_dir dir w) = chain_calls w.
Proof.
  unfold chain_calls. rewrite ensured_dir_trace, filter_app.
  case_bool_decide; simpl; by rewrite ?app_nil_r.
Qed.

Lemma ensured_dir_writes dir w :
  filter is_write (w_trace (ensured_dir dir w)) = filter is_write (w_trace w).
Proof.
  rewrite ensured_dir_trace, filter_app. case_bool_decide; simpl; by rewrite ?app_nil_r.
Qed.

(** The file holds the content. *)
Lemma saved_file file content w :
  w_fs (saved file content w) !! file = Some (File content).
Proof. unfold saved. simpl. by rewrite lookup_insert_eq. Qed.

(** The trace gains the events of [save_events]: the write is the last. *)
Lemma saved_trace file content w :
  w_trace (saved file content w) = w_trace w ++ save_events w file content.
Proof.
  unfold saved, save_events. simpl. by rewrite ensured_dir_trace, <- (assoc (++)).
Qed.

(** No other file changes, when the file system was ready. *)
Lemma saved_other_files file content w path c :
  save_ready w file → path ≠ file →
  w_fs (saved file content w) !! path = Some (File c) ↔ w_fs w !! path = Some (File c).
Proof.
  intros (_ & _ & Hdir) Hne. unfold saved, ensured_dir. simpl.
  rewrite lookup_insert_ne by done.
  case_bool_decide as Hd; [done|]. destruct Hdir as [|Hfree]; [done|]. simpl.
  destruct (decide (dirname file = path)) as [<-|Hne'].
  - rewrite lookup_insert_eq, Hfree. naive_solver.
  - by rewrite lookup_insert_ne.
Qed.
Lemma quiet_change_refl dir w : quiet_change dir w w.
Proof. exists []. rewrite add_events_nil. auto. Qed.

Lemma quiet_change_after_events dir evs w w' :
  filter is_write evs = [] →
  quiet_change dir (add_events evs w) w' → quiet_change dir w w'.
Proof.
  intros Hevs (evs' & Hevs' & Hw'). exists (evs ++ evs').
  rewrite add_events_app in Hw'. split; [|done].
  by rewrite filter_app, Hevs, Hevs'.
Qed.

Lemma quiet_change_events dir evs w :
  filter is_write evs = [] → quiet_change dir w (add_events evs w).
Proof. intros Hevs. exists evs. auto. Qed.

(** A quiet change writes no file... *)
Lemma quiet_change_no_file_written dir w w' :
  quiet_change dir w w' → no_file_written w w'.
Proof.
  intros (evs & _ & [->| ->]); [apply no_file_written_add_events|].
  etrans; [apply (no_file_written_add_events evs)|apply ensured_dir_no_file_written].
Qed.

(** ... records no write... *)
Lemma quiet_change_writes dir w w' :
  quiet_change dir w w' →
  filter is_write (w_trace w') = filter is_write (w_trace w).
Proof.
  intros (evs & Hevs & [->| ->]); rewrite ?ensured_dir_writes; simpl;
    by rewrite filter_app, Hevs, app_nil_r.
Qed.

(** ... and leaves the environment and the console as they were. *)
Lemma quiet_change_console dir w w' :
  quiet_change dir w w' →
  w_env w' = w_env w ∧ w_stdin w' = w_stdin w ∧ w_stdout w' = w_stdout w.
Proof.
  intros (evs & _ & [->| ->]); [done|]. unfold ensured_dir. by case_bool_decide.
Qed.
Lemma saved_stdout file content w : w_stdout (saved file content w) = w_stdout w.
Proof. unfold saved, ensured_dir. simpl. by case_bool_decide. Qed.

Lemma saved_env file content w : w_env (saved file content w) = w_env w.
Proof. unfold saved, ensured_dir. simpl. by case_bool_decide. Qed.

Lemma saved_chain_calls file content w :
  chain_calls (saved file content w) = chain_calls w.
Proof.
  unfold saved. by rewrite chain_calls_add_events, chain_calls_set_fs,
    ensured_dir_chain_calls, Nat.add_0_r.
Qed.
End saved_lemmas.

(** ** [run], phase by phase *)

Section run_lemmas.
Context `{Services}.
Implicit Types (self : YoutubeSummarize) (w : World) (summary : Summary)
  (groups : list (list TranscriptChunkModel)).

(** The phases of [run]: the chain is built, the concise call is made on
    all the chunks, the chunks are grouped, the loop calls the chain on
    each group, and the summary is written.  The first exception ends the
    run, with the world as that phase left it. *)
Lemma run_unfold self w :
  run (self, w)
  = if bool_decide (ys_chain_type self ∈ ["stuff"; "map_reduce"; "refine"]) then
      let w1 := add_events [EvChain (documents_of (ys_chunks self))] w in
      match chain_arun (chain_of self) (chain_calls w)
              (documents_of (ys_chunks self)),
            _divide_chunks_by_time (ys_chunks self) 5 with
      | Raise e, _ | Ok _, Raise e => (Raise e, (self, w1))
      | Ok concise_summary, Ok groups =>
          match detail_run (chain_of self) (S (chain_calls w)) 0 groups with
          | (Raise e, evs) => (Raise e, (self, add_events evs w1))
          | (Ok detail_summary, evs) =>
              let summary := mkSummary (ys_url self) (ys_title self)
                               detail_summary concise_summary in
              let '(r, w3) := save_summary (ys_summary_file self) summary
                                (add_events evs w1) in
              (const summary <$> r, (self, w3))
          end
      end
    else (Raise (ValueError "Got unsupported chain type"), (self, w)).
Proof.
  unfold run, load_summarize_chain. rewrite bind_self_get, bind_lift.
  fold (chain_of self). case_bool_decide; [|done]. rewrite bind_io, call_chain_run.
  destruct (chain_arun _ _ _) as [concise|e]; [|done]. rewrite bind_lift.
  destruct (_divide_chunks_by_time _ _) as [groups|e]; [|done].
  rewrite bind_io, detail_loop_run, chain_calls_add_events. simpl length.
  rewrite Nat.add_1_r.
  destruct (detail_run _ _ _ _) as [[detail|e] evs]; [|done].
  rewrite bind_io. by destruct (save_summary _ _ _) as [[[]|e] w3].
Qed.
(** A run that completes is a [run_ok]. *)
Lemma run_Ok_inv self w summary self' w' :
  run (self, w) = (Ok summary, (self', w')) →
  self' = self ∧ ∃ groups, run_ok self w groups summary w'.
Proof.
  rewrite run_unfold. case_bool_decide as Hct; [|done]. simpl.
  destruct (chain_arun _ _ _) as [concise|e] eqn:Hc; [|done].
  destruct (_divide_chunks_by_time _ _) as [groups|e] eqn:Hg; [|done].
  destruct (detail_run _ _ _ _) as [[detail|e] evs] eqn:Hd; [|done].
  destruct (save_summary _ _ _) as [[[]|e] w3] eqn:Hs; [|done].
  intros [= <- <- <-]. destruct (detail_run_Ok_inv _ _ _ _ _ _ Hd) as (-> & _).
  apply save_summary_Ok_inv in Hs as (Hready & Henc & ->).
  rewrite add_events_app, detail_events_from_0 in *.
  split; [done|]. by exists groups.
Qed.

(** A [run_ok] is a run that completes. *)
Lemma run_ok_run self w groups summary w' :
  run_ok self w groups summary w' → run (self, w) = (Ok summary, (self, w')).
Proof.
  intros [Hct Hg Hc Hd Hurl Htitle Hready Henc ->]. rewrite run_unfold.
  rewrite bool_decide_eq_true_2 by done. simpl. rewrite Hc, Hg, Hd.
  unfold run_events.
  destruct summary as [url title detail concise]. simpl in *. subst url title.
  rewrite save_summary_ok by done. by rewrite add_events_app.
Qed.

(** When [run] raises, the object is as it was, and either the world
    differs by calls to the outside that are not writes, and by the
    directory of the summary file when the write was reached, or the
    write failed on its text. *)
Lemma run_Raise_inv self w e self' w' :
  run (self, w) = (Raise e, (self', w')) →
  self' = self
  ∧ (quiet_change (dirname (ys_summary_file self)) w w' ∨ write_failed self w e w').
Proof.
  rewrite run_unfold. case_bool_decide as Hct; simpl.
  2:{ intros [= _ <- <-]. split; [done|]. left. apply quiet_change_refl. }
  destruct (chain_arun _ _ _) as [concise|e1] eqn:Hc;
    [|intros [= _ <- <-]; split; [done|left; by apply quiet_change_events]].
  destruct (_divide_chunks_by_time _ _) as [groups|e1] eqn:Hg;
    [|intros [= _ <- <-]; split; [done|left; by apply quiet_change_events]].
  destruct (detail_run _ _ _ _) as [[detail|e1] evs] eqn:Hd.
  - pose proof (detail_run_Ok_inv _ _ _ _ _ _ Hd) as (-> & _).
    destruct (save_summary _ _ _) as [[[]|e1] w3] eqn:Hs; [done|].
    intros [= <- <- <-]. split; [done|]. rewrite add_events_app in Hs.
    apply save_summary_Raise_inv in Hs as [[_ Hw3]|(Hready & Henc & -> & ->)].
    + left. eexists; split; [|exact Hw3]. rewrite filter_app.
      apply detail_events_from_writes.
    + right. split; [done|]. rewrite detail_events_from_0 in *.
      by exists groups, (mkSummary (ys_url self) (ys_title self) detail concise).
  - apply detail_run_Raise_inv in Hd as (k & g & _ & _ & ->).
    intros [= _ <- <-]. split; [done|]. left. rewrite add_events_app.
    apply quiet_change_events. rewrite filter_app. apply detail_events_from_writes.
Qed.

(** A run whose calls are all answered and whose file can be opened
    raises in the write when the text of the summary has no UTF-8. *)
Lemma run_write_failed self w groups summary :
  ys_chain_type self ∈ ["stuff"; "map_reduce"; "refine"] →
  _divide_chunks_by_time (ys_chunks self) 5 = Ok groups →
  chain_arun (chain_of self) (chain_calls w) (documents_of (ys_chunks self))
  = Ok (s_concise summary) →
  detail_run (chain_of self) (S (chain_calls w)) 0 groups
  = (Ok (s_detail summary), detail_events groups) →
  s_url summary = ys_url self → s_title summary = ys_title self →
  save_ready w (ys_summary_file self) →
  str_encodable (json_dumps (summary_json summary)) = false →
  run (self, w)
  = (Raise UnicodeEncodeError,
     (self, saved (ys_summary_file self) "" (add_events (run_events self groups) w))).
Proof.
  intros Hct Hg Hc Hd Hurl Htitle Hready Henc. rewrite run_unfold.
  rewrite bool_decide_eq_true_2 by done. simpl. rewrite Hc, Hg, Hd.
  unfold run_events.
  destruct summary as [url title detail concise]. simpl in *. subst url title.
  rewrite save_summary_unencodable by done. by rewrite add_events_app.
Qed.

(** [run] when the chunks cannot be grouped: the concise call is made
    all the same, and its answer is lost. *)
Lemma run_divide_Raise self w e :
  ys_chain_type self ∈ ["stuff"; "map_reduce"; "refine"] →
  _divide_chunks_by_time (ys_chunks self) 5 = Raise e →
  run (self, w)
  = (chain_arun (chain_of self) (chain_calls w) (documents_of (ys_chunks self))
       ≫= (fun _ => Raise e),
     (self, add_events [EvChain (documents_of (ys_chunks self))] w)).
Proof.
  intros Hct Hg. rewrite run_unfold, bool_decide_eq_true_2 by done. simpl.
  rewrite Hg. by destruct (chain_arun _ _ _).
Qed.

(** A well-formed object has a chain type [load_summarize_chain] knows. *)
Lemma ys_wf_chain_type self :
  ys_wf self → ys_chain_type self ∈ ["stuff"; "map_reduce"; "refine"].
Proof. intros (_ & _ & _ & ->). set_solver. Qed.

(** [run] makes between one and six calls in its loop. *)
Lemma groups_count chunks groups :
  _divide_chunks_by_time chunks 5 = Ok groups → (1 ≤ length groups ≤ 6)%nat.
Proof.
  intros Hg. destruct (divide_chunks_some_group _ _ _ Hg) as [_ Hne].
  apply divide_chunks_Ok_inv in Hg as (delta & acc & _ & Hloop & ->).
  apply bucket_loop_length in Hloop; [|done]. unfold py_len in Hloop.
  pose proof (length_filter (fun sc => (0 < py_len sc)%Z) acc).
  destruct (filter _ acc); [done|]. simpl in *. lia.
Qed.

Lemma run_events_calls self groups :
  length (filter is_chain_call (run_events self groups)) = S (length groups).
Proof.
  unfold run_events. rewrite <- detail_events_from_0, filter_cons_True by done.
  by rewrite detail_events_from_calls, length_cons, length_fmap.
Qed.
End run_lemmas.

(** ** [__init__], [_debug] and [prepare], phase by phase *)

Section init_prepare_lemmas.
Context `{Services}.
Implicit Types (self : YoutubeSummarize) (w : World) (vid : arg_value string).

(** [__init__] reads the environment and leaves the world as it is. *)
Lemma init_unfold vid debug w :
  __init__ vid debug w
  = (if bool_decide (vid = Value "") then Raise (ValueError "video id is invalid.")
     else
       store_dir ← res_of_option (KeyError "SUMMARY_STORE_DIR")
                     (w_env w !! "SUMMARY_STORE_DIR");
       llm ← setup_llm_from_environment (w_env w);
       Ok (mkYoutubeSummarize vid debug
             ("https://www.youtube.com/watch?v=" +:+ format_vid vid)
             "" (path_join store_dir (format_vid vid)) "map_reduce" llm []),
     w).
Proof.
  unfold __init__. case_bool_decide; [done|].
  unfold environ_get, call_setup_llm. rewrite st_bind_unfold.
  destruct (w_env w !! "SUMMARY_STORE_DIR") as [store_dir|]; simpl; [|done].
  rewrite st_bind_unfold. by destruct (setup_llm_from_environment (w_env w)).
Qed.

(** The phases of [prepare]: the title is fetched and assigned, the
    transcript is fetched, cut into chunks, and the chunks are assigned.
    An exception ends the method with the assignments made so far. *)
Lemma prepare_unfold self w :
  prepare (self, w)
  = let w1 := add_events [EvTitle (ys_url self)] w in
    match youtube_title (ys_url self) with
    | Raise e => (Raise e, (self, w1))
    | Ok title =>
        let w2 := add_events [EvTranscript (ys_vid self) ["ja"; "en"; "en-US"]] w1 in
        match get_transcript (ys_vid self) ["ja"; "en"; "en-US"]
                ≫= fun transcriptions =>
                     divide_transcriptions_into_chunks transcriptions
                       MAXLENGTH OVERLAP_LENGTH (format_vid (ys_vid self)) with
        | Raise e => (Raise e, (set_title title self, w2))
        | Ok chunks => (Ok tt, (set_chunks chunks (set_title title self), w2))
        end
    end.
Proof.
  unfold prepare. rewrite bind_self_get, bind_io. unfold call_title, call_transcript.
  rewrite st_bind_unfold, emit_run, st_lift_run.
  destruct (youtube_title (ys_url self)) as [title|e]; [|done].
  rewrite bind_self_modify, bind_io, st_bind_unfold, emit_run, st_lift_run.
  destruct (get_transcript _ _) as [transcriptions|e]; simpl; [|done].
  rewrite bind_lift. by destruct (divide_transcriptions_into_chunks _ _ _ _).
Qed.

(** The object [__init__] returns. *)
Lemma init_Ok_inv vid debug w self w' :
  __init__ vid debug w = (Ok self, w') →
  w' = w ∧ vid ≠ Value ""
  ∧ ∃ store_dir llm,
      w_env w !! "SUMMARY_STORE_DIR" = Some store_dir
      ∧ setup_llm_from_environment (w_env w) = Ok llm
      ∧ self = mkYoutubeSummarize vid debug
                 ("https://www.youtube.com/watch?v=" +:+ format_vid vid)
                 "" (path_join store_dir (format_vid vid)) "map_reduce" llm [].
Proof.
  rewrite init_unfold. case_bool_decide as Hvid; [done|].
  destruct (w_env w !! "SUMMARY_STORE_DIR") as [store_dir|]; [|done]. simpl.
  destruct (setup_llm_from_environment (w_env w)) as [llm|e]; [|done].
  intros [= <- <-]. split_and!; [done..|]. by exists store_dir, llm.
Qed.

Lemma init_world vid debug w : (__init__ vid debug w).2 = w.
Proof. by rewrite init_unfold. Qed.

(** The object and the world [prepare] leaves when it returns. *)
Lemma prepare_Ok_inv self w u self' w' :
  prepare (self, w) = (Ok u, (self', w')) →
  ∃ title transcriptions chunks,
    youtube_title (ys_url self) = Ok title
    ∧ get_transcript (ys_vid self) ["ja"; "en"; "en-US"] = Ok transcriptions
    ∧ divide_transcriptions_into_chunks transcriptions 1000 5 (format_vid (ys_vid self)) = Ok chunks
    ∧ self' = set_chunks chunks (set_title title self)
    ∧ w' = add_events [EvTitle (ys_url self);
                       EvTranscript (ys_vid self) ["ja"; "en"; "en-US"]] w.
Proof.
  rewrite prepare_unfold. cbv zeta. rewrite add_events_app.
  destruct (youtube_title (ys_url self)) as [title|e]; [|done].
  destruct (get_transcript _ _) as [transcriptions|e]; [|done].
  rewrite bind_Ok.
  destruct (divide_transcriptions_into_chunks _ _ _ _) as [chunks|e] eqn:Hc; [|done].
  intros [= <- <-]. by exists title, transcriptions, chunks.
Qed.

(** [prepare] calls the outside and does nothing else to the world. *)
Lemma prepare_world self w :
  ∃ evs, filter is_write evs = [] ∧ (prepare (self, w)).2.2 = add_events evs w.
Proof.
  rewrite prepare_unfold. cbv zeta. rewrite add_events_app.
  destruct (youtube_title (ys_url self)) as [title|e];
    [|by exists [EvTitle (ys_url self)]].
  destruct (_ ≫= _) as [chunks|e];
    by exists [EvTitle (ys_url self); EvTranscript (ys_vid self) ["ja"; "en"; "en-US"]].
Qed.

Lemma set_title_wf title self : ys_wf self → ys_wf (set_title title self).
Proof. done. Qed.

Lemma set_chunks_wf chunks self : ys_wf self → ys_wf (set_chunks chunks self).
Proof. done. Qed.
End init_prepare_lemmas.


(** ** The examples *)

Section examples.

Lemma demo_run : run (demo_self, fresh_world) = (Ok demo_summary, (demo_self, demo_world)).
Proof. vm_compute. reflexivity. Qed.

Lemma failing_run :
  run (failing_self, fresh_world)
  = (Raise (ChainInvocationError "rate limit"), (failing_self, failing_world)).
Proof. vm_compute. reflexivity. Qed.

(** The canned chain answers every call but the one it fails at. *)
Lemma canned_chain_answers fail_at chain n docs :
  fail_at ≠ Some n → is_Ok (canned_chain fail_at chain n docs).
Proof. intros Hn. unfold canned_chain. by rewrite bool_decide_eq_false_2. Qed.

Lemma canned_self_wf S llm chunks : ys_wf (canned_self S llm chunks).
Proof. split_and!; [done..|by exists "store"|done]. Qed.

Lemma xyz_prepare :
  prepare (blank_self xyz_services tt, fresh_world) = (Ok tt, (xyz_self, prepared_world)).
Proof. vm_compute. reflexivity. Qed.

Lemma silent_prepare :
  prepare (blank_self silent_services tt, fresh_world)
  = (Raise TranscriptUnavailable,
     (set_title "a title" (blank_self silent_services tt), prepared_world)).
Proof. vm_compute. reflexivity. Qed.

Lemma blank_self_wf S llm : ys_wf (blank_self S llm).
Proof. split_and!; [done..|by exists "store"|done]. Qed.

Lemma demo_self_wf : ys_wf demo_self.
Proof. split_and!; [done..|by exists "store"|done]. Qed.

Lemma nine_short_chunks_bucketable : bucketable nine_short_chunks 5.
Proof. refine (bool_decide_unpack _ _). vm_compute. exact I. Qed.

Lemma xyz_fragments_ok : Forall fragment_ok xyz_fragments.
Proof. by repeat constructor. Qed.

Lemma garbled_run :
  run (garbled_self, stored_world) = (Raise UnicodeEncodeError, (garbled_self, garbled_world)).
Proof. vm_compute. reflexivity. Qed.

Lemma nine_short_chunks_groups :
  _divide_chunks_by_time nine_short_chunks 5 = Ok (bucket_spec nine_short_chunks 5).
Proof. vm_compute. reflexivity. Qed.

Lemma garbled_detail :
  detail_run (chain_of garbled_self) 1 0 (bucket_spec nine_short_chunks 5)
  = (Ok (s_detail garbled_summary), detail_events (bucket_spec nine_short_chunks 5)).
Proof. vm_compute. reflexivity. Qed.

Lemma stored_world_save_ready : save_ready stored_world "store/vid1".
Proof. refine (bool_decide_unpack _ _). vm_compute. exact I. Qed.

Lemma fresh_world_save_ready : save_ready fresh_world "store/vid1".
Proof. refine (bool_decide_unpack _ _). vm_compute. exact I. Qed.
End examples.

(** ** Properties of [run] *)

Section run_properties.
Context `{Services}.
Implicit Types (self : YoutubeSummarize) (w : World) (summary : Summary)
  (groups : list (list TranscriptChunkModel)).

(** C2: when [run] raises, the object is as it was, nothing was
    printed, and no summary is stored.  Whatever the phase (the chain
    type is not supported, a call to the chain fails, the chunks cannot
    be grouped, the directory or the file cannot be opened), no file has
    been written or changed and no write appears in the trace; with one
    exception: when it is the write of line 112 that raises, on a text
    that has no UTF-8, the summary file is left empty, whatever it held,
    and no other file has changed. *)
Theorem run_failure_stores_no_summary self w e self' w' :
  run (self, w) = (Raise e, (self', w')) →
  self' = self
  ∧ w_stdout w' = w_stdout w
  ∧ ((no_file_written w w'
      ∧ filter is_write (w_trace w') = filter is_write (w_trace w))
     ∨ (e = UnicodeEncodeError
        ∧ w_fs w' !! ys_summary_file self = Some (File "")
        ∧ ∀ path content, path ≠ ys_summary_file self →
            w_fs w' !! path = Some (File content)
            ↔ w_fs w !! path = Some (File content))).
Proof.
  intros [-> [Hq|[-> Hf]]]%run_Raise_inv; (split; [done|]).
  - split; [by eapply quiet_change_console|]. left.
    split; [by eapply quiet_change_no_file_written|by eapply quiet_change_writes].
  - destruct Hf as (groups & summary & _ & _ & _ & _ & _ & Hready & _ & ->).
    split; [by rewrite saved_stdout|]. right. split_and!; [done|apply saved_file|].
    intros path content Hne. by rewrite saved_other_files.
Qed.

(** C3: when [run] returns a summary, the summary file holds the JSON
    text of exactly that summary, the write is the last thing [run] did,
    the url and the title of the summary are those of the object, no
    other file changed, and the object is as it was. *)
Theorem run_writes_returned_summary self w summary self' w' :
  run (self, w) = (Ok summary, (self', w')) →
  self' = self
  ∧ s_url summary = ys_url self ∧ s_title summary = ys_title self
  ∧ w_fs w' !! ys_summary_file self = Some (File (json_dumps (summary_json summary)))
  ∧ last (w_trace w') = Some (EvWrite (ys_summary_file self) (json_dumps (summary_json summary)))
  ∧ ∀ path content, path ≠ ys_summary_file self →
      w_fs w' !! path = Some (File content) ↔ w_fs w !! path = Some (File content).
Proof.
  intros [-> [groups [_ _ _ _ Hurl Htitle Hready _ ->]]]%run_Ok_inv.
  split_and!; [done..|apply saved_file| |].
  - rewrite saved_trace. unfold save_events. by rewrite (assoc (++)), last_snoc.
  - intros path content Hne. by rewrite saved_other_files.
Qed.

(** C4: the calls of a [run] that returns, in order: one call of the
    chain on the texts of all the chunks, then one call per group of
    [_divide_chunks_by_time(5)], in the order of the groups, with a pause
    of three seconds between two of them and none before the first, then
    the creation of the directory if it was missing, then the write. *)
Theorem run_trace self w summary self' w' :
  run (self, w) = (Ok summary, (self', w')) →
  ∃ groups,
    _divide_chunks_by_time (ys_chunks self) 5 = Ok groups
    ∧ w_trace w'
      = w_trace w ++ [EvChain (documents_of (ys_chunks self))]
        ++ detail_events groups
        ++ save_events w (ys_summary_file self) (json_dumps (summary_json summary)).
Proof.
  intros [_ [groups [_ Hg _ _ _ _ _ _ ->]]]%run_Ok_inv. exists groups. split; [done|].
  rewrite saved_trace. simpl. by rewrite <- (assoc (++)).
Qed.

(** C11: the answers in the summary of a [run] that returns: [concise] is
    the answer to the first call, made on all the chunks, and the [k]-th
    entry of [detail] is the answer to the call after that and [k] more,
    made on the texts of the [k]-th group; there is one entry per
    group. *)
Theorem run_answers self w summary self' w' :
  run (self, w) = (Ok summary, (self', w')) →
  ∃ groups,
    _divide_chunks_by_time (ys_chunks self) 5 = Ok groups
    ∧ chain_arun (chain_of self) (chain_calls w) (documents_of (ys_chunks self))
      = Ok (s_concise summary)
    ∧ length (s_detail summary) = length groups
    ∧ ∀ k g, groups !! k = Some g →
        Ok <$> s_detail summary !! k
        = Some (chain_arun (chain_of self) (S (chain_calls w) + k) (documents_of g)).
Proof.
  intros [_ [groups [_ Hg Hc Hd _ _ _ _ _]]]%run_Ok_inv. exists groups.
  apply detail_run_Ok_inv in Hd as (_ & Hlen & Hk). by split_and!.
Qed.
(** C12: [run] ends, for a well-formed object whose chunks are on the
    inputs [_divide_chunks_by_time(5)] is written for, when the chain
    answers the call on all the chunks and the call on each group, and
    the summary file can be opened: it returns the summary and leaves
    the world of the write when the url, the title and the answers have
    a UTF-8, and raises [UnicodeEncodeError], leaving the file empty,
    when one of them has none. *)
Theorem run_completes self w :
  ys_wf self → bucketable (ys_chunks self) 5 →
  is_Ok (chain_arun (chain_of self) (chain_calls w)
           (documents_of (ys_chunks self))) →
  (∀ k g, bucket_spec (ys_chunks self) 5 !! k = Some g →
     is_Ok (chain_arun (chain_of self) (S (chain_calls w) + k) (documents_of g))) →
  save_ready w (ys_summary_file self) →
  ∃ summary,
    let w1 := add_events (run_events self (bucket_spec (ys_chunks self) 5)) w in
    s_url summary = ys_url self ∧ s_title summary = ys_title self
    ∧ run (self, w)
    = if forallb str_encodable (summary_texts summary)
      then (Ok summary,
            (self, saved (ys_summary_file self) (json_dumps (summary_json summary)) w1))
      else (Raise UnicodeEncodeError, (self, saved (ys_summary_file self) "" w1)).
Proof.
  intros Hwf Hb [concise Hc]%is_Ok_exists Hcalls Hready.
  destruct (detail_run_Ok _ _ 0%nat _ Hcalls) as [detail Hd].
  rewrite detail_events_from_0 in Hd.
  exists (mkSummary (ys_url self) (ys_title self) detail concise). cbv zeta.
  do 2 (split; [done|]). rewrite <-summary_dumps_encodable.
  destruct (str_encodable _) eqn:Henc.
  - apply run_ok_run with (groups := bucket_spec (ys_chunks self) 5).
    split; [by apply ys_wf_chain_type|by apply divide_chunks_bucketable|done..].
  - apply (run_write_failed _ _ _ (mkSummary (ys_url self) (ys_title self) detail concise));
      [by apply ys_wf_chain_type|by apply divide_chunks_bucketable|done..].
Qed.

(** C13: the write of line 112 can destroy a summary: [open] empties
    the file before the text is encoded, so when every call was
    answered and the url, the title or an answer of the new summary has
    no UTF-8 (it holds a lone surrogate), [run] raises
    [UnicodeEncodeError] and the file, whatever summary it held, is
    left empty. *)
Theorem run_unencodable_summary self w groups summary :
  ys_chain_type self ∈ ["stuff"; "map_reduce"; "refine"] →
  _divide_chunks_by_time (ys_chunks self) 5 = Ok groups →
  chain_arun (chain_of self) (chain_calls w) (documents_of (ys_chunks self))
  = Ok (s_concise summary) →
  detail_run (chain_of self) (S (chain_calls w)) 0 groups
  = (Ok (s_detail summary), detail_events groups) →
  s_url summary = ys_url self → s_title summary = ys_title self →
  save_ready w (ys_summary_file self) →
  forallb str_encodable (summary_texts summary) = false →
  ∃ w', run (self, w) = (Raise UnicodeEncodeError, (self, w'))
        ∧ w_fs w' !! ys_summary_file self = Some (File "").
Proof.
  intros Hct Hg Hc Hd Hurl Htitle Hready Henc.
  rewrite <-summary_dumps_encodable in Henc. eexists.
  split; [by apply (run_write_failed _ _ groups summary)|]. apply saved_file.
Qed.

(** C40: a [run] that returns made between one and six calls in its
    loop, whatever the number of chunks: [detail] has between one and six
    entries (six, not five, when a chunk starts in the last seconds of
    the video), and the chain was called once more than that. *)
Theorem run_detail_count self w summary self' w' :
  run (self, w) = (Ok summary, (self', w')) →
  (1 ≤ length (s_detail summary) ≤ 6)%nat
  ∧ chain_calls w' = (chain_calls w + 1 + length (s_detail summary))%nat.
Proof.
  intros [_ [groups [_ Hg _ Hd _ _ _ _ ->]]]%run_Ok_inv.
  apply detail_run_Ok_inv in Hd as (_ & -> & _).
  split; [by eapply groups_count|].
  rewrite saved_chain_calls, chain_calls_add_events, run_events_calls. lia.
Qed.

(** C29: for a video shorter than five seconds, [run] never returns a
    summary: it calls the chain on all the chunks, and then, if that
    call was answered, raises [ZeroDivisionError] from
    [_divide_chunks_by_time]; the answer is lost and no file is
    written. *)
Theorem run_short_video self w :
  ys_wf self → ys_chunks self ≠ [] →
  (0 <= total_time (ys_chunks self))%Q → (total_time (ys_chunks self) < 5)%Q →
  run (self, w)
  = (chain_arun (chain_of self) (chain_calls w) (documents_of (ys_chunks self))
       ≫= (fun _ => Raise ZeroDivisionError),
     (self, add_events [EvChain (documents_of (ys_chunks self))] w)).
Proof.
  intros Hwf Hne H0 Hlt. apply run_divide_Raise; [by apply ys_wf_chain_type|].
  apply divide_chunks_delta_zero; [done..|]. by apply delta_of_zero.
Qed.

(** C33: [run] on an object without chunks (as [__init__] leaves it, before
    [prepare]) calls the chain on no document at all, and then, if that
    call was answered, raises [IndexError]. *)
Theorem run_without_chunks self w :
  ys_wf self → ys_chunks self = [] →
  run (self, w)
  = (chain_arun (chain_of self) (chain_calls w) [] ≫= (fun _ => Raise IndexError),
     (self, add_events [EvChain []] w)).
Proof.
  intros Hwf Hnil. rewrite (run_divide_Raise _ _ IndexError);
    [by rewrite Hnil|by apply ys_wf_chain_type|].
  rewrite Hnil. unfold _divide_chunks_by_time. by rewrite bucket_delta_nil.
Qed.

(** C32: when the chain answers the call on all the chunks and the calls
    on the groups before the [k]-th and raises on the [k]-th, [run]
    raises that exception; the answers it had are lost, the trace holds
    the calls up to the one that raised, and the file system is as it
    was. *)
Theorem run_group_failure self w groups k g e :
  ys_wf self → _divide_chunks_by_time (ys_chunks self) 5 = Ok groups →
  is_Ok (chain_arun (chain_of self) (chain_calls w)
           (documents_of (ys_chunks self))) →
  groups !! k = Some g →
  (∀ j g', (j < k)%nat → groups !! j = Some g' →
     is_Ok (chain_arun (chain_of self) (S (chain_calls w) + j) (documents_of g'))) →
  chain_arun (chain_of self) (S (chain_calls w) + k) (documents_of g) = Raise e →
  run (self, w)
  = (Raise e,
     (self, add_events (EvChain (documents_of (ys_chunks self))
                        :: detail_events (take (S k) groups)) w)).
Proof.
  intros Hwf Hg [concise Hc]%is_Ok_exists Hk Hbefore He.
  rewrite run_unfold, bool_decide_eq_true_2 by (by apply ys_wf_chain_type).
  simpl. rewrite Hc, Hg, (detail_run_Raise _ _ _ _ k g e) by done.
  by rewrite add_events_app, detail_events_from_0.
Qed.
End run_properties.

(** The properties above, on the examples. *)

#[local] Existing Instance demo_services.

Lemma run_failure_stores_no_summary_witness :
  garbled_self = garbled_self
  ∧ w_stdout garbled_world = w_stdout stored_world
  ∧ ((no_file_written stored_world garbled_world
      ∧ filter is_write (w_trace garbled_world) = filter is_write (w_trace stored_world))
     ∨ (UnicodeEncodeError = UnicodeEncodeError
        ∧ w_fs garbled_world !! ys_summary_file garbled_self = Some (File "")
        ∧ ∀ path content, path ≠ ys_summary_file garbled_self →
            w_fs garbled_world !! path = Some (File content)
            ↔ w_fs stored_world !! path = Some (File content))).
Proof.
  exact (run_failure_stores_no_summary garbled_self stored_world _ _ _ garbled_run).
Defined.

Lemma run_writes_returned_summary_witness :
  demo_self = demo_self
  ∧ s_url demo_summary = ys_url demo_self ∧ s_title demo_summary = ys_title demo_self
  ∧ w_fs demo_world !! ys_summary_file demo_self
    = Some (File (json_dumps (summary_json demo_summary)))
  ∧ last (w_trace demo_world)
    = Some (EvWrite (ys_summary_file demo_self) (json_dumps (summary_json demo_summary)))
  ∧ ∀ path content, path ≠ ys_summary_file demo_self →
      w_fs demo_world !! path = Some (File content)
      ↔ w_fs fresh_world !! path = Some (File content).
Proof.
  exact (run_writes_returned_summary demo_self fresh_world _ _ _ demo_run).
Defined.

Lemma run_trace_witness :
  ∃ groups,
    _divide_chunks_by_time (ys_chunks demo_self) 5 = Ok groups
    ∧ w_trace demo_world
      = w_trace fresh_world ++ [EvChain (documents_of (ys_chunks demo_self))]
        ++ detail_events groups
        ++ save_events fresh_world (ys_summary_file demo_self)
             (json_dumps (summary_json demo_summary)).
Proof. exact (run_trace demo_self fresh_world _ _ _ demo_run). Defined.

Lemma run_answers_witness :
  ∃ groups,
    _divide_chunks_by_time (ys_chunks demo_self) 5 = Ok groups
    ∧ chain_arun (chain_of demo_self) (chain_calls fresh_world)
        (documents_of (ys_chunks demo_self))
      = Ok (s_concise demo_summary)
    ∧ length (s_detail demo_summary) = length groups
    ∧ ∀ k g, groups !! k = Some g →
        Ok <$> s_detail demo_summary !! k
        = Some (chain_arun (chain_of demo_self) (S (chain_calls fresh_world) + k)
                  (documents_of g)).
Proof. exact (run_answers demo_self fresh_world _ _ _ demo_run). Defined.

Lemma run_completes_witness :
  ∃ summary,
    let w1 := add_events (run_events demo_self (bucket_spec (ys_chunks demo_self) 5))
                fresh_world in
    s_url summary = ys_url demo_self ∧ s_title summary = ys_title demo_self
    ∧ run (demo_self, fresh_world)
    = if forallb str_encodable (summary_texts summary)
      then (Ok summary,
            (demo_self,
             saved (ys_summary_file demo_self) (json_dumps (summary_json summary)) w1))
      else (Raise UnicodeEncodeError, (demo_self, saved (ys_summary_file demo_self) "" w1)).
Proof.
  apply (run_completes demo_self fresh_world).
  - exact demo_self_wf.
  - exact nine_short_chunks_bucketable.
  - by apply canned_chain_answers.
  - intros k g _. by apply canned_chain_answers.
  - exact fresh_world_save_ready.
Defined.

Lemma run_unencodable_summary_witness :
  ∃ w', run (garbled_self, stored_world) = (Raise UnicodeEncodeError, (garbled_self, w'))
        ∧ w_fs w' !! ys_summary_file garbled_self = Some (File "").
Proof.
  apply (run_unencodable_summary garbled_self stored_world
           (bucket_spec nine_short_chunks 5) garbled_summary).
  - vm_compute. set_solver.
  - exact nine_short_chunks_groups.
  - reflexivity.
  - exact garbled_detail.
  - reflexivity.
  - reflexivity.
  - exact stored_world_save_ready.
  - vm_compute. reflexivity.
Defined.

Lemma run_detail_count_witness :
  (1 ≤ length (s_detail demo_summary) ≤ 6)%nat
  ∧ chain_calls demo_world
    = (chain_calls fresh_world + 1 + length (s_detail demo_summary))%nat.
Proof. exact (run_detail_count demo_self fresh_world _ _ _ demo_run). Defined.

Lemma run_short_video_witness :
  run (short_self, fresh_world)
  = (chain_arun (chain_of short_self) (chain_calls fresh_world)
       (documents_of (ys_chunks short_self))
       ≫= (fun _ => Raise ZeroDivisionError),
     (short_self,
      add_events [EvChain (documents_of (ys_chunks short_self))] fresh_world)).
Proof.
  apply (run_short_video short_self fresh_world);
    [apply canned_self_wf|discriminate|..];
    refine (bool_decide_unpack _ _); vm_compute; exact I.
Defined.

Lemma run_without_chunks_witness :
  run (new_self, fresh_world)
  = (chain_arun (chain_of new_self) (chain_calls fresh_world) []
       ≫= (fun _ => Raise IndexError),
     (new_self, add_events [EvChain []] fresh_world)).
Proof.
  apply (run_without_chunks new_self fresh_world); [apply blank_self_wf|reflexivity].
Defined.

Lemma run_group_failure_witness :
  run (failing_self, fresh_world)
  = (Raise (ChainInvocationError "rate limit"),
     (failing_self,
      add_events (EvChain (documents_of (ys_chunks failing_self))
                  :: detail_events (take 3 (bucket_spec nine_short_chunks 5)))
        fresh_world)).
Proof.
  apply (run_group_failure failing_self fresh_world (bucket_spec nine_short_chunks 5)
           2 [mkChunk "v" "t" 2 1] (ChainInvocationError "rate limit")).
  - apply canned_self_wf.
  - vm_compute. reflexivity.
  - by apply canned_chain_answers.
  - vm_compute. reflexivity.
  - intros j g' Hj _. apply canned_chain_answers. intros [= ?]. lia.
  - vm_compute. reflexivity.
Defined.

(** ** Properties of [__init__], [prepare] and [_debug] *)

Section object_properties.
Context `{Services}.
Implicit Types (self : YoutubeSummarize) (w : World) (vid : arg_value string).

(** C35: the object [__init__] returns is well formed: its video id is
    not empty, its url and its summary file are built from the id and
    from [SUMMARY_STORE_DIR], its chain type is [map_reduce], its LLM is
    the one the environment configures, it has no title and no chunk
    yet; the world is as it was. *)
Theorem init_ok vid debug w self w' :
  __init__ vid debug w = (Ok self, w') →
  w' = w ∧ ys_wf self
  ∧ ys_vid self = vid ∧ ys_debug self = debug
  ∧ ys_title self = "" ∧ ys_chunks self = []
  ∧ setup_llm_from_environment (w_env w) = Ok (ys_llm self)
  ∧ ∃ store_dir, w_env w !! "SUMMARY_STORE_DIR" = Some store_dir
      ∧ ys_summary_file self = path_join store_dir (format_vid vid).
Proof.
  intros (-> & Hvid & store_dir & llm & Hdir & Hllm & ->)%init_Ok_inv.
  unfold ys_wf. simpl. split_and!; try done; by exists store_dir.
Qed.

(** [__init__] raises in three cases, checked in this order, and
    leaves the world as it was: [ValueError] for an empty video id,
    [KeyError] when [SUMMARY_STORE_DIR] is not set, and whatever
    [setup_llm_from_environment] raises. *)
Theorem init_errors vid debug w e w' :
  __init__ vid debug w = (Raise e, w') →
  w' = w
  ∧ ((vid = Value "" ∧ e = ValueError "video id is invalid.")
     ∨ (vid ≠ Value "" ∧ w_env w !! "SUMMARY_STORE_DIR" = None
        ∧ e = KeyError "SUMMARY_STORE_DIR")
     ∨ (vid ≠ Value "" ∧ is_Some (w_env w !! "SUMMARY_STORE_DIR")
        ∧ setup_llm_from_environment (w_env w) = Raise e)).
Proof.
  rewrite init_unfold. case_bool_decide as Hvid; [naive_solver|].
  destruct (w_env w !! "SUMMARY_STORE_DIR") as [store_dir|]; [|naive_solver]. simpl.
  destruct (setup_llm_from_environment (w_env w)) as [llm|e1]; naive_solver.
Qed.

(** [__init__] returns an object for every non-empty video id when
    [SUMMARY_STORE_DIR] is set and the LLM can be set up. *)
Theorem init_returns vid debug w :
  vid ≠ Value "" → is_Some (w_env w !! "SUMMARY_STORE_DIR") →
  is_Ok (setup_llm_from_environment (w_env w)) →
  ∃ self, __init__ vid debug w = (Ok self, w).
Proof.
  intros Hvid [store_dir Hdir] [llm Hllm]%is_Ok_exists. rewrite init_unfold.
  rewrite bool_decide_eq_false_2, Hdir by done. simpl. rewrite Hllm. eauto.
Qed.

(** C36: when [prepare] returns, the title of the object is the title of
    the video, its chunks are the chunks of the transcript asked in
    Japanese, English, US English by preference, cut with a maximal
    length of 1000 and an overlap of 5 under the video id, nothing else
    of the object changed, and the two calls were made in this order. *)
Theorem prepare_ok self w u self' w' :
  prepare (self, w) = (Ok u, (self', w')) →
  ∃ transcriptions,
    youtube_title (ys_url self) = Ok (ys_title self')
    ∧ get_transcript (ys_vid self) ["ja"; "en"; "en-US"] = Ok transcriptions
    ∧ divide_transcriptions_into_chunks transcriptions 1000 5 (format_vid (ys_vid self))
      = Ok (ys_chunks self')
    ∧ self' = set_chunks (ys_chunks self') (set_title (ys_title self') self)
    ∧ w' = add_events [EvTitle (ys_url self);
                       EvTranscript (ys_vid self) ["ja"; "en"; "en-US"]] w.
Proof.
  intros (title & transcriptions & chunks & ? & ? & ? & -> & ->)%prepare_Ok_inv.
  by exists transcriptions.
Qed.

(** C37: when [prepare] raises, either the title could not be fetched
    and the object is as it was, or the title is already assigned and
    the chunks are the ones the object had: the transcript could not be
    fetched or cut. *)
Theorem prepare_failure self w e self' w' :
  prepare (self, w) = (Raise e, (self', w')) →
  (youtube_title (ys_url self) = Raise e ∧ self' = self
   ∧ w' = add_events [EvTitle (ys_url self)] w)
  ∨ (∃ title, youtube_title (ys_url self) = Ok title
       ∧ self' = set_title title self
       ∧ (get_transcript (ys_vid self) ["ja"; "en"; "en-US"]
            ≫= fun transcriptions =>
                 divide_transcriptions_into_chunks transcriptions 1000 5 (format_vid (ys_vid self)))
         = Raise e
       ∧ w' = add_events [EvTitle (ys_url self);
                          EvTranscript (ys_vid self) ["ja"; "en"; "en-US"]] w).
Proof.
  rewrite prepare_unfold. cbv zeta. rewrite add_events_app.
  destruct (youtube_title (ys_url self)) as [title|e1]; [|intros [= <- <- <-]; auto].
  destruct (_ ≫= _) as [chunks|e1] eqn:Hc; [done|].
  intros [= <- <- <-]. right. by exists title.
Qed.

(** When [prepare] returns, the object has at least one chunk: the
    transcript was not empty, and cutting it leaves no fragment out. *)
Theorem prepare_gives_chunks self w u self' w' :
  prepare (self, w) = (Ok u, (self', w')) → ys_chunks self' ≠ [].
Proof.
  intros (title & transcriptions & chunks & _ & _ & Hc & -> & _)%prepare_Ok_inv.
  by apply divide_transcriptions_Ok_inv in Hc as (_ & _ & Hne).
Qed.

(** [prepare] keeps the object well formed, whether it returns or
    raises, and touches neither the file system nor the console. *)
Theorem prepare_keeps_wf self w r self' w' :
  ys_wf self → prepare (self, w) = (r, (self', w')) →
  ys_wf self' ∧ ys_summary_file self' = ys_summary_file self
  ∧ w_fs w' = w_fs w ∧ w_stdout w' = w_stdout w.
Proof.
  intros Hwf. rewrite prepare_unfold. cbv zeta.
  destruct (youtube_title (ys_url self)) as [title|e1]; [|by intros [= <- <- <-]].
  destruct (_ ≫= _) as [chunks|e1]; by intros [= <- <- <-].
Qed.

(** C8: the chunks [prepare] stores are well formed when no fragment of
    the transcript starts before 0 or has a negative duration: there is
    at least one chunk, the chunks are numbered from 0 under the id of
    the video, and none starts before 0 or has a negative duration,
    which is what the grouping by time asks of them. *)
Theorem prepare_chunks_wf self w u self' w' frags :
  prepare (self, w) = (Ok u, (self', w')) →
  get_transcript (ys_vid self) ["ja"; "en"; "en-US"] = Ok frags →
  Forall fragment_ok frags →
  chunks_wf (format_vid (ys_vid self)) (ys_chunks self').
Proof.
  intros (title & frags' & chunks & _ & Hfrags & Hc & -> & _)%prepare_Ok_inv Hfrags' Hok.
  rewrite Hfrags in Hfrags'. injection Hfrags' as ->.
  by eapply divide_transcriptions_wf.
Qed.

(** C20: the chunks [prepare] stores cut the transcript in order and
    leave no fragment out: each is a run of fragments closed into a
    chunk; the first starts with the first fragment; each of the others
    starts with the last five fragments of the one before it (all of
    them when it has fewer) and goes on with at least one fragment of
    its own; the last ends with the last fragment; and every chunk but
    the last has a text of 1000 characters at least. *)
Theorem prepare_chunks_cover self w u self' w' :
  prepare (self, w) = (Ok u, (self', w')) →
  ∃ frags bufs,
    get_transcript (ys_vid self) ["ja"; "en"; "en-US"] = Ok frags
    ∧ ys_chunks self' = imap (close_chunk (format_vid (ys_vid self))) bufs
    ∧ chain 5 [] bufs frags
    ∧ ∀ i buf, bufs !! i = Some buf → (S i < length bufs)%nat →
               (1000 ≤ str_len (buffer_text buf))%nat.
Proof.
  intros (title & frags & chunks & _ & Hfrags & Hc & -> & _)%prepare_Ok_inv.
  exists frags, (divide_buffers 1000 5 frags). split; [done|].
  split; [by apply divide_transcriptions_buffers in Hc|].
  apply (divide_buffers_spec 1000 5).
Qed.
(** [_debug] prints the message and [end] when the object was built
    with [debug], as far as they can be written, prints nothing
    otherwise, and changes nothing else. *)
Theorem debug_output message end_ flush self w :
  _debug message end_ flush (self, w)
  = (if ys_debug self then print_result [message; end_] else Ok tt,
     (self, if ys_debug self then add_output (written [message; end_]) w else w)).
Proof.
  unfold _debug. rewrite bind_self_get. destruct (ys_debug self); [|done].
  simpl. unfold io. simpl. by rewrite py_print_run.
Qed.
End object_properties.

(** The properties above, on the examples. *)

Lemma init_ok_witness :
  fresh_world = fresh_world ∧ ys_wf new_self
  ∧ ys_vid new_self = Value "vid1" ∧ ys_debug new_self = false
  ∧ ys_title new_self = "" ∧ ys_chunks new_self = []
  ∧ setup_llm_from_environment (w_env fresh_world) = Ok (ys_llm new_self)
  ∧ ∃ store_dir, w_env fresh_world !! "SUMMARY_STORE_DIR" = Some store_dir
      ∧ ys_summary_file new_self = path_join store_dir "vid1".
Proof. apply (init_ok (Value "vid1") false fresh_world new_self). vm_compute. reflexivity. Defined.

Lemma init_errors_witness :
  bare_world = bare_world
  ∧ ((Value "vid1" = Value ""
      ∧ KeyError "SUMMARY_STORE_DIR" = ValueError "video id is invalid.")
     ∨ (Value "vid1" ≠ Value "" ∧ w_env bare_world !! "SUMMARY_STORE_DIR" = None
        ∧ KeyError "SUMMARY_STORE_DIR" = KeyError "SUMMARY_STORE_DIR")
     ∨ (Value "vid1" ≠ Value "" ∧ is_Some (w_env bare_world !! "SUMMARY_STORE_DIR")
        ∧ setup_llm_from_environment (w_env bare_world)
          = Raise (KeyError "SUMMARY_STORE_DIR"))).
Proof. apply (init_errors (Value "vid1") false bare_world). vm_compute. reflexivity. Defined.

Lemma init_returns_witness :
  ∃ self : YoutubeSummarize, __init__ (Value "vid1") false fresh_world = (Ok self, fresh_world).
Proof.
  apply (init_returns (Value "vid1") false fresh_world); [done| |exact I].
  exists "store". vm_compute. reflexivity.
Defined.

Lemma prepare_ok_witness :
  ∃ transcriptions,
    @youtube_title xyz_services (ys_url (blank_self xyz_services tt)) = Ok (ys_title xyz_self)
    ∧ @get_transcript xyz_services (ys_vid (blank_self xyz_services tt)) ["ja"; "en"; "en-US"]
      = Ok transcriptions
    ∧ divide_transcriptions_into_chunks transcriptions 1000 5
        (format_vid (ys_vid (blank_self xyz_services tt)))
      = Ok (ys_chunks xyz_self)
    ∧ xyz_self = set_chunks (ys_chunks xyz_self)
                   (set_title (ys_title xyz_self) (blank_self xyz_services tt))
    ∧ prepared_world
      = add_events [EvTitle (ys_url (blank_self xyz_services tt));
                    EvTranscript (ys_vid (blank_self xyz_services tt))
                      ["ja"; "en"; "en-US"]] fresh_world.
Proof. exact (prepare_ok _ fresh_world _ _ _ xyz_prepare). Defined.

Lemma prepare_failure_witness :
  (@youtube_title silent_services (ys_url (blank_self silent_services tt)) = Raise TranscriptUnavailable
   ∧ set_title "a title" (blank_self silent_services tt) = blank_self silent_services tt
   ∧ prepared_world
     = add_events [EvTitle (ys_url (blank_self silent_services tt))] fresh_world)
  ∨ (∃ title, @youtube_title silent_services (ys_url (blank_self silent_services tt)) = Ok title
       ∧ set_title "a title" (blank_self silent_services tt)
         = set_title title (blank_self silent_services tt)
       ∧ (@get_transcript silent_services (ys_vid (blank_self silent_services tt)) ["ja"; "en"; "en-US"]
            ≫= fun transcriptions =>
                 divide_transcriptions_into_chunks transcriptions 1000 5
                   (format_vid (ys_vid (blank_self silent_services tt))))
         = Raise TranscriptUnavailable
       ∧ prepared_world
         = add_events [EvTitle (ys_url (blank_self silent_services tt));
                       EvTranscript (ys_vid (blank_self silent_services tt))
                         ["ja"; "en"; "en-US"]] fresh_world).
Proof. exact (prepare_failure _ fresh_world _ _ _ silent_prepare). Defined.

Lemma prepare_keeps_wf_witness :
  ys_wf xyz_self
  ∧ ys_summary_file xyz_self = ys_summary_file (blank_self xyz_services tt)
  ∧ w_fs prepared_world = w_fs fresh_world
  ∧ w_stdout prepared_world = w_stdout fresh_world.
Proof.
  exact (prepare_keeps_wf _ fresh_world _ _ _ (blank_self_wf xyz_services tt) xyz_prepare).
Defined.

Lemma prepare_gives_chunks_witness : ys_chunks xyz_self ≠ [].
Proof. exact (prepare_gives_chunks _ fresh_world _ _ _ xyz_prepare). Defined.

Lemma prepare_chunks_wf_witness : chunks_wf "vid1" (ys_chunks xyz_self).
Proof.
  exact (@prepare_chunks_wf xyz_services _ fresh_world _ _ _ xyz_fragments xyz_prepare
           eq_refl xyz_fragments_ok).
Defined.

Lemma prepare_chunks_cover_witness :
  ∃ frags bufs,
    @get_transcript xyz_services (Value "vid1") ["ja"; "en"; "en-US"] = Ok frags
    ∧ ys_chunks xyz_self = imap (close_chunk "vid1") bufs
    ∧ chain 5 [] bufs frags
    ∧ ∀ i buf, bufs !! i = Some buf → (S i < length bufs)%nat →
               (1000 ≤ str_len (buffer_text buf))%nat.
Proof. exact (@prepare_chunks_cover xyz_services _ fresh_world _ _ _ xyz_prepare). Defined.
