(* ===== verification/Qa.v ===== *)
(** * Qa: the interactive session of [__main__.py]

    [qa(args)] (lines 15-36) builds a [YoutubeQA], prepares it, shows the
    concise summary of the video when one is stored, and then answers
    one query per line of standard input until a line is blank.
    [YoutubeQA] is defined in [yts/qa.py], outside [src/]: it is an
    interface here ([QAServices]), with the settings of the interpreter
    the session depends on (the frames left for [json.load], the
    printing of floats and of values that are not strings).  [json.load]
    is the decoder of [Json].  The file also holds the argument
    namespace of lines 51-57 and the constants of lines 9-10.

    Every [print] can raise [UnicodeEncodeError] (see [World]): an
    answer, a passage or a stored summary with a lone surrogate ends
    the session, with what was written before it on standard output.

    The loop [while True] is a [Fixpoint] on a number of turns; [qa] runs
    it for one turn more than standard input has lines, which
    [qa_loop_enough] shows to be enough: every turn reads a line. *)

From stdpp Require Import base tactics option list strings gmap pretty.
From Stdlib Require Import ZArith QArith.
From S2P Require Import Prelude PyData PyStr PyText Types Json World Summarize.
#[local] Close Scope Q_scope.

(** ** Definitions *)

(** Lines 9-10. *)
Definition DEFAULT_VIDEO_ID : string := "cEynsEWpXdA".
Definition DEFAULT_REF_SOURCE : Z := 3.

(** The namespace of lines 51-57: [--vid], [--source], [--detail],
    [--debug], [--summary]. *)
Record Args : Type := mkArgs {
  args_vid : arg_value string;
  args_source : arg_value Z;
  args_detail : bool;
  args_debug : bool;
  args_summary : bool;
}.

(** The namespace when the command line has no argument. *)
Definition default_args : Args :=
  mkArgs (Value DEFAULT_VIDEO_ID) (Value DEFAULT_REF_SOURCE) false false false.

(** One passage [get_source] yields: [(score, id, time, source)]. *)
Record SourceRef : Type := mkSourceRef {
  sr_score : Q;
  sr_id : string;
  sr_time : string;
  sr_source : string;
}.

(** The collaborators of the session.  A [YoutubeQA] is a value: a
    method that changes the object returns the object it leaves.
    [json_depth] is the number of frames the interpreter has left where
    [json.load] calls its scanner: 989 of the 1000 of the default limit
    when the program is started as [python -m yts] on CPython 3.11. *)
Class QAServices : Type := {
  YoutubeQA : Type;
  qa_new : arg_value string → arg_value Z → bool → bool → PyResult YoutubeQA;
  qa_prepare_query : YoutubeQA → PyResult YoutubeQA;
  qa_run_query : YoutubeQA → string → PyResult (string * YoutubeQA);
  qa_get_source : YoutubeQA → PyResult (list SourceRef);
  json_depth : nat;
  py_repr : json → string;
  str_float : Q → string;
}.

Section qa.
Context `{QAServices}.

(** [yqa.prepare_query()] *)
Definition call_prepare_query (yqa : YoutubeQA) : IO YoutubeQA :=
  emit EvPrepareQuery;; st_lift (qa_prepare_query yqa).

(** [yqa.run_query(query)] *)
Definition call_run_query (yqa : YoutubeQA) (query : string)
  : IO (string * YoutubeQA) :=
  emit (EvQuery query);; st_lift (qa_run_query yqa query).

(** [f'{v}'] for a value [json.load] returned: a string as it is. *)
Definition format_json (v : json) : string :=
  match v with
  | JStr s => s
  | _ => py_repr v
  end.

(** Lines 20-23: the concise summary of the video, when one is stored. *)
Definition show_stored_summary (vid : arg_value string) : IO unit :=
  store_dir ← environ_get "SUMMARY_STORE_DIR";
  found ← path_exists (path_join store_dir (format_vid vid));
  if found : bool then
    store_dir ← environ_get "SUMMARY_STORE_DIR";
    text ← read_file (path_join store_dir (format_vid vid));
    summary ← st_lift (json_loads json_depth text);
    concise ← st_lift (json_getitem summary "concise");
    py_print ("(Summary) " +:+ format_json concise +:+ nl) nl
  else mret tt.

(** Line 35: the line printed for one passage. *)
Definition source_line (r : SourceRef) : string :=
  "--- " +:+ sr_time r +:+ " (" +:+ sr_id r +:+ " [" +:+ str_float (sr_score r)
  +:+ "]) ---" +:+ nl +:+ " " +:+ sr_source r.

(** Lines 29-36: the answer to one query. *)
Definition qa_turn (args : Args) (yqa : YoutubeQA) (query : string) : IO YoutubeQA :=
  py_print "Answer: " "";;
  '(answer, yqa) ← call_run_query yqa query;
  py_print (answer +:+ nl) nl;;
  (if args_detail args then
     sources ← st_lift (qa_get_source yqa);
     st_for (fun r => py_print (source_line r) nl) sources;;
     py_print "" nl
   else mret tt);;
  mret yqa.

(** Lines 25-36: the loop, for at most [turns] turns. *)
Fixpoint qa_loop (turns : nat) (args : Args) (yqa : YoutubeQA) : IO unit :=
  match turns with
  | 0 => st_raise EOFError
  | S turns' =>
      line ← py_input "Query: ";
      let query := str_strip line in
      if bool_decide (query = "") then mret tt
      else
        yqa ← qa_turn args yqa query;
        qa_loop turns' args yqa
  end.

(** Lines 15-36. *)
Definition qa (args : Args) : IO unit :=
  yqa ← st_lift (qa_new (args_vid args) (args_source args) (args_detail args)
                   (args_debug args));
  yqa ← call_prepare_query yqa;
  show_stored_summary (args_vid args);;
  lines ← st_gets w_stdin;
  qa_loop (S (length lines)) args yqa.

(** ** The session, line by line *)

(** Line 23: what is written for the stored summary. *)
Definition summary_texts_shown (concise : json) : list string :=
  ["(Summary) " +:+ format_json concise +:+ nl; nl].

(** Lines 29-31: what is written before and for the answer. *)
Definition prompt_texts : list string := ["Answer: "; ""].

Definition answer_texts (answer : string) : list string := [answer +:+ nl; nl].

(** Lines 34-36: what is written for the passages, and the empty line
    after them. *)
Definition sources_texts (sources : list SourceRef) : list string :=
  flat_map (fun r => [source_line r; nl]) sources ++ [""; nl].

(** What an answered turn prints: the answer, and in detail mode the
    passages and an empty line. *)
Definition turn_output (args : Args) (answer : string) (sources : list SourceRef)
  : list string :=
  prompt_texts ++ answer_texts answer
  ++ (if args_detail args then sources_texts sources else []).

(** The passages a turn prints: those of the object, in detail mode. *)
Definition turn_sources (args : Args) (yqa : YoutubeQA) : PyResult (list SourceRef) :=
  if args_detail args then qa_get_source yqa else Ok [].

(** One turn apart from the world: how it ends and what it writes.
    The query can fail; the answer is printed before the passages are
    asked for; a text that cannot be written ends the turn where it
    stands. *)
Definition turn (args : Args) (yqa : YoutubeQA) (query : string)
  : PyResult YoutubeQA * list string :=
  match qa_run_query yqa query with
  | Raise e => (Raise e, prompt_texts)
  | Ok (answer, yqa') =>
      if printable (answer_texts answer) then
        match turn_sources args yqa' with
        | Raise e => (Raise e, prompt_texts ++ answer_texts answer)
        | Ok sources =>
            ((fun _ => yqa') <$> print_result (turn_output args answer sources),
             written (turn_output args answer sources))
        end
      else (Raise UnicodeEncodeError, prompt_texts)
  end.

(** The session over the lines of standard input: how it ends, what it
    prints, the queries it makes, and the lines it leaves unread. *)
Fixpoint session (args : Args) (yqa : YoutubeQA) (lines : list string)
  : PyResult unit * (list string * list event * list string) :=
  match lines with
  | [] => (Raise EOFError, (["Query: "], [], []))
  | line :: rest =>
      let query := str_strip line in
      if bool_decide (query = "") then (Ok tt, (["Query: "], [], rest))
      else
        match turn args yqa query with
        | (Raise e, out) => (Raise e, ("Query: " :: out, [EvQuery query], rest))
        | (Ok yqa', out) =>
            let '(r, (out', evs, rest')) := session args yqa' rest in
            (r, ("Query: " :: out ++ out', EvQuery query :: evs, rest'))
        end
  end.

(** The world after a session that printed [out], made the calls [evs]
    and left the lines [rest]. *)
Definition after_session (out : list string) (evs : list event) (rest : list string)
    (w : World) : World :=
  set_stdin (fun _ => rest) (add_events evs (add_output out w)).

(** Every line of [lines] is a query the object answers, one after the
    other from [yqa] on, its passages included in detail mode, with
    texts that can be written. *)
Fixpoint answered (args : Args) (yqa : YoutubeQA) (lines : list string) : Prop :=
  match lines with
  | [] => True
  | line :: rest =>
      ∃ answer yqa' sources,
        qa_run_query yqa (str_strip line) = Ok (answer, yqa')
        ∧ turn_sources args yqa' = Ok sources
        ∧ printable (turn_output args answer sources) = true
        ∧ answered args yqa' rest
  end.

(** A line that ends the session: blank once stripped. *)
Definition blank (line : string) : Prop := str_strip line = "".

#[export] Instance blank_dec line : Decision (blank line).
Proof. unfold blank. apply _. Defined.
End qa.

(** ** Collaborators with canned answers, for the examples *)

(** A [YoutubeQA] that counts its queries and answers each with the
    query; it has one passage to show, and fails at query [fail_at]. *)
Definition canned_qa (fail_at : option nat) : QAServices :=
  {| YoutubeQA := nat;
     qa_new := fun vid source detail debug =>
       if bool_decide (vid = Value "") then Raise (ValueError "video id is invalid.")
       else Ok 0%nat;
     qa_prepare_query := fun n => Ok n;
     qa_run_query := fun n query =>
       if bool_decide (fail_at = Some n) then Raise (ChainInvocationError "rate limit")
       else Ok ("answer to " +:+ query, S n);
     qa_get_source := fun n => Ok [mkSourceRef 0.5%Q "vid1-0" "00:00:00" "x y z"];
     json_depth := 989;
     py_repr := json_dumps;
     str_float := fun q => "0.5" |}.

Definition demo_args : Args := mkArgs (Value "vid1") (Value 3%Z) false false true.

(** The arguments of a session, plain and in detail mode. *)
Definition qa_args : Args := mkArgs (Value "vid1") (Value 3%Z) false false false.
Definition qa_detail_args : Args := mkArgs (Value "vid1") (Value 3%Z) true false false.

(** A world where two queries and a blank line are typed, and a last
    line that is never read. *)
Definition typing_world : World :=
  mkWorld {["SUMMARY_STORE_DIR" := "store"]} ∅
    [" what is x? "; "and y?"; "   "; "unread"] [] [].

(** The world after the session typed in [typing_world], answered by
    [canned_qa None]. *)
Definition typed_world : World :=
  after_session
    ["Query: "; "Answer: "; ""; "answer to what is x?" +:+ nl; nl;
     "Query: "; "Answer: "; ""; "answer to and y?" +:+ nl; nl;
     "Query: "]
    [EvQuery "what is x?"; EvQuery "and y?"] ["unread"] typing_world.

(** A world where one query is typed and standard input ends, and the
    world after it was answered. *)
Definition ending_world : World :=
  mkWorld {["SUMMARY_STORE_DIR" := "store"]} ∅ ["what is x?"] [] [].

Definition ended_world : World :=
  after_session
    ["Query: "; "Answer: "; ""; "answer to what is x?" +:+ nl; nl; "Query: "]
    [EvQuery "what is x?"] [] ending_world.

(** A world whose store holds a text that is not JSON. *)
Definition broken_store_world : World :=
  mkWorld {["SUMMARY_STORE_DIR" := "store"]}
    {["store" := Dir; "store/vid1" := File "{"]} [""] [] [].

(** A world whose store holds a summary whose concise text is the
    escape of a lone surrogate, which [json.load] reads and [print]
    cannot write. *)
Definition surrogate_text : string :=
  "{" +:+ encode_basestring "concise" +:+ ": "
  +:+ String quote_char (String backslash_char ("ud800" +:+ String quote_char "}")).

Definition surrogate_store_world : World :=
  mkWorld {["SUMMARY_STORE_DIR" := "store"]}
    {["store" := Dir; "store/vid1" := File surrogate_text]} [""] [] [].

(** A [YoutubeQA] whose answers hold a lone surrogate (the byte 255 of
    [garbled_title]), and the world it leaves of [typing_world]: the
    first query is made and its answer is not written. *)
Definition garbled_qa : QAServices :=
  {| YoutubeQA := unit;
     qa_new := fun vid source detail debug => Ok tt;
     qa_prepare_query := fun yqa => Ok yqa;
     qa_run_query := fun yqa query => Ok (garbled_title, yqa);
     qa_get_source := fun yqa => Ok [];
     json_depth := 989;
     py_repr := json_dumps;
     str_float := fun q => "0.5" |}.

Definition garbled_typed_world : World :=
  after_session ["Query: "; "Answer: "; ""]
    [EvQuery "what is x?"] ["and y?"; "   "; "unread"] typing_world.

(** ** The loop and the session *)

(** Two worlds built from the same one by prints, calls and reads. *)
Ltac world_eq :=
  unfold after_session, set_stdin, add_events, add_output, set_trace, set_stdout;
  simpl; rewrite <- ?(assoc (++)); simpl; try reflexivity.

Section qa_lemmas.
Context `{QAServices}.
Implicit Types (args : Args) (yqa : YoutubeQA) (w : World) (lines out : list string)
  (evs : list event).

Lemma after_session_stdin out evs rest w : w_stdin (after_session out evs rest w) = rest.
Proof. reflexivity. Qed.

Lemma after_session_stdout out evs rest w :
  w_stdout (after_session out evs rest w) = w_stdout w ++ out.
Proof. reflexivity. Qed.

Lemma after_session_trace out evs rest w :
  w_trace (after_session out evs rest w) = w_trace w ++ evs.
Proof. reflexivity. Qed.

Lemma after_session_fs out evs rest w : w_fs (after_session out evs rest w) = w_fs w.
Proof. reflexivity. Qed.

Lemma after_session_env out evs rest w : w_env (after_session out evs rest w) = w_env w.
Proof. reflexivity. Qed.

(** A session after another one. *)
Lemma after_session_twice out1 evs1 rest1 out2 evs2 rest2 w :
  after_session out2 evs2 rest2 (after_session out1 evs1 rest1 w)
  = after_session (out1 ++ out2) (evs1 ++ evs2) rest2 w.
Proof. by world_eq. Qed.

(** What a turn writes when the answer can be written: whether the
    rest can, and what is written of it. *)
Lemma turn_output_printable args answer sources :
  printable (answer_texts answer) = true →
  printable (turn_output args answer sources)
  = (if args_detail args then printable (sources_texts sources) else true).
Proof.
  intros Ha. unfold turn_output. rewrite !printable_app, Ha.
  destruct (args_detail args); [done|]. by rewrite andb_true_r.
Qed.

Lemma turn_output_written args answer sources :
  printable (answer_texts answer) = true →
  written (turn_output args answer sources)
  = prompt_texts ++ answer_texts answer
    ++ (if args_detail args then written (sources_texts sources) else []).
Proof.
  intros Ha. unfold turn_output. rewrite (written_app prompt_texts), written_app, Ha.
  by destruct (args_detail args).
Qed.

(** A turn whose texts can all be written has an answer that can. *)
Lemma turn_output_answer args answer sources :
  printable (turn_output args answer sources) = true →
  printable (answer_texts answer) = true.
Proof.
  unfold turn_output. rewrite !printable_app. by intros [_ [? _]%andb_prop]%andb_prop.
Qed.

(** An answer that cannot be written leaves nothing written. *)
Lemma answer_texts_written answer :
  written (answer_texts answer)
  = if printable (answer_texts answer) then answer_texts answer else [].
Proof. unfold answer_texts. simpl. by destruct (str_encodable _). Qed.

(** The passages printed, one [print] each, and the empty line. *)
Lemma sources_print_run sources w :
  (st_for (fun r => py_print (source_line r) nl) sources;; py_print "" nl) w
  = (print_result (sources_texts sources),
     add_output (written (sources_texts sources)) w).
Proof.
  rewrite st_bind_unfold, (st_for_print source_line). unfold sources_texts, print_result.
  rewrite printable_app, written_app. destruct (printable (flat_map _ _)) eqn:Hp; [|done].
  by rewrite py_print_ok, add_output_app, (written_printable _ Hp).
Qed.

(** One turn: the prompt of the answer, the query, the answer, and the
    passages in detail mode. *)
Lemma qa_turn_run args yqa query w :
  qa_turn args yqa query w
  = let '(r, out) := turn args yqa query in
    (r, add_events [EvQuery query] (add_output out w)).
Proof.
  unfold qa_turn, turn, call_run_query.
  rewrite st_bind_unfold, py_print_ok, st_bind_unfold, st_bind_unfold, emit_run by done.
  rewrite st_lift_run. destruct (qa_run_query yqa query) as [[answer yqa']|e]; [|done].
  rewrite st_bind_unfold, py_print_run. fold (answer_texts answer).
  rewrite answer_texts_written. unfold print_result.
  destruct (printable (answer_texts answer)) eqn:Ha; [|by rewrite add_output_nil].
  rewrite add_output_add_events, add_output_app, st_bind_unfold.
  unfold turn_sources. destruct (args_detail args) eqn:Hd.
  2:{ by rewrite turn_output_printable, turn_output_written, Hd, app_nil_r. }
  rewrite st_bind_unfold, st_lift_run.
  destruct (qa_get_source yqa') as [sources|e]; [|done].
  rewrite turn_output_printable, turn_output_written, Hd by done.
  rewrite sources_print_run, !add_output_add_events, add_output_app.
  unfold print_result, prompt_texts. rewrite <- app_assoc.
  by destruct (printable (sources_texts sources)).
Qed.

(** A turn that returns: the query was answered, the passages given,
    and every text written. *)
Lemma turn_Ok_inv args yqa query yqa' out :
  turn args yqa query = (Ok yqa', out) →
  ∃ answer sources,
    qa_run_query yqa query = Ok (answer, yqa')
    ∧ turn_sources args yqa' = Ok sources
    ∧ printable (turn_output args answer sources) = true
    ∧ out = turn_output args answer sources.
Proof.
  unfold turn. destruct (qa_run_query yqa query) as [[answer yqa1]|e]; [|done].
  destruct (printable (answer_texts answer)); [|done].
  destruct (turn_sources args yqa1) as [sources|e] eqn:Hs; [|done].
  unfold print_result. destruct (printable (turn_output _ _ _)) eqn:Hp; [|done].
  rewrite (written_printable _ Hp). intros [= <- <-]. by exists answer, sources.
Qed.

Lemma turn_Ok args yqa query answer yqa' sources :
  qa_run_query yqa query = Ok (answer, yqa') →
  turn_sources args yqa' = Ok sources →
  printable (turn_output args answer sources) = true →
  turn args yqa query = (Ok yqa', turn_output args answer sources).
Proof.
  intros Hq Hs Hp. unfold turn, print_result.
  by rewrite Hq, (turn_output_answer _ _ _ Hp), Hs, Hp, (written_printable _ Hp).
Qed.

(** The loop with more turns than there are lines is the session: the
    turn that raises for want of turns is never reached. *)
Lemma qa_loop_run turns args yqa w :
  (length (w_stdin w) < turns)%nat →
  qa_loop turns args yqa w
  = let '(r, (out, evs, rest)) := session args yqa (w_stdin w) in
    (r, after_session out evs rest w).
Proof.
  remember (w_stdin w) as lines eqn:Hlines. revert turns yqa w Hlines.
  induction lines as [|line rest IH]; intros [|turns] yqa w Hlines Hlen;
    simpl in Hlen; try lia; simpl qa_loop; simpl session;
    rewrite st_bind_unfold, py_input_run, <- Hlines.
  { unfold after_session. rewrite add_events_nil.
    destruct w. simpl in Hlines. subst. reflexivity. }
  case_bool_decide; [by unfold after_session; rewrite add_events_nil|].
  rewrite st_bind_unfold, qa_turn_run.
  destruct (turn args yqa _) as [[yqa'|e] out]; [|by world_eq].
  rewrite (IH turns yqa') by (done || lia).
  destruct (session args yqa' rest) as [r [[out' evs] rest']]. by world_eq.
Qed.

(** A session that ends normally ended at the first blank line: it made
    one query per line before it, the line stripped, and left the lines
    after it unread. *)
Lemma session_Ok_inv args yqa lines u out evs rest :
  session args yqa lines = (Ok u, (out, evs, rest)) →
  ∃ k line,
    lines !! k = Some line ∧ blank line
    ∧ Forall (fun l => ¬ blank l) (take k lines)
    ∧ evs = (fun l => EvQuery (str_strip l)) <$> take k lines
    ∧ rest = drop (S k) lines.
Proof.
  revert yqa out evs. induction lines as [|line lines IH]; intros yqa out evs; [done|].
  simpl. case_bool_decide as Hb.
  { intros [= <- <- <-]. exists 0%nat, line. by rewrite take_0, drop_0. }
  destruct (turn args yqa _) as [[yqa'|e] out0]; [|done].
  destruct (session args yqa' lines) as [r [[out' evs'] rest']] eqn:Hs.
  intros [= -> <- <- <-]. destruct (IH _ _ _ Hs) as (k & l & Hk & Hl & Hq & -> & ->).
  exists (S k), l. simpl. split_and!; try done. by constructor.
Qed.

(** Without a blank line the session raises: [EOFError] when every
    query is answered. *)
Lemma session_eof args yqa lines :
  Forall (fun l => ¬ blank l) lines → answered args yqa lines →
  ∃ out, session args yqa lines
         = (Raise EOFError, (out, (fun l => EvQuery (str_strip l)) <$> lines, [])).
Proof.
  revert yqa. induction lines as [|line lines IH]; intros yqa Hnb Hans; [by eexists|].
  apply Forall_cons in Hnb as [Hline Hnb].
  destruct Hans as (answer & yqa' & sources & Hq & Hsrc & Hp & Hans).
  simpl. rewrite bool_decide_eq_false_2, (turn_Ok _ _ _ _ _ _ Hq Hsrc Hp) by done.
  destruct (IH yqa' Hnb Hans) as [out ->]. by eexists.
Qed.

(** With a blank line after queries that are answered the session ends
    normally, the lines after the blank one unread. *)
Lemma session_Ok args yqa queries line rest :
  Forall (fun l => ¬ blank l) queries → blank line → answered args yqa queries →
  ∃ out, session args yqa (queries ++ line :: rest)
         = (Ok tt, (out, (fun l => EvQuery (str_strip l)) <$> queries, rest)).
Proof.
  revert yqa. induction queries as [|q queries IH]; intros yqa Hnb Hline Hans.
  { simpl. rewrite bool_decide_eq_true_2 by done. by eexists. }
  apply Forall_cons in Hnb as [Hq Hnb].
  destruct Hans as (answer & yqa' & sources & Hrun & Hsrc & Hp & Hans).
  simpl. rewrite bool_decide_eq_false_2, (turn_Ok _ _ _ _ _ _ Hrun Hsrc Hp) by done.
  destruct (IH yqa' Hnb Hline Hans) as [out ->]. by eexists.
Qed.
(** The stored summary, case by case: no store directory configured,
    no file, a directory in its place, a text that is not the JSON of an
    object with a key [concise], and the text of a summary, which is
    written when it can be. *)
Lemma show_stored_summary_run vid w :
  show_stored_summary vid w
  = match w_env w !! "SUMMARY_STORE_DIR" with
    | None => (Raise (KeyError "SUMMARY_STORE_DIR"), w)
    | Some store_dir =>
        match w_fs w !! path_join store_dir (format_vid vid) with
        | None => (Ok tt, w)
        | Some Dir => (Raise (OSError EISDIR (path_join store_dir (format_vid vid))), w)
        | Some (File text) =>
            if str_encodable text
            then match json_loads json_depth text ≫= fun summary => json_getitem summary "concise" with
                 | Raise e => (Raise e, w)
                 | Ok concise =>
                     (print_result (summary_texts_shown concise),
                      add_output (written (summary_texts_shown concise)) w)
                 end
            else (Raise UnicodeDecodeError, w)
        end
    end.
Proof.
  unfold show_stored_summary. rewrite st_bind_unfold, environ_get_run.
  destruct (w_env w !! "SUMMARY_STORE_DIR") as [d|] eqn:Hd; cbn [res_of_option];
    [|done].
  rewrite st_bind_unfold, path_exists_run.
  destruct (w_fs w !! path_join d (format_vid vid)) as [node|] eqn:Hf;
    [rewrite bool_decide_eq_true_2 by done
    |by rewrite bool_decide_eq_false_2 by (by intros [? ?])].
  rewrite st_bind_unfold, environ_get_run, Hd. cbn [res_of_option].
  rewrite st_bind_unfold, read_file_run, Hf. destruct node as [text|]; [|done].
  destruct (str_encodable text); [|done].
  rewrite st_bind_unfold, st_lift_run. destruct (json_loads json_depth text) as [j|e]; [|done].
  rewrite st_bind_unfold, st_lift_run, bind_Ok.
  destruct (json_getitem j "concise"); [|done]. apply py_print_run.
Qed.

(** A summary that cannot be written leaves nothing written: the
    text that holds it comes first. *)
Lemma summary_texts_shown_written (concise : json) :
  written (summary_texts_shown concise)
  = if printable (summary_texts_shown concise) then summary_texts_shown concise else [].
Proof.
  unfold summary_texts_shown. simpl. by destruct (str_encodable _).
Qed.

(** The phases of [qa]. *)
Lemma qa_unfold args w :
  qa args w
  = match qa_new (args_vid args) (args_source args) (args_detail args)
            (args_debug args) ≫= qa_prepare_query with
    | Raise e =>
        (Raise e, if qa_new (args_vid args) (args_source args) (args_detail args)
                       (args_debug args) is Ok _
                  then add_events [EvPrepareQuery] w else w)
    | Ok yqa =>
        match show_stored_summary (args_vid args) (add_events [EvPrepareQuery] w) with
        | (Raise e, w1) => (Raise e, w1)
        | (Ok _, w1) => qa_loop (S (length (w_stdin w1))) args yqa w1
        end
    end.
Proof.
  unfold qa, call_prepare_query. rewrite st_bind_unfold, st_lift_run.
  destruct (qa_new _ _ _ _) as [yqa0|e]; [|done]. simpl.
  rewrite st_bind_unfold, st_bind_unfold, emit_run, st_lift_run.
  destruct (qa_prepare_query yqa0) as [yqa|e]; [|done].
  rewrite st_bind_unfold.
  by destruct (show_stored_summary _ _) as [[[]|e] w1].
Qed.
End qa_lemmas.

(** ** The examples *)

Section qa_examples.

Lemma typing_run :
  @qa_loop (canned_qa None) 5 qa_args 0%nat typing_world = (Ok tt, typed_world).
Proof. vm_compute. reflexivity. Qed.

(** What the canned object prints for a query that can be written can
    be written. *)
Lemma canned_turn_printable fail_at args query :
  str_encodable query = true →
  printable (@turn_output (canned_qa fail_at) args ("answer to " +:+ query)
               [mkSourceRef 0.5%Q "vid1-0" "00:00:00" "x y z"]) = true.
Proof.
  intros Hq. unfold turn_output, answer_texts. rewrite !printable_app.
  apply andb_true_intro. split; [done|]. apply andb_true_intro. split.
  - unfold printable. cbn [forallb].
    by rewrite str_encodable_app, (str_encodable_ascii "answer to "), Hq.
  - destruct (args_detail args); [|done]. vm_compute. reflexivity.
Qed.

(** The canned object answers every query that can be written but the
    one it fails at. *)
Lemma canned_qa_answered fail_at args (n : nat) lines :
  (∀ k, fail_at = Some k → (k < n)%nat) →
  Forall (fun l => str_encodable (str_strip l) = true) lines →
  @answered (canned_qa fail_at) args n lines.
Proof.
  revert n. induction lines as [|line lines IH]; intros n Hn Henc; [done|].
  apply Forall_cons in Henc as [Hline Henc].
  exists ("answer to " +:+ str_strip line), (S n),
    (if args_detail args then [mkSourceRef 0.5%Q "vid1-0" "00:00:00" "x y z"] else []).
  simpl. rewrite bool_decide_eq_false_2 by (intros Hk; specialize (Hn n Hk); lia).
  split_and!; [done|unfold turn_sources; by destruct (args_detail args)| |].
  - pose proof (canned_turn_printable fail_at args _ Hline) as Hp.
    unfold turn_output in *. by destruct (args_detail args).
  - apply IH; [|done]. intros k Hk. specialize (Hn k Hk). lia.
Qed.

Lemma typing_queries_encodable :
  Forall (fun l => str_encodable (str_strip l) = true) [" what is x? "; "and y?"].
Proof. repeat (constructor; [vm_compute; reflexivity|]). constructor. Qed.

Lemma ending_queries_encodable :
  Forall (fun l => str_encodable (str_strip l) = true) (w_stdin ending_world).
Proof. repeat (constructor; [vm_compute; reflexivity|]). constructor. Qed.

Lemma typing_world_lines :
  w_stdin typing_world = [" what is x? "; "and y?"] ++ "   " :: ["unread"].
Proof. reflexivity. Qed.

Lemma broken_store_show :
  @show_stored_summary (canned_qa None) (Value "vid1") broken_store_world
  = (Raise JSONDecodeError, broken_store_world).
Proof. vm_compute. reflexivity. Qed.

Lemma surrogate_store_show :
  @show_stored_summary (canned_qa None) (Value "vid1") surrogate_store_world
  = (Raise UnicodeEncodeError, surrogate_store_world).
Proof. vm_compute. reflexivity. Qed.

Lemma garbled_typing_run :
  @qa_loop garbled_qa 5 qa_args tt typing_world
  = (Raise UnicodeEncodeError, garbled_typed_world).
Proof. vm_compute. reflexivity. Qed.
End qa_examples.

(** ** Properties of the session *)

Section qa_properties.
Context `{QAServices}.
Implicit Types (args : Args) (yqa : YoutubeQA) (w : World).

(** C23: the loop does the same whatever the number of turns it is given
    beyond the number of lines of standard input: every turn reads a
    line, so the turn that has none left to spend is never reached, and
    [qa], which gives one turn more than there are lines, runs the loop
    of the source. *)
Theorem qa_loop_enough turns1 turns2 args yqa w :
  (length (w_stdin w) < turns1)%nat → (length (w_stdin w) < turns2)%nat →
  qa_loop turns1 args yqa w = qa_loop turns2 args yqa w.
Proof. intros H1 H2. by rewrite !qa_loop_run. Qed.

(** C17: when the loop ends normally it ended at the first line that is
    blank once stripped: it asked one query per line before it, the
    line stripped, in order; it left the lines after it unread and the
    file system as it was. *)
Theorem qa_loop_ends_at_blank turns args yqa w u w' :
  (length (w_stdin w) < turns)%nat →
  qa_loop turns args yqa w = (Ok u, w') →
  ∃ k line,
    w_stdin w !! k = Some line ∧ blank line
    ∧ Forall (fun l => ¬ blank l) (take k (w_stdin w))
    ∧ w_trace w' = w_trace w ++ ((fun l => EvQuery (str_strip l)) <$> take k (w_stdin w))
    ∧ w_stdin w' = drop (S k) (w_stdin w)
    ∧ w_fs w' = w_fs w.
Proof.
  intros Hlen. rewrite qa_loop_run by done.
  destruct (session args yqa (w_stdin w)) as [r [[out evs] rest]] eqn:Hs.
  intros [= -> <-]. apply session_Ok_inv in Hs as (k & line & ? & ? & ? & -> & ->).
  by exists k, line.
Qed.

(** C31: when standard input ends without a blank line and every query
    is answered with texts that can be written, the loop asks every
    line and then raises [EOFError] from [input]. *)
Theorem qa_loop_eof turns args yqa w :
  (length (w_stdin w) < turns)%nat →
  Forall (fun l => ¬ blank l) (w_stdin w) → answered args yqa (w_stdin w) →
  ∃ w', qa_loop turns args yqa w = (Raise EOFError, w')
        ∧ w_trace w' = w_trace w ++ ((fun l => EvQuery (str_strip l)) <$> w_stdin w)
        ∧ w_stdin w' = [].
Proof.
  intros Hlen Hnb Hans. rewrite qa_loop_run by done.
  destruct (session_eof _ _ _ Hnb Hans) as [out ->]. by eexists.
Qed.

(** When a blank line follows queries that are all answered, with
    texts that can be written, the loop ends normally after asking them, whatever follows the blank
    line, which stays unread. *)
Theorem qa_loop_total turns args yqa w queries line rest :
  (length (w_stdin w) < turns)%nat →
  w_stdin w = queries ++ line :: rest →
  Forall (fun l => ¬ blank l) queries → blank line → answered args yqa queries →
  ∃ w', qa_loop turns args yqa w = (Ok tt, w')
        ∧ w_trace w' = w_trace w ++ ((fun l => EvQuery (str_strip l)) <$> queries)
        ∧ w_stdin w' = rest.
Proof.
  intros Hlen Hlines Hnb Hline Hans. rewrite qa_loop_run, Hlines by done.
  destruct (session_Ok _ _ _ _ rest Hnb Hline Hans) as [out ->]. by eexists.
Qed.

(** C38: an answer that cannot be written ends the turn, and with it
    the session: the query was made, then [print] raises
    [UnicodeEncodeError] (line 31); nothing of the answer is written
    and the passages are not asked for. *)
Theorem qa_turn_unprintable args yqa query w answer yqa' :
  qa_run_query yqa query = Ok (answer, yqa') → str_encodable answer = false →
  qa_turn args yqa query w
  = (Raise UnicodeEncodeError,
     add_events [EvQuery query] (add_output ["Answer: "; ""] w)).
Proof.
  intros Hq Ha. rewrite qa_turn_run. unfold turn. rewrite Hq.
  unfold answer_texts, printable. cbn [forallb].
  by rewrite str_encodable_app, Ha.
Qed.

(** When no summary is stored for the video, nothing is shown and
    nothing is raised. *)
Theorem stored_summary_absent vid w store_dir :
  w_env w !! "SUMMARY_STORE_DIR" = Some store_dir →
  w_fs w !! path_join store_dir (format_vid vid) = None →
  show_stored_summary vid w = (Ok tt, w).
Proof. intros Hd Hf. by rewrite show_stored_summary_run, Hd, Hf. Qed.

(** C34: the exceptions the look at the stored summary lets escape, the
    world unchanged: [KeyError] when [SUMMARY_STORE_DIR] is not set,
    [IsADirectoryError] when the path is a directory,
    [UnicodeDecodeError] when the file is not UTF-8, otherwise whatever
    [json.load] or the look-up of [concise] raise on the text of the
    file, and [UnicodeEncodeError] from [print] when the text they give
    cannot be written. *)
Theorem stored_summary_errors vid w e w' :
  show_stored_summary vid w = (Raise e, w') →
  w' = w
  ∧ ((w_env w !! "SUMMARY_STORE_DIR" = None ∧ e = KeyError "SUMMARY_STORE_DIR")
     ∨ ∃ store_dir,
         w_env w !! "SUMMARY_STORE_DIR" = Some store_dir
         ∧ ((w_fs w !! path_join store_dir (format_vid vid) = Some Dir
             ∧ e = OSError EISDIR (path_join store_dir (format_vid vid)))
            ∨ ∃ text,
                w_fs w !! path_join store_dir (format_vid vid) = Some (File text)
                ∧ if str_encodable text
                  then match json_loads json_depth text
                             ≫= fun summary => json_getitem summary "concise" with
                       | Raise e' => e = e'
                       | Ok concise =>
                           str_encodable ("(Summary) " +:+ format_json concise +:+ nl)
                           = false
                           ∧ e = UnicodeEncodeError
                       end
                  else e = UnicodeDecodeError)).
Proof.
  rewrite show_stored_summary_run.
  destruct (w_env w !! "SUMMARY_STORE_DIR") as [d|]; [|intros [= <- <-]; auto].
  destruct (w_fs w !! path_join d (format_vid vid)) as [[text|]|] eqn:Hf; [| |done].
  2:{ intros [= <- <-]. split; [done|]. right. exists d. split; [done|]. by left. }
  intros Hrun. cut (w' = w ∧ if str_encodable text
      then match json_loads json_depth text
                 ≫= fun summary => json_getitem summary "concise" with
           | Raise e' => e = e'
           | Ok concise =>
               str_encodable ("(Summary) " +:+ format_json concise +:+ nl) = false
               ∧ e = UnicodeEncodeError
           end
      else e = UnicodeDecodeError).
  { intros [-> He]. split; [done|]. right. exists d. split; [done|]. right. by exists text. }
  destruct (str_encodable text); [|by injection Hrun as <- <-].
  destruct (_ ≫= _) as [concise|e1]; [|by injection Hrun as <- <-].
  rewrite summary_texts_shown_written in Hrun. unfold print_result in Hrun.
  destruct (printable (summary_texts_shown concise)) eqn:Hp; [done|].
  injection Hrun as <- <-. rewrite add_output_nil. split_and!; [done| |done].
  unfold summary_texts_shown, printable in Hp. cbn [forallb] in Hp.
  by destruct (str_encodable _).
Qed.
End qa_properties.

(** The properties above, on the examples. *)

Lemma qa_loop_enough_witness :
  @qa_loop (canned_qa None) 5 qa_args 0%nat typing_world
  = @qa_loop (canned_qa None) 9 qa_args 0%nat typing_world.
Proof. apply qa_loop_enough; simpl; lia. Defined.

Lemma qa_loop_ends_at_blank_witness :
  ∃ k line,
    w_stdin typing_world !! k = Some line ∧ blank line
    ∧ Forall (fun l => ¬ blank l) (take k (w_stdin typing_world))
    ∧ w_trace typed_world
      = w_trace typing_world
        ++ ((fun l => EvQuery (str_strip l)) <$> take k (w_stdin typing_world))
    ∧ w_stdin typed_world = drop (S k) (w_stdin typing_world)
    ∧ w_fs typed_world = w_fs typing_world.
Proof.
  apply (@qa_loop_ends_at_blank (canned_qa None) 5 qa_args 0%nat typing_world tt);
    [simpl; lia|exact typing_run].
Defined.

Lemma qa_loop_eof_witness :
  ∃ w', @qa_loop (canned_qa None) 2 qa_args 0%nat ending_world = (Raise EOFError, w')
        ∧ w_trace w'
          = w_trace ending_world
            ++ ((fun l => EvQuery (str_strip l)) <$> w_stdin ending_world)
        ∧ w_stdin w' = [].
Proof.
  apply (@qa_loop_eof (canned_qa None));
    [simpl; lia| |by apply canned_qa_answered, ending_queries_encodable].
  refine (bool_decide_unpack _ _). vm_compute. exact I.
Defined.

Lemma qa_loop_total_witness :
  ∃ w', @qa_loop (canned_qa None) 5 qa_args 0%nat typing_world = (Ok tt, w')
        ∧ w_trace w'
          = w_trace typing_world
            ++ ((fun l => EvQuery (str_strip l)) <$> [" what is x? "; "and y?"])
        ∧ w_stdin w' = ["unread"].
Proof.
  apply (@qa_loop_total (canned_qa None) 5 qa_args 0%nat typing_world
           [" what is x? "; "and y?"] "   " ["unread"]);
    [simpl; lia|exact typing_world_lines| |reflexivity
    |by apply canned_qa_answered, typing_queries_encodable].
  refine (bool_decide_unpack _ _). vm_compute. exact I.
Defined.

Lemma qa_turn_unprintable_witness :
  @qa_turn garbled_qa qa_args tt "what is x?" typing_world
  = (Raise UnicodeEncodeError,
     add_events [EvQuery "what is x?"] (add_output ["Answer: "; ""] typing_world)).
Proof.
  apply (@qa_turn_unprintable garbled_qa qa_args tt "what is x?" typing_world
           garbled_title tt); vm_compute; reflexivity.
Defined.

Lemma stored_summary_absent_witness :
  @show_stored_summary (canned_qa None) (Value "vid1") typing_world = (Ok tt, typing_world).
Proof.
  by apply (@stored_summary_absent (canned_qa None) (Value "vid1") typing_world "store").
Defined.

Lemma stored_summary_errors_witness :
  surrogate_store_world = surrogate_store_world
  ∧ ((w_env surrogate_store_world !! "SUMMARY_STORE_DIR" = None
      ∧ UnicodeEncodeError = KeyError "SUMMARY_STORE_DIR")
     ∨ ∃ store_dir,
         w_env surrogate_store_world !! "SUMMARY_STORE_DIR" = Some store_dir
         ∧ ((w_fs surrogate_store_world !! path_join store_dir (format_vid (Value "vid1"))
             = Some Dir
             ∧ UnicodeEncodeError
               = OSError EISDIR (path_join store_dir (format_vid (Value "vid1"))))
            ∨ ∃ text,
                w_fs surrogate_store_world !! path_join store_dir (format_vid (Value "vid1"))
                = Some (File text)
                ∧ if str_encodable text
                  then match json_loads (@json_depth (canned_qa None)) text
                             ≫= fun summary => json_getitem summary "concise" with
                       | Raise e' => UnicodeEncodeError = e'
                       | Ok concise =>
                           str_encodable
                             ("(Summary) " +:+ @format_json (canned_qa None) concise +:+ nl)
                           = false
                           ∧ UnicodeEncodeError = UnicodeEncodeError
                       end
                  else UnicodeEncodeError = UnicodeDecodeError)).
Proof.
  exact (@stored_summary_errors (canned_qa None) (Value "vid1") surrogate_store_world _ _
           surrogate_store_show).
Defined.
