(* ===== verification/Session.v ===== *)
(** * Session: the loop of [qa] as a state machine

    The loop of [qa] ([__main__.py], lines 25-36) read as the machine it
    is: it waits for a query (lines 26-28), answers it (lines 29-36) and
    waits again, until a line is blank or an exception escapes.  The
    machine is given twice: as a function [next], built from the very
    operations the loop of [Qa] runs ([py_input], [qa_turn]), and as a
    relation [step] whose rules say what each transition reads, calls
    and prints, a rule for every way a turn can end: answered, the
    query refused, the passages refused, an answer or a passage that
    cannot be written.  The two agree ([step_next]); the runs of the machine
    are the runs of [qa_loop] ([qa_loop_machine]); every run ends
    ([session_halts]), and what holds of every state a run reaches is
    proved by induction on the rules ([reachable_inv]). *)

From stdpp Require Import base tactics option list strings gmap relations.
From S2P Require Import Prelude PyData PyStr Types World Summarize Qa.

(** ** The machine *)

(** Where the loop is: at [input] (line 26), at the answer of a query
    (line 29), after [break] (line 28), or left by an exception. *)
Inductive phase : Type :=
| AwaitingQuery
| Answering (query : string)
| Terminated
| Failed (e : exn).

#[export] Instance phase_eq_dec : EqDecision phase.
Proof. solve_decision. Defined.

Section machine.
Context `{QAServices}.

(** A state of the session: the phase, the object that answers, and
    the world. *)
Record config : Type := mkConfig {
  c_phase : phase;
  c_yqa : YoutubeQA;
  c_world : World;
}.

(** Lines 26-28: read a line; a blank one ends the session. *)
Definition await (yqa : YoutubeQA) (w : World) : config :=
  match py_input "Query: " w with
  | (Raise e, w') => mkConfig (Failed e) yqa w'
  | (Ok line, w') =>
      let query := str_strip line in
      if bool_decide (query = "") then mkConfig Terminated yqa w'
      else mkConfig (Answering query) yqa w'
  end.

(** Lines 29-36: answer the query and wait for the next one. *)
Definition answer (args : Args) (query : string) (yqa : YoutubeQA) (w : World)
  : config :=
  match qa_turn args yqa query w with
  | (Raise e, w') => mkConfig (Failed e) yqa w'
  | (Ok yqa', w') => mkConfig AwaitingQuery yqa' w'
  end.

(** One transition; none after [break] or an exception. *)
Definition next (args : Args) (c : config) : option config :=
  match c_phase c with
  | AwaitingQuery => Some (await (c_yqa c) (c_world c))
  | Answering query => Some (answer args query (c_yqa c) (c_world c))
  | Terminated | Failed _ => None
  end.

(** The world once the prompt is written and a line is read. *)
Definition line_read (rest : list string) (w : World) : World :=
  set_stdin (fun _ => rest) (add_output ["Query: "] w).

(** The world once a query is made and [out] is printed. *)
Definition query_made (query : string) (out : list string) (w : World) : World :=
  add_events [EvQuery query] (add_output out w).

(** The transitions, rule by rule. *)
Inductive step (args : Args) : config → config → Prop :=
| step_blank yqa w line rest :
    w_stdin w = line :: rest → blank line →
    step args (mkConfig AwaitingQuery yqa w) (mkConfig Terminated yqa (line_read rest w))
| step_query yqa w line rest :
    w_stdin w = line :: rest → ¬ blank line →
    step args (mkConfig AwaitingQuery yqa w)
      (mkConfig (Answering (str_strip line)) yqa (line_read rest w))
| step_eof yqa w :
    w_stdin w = [] →
    step args (mkConfig AwaitingQuery yqa w)
      (mkConfig (Failed EOFError) yqa (add_output ["Query: "] w))
| step_answer yqa w query answer yqa' sources :
    qa_run_query yqa query = Ok (answer, yqa') →
    turn_sources args yqa' = Ok sources →
    printable (turn_output args answer sources) = true →
    step args (mkConfig (Answering query) yqa w)
      (mkConfig AwaitingQuery yqa'
         (query_made query (turn_output args answer sources) w))
| step_query_fails yqa w query e :
    qa_run_query yqa query = Raise e →
    step args (mkConfig (Answering query) yqa w)
      (mkConfig (Failed e) yqa (query_made query prompt_texts w))
| step_answer_unprintable yqa w query answer yqa' :
    qa_run_query yqa query = Ok (answer, yqa') →
    printable (answer_texts answer) = false →
    step args (mkConfig (Answering query) yqa w)
      (mkConfig (Failed UnicodeEncodeError) yqa (query_made query prompt_texts w))
| step_sources_fail yqa w query answer yqa' e :
    qa_run_query yqa query = Ok (answer, yqa') →
    printable (answer_texts answer) = true →
    turn_sources args yqa' = Raise e →
    step args (mkConfig (Answering query) yqa w)
      (mkConfig (Failed e) yqa
         (query_made query (prompt_texts ++ answer_texts answer) w))
| step_source_unprintable yqa w query answer yqa' sources :
    qa_run_query yqa query = Ok (answer, yqa') →
    printable (answer_texts answer) = true →
    turn_sources args yqa' = Ok sources →
    printable (turn_output args answer sources) = false →
    step args (mkConfig (Answering query) yqa w)
      (mkConfig (Failed UnicodeEncodeError) yqa
         (query_made query (written (turn_output args answer sources)) w)).

(** The session is over. *)
Definition final (c : config) : Prop :=
  c_phase c = Terminated ∨ ∃ e, c_phase c = Failed e.

(** What [qa_loop] returns when the session is over in [c]. *)
Definition outcome (c : config) : option (PyResult unit * World) :=
  match c_phase c with
  | Terminated => Some (Ok tt, c_world c)
  | Failed e => Some (Raise e, c_world c)
  | AwaitingQuery | Answering _ => None
  end.

(** The session as it starts. *)
Definition start (yqa : YoutubeQA) (w : World) : config := mkConfig AwaitingQuery yqa w.

(** The query a state is about to make. *)
Definition pending (c : config) : list event :=
  match c_phase c with
  | Answering query => [EvQuery query]
  | _ => []
  end.

(** The queries the lines [read] lead to: the lines that are not blank,
    stripped. *)
Definition asked (read : list string) : list event :=
  (fun l => EvQuery (str_strip l)) <$> filter (fun l => ¬ blank l) read.

(** What holds of [c] in a session that started in [c0]: the files and
    the environment are those of [c0]; the lines left to read are a
    suffix of those of [c0]; and the queries made or about to be made
    are those of the lines read since, in order. *)
Record session_inv (c0 c : config) : Prop := mkSessionInv {
  inv_fs : w_fs (c_world c) = w_fs (c_world c0);
  inv_env : w_env (c_world c) = w_env (c_world c0);
  inv_read :
    ∃ read,
      w_stdin (c_world c0) = read ++ w_stdin (c_world c)
      ∧ w_trace (c_world c) ++ pending c
        = w_trace (c_world c0) ++ pending c0 ++ asked read;
}.

(** The number of transitions left at most. *)
Definition measure (c : config) : nat :=
  match c_phase c with
  | AwaitingQuery => 2 * length (w_stdin (c_world c)) + 1
  | Answering _ => 2 * length (w_stdin (c_world c)) + 2
  | Terminated | Failed _ => 0
  end.
End machine.

Arguments config {_}.

(** ** The two readings of the machine agree *)

Section machine_lemmas.
Context `{QAServices}.
Implicit Types (args : Args) (yqa : YoutubeQA) (w : World) (c : config).

Lemma await_run yqa w :
  await yqa w
  = match w_stdin w with
    | [] => mkConfig (Failed EOFError) yqa (add_output ["Query: "] w)
    | line :: rest =>
        if bool_decide (blank line) then mkConfig Terminated yqa (line_read rest w)
        else mkConfig (Answering (str_strip line)) yqa (line_read rest w)
    end.
Proof. unfold await. rewrite py_input_run. by destruct (w_stdin w). Qed.

Lemma answer_run args query yqa w :
  answer args query yqa w
  = match turn args yqa query with
    | (Raise e, out) => mkConfig (Failed e) yqa (query_made query out w)
    | (Ok yqa', out) => mkConfig AwaitingQuery yqa' (query_made query out w)
    end.
Proof.
  unfold answer. rewrite qa_turn_run. by destruct (turn args yqa query) as [[yqa'|e] out].
Qed.

(** The transition that answers, whatever the query leads to. *)
Lemma step_turn args query yqa w :
  step args (mkConfig (Answering query) yqa w) (answer args query yqa w).
Proof.
  rewrite answer_run. unfold turn.
  destruct (qa_run_query yqa query) as [[a yqa']|e] eqn:Hq; [|by constructor].
  destruct (printable (answer_texts a)) eqn:Ha; [|by econstructor].
  destruct (turn_sources args yqa') as [srcs|e] eqn:Hs; [|by econstructor].
  unfold print_result. destruct (printable (turn_output args a srcs)) eqn:Hp.
  - rewrite (written_printable _ Hp). by econstructor.
  - by eapply step_source_unprintable.
Qed.

(** The relation is the function. *)
Lemma step_next args c c' : step args c c' ↔ next args c = Some c'.
Proof.
  split.
  - destruct 1 as [yqa w line rest Hw Hb|yqa w line rest Hw Hb|yqa w Hw
                   |yqa w q a yqa' srcs Hq Hs Hp|yqa w q e Hq|yqa w q a yqa' Hq Ha
                   |yqa w q a yqa' e Hq Ha Hs|yqa w q a yqa' srcs Hq Ha Hs Hp];
      unfold next; simpl; rewrite ?await_run, ?answer_run, ?Hw; try done.
    + by rewrite bool_decide_eq_true_2.
    + by rewrite bool_decide_eq_false_2.
    + by rewrite (turn_Ok _ _ _ _ _ _ Hq Hs Hp).
    + unfold turn. by rewrite Hq.
    + unfold turn. by rewrite Hq, Ha.
    + unfold turn. by rewrite Hq, Ha, Hs.
    + unfold turn, print_result. by rewrite Hq, Ha, Hs, Hp.
  - destruct c as [[|q| |e] yqa w]; unfold next; simpl; intros [= <-].
    + rewrite await_run. destruct (w_stdin w) as [|line rest] eqn:Hw;
        [by constructor|]. case_bool_decide; by econstructor.
    + apply step_turn.
Qed.

Lemma step_deterministic args : deterministic (step args).
Proof. intros c c1 c2 H1%step_next H2%step_next. congruence. Qed.

(** The states without a transition are those where the session is
    over. *)
Lemma final_nf args c : final c ↔ nf (step args) c.
Proof.
  split.
  - intros Hc [c' Hstep%step_next]. unfold next in Hstep.
    by destruct Hc as [Hc|[e Hc]]; rewrite Hc in Hstep.
  - intros Hnf. destruct c as [[|q| |e] yqa w]; unfold final; simpl; eauto;
      destruct Hnf; eexists; by apply step_next.
Qed.

Lemma final_outcome c : final c ↔ is_Some (outcome c).
Proof.
  unfold final, outcome. destruct (c_phase c); split;
    try (by intros [?|[? ?]]); try (by intros [? ?]); eauto.
Qed.

(** ** The runs of the machine are the runs of the loop *)

(** From the state where it waits, the machine runs to a state where
    the session is over, whose outcome is what the loop returns. *)
Lemma start_run turns args yqa w :
  (length (w_stdin w) < turns)%nat →
  ∃ c, rtc (step args) (start yqa w) c
       ∧ outcome c = Some (qa_loop turns args yqa w).
Proof.
  revert yqa w. induction turns as [|turns IH]; intros yqa w Hlen; [lia|].
  simpl qa_loop. rewrite st_bind_unfold, py_input_run.
  destruct (w_stdin w) as [|line rest] eqn:Hw.
  { eexists. split; [by apply rtc_once, step_eof|done]. }
  case_bool_decide as Hb.
  { eexists. split; [by eapply rtc_once, step_blank|done]. }
  rewrite st_bind_unfold, qa_turn_run.
  pose proof (step_turn args (str_strip line) yqa (line_read rest w)) as Hstep.
  rewrite answer_run in Hstep.
  destruct (turn args yqa (str_strip line)) as [[yqa'|e] out].
  2:{ eexists. split; [eapply rtc_l; [by eapply step_query|by apply rtc_once]|done]. }
  destruct (IH yqa' (query_made (str_strip line) out (line_read rest w)))
    as (c & Hrun & Hc).
  { simpl in *. lia. }
  exists c. split; [|done].
  eapply rtc_l; [by eapply step_query|]. by eapply rtc_l.
Qed.

(** ** Every run ends *)

Lemma step_measure args c c' : step args c c' → (measure c' < measure c)%nat.
Proof.
  destruct 1 as [? ? ? ? Hw ?|? ? ? ? Hw ?| | | | | |]; unfold measure; simpl;
    rewrite ?Hw; simpl; lia.
Qed.

Lemma measure_final c : measure c = 0%nat ↔ final c.
Proof.
  unfold measure, final. destruct (c_phase c); split; try lia; try done; eauto;
    by intros [?|[? ?]].
Qed.

Lemma red_or_final args c : red (step args) c ∨ final c.
Proof.
  destruct (next args c) as [c'|] eqn:Hc; [left; exists c'; by apply step_next|].
  right. apply (final_nf args). intros [c' Hstep%step_next]. congruence.
Qed.

(** ** What holds of every state a run reaches *)

Lemma session_inv_refl c : session_inv c c.
Proof. split; [done..|]. exists []. unfold asked. simpl. by rewrite app_nil_r. Qed.

Lemma asked_snoc_blank read line : blank line → asked (read ++ [line]) = asked read.
Proof.
  intros Hb. unfold asked. rewrite filter_app, filter_cons_False by auto.
  by rewrite filter_nil, app_nil_r.
Qed.

Lemma asked_snoc_query read line :
  ¬ blank line → asked (read ++ [line]) = asked read ++ [EvQuery (str_strip line)].
Proof.
  intros Hb. unfold asked. rewrite filter_app, filter_cons_True by auto.
  by rewrite filter_nil, fmap_app.
Qed.

(** The invariant, rule by rule. *)
Lemma step_inv args c0 c c' : session_inv c0 c → step args c c' → session_inv c0 c'.
Proof.
  intros [Hfs Henv (read & Hread & Hasked)] Hstep. unfold pending in Hasked.
  destruct Hstep as [yqa w line rest Hw Hb|yqa w line rest Hw Hb|yqa w Hw
                    | | | | |];
    simpl in *; (split; [done..|]); unfold pending; simpl;
    try (exists read; by rewrite app_nil_r).
  - exists (read ++ [line]). rewrite asked_snoc_blank, <- (assoc (++)), Hread, Hw by done.
    by rewrite app_nil_r in *.
  - exists (read ++ [line]). rewrite asked_snoc_query, <- (assoc (++)), Hread, Hw by done.
    rewrite app_nil_r in Hasked. by rewrite Hasked, <- !(assoc (++)).
  - by exists read.
Qed.

Lemma run_inv args c0 c : rtc (step args) c0 c → session_inv c0 c.
Proof.
  revert c. apply rtc_ind_r; eauto using session_inv_refl, step_inv.
Qed.
End machine_lemmas.

(** ** The examples *)

Lemma typing_world_first_query :
  @step (canned_qa None) qa_args (@start (canned_qa None) 0%nat typing_world)
    (@mkConfig (canned_qa None) (Answering "what is x?") 0%nat
       (line_read ["and y?"; "   "; "unread"] typing_world)).
Proof.
  apply (@step_query (canned_qa None) qa_args 0%nat typing_world " what is x? ");
    [done|]. refine (bool_decide_unpack _ _). vm_compute. exact I.
Qed.

Lemma typing_queries_not_blank :
  Forall (fun l => ¬ blank l) [" what is x? "; "and y?"].
Proof. refine (bool_decide_unpack _ _). vm_compute. exact I. Qed.

(** ** Properties of the machine *)

Section machine_properties.
Context `{QAServices}.
Implicit Types (args : Args) (yqa : YoutubeQA) (w : World) (c : config).

(** C5: the loop of [qa] and the machine are the same program: the loop
    returns a result and a world exactly when the machine, started
    where it waits for the first query, runs to a state where the
    session is over with that result and that world. *)
Theorem qa_loop_machine turns args yqa w r w' :
  (length (w_stdin w) < turns)%nat →
  qa_loop turns args yqa w = (r, w')
  ↔ ∃ c, rtc (step args) (start yqa w) c ∧ outcome c = Some (r, w').
Proof.
  intros Hlen. destruct (start_run turns args yqa w Hlen) as (c1 & Hrun1 & Hc1).
  split; [intros <-; eauto|]. intros (c & Hrun & Hc).
  assert (c1 = c) as ->; [|congruence].
  eapply (rtc_nf_unique _ (step_deterministic args)); [done| |done|];
    apply final_nf, final_outcome; by eexists.
Qed.

(** C7: the session always ends: from any state, whatever the lines
    typed and whatever the collaborators answer, every run of the
    machine reaches [break] or an exception, and is never stuck before
    it does. *)
Theorem session_halts args c : eventually (step args) final c.
Proof.
  remember (measure c) as n eqn:Hn. revert c Hn.
  induction n as [n IH] using lt_wf_ind; intros c ->.
  destruct (red_or_final args c) as [Hred|Hfin]; [|by apply eventually_now].
  apply eventually_later; [done|]. intros c' Hstep.
  eapply IH; [by eapply step_measure|done].
Qed.

(** C26: when a blank line follows queries that are all answered, with
    texts that can be written, the session reaches [break]: the machine
    gets to [Terminated] with the lines after the blank one unread. *)
Theorem session_reaches_break args yqa w queries line rest :
  w_stdin w = queries ++ line :: rest →
  Forall (fun l => ¬ blank l) queries → blank line → answered args yqa queries →
  eventually (step args)
    (fun c => c_phase c = Terminated ∧ w_stdin (c_world c) = rest) (start yqa w).
Proof.
  revert yqa w. induction queries as [|q queries IH]; intros yqa w Hw Hnb Hline Hans.
  { eapply (eventually_step _ (step_deterministic args)); [by eapply step_blank|].
    by apply eventually_now. }
  apply Forall_cons in Hnb as [Hq Hnb].
  destruct Hans as (a & yqa' & srcs & Hrun & Hsrcs & Hp & Hans).
  eapply (eventually_step _ (step_deterministic args)); [by eapply step_query|].
  eapply (eventually_step _ (step_deterministic args)); [by eapply step_answer|].
  by apply IH.
Qed.

(** C19: in every state a session reaches, the files and the environment
    are those it started with, the lines left to read are a suffix of
    those it started with, and the queries made, with the one about to
    be made, are the lines read that are not blank, stripped, in the
    order they were typed. *)
Theorem reachable_inv args c0 c : rtc (step args) c0 c → session_inv c0 c.
Proof. apply run_inv. Qed.
End machine_properties.

(** The properties above, on the examples. *)

Lemma qa_loop_machine_witness :
  ∃ c, rtc (@step (canned_qa None) qa_args) (@start (canned_qa None) 0%nat typing_world) c
       ∧ outcome c = Some (Ok tt, typed_world).
Proof.
  apply (@qa_loop_machine (canned_qa None) 5 qa_args 0%nat typing_world);
    [simpl; lia|exact typing_run].
Defined.

Lemma session_reaches_break_witness :
  eventually (@step (canned_qa None) qa_args)
    (fun c => c_phase c = Terminated ∧ w_stdin (c_world c) = ["unread"])
    (@start (canned_qa None) 0%nat typing_world).
Proof.
  apply (@session_reaches_break (canned_qa None) qa_args 0%nat typing_world
           [" what is x? "; "and y?"] "   " ["unread"]);
    [exact typing_world_lines|exact typing_queries_not_blank|reflexivity
    |by apply canned_qa_answered, typing_queries_encodable].
Defined.

Lemma reachable_inv_witness :
  @session_inv (canned_qa None) (@start (canned_qa None) 0%nat typing_world)
    (@mkConfig (canned_qa None) (Answering "what is x?") 0%nat
       (line_read ["and y?"; "   "; "unread"] typing_world)).
Proof.
  apply (@reachable_inv (canned_qa None) qa_args), rtc_once, typing_world_first_query.
Defined.
