(* ===== verification/Main.v ===== *)
(** * Main: the commands of [__main__.py]

    [summary(args)] (lines 39-47) builds the object, prepares it, runs
    it, and prints the summary [run] returned.  The object is a local
    variable of the function: [invoke] runs a method on it and gives the
    object back as the method left it.  [main] (lines 59-63) runs
    [summary] or [qa].  The prints of [summary] never raise: what they
    write was written to the file of the summary just before, with the
    same encoding ([summary_lines_printable]).  The last theorems span
    both commands: what [summary] stores is what [qa] shows. *)

From stdpp Require Import base tactics option list strings gmap.
From Stdlib Require Import ZArith QArith.
From S2P Require Import Prelude PyData PyStr PyText Types Json TimeBucket ChunkDivider World Summarize Qa.
#[local] Close Scope Q_scope.

(** ** Definitions *)

(** What [summary] writes for a summary: a header, one entry per detail
    followed by an empty line, and the concise summary under its
    header (line 47 prints three objects, with a space between them). *)
Definition summary_lines (s : Summary) : list string :=
  ["[詳細な要約]"; nl]
  ++ flat_map (fun d => ["・" +:+ d +:+ nl; nl]) (s_detail s)
  ++ print_texts [nl; "[簡潔な要約]" +:+ nl; s_concise s] nl.

Section main.
Context `{Services}.

(** [ys.m()] on a local object [ys]. *)
Definition invoke {A} (m : Method A) (ys : YoutubeSummarize)
  : IO (A * YoutubeSummarize) :=
  fun w => let '(r, (ys', w')) := m (ys, w) in ((fun a => (a, ys')) <$> r, w').

(** Lines 39-47. *)
Definition summary (args : Args) : IO unit :=
  ys ← __init__ (args_vid args) (args_debug args);
  '(_, ys) ← invoke prepare ys;
  '(summary, ys) ← invoke run ys;
  py_print "[詳細な要約]" nl;;
  st_for (fun s => py_print ("・" +:+ s +:+ nl) nl) (s_detail summary);;
  py_print_args [nl; "[簡潔な要約]" +:+ nl; s_concise summary] nl.
End main.

Section entry.
Context `{Services} `{QAServices}.

(** Lines 59-63: the two tests on [args.summary]. *)
Definition main (args : Args) : IO unit :=
  (if bool_decide (args_summary args = false) then qa args else mret tt);;
  (if bool_decide (args_summary args = true) then summary args else mret tt).
End entry.

(** The world [summary] leaves from [fresh_world] for the transcript x,
    y, z, which is one chunk and one group. *)
Definition xyz_world : World :=
  add_output (summary_lines xyz_summary)
    (@saved "store/vid1" (json_dumps (summary_json xyz_summary))
       (add_events [EvTitle "https://www.youtube.com/watch?v=vid1";
                    EvTranscript (Value "vid1") ["ja"; "en"; "en-US"];
                    EvChain ["x y z"]; EvChain ["x y z"]] fresh_world)).

(** Collaborators whose video has a title that has no UTF-8, and the
    world [summary] leaves with them from [stored_world]: the calls are
    made and the summary that was stored is gone. *)
Definition garbled_services : Services :=
  {| LLMType := unit;
     setup_llm_from_environment := fun _ => Ok tt;
     youtube_title := fun _ => Ok garbled_title;
     get_transcript := fun _ _ => Ok xyz_fragments;
     chain_arun := canned_chain None |}.

Definition emptied_world : World :=
  @saved "store/vid1" ""
    (add_events [EvTitle "https://www.youtube.com/watch?v=vid1";
                 EvTranscript (Value "vid1") ["ja"; "en"; "en-US"];
                 EvChain ["x y z"]; EvChain ["x y z"]] stored_world).

(** ** [summary], phase by phase *)

Section main_lemmas.
Context `{Services}.
Implicit Types (args : Args) (w : World) (ys : YoutubeSummarize).

(** The prints of lines 44-47, when every text can be written. *)
Lemma summary_print_run (s : Summary) w :
  printable (summary_lines s) = true →
  (py_print "[詳細な要約]" nl;;
   st_for (fun d => py_print ("・" +:+ d +:+ nl) nl) (s_detail s);;
   py_print_args [nl; "[簡潔な要約]" +:+ nl; s_concise s] nl) w
  = (Ok tt, add_output (summary_lines s) w).
Proof.
  unfold summary_lines. rewrite !printable_app.
  intros [Hh [Hd Hc]%andb_prop]%andb_prop.
  rewrite st_bind_unfold, py_print_ok, st_bind_unfold by done.
  rewrite (st_for_print (fun d => "・" +:+ d +:+ nl)), py_print_args_run.
  unfold print_result. rewrite Hd, Hc, !written_printable, !add_output_app by done.
  reflexivity.
Qed.

Lemma bind_invoke {A B} (m : Method A) ys (f : A * YoutubeSummarize → IO B) w :
  (invoke m ys ≫= f) w
  = match m (ys, w) with
    | (Ok a, (ys', w')) => f (a, ys') w'
    | (Raise e, (_, w')) => (Raise e, w')
    end.
Proof.
  rewrite st_bind_unfold. unfold invoke.
  by destruct (m (ys, w)) as [[a|e] [ys' w']].
Qed.

(** An entry of the detailed summary can be written when its text
    can. *)
Lemma detail_entry_encodable (d : string) :
  str_encodable ("・" +:+ d +:+ nl) = str_encodable d.
Proof.
  transitivity (str_encodable (d +:+ nl)); [done|].
  by rewrite str_encodable_app, andb_true_r.
Qed.

Lemma detail_entries_printable (l : list string) :
  forallb str_encodable l = true →
  printable (flat_map (fun d => ["・" +:+ d +:+ nl; nl]) l) = true.
Proof.
  induction l as [|d l IH]; [done|]. intros [Hd Hl]%andb_prop.
  change (flat_map ?f (d :: l)) with (f d ++ flat_map f l).
  rewrite printable_app, (IH Hl), andb_true_r. unfold printable. cbn [forallb].
  by rewrite detail_entry_encodable, Hd.
Qed.

(** The texts [summary] prints can be written when the texts of the
    summary can: those [run] wrote to the file. *)
Lemma summary_lines_printable (s : Summary) :
  forallb str_encodable (summary_texts s) = true → printable (summary_lines s) = true.
Proof.
  unfold summary_texts, summary_lines.
  intros [_ [_ [Hc Hd]%andb_prop]%andb_prop]%andb_prop.
  rewrite !printable_app, (detail_entries_printable _ Hd).
  unfold printable. cbn [print_texts flat_map app forallb]. by rewrite Hc.
Qed.

(** The phases of [summary]: the object is built, prepared and run; the
    first exception ends the function; the summary is printed when
    [run] returned it. *)
Lemma summary_unfold args w :
  summary args w
  = match __init__ (args_vid args) (args_debug args) w with
    | (Raise e, w0) => (Raise e, w0)
    | (Ok ys, w0) =>
        match prepare (ys, w0) with
        | (Raise e, (_, w1)) => (Raise e, w1)
        | (Ok _, (ys1, w1)) =>
            match run (ys1, w1) with
            | (Raise e, (_, w2)) => (Raise e, w2)
            | (Ok s, (_, w2)) => (Ok tt, add_output (summary_lines s) w2)
            end
        end
    end.
Proof.
  unfold summary. rewrite st_bind_unfold.
  destruct (__init__ _ _ w) as [[ys|e] w0]; [|done]. rewrite bind_invoke.
  destruct (prepare (ys, w0)) as [[[]|e] [ys1 w1]]; [|done]. rewrite bind_invoke.
  destruct (run (ys1, w1)) as [[s|e] [ys2 w2]] eqn:Hrun; [|done].
  apply run_Ok_inv in Hrun as [_ [groups [_ _ _ _ _ _ _ Henc _]]].
  rewrite summary_dumps_encodable in Henc. apply summary_lines_printable in Henc.
  apply summary_print_run, Henc.
Qed.

(** What a [summary] that returns went through. *)
Lemma summary_Ok_inv args w u w' :
  summary args w = (Ok u, w') →
  ∃ ys ys1 s w1 w2,
    __init__ (args_vid args) (args_debug args) w = (Ok ys, w)
    ∧ prepare (ys, w) = (Ok tt, (ys1, w1))
    ∧ run (ys1, w1) = (Ok s, (ys1, w2))
    ∧ w' = add_output (summary_lines s) w2.
Proof.
  rewrite summary_unfold.
  destruct (__init__ _ _ w) as [[ys|e] w0] eqn:Hinit; [|done].
  pose proof (init_world (args_vid args) (args_debug args) w) as Hw0.
  rewrite Hinit in Hw0. simpl in Hw0. subst w0.
  destruct (prepare (ys, w)) as [[[]|e] [ys1 w1]] eqn:Hprep; [|done].
  destruct (run (ys1, w1)) as [[s|e] [ys2 w2]] eqn:Hrun; [|done].
  intros [= <-]. destruct (run_Ok_inv _ _ _ _ _ Hrun) as [-> _].
  by exists ys, ys1, s, w1, w2.
Qed.

(** What a [summary] that raises did to the world: nothing but calls,
    or, when the write of the summary raised, the calls and an emptied
    summary file. *)
Lemma summary_Raise_inv args w e w' :
  summary args w = (Raise e, w') →
  (∃ dir, quiet_change dir w w')
  ∨ (e = UnicodeEncodeError
     ∧ ∃ store_dir evs,
         w_env w !! "SUMMARY_STORE_DIR" = Some store_dir
         ∧ save_ready w (path_join store_dir (format_vid (args_vid args)))
         ∧ w' = saved (path_join store_dir (format_vid (args_vid args))) "" (add_events evs w)).
Proof.
  rewrite summary_unfold.
  pose proof (init_world (args_vid args) (args_debug args) w) as Hw0.
  destruct (__init__ _ _ w) as [[ys|e0] w0] eqn:Hinit; simpl in Hw0; subst w0.
  2:{ intros [= _ <-]. left. exists "". apply quiet_change_refl. }
  destruct (prepare_world ys w) as (evs & Hevs & Hw1).
  destruct (prepare (ys, w)) as [[[]|e1] [ys1 w1]] eqn:Hprep; simpl in Hw1; subst w1.
  2:{ intros [= _ <-]. left. exists "". by apply quiet_change_events. }
  destruct (run (ys1, add_events evs w)) as [[s|e2] [ys2 w2]] eqn:Hrun; [done|].
  intros [= <- <-]. apply run_Raise_inv in Hrun as [_ [Hq|[-> Hf]]].
  { left. eexists. by eapply quiet_change_after_events. }
  right. split; [done|].
  apply init_Ok_inv in Hinit as (_ & _ & store_dir & llm & Hdir & _ & ->).
  apply prepare_Ok_inv in Hprep as (title & ? & chunks & _ & _ & _ & -> & _).
  destruct Hf as (groups & summary & _ & _ & _ & _ & _ & Hready & _ & ->).
  exists store_dir. eexists. split_and!; [done|exact Hready|].
  by rewrite <- add_events_app.
Qed.
End main_lemmas.

(** ** The examples *)

Section main_examples.

Lemma xyz_summary_run : @summary xyz_services demo_args fresh_world = (Ok tt, xyz_world).
Proof. vm_compute. reflexivity. Qed.

Lemma garbled_summary_run :
  @summary garbled_services demo_args stored_world = (Raise UnicodeEncodeError, emptied_world).
Proof. vm_compute. reflexivity. Qed.

Lemma emptied_world_written : ¬ no_file_written stored_world emptied_world.
Proof. intros Hw. by specialize (Hw "store/vid1" "" eq_refl). Qed.

Lemma silent_summary_run :
  @summary silent_services demo_args fresh_world
  = (Raise TranscriptUnavailable, prepared_world).
Proof. vm_compute. reflexivity. Qed.
End main_examples.

(** ** Properties of [summary] *)

Section main_properties.
Context `{Services}.
Implicit Types (args : Args) (w : World).

(** C15: when [summary] returns, it printed the header, the entries of
    the detailed summary, each followed by an empty line, and the concise
    summary, of one summary record; the file of the video in
    [SUMMARY_STORE_DIR] holds the JSON text of that same record, whose
    url is the url of the video and whose title is the title the video
    site gave. *)
Theorem summary_prints_saved_summary args w u w' :
  summary args w = (Ok u, w') →
  ∃ s store_dir,
    w_env w !! "SUMMARY_STORE_DIR" = Some store_dir
    ∧ w_stdout w' = w_stdout w ++ summary_lines s
    ∧ w_fs w' !! path_join store_dir (format_vid (args_vid args))
      = Some (File (json_dumps (summary_json s)))
    ∧ s_url s = "https://www.youtube.com/watch?v=" +:+ format_vid (args_vid args)
    ∧ youtube_title (s_url s) = Ok (s_title s).
Proof.
  intros (ys & ys1 & s & w1 & w2 & Hinit & Hprep & Hrun & ->)%summary_Ok_inv.
  apply init_Ok_inv in Hinit as (_ & _ & store_dir & llm & Hdir & _ & ->).
  apply prepare_Ok_inv in Hprep as (title & ? & chunks & Htitle & _ & _ & -> & ->).
  apply run_Ok_inv in Hrun as [_ [groups [_ _ _ _ Hurl Htl _ _ ->]]].
  exists s, store_dir. rewrite Hurl, Htl, add_output_stdout, saved_stdout.
  split_and!; [done..|by rewrite add_output_fs, saved_file|done|done].
Qed.

(** C16: when [summary] raises, in whatever phase, it printed nothing,
    wrote or changed no file, and its trace holds no write; with one
    exception: when the write of the summary raised, on a text that has
    no UTF-8, the file of the video in [SUMMARY_STORE_DIR] is left empty,
    whatever it held, and no other file has changed. *)
Theorem summary_failure_silent args w e w' :
  summary args w = (Raise e, w') →
  w_stdout w' = w_stdout w
  ∧ ((no_file_written w w'
      ∧ filter is_write (w_trace w') = filter is_write (w_trace w))
     ∨ (e = UnicodeEncodeError
        ∧ ∃ store_dir,
            w_env w !! "SUMMARY_STORE_DIR" = Some store_dir
            ∧ w_fs w' !! path_join store_dir (format_vid (args_vid args)) = Some (File "")
            ∧ ∀ path content, path ≠ path_join store_dir (format_vid (args_vid args)) →
                w_fs w' !! path = Some (File content)
                ↔ w_fs w !! path = Some (File content))).
Proof.
  intros [[dir Hq]|(-> & store_dir & evs & Hdir & Hready & ->)]%summary_Raise_inv.
  - split; [by eapply quiet_change_console|]. left.
    split; [by eapply quiet_change_no_file_written|by eapply quiet_change_writes].
  - split; [by rewrite saved_stdout|]. right. split; [done|]. exists store_dir.
    split_and!; [done|apply saved_file|].
    intros path content Hne. by rewrite saved_other_files, add_events_fs.
Qed.

(** C39: the calls of a [summary] that returns, in order: the title, the
    transcript, the chain on all the chunks the transcript was cut into,
    the chain on each group of these chunks with three seconds between
    two calls, the creation of the store directory if it was missing, and
    the write of the summary file. *)
Theorem summary_trace args w u w' :
  summary args w = (Ok u, w') →
  ∃ store_dir transcriptions chunks groups s,
    w_env w !! "SUMMARY_STORE_DIR" = Some store_dir
    ∧ get_transcript (args_vid args) ["ja"; "en"; "en-US"] = Ok transcriptions
    ∧ divide_transcriptions_into_chunks transcriptions 1000 5 (format_vid (args_vid args))
      = Ok chunks
    ∧ _divide_chunks_by_time chunks 5 = Ok groups
    ∧ w_trace w'
      = w_trace w
        ++ [EvTitle ("https://www.youtube.com/watch?v=" +:+ format_vid (args_vid args));
            EvTranscript (args_vid args) ["ja"; "en"; "en-US"];
            EvChain (documents_of chunks)]
        ++ detail_events groups
        ++ save_events w (path_join store_dir (format_vid (args_vid args)))
             (json_dumps (summary_json s)).
Proof.
  intros (ys & ys1 & s & w1 & w2 & Hinit & Hprep & Hrun & ->)%summary_Ok_inv.
  apply init_Ok_inv in Hinit as (_ & _ & store_dir & llm & Hdir & _ & ->).
  apply prepare_Ok_inv in Hprep as (title & trs & chunks & _ & Htr & Hc & -> & ->).
  apply run_Ok_inv in Hrun as [_ [groups [_ Hg _ _ _ _ _ _ ->]]].
  exists store_dir, trs, chunks, groups, s. split_and!; [done..|].
  rewrite add_output_trace, saved_trace. simpl. by rewrite <- !(assoc (++)).
Qed.
End main_properties.

(** ** The two commands together *)

Section entry_properties.
Context `{Services} `{QAServices}.
Implicit Types (args : Args) (w : World).

(** [main] runs exactly one of the two commands: [summary] with
    [--summary], [qa] without. *)
Lemma main_run args w :
  main args w = if args_summary args then summary args w else qa args w.
Proof.
  unfold main. destruct (args_summary args); simpl.
  - rewrite st_bind_unfold. simpl. done.
  - apply st_bind_skip.
Qed.

(** C24: what [summary] stored, [qa] shows: after a [summary] that
    returned, the look at the stored summary of the same video reads the
    file back and prints the concise summary [summary] printed, when the
    interpreter has two frames left for [json.load]. *)
Theorem summary_then_show args w u w1 :
  summary args w = (Ok u, w1) → 2 ≤ json_depth →
  ∃ s, w_stdout w1 = w_stdout w ++ summary_lines s
       ∧ show_stored_summary (args_vid args) w1
         = (Ok tt, add_output ["(Summary) " +:+ s_concise s +:+ nl; nl] w1).
Proof.
  intros (ys & ys1 & s & w0 & w2 & Hinit & Hprep & Hrun & ->)%summary_Ok_inv Hdepth.
  apply init_Ok_inv in Hinit as (_ & _ & store_dir & llm & Hdir & _ & ->).
  apply prepare_Ok_inv in Hprep as (title & ? & chunks & _ & _ & _ & -> & ->).
  apply run_Ok_inv in Hrun as [_ [groups [_ _ _ _ _ _ _ Henc ->]]].
  exists s. rewrite add_output_stdout, saved_stdout. split; [done|].
  rewrite show_stored_summary_run, add_output_env, saved_env, add_output_fs.
  simpl ys_summary_file. rewrite !add_events_env, Hdir, saved_file, Henc.
  rewrite summary_loads_dumps, bind_Ok, summary_json_concise by done.
  rewrite summary_dumps_encodable in Henc. unfold summary_texts in Henc.
  cbn [forallb] in Henc. apply andb_prop in Henc as [_ [_ [Hc _]%andb_prop]%andb_prop].
  rewrite <- py_print_ok; [by rewrite py_print_run|].
  unfold printable. cbn [forallb format_json].
  by rewrite (str_encodable_ascii "(Summary) "), str_encodable_app, Hc.
Qed.

(** C21: a [summary] that raises after it changed a file leaves a store
    that ends the sessions on this video: the file of the video is
    empty, and the look [qa] takes at it raises [JSONDecodeError]. *)
Theorem failed_write_breaks_show args w e w1 :
  summary args w = (Raise e, w1) → ¬ no_file_written w w1 → 2 ≤ json_depth →
  e = UnicodeEncodeError
  ∧ show_stored_summary (args_vid args) w1 = (Raise JSONDecodeError, w1).
Proof.
  intros [[dir Hq]|(-> & store_dir & evs & Hdir & Hready & ->)]%summary_Raise_inv Hw Hdepth.
  { destruct Hw. by eapply quiet_change_no_file_written. }
  split; [done|]. rewrite show_stored_summary_run, saved_env, add_events_env, Hdir, saved_file.
  simpl. unfold json_loads. simpl. by rewrite bool_decide_eq_false_2 by lia.
Qed.
End entry_properties.

(** The properties above, on the examples. *)

#[local] Existing Instance xyz_services.

Lemma summary_prints_saved_summary_witness :
  ∃ s store_dir,
    w_env fresh_world !! "SUMMARY_STORE_DIR" = Some store_dir
    ∧ w_stdout xyz_world = w_stdout fresh_world ++ summary_lines s
    ∧ w_fs xyz_world !! path_join store_dir (format_vid (args_vid demo_args))
      = Some (File (json_dumps (summary_json s)))
    ∧ s_url s = "https://www.youtube.com/watch?v=" +:+ format_vid (args_vid demo_args)
    ∧ youtube_title (s_url s) = Ok (s_title s).
Proof.
  exact (summary_prints_saved_summary demo_args fresh_world _ _ xyz_summary_run).
Defined.

Lemma summary_failure_silent_witness :
  w_stdout prepared_world = w_stdout fresh_world
  ∧ ((no_file_written fresh_world prepared_world
      ∧ filter is_write (w_trace prepared_world) = filter is_write (w_trace fresh_world))
     ∨ (TranscriptUnavailable = UnicodeEncodeError
        ∧ ∃ store_dir,
            w_env fresh_world !! "SUMMARY_STORE_DIR" = Some store_dir
            ∧ w_fs prepared_world !! path_join store_dir (format_vid (args_vid demo_args))
              = Some (File "")
            ∧ ∀ path content, path ≠ path_join store_dir (format_vid (args_vid demo_args)) →
                w_fs prepared_world !! path = Some (File content)
                ↔ w_fs fresh_world !! path = Some (File content))).
Proof.
  exact (summary_failure_silent demo_args fresh_world _ _ silent_summary_run).
Defined.

Lemma summary_trace_witness :
  ∃ store_dir transcriptions chunks groups s,
    w_env fresh_world !! "SUMMARY_STORE_DIR" = Some store_dir
    ∧ get_transcript (args_vid demo_args) ["ja"; "en"; "en-US"] = Ok transcriptions
    ∧ divide_transcriptions_into_chunks transcriptions 1000 5 (format_vid (args_vid demo_args))
      = Ok chunks
    ∧ _divide_chunks_by_time chunks 5 = Ok groups
    ∧ w_trace xyz_world
      = w_trace fresh_world
        ++ [EvTitle ("https://www.youtube.com/watch?v=" +:+ format_vid (args_vid demo_args));
            EvTranscript (args_vid demo_args) ["ja"; "en"; "en-US"];
            EvChain (documents_of chunks)]
        ++ detail_events groups
        ++ save_events fresh_world (path_join store_dir (format_vid (args_vid demo_args)))
             (json_dumps (summary_json s)).
Proof. exact (summary_trace demo_args fresh_world _ _ xyz_summary_run). Defined.

Lemma summary_then_show_witness :
  ∃ s, w_stdout xyz_world = w_stdout fresh_world ++ summary_lines s
       ∧ @show_stored_summary (canned_qa None) (args_vid demo_args) xyz_world
         = (Ok tt, add_output ["(Summary) " +:+ s_concise s +:+ nl; nl] xyz_world).
Proof.
  apply (@summary_then_show xyz_services (canned_qa None) demo_args fresh_world _ _
           xyz_summary_run).
  simpl. lia.
Defined.

Lemma failed_write_breaks_show_witness :
  UnicodeEncodeError = UnicodeEncodeError
  ∧ @show_stored_summary (canned_qa None) (args_vid demo_args) emptied_world
    = (Raise JSONDecodeError, emptied_world).
Proof.
  apply (@failed_write_breaks_show garbled_services (canned_qa None) demo_args stored_world
           _ _ garbled_summary_run emptied_world_written).
  simpl. lia.
Defined.
