(* ===== verification/Cli.v ===== *)
(** * Cli: the command line of [__main__.py]

    Lines 50-63 of [__main__.py]: the parser of the five options (lines
    51-56), [parser.parse_args()] (line 57) and the command the options
    select (lines 59-63, [main] of [Main]).  [parse_args] is what
    [argparse] does with this parser, as CPython 3.11 defines it
    ([ArgumentParser._parse_known_args]): every string is first read as
    an option or as an argument ([_parse_optional], abbreviations and
    [--name=value] included), then the options are taken from left to
    right, each with the string that follows when it wants one, and
    the value of an option is what [_get_values] makes of its strings:
    written [--vid=--], an option is stored as the empty list.  The
    parser exits with status 2 on an error and with status 0 after
    [--help]; what it writes on standard error is not part of the world. *)

From stdpp Require Import base tactics option list strings.
From Stdlib Require Import Ascii String ZArith.
From S2P Require Import Prelude PyData PyStr PyText Types World Summarize Qa Main.

(** ** The parser of lines 51-56 *)

(** What an option does: [-h] and [--help] (added by [ArgumentParser])
    print the help, [--vid] and [--source] store the string that follows
    (line 53: through [int]), the three others store [True]. *)
Inductive action : Type :=
| Help
| StoreVid
| StoreSource
| TrueDetail
| TrueDebug
| TrueSummary.

#[export] Instance action_eq_dec : EqDecision action.
Proof. solve_decision. Defined.

(** [parser._option_string_actions]. *)
Definition option_string_actions : list (string * action) :=
  [("-h", Help); ("--help", Help); ("--vid", StoreVid); ("--source", StoreSource);
   ("--detail", TrueDetail); ("--debug", TrueDebug); ("--summary", TrueSummary)].

(** The number of strings an option takes: one for [store], none for
    [store_true] and [help]. *)
Definition nargs (a : action) : nat :=
  match a with
  | StoreVid | StoreSource => 1
  | Help | TrueDetail | TrueDebug | TrueSummary => 0
  end.

(** [parser._option_string_actions.get(option_string)]. *)
Definition find_action (option_string : string) : option action :=
  snd <$> List.find (fun p => bool_decide (p.1 = option_string)) option_string_actions.

(** The text [parser.format_help()] builds: it depends on the name of
    the program and on the width of the terminal.  It is never empty
    (it starts with the usage) and it can be written: it is made of the
    texts of lines 51-56 and of the name of the file of the program. *)
Class HelpFormatter : Type := {
  format_help : string;
  format_help_nonempty : format_help ≠ "";
  format_help_encodable : str_encodable format_help = true;
}.

(** ** Strings read as options or as arguments *)

(** [s.startswith(prefix)]. *)
Fixpoint startswith (s prefix : string) : bool :=
  match prefix, s with
  | EmptyString, _ => true
  | String a prefix', String b s' => bool_decide (a = b) && startswith s' prefix'
  | String _ _, EmptyString => false
  end.

(** [s.split('=', 1)], when [s] has a ['=']. *)
Fixpoint split_eq (s : string) : option (string * string) :=
  match s with
  | EmptyString => None
  | String a s' =>
      if bool_decide (a = "="%char) then Some (EmptyString, s')
      else (fun p => (String a p.1, p.2)) <$> split_eq s'
  end.

(** [parser._get_option_tuples(option_string)]: the options the string
    abbreviates.  A string in [--] is split at its ['=']; one in a
    single [-] is a short option with the rest as its argument, or the
    beginning of an option. *)
Definition _get_option_tuples (option_string : string)
  : list (action * string * option string) :=
  match option_string with
  | String "-" (String "-" _) =>
      let '(option_prefix, explicit_arg) :=
        match split_eq option_string with
        | Some (p, e) => (p, Some e)
        | None => (option_string, None)
        end in
      (fun p => (p.2, p.1, explicit_arg))
      <$> List.filter (fun p => startswith p.1 option_prefix) option_string_actions
  | String "-" (String b rest) =>
      let short_option_prefix := String "-" (String b EmptyString) in
      omap (fun p =>
              if bool_decide (p.1 = short_option_prefix) then Some (p.2, p.1, Some rest)
              else if startswith p.1 option_string then Some (p.2, p.1, None)
              else None)
        option_string_actions
  | _ => []
  end.

(** What [_parse_optional] returns: [None] for an argument, a tuple for
    an option (its action [None] when the parser has no such option), or
    an error for an abbreviation of several options. *)
Inductive option_tuple : Type :=
| Positional
| Optional (a : option action) (option_string : string) (explicit_arg : option string)
| Ambiguous.

(** [parser._parse_optional(arg_string)]. *)
Definition _parse_optional (arg_string : string) : option_tuple :=
  match arg_string with
  | EmptyString => Positional
  | String c rest =>
      if negb (bool_decide (c = "-"%char)) then Positional
      else
        match find_action arg_string with
        | Some a => Optional (Some a) arg_string None
        | None =>
            if bool_decide (rest = EmptyString) then Positional
            else
              match split_eq arg_string
                    ≫= fun p => (fun a => (a, p.1, p.2)) <$> find_action p.1 with
              | Some (a, option_string, explicit_arg) =>
                  Optional (Some a) option_string (Some explicit_arg)
              | None =>
                  match _get_option_tuples arg_string with
                  | [(a, option_string, explicit_arg)] =>
                      Optional (Some a) option_string explicit_arg
                  | _ :: _ :: _ => Ambiguous
                  | [] =>
                      if negative_number_like arg_string then Positional
                      else if str_contains " " arg_string then Positional
                      else Optional None arg_string None
                  end
              end
        end
  end.

(** A letter of [arg_strings_pattern]: ['A'], ['-'] for [--], or ['O']
    with the tuple of [option_string_indices]. *)
Inductive pattern : Type :=
| PA
| PDash
| PO (a : option action) (option_string : string) (explicit_arg : option string).

(** The first loop of [_parse_known_args]: every string with its
    letter; after [--] every string is an argument.  [None] when
    [_parse_optional] ends in [parser.error]. *)
Fixpoint arg_strings_pattern (arg_strings : list string)
  : option (list (string * pattern)) :=
  match arg_strings with
  | [] => Some []
  | arg_string :: rest =>
      if bool_decide (arg_string = "--")
      then Some ((arg_string, PDash) :: ((fun s => (s, PA)) <$> rest))
      else
        match _parse_optional arg_string with
        | Ambiguous => None
        | Positional => cons (arg_string, PA) <$> arg_strings_pattern rest
        | Optional a option_string explicit_arg =>
            cons (arg_string, PO a option_string explicit_arg)
            <$> arg_strings_pattern rest
        end
  end.

(** ** Options taken *)

(** How the loop of [consume_optional] ends: with the explicit argument
    as the argument of the option, or with an option that looks at the
    strings that follow. *)
Inductive chain_end : Type :=
| EndExplicit (a : action) (arg : string)
| EndFollowing (a : action).

(** The loop of [consume_optional] on an option with an explicit
    argument: an option in one [-] that takes nothing is followed by
    other short options; the options met, and how the loop ends.
    [None] where it raises [ArgumentError]. *)
Fixpoint explicit_chain (a : action) (option_string explicit_arg : string)
  : option (list action * chain_end) :=
  if (nargs a =? 0)%nat
     && negb (startswith option_string "--")
     && negb (bool_decide (explicit_arg = EmptyString))
  then
    match explicit_arg with
    | EmptyString => None
    | String c new_explicit_arg =>
        let option_string' := String "-" (String c EmptyString) in
        match find_action option_string' with
        | None => None
        | Some a' =>
            match new_explicit_arg with
            | EmptyString => Some ([a], EndFollowing a')
            | String _ _ =>
                (fun r => (a :: r.1, r.2))
                <$> explicit_chain a' option_string' new_explicit_arg
            end
        end
    end
  else if (nargs a =? 1)%nat then Some ([], EndExplicit a explicit_arg)
  else None.

Definition set_vid (v : arg_value string) (ns : Args) : Args :=
  mkArgs v (args_source ns) (args_detail ns) (args_debug ns) (args_summary ns).

Definition set_source (n : arg_value Z) (ns : Args) : Args :=
  mkArgs (args_vid ns) n (args_detail ns) (args_debug ns) (args_summary ns).

Definition set_detail (b : bool) (ns : Args) : Args :=
  mkArgs (args_vid ns) (args_source ns) b (args_debug ns) (args_summary ns).

Definition set_debug (b : bool) (ns : Args) : Args :=
  mkArgs (args_vid ns) (args_source ns) (args_detail ns) b (args_summary ns).

Definition set_summary (b : bool) (ns : Args) : Args :=
  mkArgs (args_vid ns) (args_source ns) (args_detail ns) (args_debug ns) b.

(** [parser._print_message(message, sys.stdout)]: a message that is
    not empty is written as it is. *)
Definition _print_message (message : string) : IO unit :=
  if bool_decide (message = "") then mret tt else stdout_write message.

(** [arg_strings.remove('--')]: the first [--] is taken out. *)
Fixpoint remove_dashes (arg_strings : list string) : list string :=
  match arg_strings with
  | [] => []
  | s :: rest => if bool_decide (s = "--") then rest else s :: remove_dashes rest
  end.

(** [parser._get_values(action, arg_strings)] for [--vid] and
    [--source], whose [nargs] is [None]: the first [--] is removed from
    the strings; one string left is converted by the [type] of the
    option ([None] where the conversion raises); no string left is the
    empty list.  (An option of this parser is given one string at most:
    the last case is never met.) *)
Definition _get_values {A} (type_func : string → option A) (arg_strings : list string)
  : option (arg_value A) :=
  match remove_dashes arg_strings with
  | [] => Some EmptyList
  | [arg_string] => Value <$> type_func arg_string
  | _ :: _ :: _ => None
  end.

Section parser.
Context `{HelpFormatter}.

(** [take_action(action, argument_strings)]: the value is converted
    ([_get_values]) and the action called.  [help] prints the help and
    exits; a string [int] refuses is an [ArgumentError], which
    [parse_known_args] turns into [parser.error]: exit status 2.  [--vid]
    has no [type]: its string is stored as it is. *)
Definition take_action (a : action) (argument_strings : list string)
    (namespace : Args) : IO Args :=
  match a with
  | Help => _print_message format_help;; st_raise (SystemExit 0)
  | StoreVid =>
      match _get_values Some argument_strings with
      | Some v => mret (set_vid v namespace)
      | None => st_raise (SystemExit 2)
      end
  | StoreSource =>
      match _get_values py_int_str argument_strings with
      | Some n => mret (set_source n namespace)
      | None => st_raise (SystemExit 2)
      end
  | TrueDetail => mret (set_detail true namespace)
  | TrueDebug => mret (set_debug true namespace)
  | TrueSummary => mret (set_summary true namespace)
  end.

(** The options of a chain, each without argument. *)
Fixpoint take_actions (actions : list action) (namespace : Args) : IO Args :=
  match actions with
  | [] => mret namespace
  | a :: actions' =>
      namespace ← take_action a [] namespace;
      take_actions actions' namespace
  end.

(** The second loop of [_parse_known_args]: the options are consumed
    from left to right; a string that is no option and no argument of
    one is an extra. *)
Fixpoint consume (items : list (string * pattern)) (namespace : Args)
    (extras : list string) : IO (Args * list string) :=
  match items with
  | [] => mret (namespace, extras)
  | (arg_string, (PA | PDash | PO None _ _)) :: rest =>
      consume rest namespace (extras ++ [arg_string])
  | (_, PO (Some a) option_string explicit_arg) :: rest =>
      match match explicit_arg with
            | Some x => explicit_chain a option_string x
            | None => Some ([], EndFollowing a)
            end with
      | None => st_raise (SystemExit 2)
      | Some (actions, EndExplicit a' v) =>
          namespace ← take_actions actions namespace;
          namespace ← take_action a' [v] namespace;
          consume rest namespace extras
      | Some (actions, EndFollowing a') =>
          if (nargs a' =? 0)%nat then
            namespace ← take_actions actions namespace;
            namespace ← take_action a' [] namespace;
            consume rest namespace extras
          else
            match rest with
            | (v, PA) :: rest' =>
                namespace ← take_actions actions namespace;
                namespace ← take_action a' [v] namespace;
                consume rest' namespace extras
            | _ => st_raise (SystemExit 2)
            end
      end
  end.

(** Line 57: [parser.parse_args()] on [sys.argv[1:]].  The namespace
    starts with the defaults of lines 52-56; an extra is an error. *)
Definition parse_args (arg_strings : list string) : IO Args :=
  match arg_strings_pattern arg_strings with
  | None => st_raise (SystemExit 2)
  | Some items =>
      '(namespace, extras) ← consume items default_args [];
      if bool_decide (extras = []) then mret namespace
      else st_raise (SystemExit 2)
  end.
End parser.

Section script.
Context `{Services} `{QAServices} `{HelpFormatter}.

(** Lines 50-63: the arguments are parsed, then a command runs. *)
Definition script (argv : list string) : IO unit :=
  args ← parse_args argv;
  main args.
End script.

(** ** A command line for a namespace *)

(** The string that gives an option its value: the value written out,
    [--] for the empty list. *)
Definition value_text {A} (str : A → string) (v : arg_value A) : string :=
  match v with
  | Value a => str a
  | EmptyList => "--"
  end.

(** A command line that spells every option out. *)
Definition argv_of (args : Args) : list string :=
  ["--vid=" +:+ value_text id (args_vid args);
   "--source=" +:+ value_text str_of_Z (args_source args)]
  ++ (if args_detail args then ["--detail"] else [])
  ++ (if args_debug args then ["--debug"] else [])
  ++ (if args_summary args then ["--summary"] else []).

(** The video id the parser stores for the command line of a video id:
    the id itself, but the empty list for the string [--]. *)
Definition stored_vid (vid : arg_value string) : arg_value string :=
  if bool_decide (vid = Value "--") then EmptyList else vid.

(** [str] and [int] agree on the number of sources: it has at most
    4300 digits. *)
Definition source_fits (source : arg_value Z) : Prop :=
  match source with
  | Value n => (String.length (str_of_Z (Z.abs n)) ≤ int_max_str_digits)%nat
  | EmptyList => True
  end.

(** How the parser can end in the world [w]: with a namespace or with
    exit status 2, the world untouched, or with exit status 0 after the
    help was printed. *)
Definition parser_outcome `{HelpFormatter} {A} (w : World) (x : PyResult A * World)
  : Prop :=
  match x with
  | (Ok _, w') => w' = w
  | (Raise e, w') =>
      (e = SystemExit 2 ∧ w' = w)
      ∨ (e = SystemExit 0 ∧ w' = add_output [format_help] w)
  end.

(** The help of the examples. *)
Definition demo_help : HelpFormatter :=
  {| format_help := "usage: yts [-h] [--vid VID]";
     format_help_nonempty := ltac:(done);
     format_help_encodable := eq_refl |}.

(** A world where nothing happened yet. *)
Definition idle_world : World := mkWorld {["SUMMARY_STORE_DIR" := "store"]} ∅ [] [] [].

(** ** The parser exits or returns *)

Section parser_lemmas.
Context `{HelpFormatter}.
Implicit Types (a : action) (namespace : Args) (w : World) (extras : list string).

Lemma parser_outcome_bind {A B} (m : IO A) (f : A → IO B) w :
  parser_outcome w (m w) → (∀ x, parser_outcome w (f x w)) →
  parser_outcome w ((m ≫= f) w).
Proof.
  intros Hm Hf. rewrite st_bind_unfold. destruct (m w) as [[x|e] w']; simpl in Hm.
  - subst w'. apply Hf.
  - done.
Qed.

Lemma parser_outcome_ret {A} (x : A) w : parser_outcome w ((mret x : IO A) w).
Proof. done. Qed.

Lemma parser_outcome_exit {A} w : parser_outcome w ((st_raise (SystemExit 2) : IO A) w).
Proof. by left. Qed.

(** The help is written: it is not empty and has a UTF-8. *)
Lemma print_help_run w :
  _print_message format_help w = (Ok tt, add_output [format_help] w).
Proof.
  unfold _print_message, stdout_write.
  by rewrite bool_decide_eq_false_2, format_help_encodable by apply format_help_nonempty.
Qed.

Lemma take_action_outcome a argument_strings namespace w :
  parser_outcome w (take_action a argument_strings namespace w).
Proof.
  destruct a; simpl; try done.
  - rewrite st_bind_unfold, print_help_run. by right.
  - destruct (_get_values _ _); [done|by left].
  - destruct (_get_values _ _); [done|by left].
Qed.

Lemma take_actions_outcome actions namespace w :
  parser_outcome w (take_actions actions namespace w).
Proof.
  revert namespace. induction actions as [|a actions IH]; intros namespace; [done|].
  simpl. apply parser_outcome_bind; auto using take_action_outcome.
Qed.

(** An option and its argument taken, then the rest. *)
Lemma taken_outcome actions a argument_strings namespace (k : Args → IO (Args * list string)) w :
  (∀ ns, parser_outcome w (k ns w)) →
  parser_outcome w
    ((namespace ← take_actions actions namespace;
      namespace ← take_action a argument_strings namespace;
      k namespace) w).
Proof.
  intros Hk. apply parser_outcome_bind; [apply take_actions_outcome|].
  intros ns. apply parser_outcome_bind; [apply take_action_outcome|done].
Qed.

Lemma consume_outcome items namespace extras w :
  parser_outcome w (consume items namespace extras w).
Proof.
  remember (List.length items) as n eqn:Hn. revert items namespace extras Hn.
  induction n as [n IH] using lt_wf_ind. intros items namespace extras ->.
  destruct items as [|[s [| |[a|] option_string explicit_arg]] rest]; simpl; try done;
    try (eapply IH; [|done]; simpl; lia).
  destruct (match explicit_arg with Some _ => _ | None => _ end)
    as [[actions [a' v|a']]|]; [| |by left].
  - apply taken_outcome. intros ns. eapply IH; [|done]. simpl. lia.
  - destruct (nargs a' =? 0)%nat.
    + apply taken_outcome. intros ns. eapply IH; [|done]. simpl. lia.
    + destruct rest as [|[v [| |]] rest']; try by left.
      apply taken_outcome. intros ns. eapply IH; [|done]. simpl. lia.
Qed.

Lemma parse_args_outcome arg_strings w : parser_outcome w (parse_args arg_strings w).
Proof.
  unfold parse_args. destruct (arg_strings_pattern arg_strings); [|by left].
  apply parser_outcome_bind; [apply consume_outcome|]. intros [ns extras].
  case_bool_decide; [done|by left].
Qed.
End parser_lemmas.

(** ** The command line of a namespace *)

Section argv_lemmas.
Context `{HelpFormatter}.

Lemma explicit_chain_store a option_string explicit_arg :
  nargs a = 1%nat →
  explicit_chain a option_string explicit_arg = Some ([], EndExplicit a explicit_arg).
Proof. intros Ha. destruct explicit_arg; simpl; by rewrite Ha. Qed.

Lemma parse_optional_vid v :
  _parse_optional ("--vid=" +:+ v) = Optional (Some StoreVid) "--vid" (Some v).
Proof. reflexivity. Qed.

Lemma parse_optional_source v :
  _parse_optional ("--source=" +:+ v) = Optional (Some StoreSource) "--source" (Some v).
Proof. reflexivity. Qed.

(** One string for an option: [--] is the empty list, any other string
    is converted. *)
Lemma get_values_one {A} (type_func : string → option A) (v : string) :
  _get_values type_func [v]
  = if bool_decide (v = "--") then Some EmptyList else Value <$> type_func v.
Proof. unfold _get_values. simpl. by case_bool_decide. Qed.

(** The string written for a video id is read as the id, but for the
    id [--]. *)
Lemma get_values_vid (vid : arg_value string) :
  _get_values Some [value_text id vid] = Some (stored_vid vid).
Proof.
  rewrite get_values_one. unfold stored_vid. destruct vid as [v|]; simpl; [|done].
  case_bool_decide as Hv; [by subst|]. rewrite bool_decide_eq_false_2; [done|congruence].
Qed.

(** The string written for a number of sources is read as the
    number. *)
Lemma get_values_source (source : arg_value Z) :
  source_fits source →
  _get_values py_int_str [value_text str_of_Z source] = Some source.
Proof.
  intros Hfit. rewrite get_values_one. destruct source as [n|]; simpl in *; [|done].
  pose proof (py_int_str_of_Z n Hfit) as Hn. case_bool_decide as Hd; [|by rewrite Hn].
  by rewrite Hd in Hn.
Qed.

Lemma pattern_argv_of args :
  arg_strings_pattern (argv_of args)
  = Some ([("--vid=" +:+ value_text id (args_vid args),
            PO (Some StoreVid) "--vid" (Some (value_text id (args_vid args))));
           ("--source=" +:+ value_text str_of_Z (args_source args),
            PO (Some StoreSource) "--source"
              (Some (value_text str_of_Z (args_source args))))]
          ++ (if args_detail args
              then [("--detail", PO (Some TrueDetail) "--detail" None)] else [])
          ++ (if args_debug args
              then [("--debug", PO (Some TrueDebug) "--debug" None)] else [])
          ++ (if args_summary args
              then [("--summary", PO (Some TrueSummary) "--summary" None)] else [])).
Proof.
  unfold argv_of. cbn [app arg_strings_pattern].
  rewrite parse_optional_vid, parse_optional_source.
  by destruct (args_detail args), (args_debug args), (args_summary args).
Qed.

(** An option that takes nothing, met where the options are consumed. *)
Lemma consume_flag s a option_string rest namespace extras w :
  nargs a = 0%nat →
  consume ((s, PO (Some a) option_string None) :: rest) namespace extras w
  = (namespace ← take_action a [] namespace; consume rest namespace extras) w.
Proof. intros Ha. cbn [consume]. by rewrite Ha. Qed.

(** The command line of a namespace, parsed. *)
Lemma parse_args_spelled args w :
  source_fits (args_source args) →
  parse_args (argv_of args) w = (Ok (set_vid (stored_vid (args_vid args)) args), w).
Proof.
  intros Hfit. unfold parse_args. rewrite pattern_argv_of.
  cbn [app consume]. rewrite !explicit_chain_store by done.
  cbn [take_actions take_action]. rewrite get_values_vid, get_values_source by done.
  destruct args as [vid src [] [] []]; reflexivity.
Qed.
End argv_lemmas.

(** ** The examples *)

Lemma bad_source_exits :
  @parse_args demo_help ["--source"; "three"] idle_world
  = (Raise (SystemExit 2), idle_world).
Proof. vm_compute. reflexivity. Qed.

Lemma abbreviations_example :
  @parse_args demo_help ["--so"; "-5"; "--v=a=b"; "--det"; "--su"] idle_world
  = (Ok (mkArgs (Value "a=b") (Value (-5)%Z) true false true), idle_world).
Proof. vm_compute. reflexivity. Qed.

(** Written with [--] as their argument, the two options are stored as
    empty lists; [--] after an option is no argument of it. *)
Lemma dashes_example :
  @parse_args demo_help ["--v=--"; "--source=--"; "--summary"] idle_world
  = (Ok (mkArgs EmptyList EmptyList false false true), idle_world).
Proof. vm_compute. reflexivity. Qed.

Lemma dashes_apart_example :
  @parse_args demo_help ["--vid"; "--"] idle_world = (Raise (SystemExit 2), idle_world).
Proof. vm_compute. reflexivity. Qed.

Lemma ambiguous_example :
  @parse_args demo_help ["--help"; "--de"] idle_world
  = (Raise (SystemExit 2), idle_world).
Proof. vm_compute. reflexivity. Qed.

(** ** Properties of the command line *)

Section cli_properties.
Context `{Services} `{QAServices} `{HelpFormatter}.
Implicit Types (args : Args) (w : World) (argv : list string).

(** C6: the parser reads back a command line that spells a namespace
    out: for every video id (whatever its characters), every number of
    sources that [str] can write and [int] read (at most 4300 digits),
    any of the two replaced by the empty list (written [--]), and every
    choice of the three flags, [parse_args] returns that namespace and
    prints nothing; but the video id [--] comes back as the empty
    list. *)
Theorem parse_args_argv_of args w :
  source_fits (args_source args) →
  parse_args (argv_of args) w = (Ok (set_vid (stored_vid (args_vid args)) args), w).
Proof. apply parse_args_spelled. Qed.

(** A namespace whose video id is not the string [--] is the namespace
    of its command line. *)
Theorem parse_args_roundtrip args w :
  source_fits (args_source args) → args_vid args ≠ Value "--" →
  parse_args (argv_of args) w = (Ok args, w).
Proof.
  intros Hfit Hvid. rewrite parse_args_spelled by done.
  unfold stored_vid. rewrite bool_decide_eq_false_2 by done. by destruct args.
Qed.

(** C18: the script runs one command, on the namespace the parser
    returns and in the world it started in: [summary] with [--summary],
    [qa] without; when the parser exits, no command runs. *)
Theorem script_runs_one_command argv w :
  script argv w
  = match parse_args argv w with
    | (Ok args, _) => if args_summary args then summary args w else qa args w
    | (Raise e, w') => (Raise e, w')
    end.
Proof.
  unfold script. rewrite st_bind_unfold. pose proof (parse_args_outcome argv w) as Ho.
  destruct (parse_args argv w) as [[args|e] w']; [|done]. simpl in Ho. subst w'.
  apply main_run.
Qed.

(** [--help] first on the command line prints the help and exits
    with status 0 whatever follows, unless a string that follows
    abbreviates several options: the strings are all read before any
    option is taken. *)
Theorem help_first rest w :
  is_Some (arg_strings_pattern rest) →
  parse_args ("--help" :: rest) w = (Raise (SystemExit 0), add_output [format_help] w).
Proof.
  intros [items Hitems]. unfold parse_args. cbn [arg_strings_pattern].
  change (_parse_optional "--help") with (Optional (Some Help) "--help" None).
  rewrite bool_decide_eq_false_2 by done. rewrite Hitems. cbn [fmap option_fmap option_map].
  rewrite st_bind_unfold, consume_flag by done. cbn [take_action].
  by rewrite st_bind_unfold, st_bind_unfold, print_help_run.
Qed.
End cli_properties.

(** The properties above, on the examples. *)

Lemma parse_args_argv_of_witness :
  @parse_args demo_help (argv_of (mkArgs (Value "--") EmptyList true false false)) idle_world
  = (Ok (set_vid (stored_vid (Value "--")) (mkArgs (Value "--") EmptyList true false false)),
     idle_world).
Proof.
  apply (@parse_args_argv_of demo_help (mkArgs (Value "--") EmptyList true false false)
           idle_world).
  exact I.
Defined.

Lemma parse_args_roundtrip_witness :
  @parse_args demo_help (argv_of qa_detail_args) idle_world = (Ok qa_detail_args, idle_world).
Proof.
  apply (@parse_args_roundtrip demo_help qa_detail_args idle_world); [|done].
  refine (bool_decide_unpack _ _). vm_compute. exact I.
Defined.

Lemma help_first_witness :
  @parse_args demo_help ["--help"; "--vid"; "--bogus"] idle_world
  = (Raise (SystemExit 0), add_output [@format_help demo_help] idle_world).
Proof. apply (@help_first demo_help ["--vid"; "--bogus"] idle_world). by eexists. Defined.
